(** * libzmf: a shallow embedding of the Zoner drawing / bitmap reader

    The development follows the layout of the C++ sources:
    - [libzmf_utils]   byte readers over the librevenge input stream interface,
    - [ZMFTypes]       geometry and style values,
    - [BMIHeader], [BMIParser]   the companion bitmap format,
    - [ZMFCollector]   the start/end discipline towards the drawing sink,
    - [ZMF4Header], [ZMF4Parser] the version 4/5 drawing parser,
    - [ZMFDocument]    the public entry point.

    Conventions.  A [uintN_t] is a [Z] in [0, 2^N) with the wrap-around written
    out ([u8], [u16], [u32]); [long] and [unsigned long] are 64 bit wide and are
    kept as unbounded [Z] (stream positions stay far below 2^63).  A [double] is
    an IEEE binary64 value ([PrimFloat.float]).  Code that throws, aborts or may
    loop runs in the monad [M]: a state transformer whose result is a value, a
    C++ exception, or a halt (fuel exhausted, undefined behaviour). *)

From Stdlib Require Import ZArith List Bool Lia String PrimFloat Uint63.
From stdpp Require Import gmap.
Import ListNotations.

Local Open Scope Z_scope.

(* ------------------------------------------------------------------------- *)
(** ** Fixed-width integers *)

Definition u8 (z : Z) : Z := z mod 2 ^ 8.
Definition u16 (z : Z) : Z := z mod 2 ^ 16.
Definition u32 (z : Z) : Z := z mod 2 ^ 32.

(** [(int32_t) v] for a [uint32_t] value [v]. *)
Definition s32 (z : Z) : Z := if u32 z <? 2 ^ 31 then u32 z else u32 z - 2 ^ 32.

(** [#define NO_ID 0xffffffff] *)
Definition NO_ID : Z := 0xffffffff.

(* ------------------------------------------------------------------------- *)
(** ** Exceptions and the parser monad *)

(** The exception types of [libzmf_utils.h] ([EndOfStreamException],
    [GenericException]) and of [libzmf_utils.cpp] ([SeekFailedException]). *)
Inductive exception : Type :=
| EndOfStreamException
| GenericException
| SeekFailedException.

(** Ways a run stops that are not C++ exceptions: the model ran out of fuel in a
    [while] loop, the code dereferenced an empty [boost::optional] (an assertion
    failure, undefined behaviour when assertions are off), or it indexed a
    vector past its end. *)
Inductive halt : Type :=
| OutOfFuel
| EmptyOptionalAccess
| OutOfBounds.

Inductive outcome (A : Type) : Type :=
| Ret (a : A)
| Throw (e : exception)
| Halt (h : halt).

Arguments Ret {A} a.
Arguments Throw {A} e.
Arguments Halt {A} h.

(** The state survives an exception: stack unwinding runs destructors on it. *)
Definition M (St A : Type) : Type := St -> outcome A * St.

Definition ret {St A} (a : A) : M St A := fun s => (Ret a, s).

Definition throw {St A} (e : exception) : M St A := fun s => (Throw e, s).

Definition stop {St A} (h : halt) : M St A := fun s => (Halt h, s).

Definition bind {St A B} (m : M St A) (k : A -> M St B) : M St B :=
  fun s =>
    match m s with
    | (Ret a, s') => k a s'
    | (Throw e, s') => (Throw e, s')
    | (Halt h, s') => (Halt h, s')
    end.

Definition gets {St A} (f : St -> A) : M St A := fun s => (Ret (f s), s).

Definition modify {St} (f : St -> St) : M St unit := fun s => (Ret tt, f s).

Declare Scope zmf_scope.
Delimit Scope zmf_scope with zmf.

Notation "'let*' x ':=' m 'in' k" := (bind m (fun x => k))
  (at level 10, x name, m at level 100, k at level 200) : zmf_scope.
Notation "m ';;;' k" := (bind m (fun _ => k))
  (at level 100, k at level 200, right associativity) : zmf_scope.

Local Open Scope zmf_scope.

(** [try m catch (...) handler]: any C++ exception is caught; a halt is not one. *)
Definition catchAll {St A} (m : M St A) (handler : M St A) : M St A :=
  fun s =>
    match m s with
    | (Throw _, s') => handler s'
    | r => r
    end.

(** A computation that does not touch the state. *)
Definition lift {St A} (o : outcome A) : M St A := fun s => (o, s).

(** Sequencing of state-free computations. *)
Definition andThen {A B} (o : outcome A) (k : A -> outcome B) : outcome B :=
  match o with
  | Ret a => k a
  | Throw e => Throw e
  | Halt h => Halt h
  end.

(** [v[i]] *)
Definition at_ {A} (v : list A) (i : Z) : outcome A :=
  match nth_error v (Z.to_nat i) with
  | Some x => Ret x
  | None => Halt OutOfBounds
  end.

(** Run [m] on a component of the state. *)
Definition zoom {St T A} (get : St -> T) (set : T -> St -> St) (m : M T A) : M St A :=
  fun s => let (r, t) := m (get s) in (r, set t s).

(** [for (auto &x : xs) body(x)], collecting the updated elements. *)
Fixpoint forEach {St A B} (body : A -> M St B) (xs : list A) : M St (list B) :=
  match xs with
  | [] => ret []
  | x :: xs' => let* y := body x in let* ys := forEach body xs' in ret (y :: ys)
  end.

(** [for (i = 0; i < n; i++) body()], collecting the results. *)
Fixpoint repeatM {St A} (n : nat) (body : M St A) : M St (list A) :=
  match n with
  | O => ret []
  | S n' => let* y := body in let* ys := repeatM n' body in ret (y :: ys)
  end.

(* ------------------------------------------------------------------------- *)
(** ** The input stream interface (librevenge's [RVNGInputStream]) *)

Inductive RVNG_SEEK_TYPE : Type := RVNG_SEEK_CUR | RVNG_SEEK_SET | RVNG_SEEK_END.

(** The stream is an external collaborator; the library only sees this
    interface.  [rvng_read s n] gives the bytes delivered (their number is
    [numBytesRead]; a null result is the empty list) and the stream afterwards;
    [rvng_seek] gives the status ([0] on success) and the stream afterwards. *)
Class RVNGInputStream (S : Type) : Type := {
  rvng_isStructured : S -> bool;
  rvng_existsSubStream : S -> string -> bool;
  rvng_getSubStreamByName : S -> string -> option S;
  rvng_read : S -> Z -> list Z * S;
  rvng_seek : S -> Z -> RVNG_SEEK_TYPE -> Z * S;
  rvng_tell : S -> Z;
  rvng_isEnd : S -> bool
}.

(** An in-memory stream: the bytes, the cursor, and whether seeking relative to
    the end is supported (some streams cannot do it, see [getLength]).  Reads
    deliver what is left when less than [n] bytes remain; a seek outside
    [0, size] clamps the cursor and reports failure. *)
Record MemStream : Type := mkMemStream {
  ms_data : list Z;
  ms_pos : Z;
  ms_seekEnd : bool
}.

Definition ms_size (s : MemStream) : Z := Z.of_nat (length (ms_data s)).

Definition ms_moveTo (s : MemStream) (target : Z) : Z * MemStream :=
  if target <? 0 then (-1, mkMemStream (ms_data s) 0 (ms_seekEnd s))
  else if ms_size s <? target then (-1, mkMemStream (ms_data s) (ms_size s) (ms_seekEnd s))
  else (0, mkMemStream (ms_data s) target (ms_seekEnd s)).

Definition ms_seek (s : MemStream) (offset : Z) (whence : RVNG_SEEK_TYPE) : Z * MemStream :=
  match whence with
  | RVNG_SEEK_CUR => ms_moveTo s (ms_pos s + offset)
  | RVNG_SEEK_SET => ms_moveTo s offset
  | RVNG_SEEK_END => if ms_seekEnd s then ms_moveTo s (ms_size s + offset) else (-1, s)
  end.

Definition ms_read (s : MemStream) (n : Z) : list Z * MemStream :=
  let bytes := firstn (Z.to_nat n) (skipn (Z.to_nat (ms_pos s)) (ms_data s)) in
  (bytes, mkMemStream (ms_data s) (ms_pos s + Z.of_nat (length bytes)) (ms_seekEnd s)).

#[export] Instance MemStream_input : RVNGInputStream MemStream := {
  rvng_isStructured _ := false;
  rvng_existsSubStream _ _ := false;
  rvng_getSubStreamByName _ _ := None;
  rvng_read := ms_read;
  rvng_seek := ms_seek;
  rvng_tell := ms_pos;
  rvng_isEnd s := ms_size s <=? ms_pos s
}.

(** A stream over [data], positioned at its start. *)
Definition memStream (data : list Z) : MemStream := mkMemStream data 0 true.

(* ------------------------------------------------------------------------- *)
(** ** libzmf_utils: typed little-endian reads, seeks, length *)

Section Utils.
Context {S : Type} {IS : RVNGInputStream S}.

(** [checkStream]: the stream pointer is a stream here, so only the
    end-of-stream half of the test remains. *)
Definition checkStream : M S unit :=
  fun s => if rvng_isEnd s then (Throw EndOfStreamException, s) else (Ret tt, s).

(** [input->read(n, numBytesRead)] followed by the test
    [p && numBytesRead == n] of the typed readers. *)
Definition readExact (n : Z) : M S (list Z) :=
  fun s =>
    let (bytes, s') := rvng_read s n in
    if Z.of_nat (length bytes) =? n then (Ret bytes, s') else (Throw EndOfStreamException, s').

(** Little-endian value of a byte block. *)
Fixpoint le_value (bytes : list Z) : Z :=
  match bytes with
  | [] => 0
  | b :: rest => Z.lor b (Z.shiftl (le_value rest) 8)
  end.

Definition readU8 : M S Z := checkStream ;;; let* p := readExact 1 in ret (le_value p).

Definition readU16 : M S Z := checkStream ;;; let* p := readExact 2 in ret (le_value p).

Definition readU32 : M S Z := checkStream ;;; let* p := readExact 4 in ret (le_value p).

Definition readU64 : M S Z := checkStream ;;; let* p := readExact 8 in ret (le_value p).

Definition readS32 : M S Z := let* v := readU32 in ret (s32 v).

Definition readNBytes (numBytes : Z) : M S (list Z) := checkStream ;;; readExact numBytes.

Definition seekRelative (pos : Z) : M S unit :=
  fun s =>
    let (status, s') := rvng_seek s pos RVNG_SEEK_CUR in
    if status =? 0 then (Ret tt, s') else (Throw SeekFailedException, s').

Definition seek (pos : Z) : M S unit :=
  fun s =>
    let (status, s') := rvng_seek s pos RVNG_SEEK_SET in
    if status =? 0 then (Ret tt, s') else (Throw SeekFailedException, s').

Definition skip (numBytes : Z) : M S unit := checkStream ;;; seekRelative numBytes.

Definition tell : M S Z := gets rvng_tell.

Definition isEnd : M S bool := gets rvng_isEnd.

(** [while (!input->isEnd()) readU8(input);] *)
Fixpoint readToEnd (fuel : nat) : M S unit :=
  fun s =>
    if rvng_isEnd s then (Ret tt, s)
    else match fuel with
         | O => (Halt OutOfFuel, s)
         | Datatypes.S fuel' => (readU8 ;;; readToEnd fuel') s
         end.

(** The step of [getLength] that moves the cursor to the end: by a seek
    relative to the end, or the harder way when that seek is refused. *)
Definition seekToEnd (fuel : nat) : M S unit :=
  fun s =>
    let (status, s') := rvng_seek s 0 RVNG_SEEK_END in
    if status =? 0 then (Ret tt, s') else readToEnd fuel s'.

Definition getLength (fuel : nat) : M S Z :=
  checkStream ;;;
  let* begin := tell in
  seekToEnd fuel ;;;
  let* end_ := tell in
  if end_ <? begin then throw SeekFailedException
  else seek begin ;;; ret (end_ - begin).

End Utils.

(* ------------------------------------------------------------------------- *)
(** ** External libraries

    What the sources call in libm, zlib, libpng and ICU, and the one binary32
    operation they use, are taken as given. *)

Definition double : Type := float.

Class Externals : Type := {
  (** libm *)
  libm_atan2 : double -> double -> double;
  libm_cos : double -> double;
  libm_sin : double -> double;
  libm_hypot : double -> double -> double;
  (** [float / unsigned], rounded to binary32 *)
  f32_div : double -> Z -> double;
  (** zlib: inflate one block with a fresh state ([None]: an error, or no output) *)
  zlib_inflate : list Z -> option (list Z);
  (** libpng: encode [width] x [height] RGBA rows ([None]: the writer failed) *)
  png_encode : Z -> Z -> list (list Z) -> option (list Z);
  (** ICU: the code points [ucnv_getNextUChar] converts a UTF-16LE byte
      sequence to, one after the other *)
  icu_utf16le_code_points : list Z -> list Z
}.

(* ------------------------------------------------------------------------- *)
(** ** libzmf_utils: numbers *)

Local Open Scope float_scope.
Set Warnings "-inexact-float".

(** The [double] value of an integer of at most 63 bits. *)
Definition double_of_Z (z : Z) : double :=
  if (z <? 0)%Z then - of_uint63 (Uint63.of_Z (- z)) else of_uint63 (Uint63.of_Z z).

(** [std::memcpy(&f, &u, sizeof(f))]: the value of the binary32 pattern [u],
    widened (exactly) to a [double]; [ldshiftexp f e] is [f * 2^(e - 2101)]. *)
Definition float_of_bits (u : Z) : double :=
  let sign := Z.testbit u 31 in
  let e := Z.land (Z.shiftr u 23) 0xff in
  let frac := Z.land u 0x7fffff in
  let magnitude :=
    if (e =? 255)%Z then (if (frac =? 0)%Z then infinity else nan)
    else if (e =? 0)%Z then ldshiftexp (double_of_Z frac) (Uint63.of_Z (2101 - 149))
    else ldshiftexp (double_of_Z (frac + 2 ^ 23)) (Uint63.of_Z (2101 + e - 150)) in
  if sign then - magnitude else magnitude.

Definition um2in (micrometers : Z) : double := double_of_Z micrometers / 1000 / 25.4.

Definition ZMF_EPSILON : double := 1E-6.
Definition ZMF_ALMOST_ZERO (m : double) : bool := abs m <=? ZMF_EPSILON.

(** [boost::math::double_constants::pi] and [two_pi]. *)
Definition pi : double := 0x1.921fb54442d18p+1.
Definition two_pi : double := 0x1.921fb54442d18p+2.

(** [_appendUCS4]: the bytes the character adds to the string.  The buffer is
    appended as a C string, so it ends at its first zero byte. *)
Definition appendUCS4 (ucs4Character : Z) : list Z :=
  let '(first, len) :=
    if (ucs4Character <? 0x80)%Z then (0, 1)%Z
    else if (ucs4Character <? 0x800)%Z then (0xc0, 2)%Z
    else if (ucs4Character <? 0x10000)%Z then (0xe0, 3)%Z
    else if (ucs4Character <? 0x200000)%Z then (0xf0, 4)%Z
    else if (ucs4Character <? 0x4000000)%Z then (0xf8, 5)%Z
    else (0xfc, 6)%Z in
  let tail := map (fun k => Z.lor (Z.land (Z.shiftr ucs4Character (6 * Z.of_nat k)) 0x3f) 0x80)
                  (rev (seq 0 (Z.to_nat (len - 1)))) in
  let head := Z.lor (Z.land (Z.shiftr ucs4Character (6 * (len - 1))) 0xff) first in
  let fix cstring (bytes : list Z) : list Z :=
    match bytes with
    | [] => []
    | b :: rest => if (b =? 0)%Z then [] else b :: cstring rest
    end in
  cstring (head :: tail).

(** [bytesToBitset<numBytes>]: bit [8 i + j] of the set is bit [j] of byte [i]. *)
Fixpoint bytesToBitset (data : list Z) : Z :=
  match data with
  | [] => 0%Z
  | cur :: rest => Z.lor (Z.land cur 0xff) (Z.shiftl (bytesToBitset rest) 8)
  end.

(* ------------------------------------------------------------------------- *)
(** ** ZMFTypes *)

Record Point : Type := mkPoint { px : double; py : double }.

Arguments mkPoint (px py)%_float.

Definition Point_default : Point := mkPoint 0 0.

Definition Point_move (p : Point) (dx dy : double) : Point := mkPoint (px p + dx) (py p + dy).

Record BoundingBox : Type := mkBoundingBox {
  m_points : list Point;
  m_width : double;
  m_height : double;
  m_center : Point;
  m_rotation : double;
  m_p1Quadrant : Z;
  m_p2Quadrant : Z;
  m_mirrorHorizontal : bool;
  m_mirrorVertical : bool
}.

Arguments mkBoundingBox m_points (m_width m_height)%_float m_center m_rotation%_float
  (m_p1Quadrant m_p2Quadrant)%_Z (m_mirrorHorizontal m_mirrorVertical)%_bool.

Section Geometry.
Context {E : Externals}.

Definition Point_rotate (p : Point) (rotation : double) (center : Point) : Point :=
  let rotatedX :=
    (px p - px center) * libm_cos rotation - (py p - py center) * libm_sin rotation + px center in
  let rotatedY :=
    (py p - py center) * libm_cos rotation + (px p - px center) * libm_sin rotation + py center in
  mkPoint rotatedX rotatedY.

Definition Point_distance (p p2 : Point) : double := libm_hypot (px p2 - px p) (py p2 - py p).

(** [BoundingBox::quadrant], relative to the centre. *)
Definition quadrant (center p : Point) : Z :=
  if px center <? px p
  then (if py p <? py center then 1%Z else 4%Z)
  else (if py p <? py center then 2%Z else 3%Z).

(** The constructor [BoundingBox::BoundingBox(points_)]. *)
Definition BoundingBox_new (points_ : list Point) : outcome BoundingBox :=
  match points_ with
  | [p0; p1; p2; p3] =>
      let center := mkPoint ((px p0 + px p2) / 2) ((py p0 + py p2) / 2) in
      let rotation0 := libm_atan2 (py p1 - py p0) (px p1 - px p0) in
      let rotation1 := if rotation0 <? 0 then rotation0 + two_pi else rotation0 in
      let original (p : Point) : Point :=
        if ZMF_ALMOST_ZERO rotation1 then p else Point_rotate p (- rotation1) center in
      let dist1 := Point_distance p0 p1 in
      let dist2 := Point_distance p0 p3 in
      let wide :=
        abs (px (original p0) - px (original p3)) <? abs (px (original p0) - px (original p1)) in
      let q1 := quadrant center (original p0) in
      let q2 := quadrant center (original p1) in
      let rotation2 := if ((q1 =? 1) || (q1 =? 4))%Z then rotation1 - pi else rotation1 in
      let rotation3 := if rotation2 <? 0 then rotation2 + two_pi else rotation2 in
      Ret {| m_points := points_;
             m_width := if wide then dist1 else dist2;
             m_height := if wide then dist2 else dist1;
             m_center := center;
             m_rotation := rotation3;
             m_p1Quadrant := q1;
             m_p2Quadrant := q2;
             m_mirrorHorizontal := ((q1 =? 1) || (q1 =? 4))%Z;
             m_mirrorVertical := ((q1 =? 3) || (q1 =? 4))%Z |}
  | _ => Throw GenericException
  end.

Definition BoundingBox_topLeft (b : BoundingBox) : Point :=
  Point_move (m_center b) (- m_width b / 2) (- m_height b / 2).

End Geometry.

Local Close Scope float_scope.

(** The remaining value types of [ZMFTypes.h].  Field names carry the name of
    their struct as a prefix; a [librevenge::RVNGString] or [RVNGBinaryData] is
    its byte sequence; a [boost::optional] is an [option]; an [ArrowPtr] is the
    arrow it points to, if any (arrows are not modified once stored). *)

Inductive CurveType : Type := LINE | BEZIER_CURVE.

Record Curve : Type := mkCurve {
  curve_points : list Point;
  curve_sectionTypes : list CurveType;
  curve_closed : bool
}.

Definition Curve_default : Curve := mkCurve [] [] false.

Record Color : Type := mkColor { red : Z; green : Z; blue : Z }.

Definition Color_default : Color := mkColor 0 0 0.

Inductive LineCapType : Type := CAP_BUTT | CAP_FLAT | CAP_ROUND | CAP_POINTED.

Inductive LineJoinType : Type := JOIN_MITER | JOIN_ROUND | JOIN_BEVEL.

Record Arrow : Type := mkArrow { arrow_curves : list Curve; arrow_lineEndX : double }.

Definition ArrowPtr : Type := option Arrow.

(** [dashPattern] and [dashDistance] are [double]s in the source; they only
    ever hold whole numbers converted from [int], kept here as integers. *)
Record Pen : Type := mkPen {
  pen_color : Color;
  pen_width : double;
  pen_lineCapType : LineCapType;
  pen_lineJoinType : LineJoinType;
  pen_dashPattern : list Z;
  pen_dashDistance : Z;
  pen_startArrow : ArrowPtr;
  pen_endArrow : ArrowPtr;
  pen_isInvisible : bool
}.

Definition Pen_new (c : Color) : Pen :=
  mkPen c 0%float CAP_BUTT JOIN_MITER [] 0 None None false.

Definition Pen_default : Pen := Pen_new Color_default.

Record GradientStop : Type := mkGradientStop { stop_color : Color; stop_offset : double }.

Inductive GradientType : Type :=
| GRADIENT_LINEAR | GRADIENT_RADIAL | GRADIENT_CONICAL
| GRADIENT_CROSS | GRADIENT_RECTANGULAR | GRADIENT_FLEXIBLE.

Record Gradient : Type := mkGradient {
  gradient_type : GradientType;
  gradient_stops : list GradientStop;
  gradient_angle : double;
  gradient_center : Point
}.

Definition Gradient_default : Gradient := mkGradient GRADIENT_LINEAR [] 0%float (mkPoint 0.5 0.5).

Record Image : Type := mkImage { image_width : Z; image_height : Z; image_data : list Z }.

Definition Image_default : Image := mkImage 0 0 [].

Record ImageFill : Type := mkImageFill {
  imageFill_image : Image;
  imageFill_tile : bool;
  imageFill_tileWidth : double;
  imageFill_tileHeight : double
}.

(** [typedef boost::variant<Color, Gradient, ImageFill> Fill] *)
Inductive Fill : Type :=
| FillColor (c : Color)
| FillGradient (g : Gradient)
| FillImage (i : ImageFill).

Record Transparency : Type := mkTransparency { transparency_color : Color }.

Record Shadow : Type := mkShadow {
  shadow_offset : Point;
  shadow_angle : double;
  shadow_opacity : double;
  shadow_color : Color
}.

Definition Shadow_default : Shadow := mkShadow Point_default 0%float 1%float Color_default.

Record Style : Type := mkStyle {
  style_pen : option Pen;
  style_fill : option Fill;
  style_transparency : option Transparency;
  style_shadow : option Shadow
}.

Definition Style_default : Style := mkStyle None None None None.

Record Font : Type := mkFont {
  font_name : list Z;
  font_size : double;
  font_isBold : bool;
  font_isItalic : bool;
  font_fill : option Fill;
  font_outline : option Pen
}.

(** ["Arial"], 24pt, black. *)
Definition Font_default : Font :=
  mkFont [65; 114; 105; 97; 108] 24%float false false (Some (FillColor (mkColor 0 0 0))) None.

Record Span : Type := mkSpan { span_text : list Z; span_length : Z; span_font : Font }.

Definition Span_default : Span := mkSpan [] 0 Font_default.

Inductive HorizontalAlignment : Type :=
| ALIGN_LEFT | ALIGN_RIGHT | ALIGN_BLOCK | ALIGN_CENTER | ALIGN_FULL.

Inductive VerticalAlignment : Type := ALIGN_TOP | ALIGN_MIDDLE | ALIGN_BOTTOM.

Record ParagraphStyle : Type := mkParagraphStyle {
  parStyle_lineSpacing : double;
  parStyle_alignment : HorizontalAlignment;
  parStyle_font : Font
}.

Definition ParagraphStyle_default : ParagraphStyle :=
  mkParagraphStyle 1.2%float ALIGN_LEFT Font_default.

Record Paragraph : Type := mkParagraph {
  paragraph_spans : list Span;
  paragraph_style : ParagraphStyle
}.

Definition Paragraph_default : Paragraph := mkParagraph [] ParagraphStyle_default.

Record Text : Type := mkText { text_paragraphs : list Paragraph }.

Definition Text_default : Text := mkText [].

Record Cell : Type := mkCell {
  cell_text : Text;
  cell_fill : option Fill;
  cell_leftBorder : option Pen;
  cell_rightBorder : option Pen;
  cell_topBorder : option Pen;
  cell_bottomBorder : option Pen
}.

Definition Cell_default : Cell := mkCell Text_default None None None None None.

Record Row : Type := mkRow { row_cells : list Cell; row_height : double }.

Record Column : Type := mkColumn { column_width : double }.

Record Table : Type := mkTable {
  table_rows : list Row;
  table_columns : list Column;
  table_width : double;
  table_height : double;
  table_topLeftPoint : Point
}.

Record ZMFPageSettings : Type := mkPageSettings {
  page_width : double;
  page_height : double;
  page_leftOffset : double;
  page_topOffset : double;
  page_color : Color
}.

Definition ZMFPageSettings_default : ZMFPageSettings :=
  mkPageSettings 0%float 0%float 0%float 0%float Color_default.

(* ------------------------------------------------------------------------- *)
(** ** BMITypes, BMIHeader *)

Inductive BMIStreamType : Type := BMI_UNKNOWN | BMI_BITMAP | BMI_END_OF_FILE.

Record BMIOffset : Type := mkBMIOffset {
  offset_type : BMIStreamType;
  offset_start : Z;
  offset_end : Z
}.

Definition BMIStreamType_eqb (a b : BMIStreamType) : bool :=
  match a, b with
  | BMI_UNKNOWN, BMI_UNKNOWN | BMI_BITMAP, BMI_BITMAP | BMI_END_OF_FILE, BMI_END_OF_FILE => true
  | _, _ => false
  end.

(** [operator==] on offsets compares the type and the start. *)
Definition BMIOffset_eqb (lhs rhs : BMIOffset) : bool :=
  BMIStreamType_eqb (offset_type lhs) (offset_type rhs) && (offset_start lhs =? offset_start rhs).

Record ColorBitmap : Type := mkColorBitmap {
  bitmap_width : Z;
  bitmap_height : Z;
  bitmap_data : list Color
}.

Definition ColorBitmap_default : ColorBitmap := mkColorBitmap 0 0 [].

Module BMIHeader.

Record t : Type := mk {
  m_signature : list Z;
  m_size : Z;
  m_startOffset : Z;
  m_width : Z;
  m_height : Z;
  m_isPaletteMode : bool;
  m_colorDepth : Z;
  m_offsets : list BMIOffset
}.

Definition new : t := mk [] 0 0 0 0 false 0 [].

(** ["ZonerBMIa"] *)
Definition signature : list Z := [90; 111; 110; 101; 114; 66; 77; 73; 97].

Definition isSupported (h : t) : bool :=
  bool_decide (m_signature h = signature).

Definition paletteColorCount (h : t) : Z :=
  if m_isPaletteMode h then Z.shiftl 1 (m_colorDepth h) else 0.

(** [std::sort] by start.  For the few records of an offset table the
    library's sort is an insertion sort: the records are taken in file order
    and each is put behind the records before it whose start is not greater,
    so records with the same start stay in file order. *)
Fixpoint insertByStart (off : BMIOffset) (sorted : list BMIOffset) : list BMIOffset :=
  match sorted with
  | [] => [off]
  | o :: rest =>
      if offset_start off <? offset_start o then off :: sorted else o :: insertByStart off rest
  end.

Definition sortByStart (offs : list BMIOffset) : list BMIOffset :=
  fold_left (fun sorted off => insertByStart off sorted) offs [].

(** [std::unique]: an element equal to the last one kept is dropped. *)
Fixpoint uniqueFrom (kept : BMIOffset) (offs : list BMIOffset) : list BMIOffset :=
  match offs with
  | [] => [kept]
  | o :: rest => if BMIOffset_eqb kept o then uniqueFrom kept rest else kept :: uniqueFrom o rest
  end.

Definition unique (offs : list BMIOffset) : list BMIOffset :=
  match offs with
  | [] => []
  | o :: rest => uniqueFrom o rest
  end.

(** [m_offsets[i].end = m_offsets[i + 1].start] for all but the last. *)
Fixpoint linkEnds (offs : list BMIOffset) : list BMIOffset :=
  match offs with
  | o :: ((o' :: _) as rest) =>
      mkBMIOffset (offset_type o) (offset_start o) (offset_start o') :: linkEnds rest
  | _ => offs
  end.

(** [reconcileValue (v1, v2, v3)]: the result, and the three variables
    afterwards. *)
Definition reconcileValue (v1 v2 v3 : Z) : bool * (Z * Z * Z) :=
  if v1 =? v2 then
    (if negb (v2 =? v3) then (true, (v1, v2, v1)) else (true, (v1, v2, v3)))
  else if v1 =? v3 then (true, (v1, v1, v3))
  else if v2 =? v3 then (true, (v2, v2, v3))
  else (false, (v1, v2, v3)).

(** [reconcileWidth (colorWidth, transparencyWidth)]: the result, the header
    and the two arguments afterwards. *)
Definition reconcileWidth (h : t) (colorWidth transparencyWidth : Z) : bool * (t * Z * Z) :=
  let '(ok, (v1, v2, v3)) := reconcileValue (m_width h) colorWidth transparencyWidth in
  (ok, (mk (m_signature h) (m_size h) (m_startOffset h) v1 (m_height h)
           (m_isPaletteMode h) (m_colorDepth h) (m_offsets h), v2, v3)).

Definition reconcileHeight (h : t) (colorHeight transparencyHeight : Z) : bool * (t * Z * Z) :=
  let '(ok, (v1, v2, v3)) := reconcileValue (m_height h) colorHeight transparencyHeight in
  (ok, (mk (m_signature h) (m_size h) (m_startOffset h) (m_width h) v1
           (m_isPaletteMode h) (m_colorDepth h) (m_offsets h), v2, v3)).

Section Load.
Context {S : Type} {IS : RVNGInputStream S}.

(** One record of the offset table: the offset, and the header size it
    announces when it is the end-of-file record. *)
Definition readOffset : M S (BMIOffset * option Z) :=
  let* type := readU16 in
  let* start := readU32 in
  if type =? 0x1 then ret (mkBMIOffset BMI_BITMAP start 0, None)
  else if type =? 0xff then ret (mkBMIOffset BMI_END_OF_FILE start 0, Some start)
  else ret (mkBMIOffset BMI_UNKNOWN start 0, None).

(** [readOffsets (input, offsetCount)]: the new [m_offsets] and [m_size]. *)
Definition readOffsets (h : t) (offsetCount : Z) : M S t :=
  let* records := repeatM (Z.to_nat offsetCount) readOffset in
  let size := fold_left (fun sz r => match snd r with Some v => v | None => sz end)
                records (m_size h) in
  let offsets := linkEnds (unique (sortByStart (m_offsets h ++ map fst records))) in
  ret (mk (m_signature h) size (m_startOffset h) (m_width h) (m_height h)
          (m_isPaletteMode h) (m_colorDepth h) offsets).

(** [load (input)]: the result and the header afterwards. *)
Definition load (h : t) : M S (bool * t) :=
  if (0 <? Z.of_nat (length (m_signature h))) then throw GenericException
  else
    let* startOffset := tell in
    let* sig := readNBytes 9 in
    let* width := readU16 in
    let* height := readU16 in
    let* paletteMode := readU16 in
    let* colorDepth := readU16 in
    let h1 := mk sig (m_size h) (u32 startOffset) width height
                 (negb (paletteMode =? 0)) colorDepth (m_offsets h) in
    if negb ((colorDepth =? 1) || (colorDepth =? 4) || (colorDepth =? 8) || (colorDepth =? 24))
    then ret (false, h1)
    else
      skip 2 ;;;
      let* offsetCount := readU16 in
      if (offsetCount =? 0) || (6 <? offsetCount) then ret (false, h1)
      else
        (if m_isPaletteMode h1 then skip (u32 (4 * paletteColorCount h1)) else ret tt) ;;;
        let* h2 := readOffsets h1 offsetCount in
        ret (true, h2).

End Load.

End BMIHeader.

(* ------------------------------------------------------------------------- *)
(** ** BMIParser *)

Module BMIParser.

(** [struct BMIParser::ColorBitmapHeader] *)
Record ColorBitmapHeader : Type := mkColorBitmapHeader {
  m_width : Z;
  m_height : Z;
  m_colorDepth : Z;
  m_startOffset : Z;
  m_endOffset : Z
}.

(** [unsigned shift = 8 - std::min<uint16_t>(hdr.m_colorDepth, 8)] *)
Definition pixelShift (colorDepth : Z) : Z := 8 - Z.min (u16 colorDepth) 8.

(** [unsigned mask = (0xff >> shift) << shift] *)
Definition pixelMask (colorDepth : Z) : Z :=
  Z.shiftl (Z.shiftr 0xff (pixelShift colorDepth)) (pixelShift colorDepth).

(** [uint8_t index = (indexes & mask) >> shift] *)
Definition paletteIndex (colorDepth indexes : Z) : Z :=
  u8 (Z.shiftr (Z.land indexes (pixelMask colorDepth)) (pixelShift colorDepth)).

(** The [for (j ...)] loop over the indexes packed in one data byte; [n] counts
    the iterations left.  The result is the column reached and the pixels. *)
Fixpoint unpackIndexes (n : nat) (colorDepth width : Z) (colorPalette : list Color)
    (indexes col : Z) (pixels : list Color) : outcome (Z * list Color) :=
  match n with
  | O => Ret (col, pixels)
  | Datatypes.S n' =>
      andThen (at_ colorPalette (paletteIndex colorDepth indexes)) (fun color =>
      let pixels' := pixels ++ [color] in
      let indexes' := u8 (Z.shiftl indexes colorDepth) in
      let col' := col + 1 in
      if col' =? width then Ret (col', pixels')
      else unpackIndexes n' colorDepth width colorPalette indexes' col' pixels')
  end.

(** The [while (col < bitmap.width)] loop of one row; the result is the data
    index reached and the pixels. *)
Fixpoint readRow (fuel : nat) (colorDepth width : Z) (colorPalette : list Color)
    (data : list Z) (i col : Z) (pixels : list Color) : outcome (Z * list Color) :=
  if col <? width then
    match fuel with
    | O => Halt OutOfFuel
    | Datatypes.S fuel' =>
        if colorDepth =? 24 then
          andThen (at_ data i) (fun b =>
          andThen (at_ data (u32 (i + 1))) (fun g =>
          andThen (at_ data (u32 (i + 2))) (fun r =>
          readRow fuel' colorDepth width colorPalette data (u32 (i + 3)) (col + 1)
                  (pixels ++ [mkColor r g b]))))
        else
          andThen (at_ data i) (fun indexes =>
          andThen (unpackIndexes (Z.to_nat (8 / colorDepth)) colorDepth width colorPalette
                                 indexes col pixels) (fun r =>
          readRow fuel' colorDepth width colorPalette data (u32 (i + 1)) (fst r) (snd r)))
    end
  else Ret (i, pixels).

(** The [for (row ...)] loop; [rows] counts the rows left. *)
Fixpoint readRows (rows : nat) (colorDepth width padding : Z) (colorPalette : list Color)
    (data : list Z) (i : Z) (pixels : list Color) : outcome (list Color) :=
  match rows with
  | O => Ret pixels
  | Datatypes.S rows' =>
      andThen (readRow (Z.to_nat width) colorDepth width colorPalette data i 0 pixels) (fun r =>
      readRows rows' colorDepth width padding colorPalette data (u32 (fst r + padding)) (snd r))
  end.

(** [while ((lineWidth + padding) % 4 != 0) padding++] *)
Definition linePadding (lineWidth : Z) : Z := (4 - lineWidth mod 4) mod 4.

(** The pixel assembly of [readColorBitmap], after palette and data are read. *)
Definition assemblePixels (hdr : ColorBitmapHeader) (colorPalette : list Color) (data : list Z)
  : outcome ColorBitmap :=
  let lineBitCount := u32 (m_width hdr * m_colorDepth hdr) in
  let lineWidth0 := if lineBitCount mod 8 =? 0 then lineBitCount / 8 else lineBitCount / 8 + 1 in
  let padding := linePadding lineWidth0 in
  let lineWidth := u32 (lineWidth0 + padding) in
  if Z.of_nat (length data) <? u32 (m_height hdr * lineWidth) then Ret ColorBitmap_default
  else
    andThen (readRows (Z.to_nat (m_height hdr)) (m_colorDepth hdr) (m_width hdr) padding
                      colorPalette data 0 []) (fun pixels =>
    Ret (mkColorBitmap (m_width hdr) (m_height hdr) pixels)).

(** [PNGWriter::writeData]: the RGBA rows handed to libpng. *)
Definition pngPixel (bitmap transparencyBitmap : ColorBitmap) (ind : Z) : outcome (list Z) :=
  andThen (at_ (bitmap_data bitmap) ind) (fun color =>
  match bitmap_data transparencyBitmap with
  | [] => Ret [red color; green color; blue color; 255]
  | _ =>
      andThen (at_ (bitmap_data transparencyBitmap) ind) (fun t =>
      Ret [red color; green color; blue color; if red t =? 0 then 255 else 0])
  end).

Fixpoint mapOutcome {A B} (f : A -> outcome B) (xs : list A) : outcome (list B) :=
  match xs with
  | [] => Ret []
  | x :: xs' => andThen (f x) (fun y => andThen (mapOutcome f xs') (fun ys => Ret (y :: ys)))
  end.

Definition pngRow (bitmap transparencyBitmap : ColorBitmap) (r : Z) : outcome (list Z) :=
  andThen (mapOutcome (fun c => pngPixel bitmap transparencyBitmap
                                  (u32 (u32 (r * bitmap_width bitmap) + c)))
                      (map Z.of_nat (seq 0 (Z.to_nat (bitmap_width bitmap))))) (fun pixels =>
  Ret (concat pixels)).

Section Parser.
Context {S : Type} {IS : RVNGInputStream S} {E : Externals}.

(** [makePng]: the encoded image, or [None] when the writer reported an error. *)
Definition makePng (bitmap transparencyBitmap : ColorBitmap) : outcome (option (list Z)) :=
  andThen (mapOutcome (pngRow bitmap transparencyBitmap)
                      (map Z.of_nat (seq 0 (Z.to_nat (bitmap_height bitmap))))) (fun rows =>
  Ret (png_encode (bitmap_width bitmap) (bitmap_height bitmap) rows)).

(** [ColorBitmapHeader::parse (input, header, offset)] *)
Definition ColorBitmapHeader_parse (header : BMIHeader.t) (offset : BMIOffset)
  : M S ColorBitmapHeader :=
  seek (u32 (BMIHeader.m_startOffset header + offset_start offset)) ;;;
  let endOffset := u32 (BMIHeader.m_startOffset header + offset_end offset) in
  let* width := readU16 in
  let* height := readU16 in
  let* colorDepth := readU16 in
  let depth := if colorDepth <=? 1 then 1 else if colorDepth <=? 4 then 4
               else if colorDepth <=? 8 then 8 else 24 in
  let* pos := tell in
  ret (mkColorBitmapHeader width height depth (u32 (pos + 10)) endOffset).

Definition readColorEntry : M S Color :=
  let* b := readU8 in
  let* g := readU8 in
  let* r := readU8 in
  skip 1 ;;;
  ret (mkColor r g b).

(** [readColorPalette (colorDepth)] *)
Definition readColorPalette (colorDepth : Z) : M S (list Color) :=
  let colorCount := Z.shiftl 1 colorDepth in
  repeatM (Z.to_nat colorCount) readColorEntry.

(** [readData (endOffset)]; [data] is what the blocks so far inflated to. *)
Fixpoint readData (fuel : nat) (endOffset : Z) (data : list Z) : M S (list Z) :=
  let* pos := tell in
  if pos <? endOffset then
    match fuel with
    | O => stop OutOfFuel
    | Datatypes.S fuel' =>
        let* blockSize := readU16 in
        skip 1 ;;;
        let* compressedBlock := readNBytes blockSize in
        match zlib_inflate compressedBlock with
        | Some out => readData fuel' endOffset (data ++ out)
        | None => ret []
        end
    end
  else ret data.

(** [readColorBitmap (hdr)] *)
Definition readColorBitmap (fuel : nat) (hdr : ColorBitmapHeader) : M S ColorBitmap :=
  seek (m_startOffset hdr) ;;;
  let* colorPalette :=
    (if m_colorDepth hdr <? 24 then readColorPalette (m_colorDepth hdr) else ret []) in
  let* data := readData fuel (m_endOffset hdr) [] in
  lift (assemblePixels hdr colorPalette data).

(** [reconcileDimensions (colorHeader, transparencyHeader)]: the result, the
    file header and the two bitmap headers afterwards. *)
Definition reconcileDimensions (header : BMIHeader.t)
    (colorHeader transparencyHeader : ColorBitmapHeader)
  : bool * (BMIHeader.t * ColorBitmapHeader * ColorBitmapHeader) :=
  let '(okW, (h1, cw, tw)) :=
    BMIHeader.reconcileWidth header (m_width colorHeader) (m_width transparencyHeader) in
  let c1 := mkColorBitmapHeader cw (m_height colorHeader) (m_colorDepth colorHeader)
              (m_startOffset colorHeader) (m_endOffset colorHeader) in
  let t1 := mkColorBitmapHeader tw (m_height transparencyHeader) (m_colorDepth transparencyHeader)
              (m_startOffset transparencyHeader) (m_endOffset transparencyHeader) in
  if okW then
    let '(okH, (h2, ch, th)) := BMIHeader.reconcileHeight h1 (m_height c1) (m_height t1) in
    (okH, (h2,
           mkColorBitmapHeader (m_width c1) ch (m_colorDepth c1) (m_startOffset c1) (m_endOffset c1),
           mkColorBitmapHeader (m_width t1) th (m_colorDepth t1) (m_startOffset t1) (m_endOffset t1)))
  else (false, (h1, c1, t1)).

(** The loop of [readImage] over the offsets: the first bitmap offset gives the
    colour bitmap header, the second the transparency bitmap header. *)
Fixpoint parseBitmapHeaders (header : BMIHeader.t) (offsets : list BMIOffset)
    (bitmapHeader transparencyBitmapHeader : option ColorBitmapHeader)
  : M S (option ColorBitmapHeader * option ColorBitmapHeader) :=
  match offsets with
  | [] => ret (bitmapHeader, transparencyBitmapHeader)
  | offset :: rest =>
      match offset_type offset with
      | BMI_BITMAP =>
          match bitmapHeader, transparencyBitmapHeader with
          | None, _ =>
              let* hdr := ColorBitmapHeader_parse header offset in
              parseBitmapHeaders header rest (Some hdr) transparencyBitmapHeader
          | Some _, None =>
              let* hdr := ColorBitmapHeader_parse header offset in
              parseBitmapHeaders header rest bitmapHeader (Some hdr)
          | Some _, Some _ => parseBitmapHeaders header rest bitmapHeader transparencyBitmapHeader
          end
      | _ => parseBitmapHeaders header rest bitmapHeader transparencyBitmapHeader
      end
  end.

(** The part of [readImage] that follows the reading of the bitmap headers. *)
Definition decodeImage (fuel : nat) (header : BMIHeader.t)
    (bitmapHeader : ColorBitmapHeader) (transparencyBitmapHeader : option ColorBitmapHeader)
  : M S (Image * BMIHeader.t) :=
  let* bitmap := readColorBitmap fuel bitmapHeader in
  let* transparencyBitmap :=
    match transparencyBitmapHeader with
    | Some th => readColorBitmap fuel th
    | None => ret ColorBitmap_default
    end in
  if (bitmap_width bitmap =? 0) || (bitmap_height bitmap =? 0) then ret (Image_default, header)
  else
    let* png := lift (makePng bitmap transparencyBitmap) in
    match png with
    | Some data => ret (mkImage (bitmap_width bitmap) (bitmap_height bitmap) data, header)
    | None => ret (Image_default, header)
    end.

(** [readImage ()]: the image, and [m_header] afterwards. *)
Definition readImage (fuel : nat) (m_header : BMIHeader.t) : M S (Image * BMIHeader.t) :=
  let* loaded := BMIHeader.load m_header in
  let header := snd loaded in
  if negb (fst loaded) || negb (BMIHeader.isSupported header) then ret (Image_default, header)
  else
    let* headers := parseBitmapHeaders header (BMIHeader.m_offsets header) None None in
    match headers with
    | (None, _) => ret (Image_default, header)
    | (Some bitmapHeader, None) => decodeImage fuel header bitmapHeader None
    | (Some bitmapHeader, Some transparencyBitmapHeader) =>
        match reconcileDimensions header bitmapHeader transparencyBitmapHeader with
        | (false, (header', _, _)) => ret (Image_default, header')
        | (true, (header', bitmapHeader', transparencyBitmapHeader')) =>
            decodeImage fuel header' bitmapHeader' (Some transparencyBitmapHeader')
        end
    end.

End Parser.

End BMIParser.

(* ------------------------------------------------------------------------- *)
(** ** The drawing sink and ZMFCollector *)

(** One element of a path property vector: the action and its points ([PathNone]
    is a part without action, appended when a section runs out of points). *)
Inductive PathAction : Type :=
| PathM (p : Point)
| PathL (p : Point)
| PathC (p1 p2 p : Point)
| PathA (rx ry : double) (largeArc : bool) (p : Point)
| PathZ
| PathNone.

(** The calls made on the [librevenge::RVNGDrawingInterface].  A call carries
    the values its property list is computed from (page coordinates already
    taken), not the list itself: the formatting of a value as a property
    ([rad2deg], colour strings, units) is left out. *)
Inductive PainterCall : Type :=
| CallStartDocument
| CallEndDocument
| CallStartPage (pageSettings : ZMFPageSettings)
| CallEndPage
| CallStartLayer
| CallEndLayer
| CallOpenGroup
| CallCloseGroup
| CallSetStyle (style : Style) (noFill : bool)
| CallDrawPath (path : list PathAction)
| CallDrawEllipse (c : Point) (rx ry rotation : double)
| CallDrawGraphicObject (image : list Z) (topLeft : Point) (width height rotation : double)
    (mirrorVertical mirrorHorizontal : bool)
| CallStartTextObject (topLeft : Point) (width height : double) (align : VerticalAlignment)
    (rotation : double)
| CallEndTextObject
| CallOpenParagraph (style : ParagraphStyle)
| CallCloseParagraph
| CallOpenSpan (font : Font)
| CallCloseSpan
| CallInsertText (text : list Z)
| CallInsertSpace
| CallStartTableObject (topLeft : Point) (width height : double) (columns : list Column)
| CallEndTableObject
| CallOpenTableRow (height : double)
| CallCloseTableRow
| CallOpenTableCell (fill : option Fill) (leftBorder rightBorder topBorder bottomBorder : option Pen)
| CallCloseTableCell.

Local Open Scope float_scope.

(** The sections of one curve in [createPath]; [i] is the index of the next
    unused point. *)
Fixpoint createSections (points : list Point) (leftOffset topOffset : double)
    (i : nat) (sectionTypes : list CurveType) : list PathAction :=
  let pt (k : nat) : Point :=
    let p := nth k points Point_default in mkPoint (px p - leftOffset) (py p - topOffset) in
  match sectionTypes with
  | [] => []
  | LINE :: rest =>
      if (length points <=? i)%nat
      then PathNone :: createSections points leftOffset topOffset i rest
      else PathL (pt i) :: createSections points leftOffset topOffset (i + 1) rest
  | BEZIER_CURVE :: rest =>
      if (length points <=? i + 2)%nat
      then PathNone :: createSections points leftOffset topOffset i rest
      else PathC (pt i) (pt (i + 1)%nat) (pt (i + 2)%nat)
             :: createSections points leftOffset topOffset (i + 3) rest
  end.

Definition createCurvePath (leftOffset topOffset : double) (curve : Curve) : list PathAction :=
  match curve_points curve with
  | p0 :: _ :: _ =>
      PathM (mkPoint (px p0 - leftOffset) (py p0 - topOffset))
        :: createSections (curve_points curve) leftOffset topOffset 1 (curve_sectionTypes curve)
        ++ (if curve_closed curve then [PathZ] else [])
  | _ => []
  end.

(** [createPath (curves, leftOffset, topOffset)] *)
Definition createPath (curves : list Curve) (leftOffset topOffset : double) : list PathAction :=
  concat (map (createCurvePath leftOffset topOffset) curves).

Module ZMFCollector.

Record t : Type := mk {
  m_painter : list PainterCall;
  m_pageSettings : ZMFPageSettings;
  m_isDocumentStarted : bool;
  m_isPageStarted : bool;
  m_isLayerStarted : bool;
  m_style : Style
}.

(** The collector over a sink that has received [calls] so far. *)
Definition new (calls : list PainterCall) : t :=
  mk calls ZMFPageSettings_default false false false Style_default.

(** [m_painter->call (...)] *)
Definition paint (calls : list PainterCall) (c : t) : t :=
  mk (m_painter c ++ calls) (m_pageSettings c) (m_isDocumentStarted c) (m_isPageStarted c)
     (m_isLayerStarted c) (m_style c).

Definition startDocument (c : t) : t :=
  if m_isDocumentStarted c then c
  else
    let c1 := paint [CallStartDocument] c in
    mk (m_painter c1) (m_pageSettings c1) true (m_isPageStarted c1) (m_isLayerStarted c1)
       (m_style c1).

Definition endPage (c : t) : t :=
  if negb (m_isPageStarted c) then c
  else
    let c1 := paint [CallEndPage] c in
    mk (m_painter c1) (m_pageSettings c1) (m_isDocumentStarted c1) false (m_isLayerStarted c1)
       (m_style c1).

Definition endDocument (c : t) : t :=
  if negb (m_isDocumentStarted c) then c
  else
    let c1 := if m_isPageStarted c then endPage c else c in
    let c2 := paint [CallEndDocument] c1 in
    mk (m_painter c2) (m_pageSettings c2) false (m_isPageStarted c2) (m_isLayerStarted c2)
       (m_style c2).

Definition endLayer (c : t) : t :=
  if negb (m_isLayerStarted c) then c
  else
    let c1 := paint [CallEndLayer] c in
    mk (m_painter c1) (m_pageSettings c1) (m_isDocumentStarted c1) (m_isPageStarted c1) false
       (m_style c1).

Definition startPage (pageSettings : ZMFPageSettings) (c : t) : t :=
  if m_isPageStarted c then c
  else
    let c1 := if m_isLayerStarted c then endLayer c else c in
    let c2 := paint [CallStartPage pageSettings] c1 in
    mk (m_painter c2) pageSettings (m_isDocumentStarted c2) true (m_isLayerStarted c2)
       (m_style c2).

Definition startLayer (c : t) : t :=
  if m_isLayerStarted c then c
  else
    let c1 := paint [CallStartLayer] c in
    mk (m_painter c1) (m_pageSettings c1) (m_isDocumentStarted c1) (m_isPageStarted c1) true
       (m_style c1).

Definition startGroup (c : t) : t := paint [CallOpenGroup] c.

Definition endGroup (c : t) : t := paint [CallCloseGroup] c.

(** The destructor closes a document that is still open. *)
Definition destroy (c : t) : t := if m_isDocumentStarted c then endDocument c else c.

Definition setStyle (style : Style) (c : t) : t :=
  mk (m_painter c) (m_pageSettings c) (m_isDocumentStarted c) (m_isPageStarted c)
     (m_isLayerStarted c) style.

Definition pageX (c : t) (canvasX : double) : double := canvasX - page_leftOffset (m_pageSettings c).

Definition pageY (c : t) (canvasY : double) : double := canvasY - page_topOffset (m_pageSettings c).

Definition pagePoint (c : t) (p : Point) : Point := mkPoint (pageX c (px p)) (pageY c (py p)).

(** [collectPath (curves)] *)
Definition collectPaths (curves : list Curve) (c : t) : t :=
  paint [CallSetStyle (m_style c) (negb (existsb curve_closed curves));
         CallDrawPath (createPath curves (page_leftOffset (m_pageSettings c))
                                  (page_topOffset (m_pageSettings c)))] c.

(** [collectPath (curve)] *)
Definition collectPath (curve : Curve) (c : t) : t := collectPaths [curve] c.

Definition collectEllipse (center : Point) (rx ry rotation : double) (c : t) : t :=
  paint [CallSetStyle (m_style c) false;
         CallDrawEllipse (pagePoint c center) rx ry rotation] c.

(** [collectText (text)]: the calls for the characters of one span; [curText]
    is the text not yet flushed. *)
Fixpoint spanCalls (chars : list Z) (wasSpace : bool) (curText : list Z) : list PainterCall :=
  let flush (text : list Z) : list PainterCall :=
    match text with [] => [] | _ => [CallInsertText text] end in
  match chars with
  | [] => flush curText
  | ch :: rest =>
      if ((ch =? 13) || (ch =? 10))%Z then spanCalls rest wasSpace curText
      else if (ch =? 32)%Z then
        (if wasSpace then flush curText ++ CallInsertSpace :: spanCalls rest wasSpace []
         else spanCalls rest true (curText ++ [32%Z]))
      else spanCalls rest false (curText ++ [ch])
  end.

Definition textCalls (text : Text) : list PainterCall :=
  concat (map (fun paragraph =>
    [CallOpenParagraph (paragraph_style paragraph)]
    ++ concat (map (fun span =>
         [CallOpenSpan (span_font span)] ++ spanCalls (span_text span) false [] ++ [CallCloseSpan])
         (paragraph_spans paragraph))
    ++ [CallCloseParagraph]) (text_paragraphs text)).

Definition collectTextObject (text : Text) (topLeft : Point) (width height : double)
    (align : VerticalAlignment) (rotation : double) (c : t) : t :=
  paint ([CallStartTextObject (pagePoint c topLeft) width height align rotation]
         ++ textCalls text ++ [CallEndTextObject]) c.

Definition collectTable (table : Table) (c : t) : t :=
  paint ([CallStartTableObject (pagePoint c (table_topLeftPoint table)) (table_width table)
                               (table_height table) (table_columns table)]
         ++ concat (map (fun row =>
              [CallOpenTableRow (row_height row)]
              ++ concat (map (fun cell =>
                   [CallOpenTableCell (cell_fill cell) (cell_leftBorder cell)
                                      (cell_rightBorder cell) (cell_topBorder cell)
                                      (cell_bottomBorder cell)]
                   ++ textCalls (cell_text cell) ++ [CallCloseTableCell])
                   (row_cells row))
              ++ [CallCloseTableRow]) (table_rows table))
         ++ [CallEndTableObject]) c.

Definition collectImage (image : list Z) (topLeft : Point) (width height rotation : double)
    (mirrorHorizontal mirrorVertical : bool) (c : t) : t :=
  paint [CallSetStyle (m_style c) false;
         CallDrawGraphicObject image (pagePoint c topLeft) width height rotation
                               mirrorVertical mirrorHorizontal] c.

Section Trigonometry.
Context {E : Externals}.

Definition calculateEllipsePoint (c : Point) (rx ry angle : double) : Point :=
  mkPoint (px c + rx * libm_cos angle) (py c + ry * libm_sin angle).

Definition collectArc (center : Point) (rx ry beginAngle endAngle : double) (closed : bool)
    (rotation : double) (c : t) : t :=
  let turn (p : Point) : Point :=
    if ZMF_ALMOST_ZERO rotation then p else Point_rotate p rotation center in
  let endPoint := turn (calculateEllipsePoint center rx ry endAngle) in
  let beginPoint := turn (calculateEllipsePoint center rx ry beginAngle) in
  let angleDiff := abs (endAngle - beginAngle) in
  let largeArc := ((beginAngle <? endAngle) && (pi <? angleDiff))
                  || ((endAngle <? beginAngle) && (angleDiff <? pi)) in
  paint [CallSetStyle (m_style c) (negb closed);
         CallDrawPath ([PathM (pagePoint c beginPoint); PathA rx ry largeArc (pagePoint c endPoint)]
                       ++ (if closed then [PathL (pagePoint c center); PathZ] else []))] c.

(** The curve [collectPolygon] builds from the peak curve. *)
Definition polygonCurve (center : Point) (rx ry : double) (peaksCount : Z) (peak : Curve)
    (rotation : double) (mirrorHorizontal mirrorVertical : bool) : Curve :=
  let peakAngle := two_pi / double_of_Z peaksCount in
  let side := map (fun p => calculateEllipsePoint (mkPoint 0 0) (py p) (py p) (px p * peakAngle))
                  (curve_points peak) in
  let copy (i : nat) : list Point :=
    map (fun p => Point_rotate p (double_of_Z (Z.of_nat i) * peakAngle) (mkPoint 0 0))
        (match i with O => side | _ => tl side end) in
  let fit (p : Point) : Point :=
    let p1 := Point_move (mkPoint (px p * rx) (py p * ry)) (px center) (py center) in
    let p2 := Point_move (mkPoint (px p1) (- py p1)) 0 (2 * py center) in
    let p3 := if mirrorHorizontal
              then Point_move (mkPoint (- px p2) (py p2)) (2 * px center) 0 else p2 in
    let p4 := if mirrorVertical
              then Point_move (mkPoint (px p3) (- py p3)) 0 (2 * py center) else p3 in
    Point_rotate p4 rotation center in
  let copies := seq 0 (Z.to_nat peaksCount) in
  mkCurve (map fit (concat (map copy copies)))
          (concat (map (fun _ => curve_sectionTypes peak) copies))
          true.

Definition collectPolygon (center : Point) (rx ry : double) (peaksCount : Z) (peak : Curve)
    (rotation : double) (mirrorHorizontal mirrorVertical : bool) (c : t) : t :=
  if (length (curve_points peak) <? 2)%nat then c
  else collectPath (polygonCurve center rx ry peaksCount peak rotation
                                 mirrorHorizontal mirrorVertical) c.

End Trigonometry.

End ZMFCollector.

Local Close Scope float_scope.

(* ------------------------------------------------------------------------- *)
(** ** ZMF4Header, ZBRHeader *)

Module ZMF4Header.

Record t : Type := mk {
  m_signature : Z;
  m_objectCount : Z;
  m_startContentOffset : Z;
  m_startBitmapOffset : Z
}.

Definition new : t := mk 0 0 0 0.

Definition ZMF4_SIGNATURE : Z := 0x12345678.

Definition checkSignature (h : t) : bool := m_signature h =? ZMF4_SIGNATURE.

Definition isSupported (h : t) : bool := checkSignature h.

Section Load.
Context {S : Type} {IS : RVNGInputStream S}.

Definition load (h : t) : M S (bool * t) :=
  seek 8 ;;;
  let* signature := readU32 in
  let h1 := mk signature (m_objectCount h) (m_startContentOffset h) (m_startBitmapOffset h) in
  if negb (checkSignature h1) then ret (false, h1)
  else
    seek 28 ;;;
    let* objectCount := readU32 in
    let* startContentOffset := readU32 in
    let* startBitmapOffset := readU32 in
    ret (true, mk signature objectCount startContentOffset startBitmapOffset).

End Load.

End ZMF4Header.

Module ZBRHeader.

Record t : Type := mk { m_sig : Z; m_version : Z }.

Definition new : t := mk 0 0.

Definition ZBR_SIG : Z := 0x29a.

Definition isSupported (h : t) : bool := (m_sig h =? ZBR_SIG) && (m_version h <? 5).

Section Load.
Context {S : Type} {IS : RVNGInputStream S}.

(** The fields assigned before an exception keep their values: the signature
    is stored before the version is read. *)
Definition load (h : t) : M S (bool * t) :=
  catchAll
    (let* sig := readU16 in
     catchAll
       (let* version := readU16 in
        catchAll (skip 100 ;;; ret (true, mk sig version)) (ret (false, mk sig version)))
       (ret (false, mk sig (m_version h))))
    (ret (false, h)).

End Load.

End ZBRHeader.

(* ------------------------------------------------------------------------- *)
(** ** ZMF4Parser: state *)

Module ZMF4Parser.

Inductive ObjectType : Type :=
| UNKNOWN | FILL | TRANSPARENCY | PEN | SHADOW | ARROW | FONT | PARAGRAPH | TEXT | BITMAP
| PAGE_START | GUIDELINES | PAGE_END | LAYER_START | LAYER_END | DOCUMENT_SETTINGS
| COLOR_PALETTE | RECTANGLE | ELLIPSE | POLYGON | CURVE | IMAGE | TEXT_FRAME | TABLE
| GROUP_START | GROUP_END.

Record ObjectHeader : Type := mkObjectHeader {
  type : ObjectType;
  size : Z;
  nextObjectOffset : Z;
  id : option Z;
  refObjCount : Z;
  refListStartOffset : Z
}.

Definition ObjectHeader_default : ObjectHeader := mkObjectHeader UNKNOWN 0 0 None 0 0.

Record ObjectRef : Type := mkObjectRef { ref_id : Z; ref_tag : Z }.

(** The members of [class ZMF4Parser]; the id tables are finite maps. *)
Record t (S : Type) : Type := mk {
  m_input : S;
  m_inputLength : Z;
  m_collector : ZMFCollector.t;
  m_header : ZMF4Header.t;
  m_pageSettings : ZMFPageSettings;
  m_pageNumber : Z;
  m_currentObjectHeader : ObjectHeader;
  m_pens : gmap Z Pen;
  m_fills : gmap Z Fill;
  m_transparencies : gmap Z Transparency;
  m_shadows : gmap Z Shadow;
  m_arrows : gmap Z ArrowPtr;
  m_images : gmap Z Image;
  m_fonts : gmap Z Font;
  m_paragraphStyles : gmap Z ParagraphStyle;
  m_texts : gmap Z Text
}.

Arguments mk {S}.
Arguments m_input {S}.
Arguments m_inputLength {S}.
Arguments m_collector {S}.
Arguments m_header {S}.
Arguments m_pageSettings {S}.
Arguments m_pageNumber {S}.
Arguments m_currentObjectHeader {S}.
Arguments m_pens {S}.
Arguments m_fills {S}.
Arguments m_transparencies {S}.
Arguments m_shadows {S}.
Arguments m_arrows {S}.
Arguments m_images {S}.
Arguments m_fonts {S}.
Arguments m_paragraphStyles {S}.
Arguments m_texts {S}.

Section State.
Context {S : Type}.

Definition set_input (v : S) (p : t S) : t S :=
  mk v (m_inputLength p) (m_collector p) (m_header p) (m_pageSettings p) (m_pageNumber p)
     (m_currentObjectHeader p) (m_pens p) (m_fills p) (m_transparencies p) (m_shadows p)
     (m_arrows p) (m_images p) (m_fonts p) (m_paragraphStyles p) (m_texts p).

Definition set_inputLength (v : Z) (p : t S) : t S :=
  mk (m_input p) v (m_collector p) (m_header p) (m_pageSettings p) (m_pageNumber p)
     (m_currentObjectHeader p) (m_pens p) (m_fills p) (m_transparencies p) (m_shadows p)
     (m_arrows p) (m_images p) (m_fonts p) (m_paragraphStyles p) (m_texts p).

Definition set_collector (v : ZMFCollector.t) (p : t S) : t S :=
  mk (m_input p) (m_inputLength p) v (m_header p) (m_pageSettings p) (m_pageNumber p)
     (m_currentObjectHeader p) (m_pens p) (m_fills p) (m_transparencies p) (m_shadows p)
     (m_arrows p) (m_images p) (m_fonts p) (m_paragraphStyles p) (m_texts p).

Definition set_header (v : ZMF4Header.t) (p : t S) : t S :=
  mk (m_input p) (m_inputLength p) (m_collector p) v (m_pageSettings p) (m_pageNumber p)
     (m_currentObjectHeader p) (m_pens p) (m_fills p) (m_transparencies p) (m_shadows p)
     (m_arrows p) (m_images p) (m_fonts p) (m_paragraphStyles p) (m_texts p).

Definition set_pageSettings (v : ZMFPageSettings) (p : t S) : t S :=
  mk (m_input p) (m_inputLength p) (m_collector p) (m_header p) v (m_pageNumber p)
     (m_currentObjectHeader p) (m_pens p) (m_fills p) (m_transparencies p) (m_shadows p)
     (m_arrows p) (m_images p) (m_fonts p) (m_paragraphStyles p) (m_texts p).

Definition set_pageNumber (v : Z) (p : t S) : t S :=
  mk (m_input p) (m_inputLength p) (m_collector p) (m_header p) (m_pageSettings p) v
     (m_currentObjectHeader p) (m_pens p) (m_fills p) (m_transparencies p) (m_shadows p)
     (m_arrows p) (m_images p) (m_fonts p) (m_paragraphStyles p) (m_texts p).

Definition set_currentObjectHeader (v : ObjectHeader) (p : t S) : t S :=
  mk (m_input p) (m_inputLength p) (m_collector p) (m_header p) (m_pageSettings p)
     (m_pageNumber p) v (m_pens p) (m_fills p) (m_transparencies p) (m_shadows p)
     (m_arrows p) (m_images p) (m_fonts p) (m_paragraphStyles p) (m_texts p).

Definition set_pens (v : gmap Z Pen) (p : t S) : t S :=
  mk (m_input p) (m_inputLength p) (m_collector p) (m_header p) (m_pageSettings p)
     (m_pageNumber p) (m_currentObjectHeader p) v (m_fills p) (m_transparencies p)
     (m_shadows p) (m_arrows p) (m_images p) (m_fonts p) (m_paragraphStyles p) (m_texts p).

Definition set_fills (v : gmap Z Fill) (p : t S) : t S :=
  mk (m_input p) (m_inputLength p) (m_collector p) (m_header p) (m_pageSettings p)
     (m_pageNumber p) (m_currentObjectHeader p) (m_pens p) v (m_transparencies p)
     (m_shadows p) (m_arrows p) (m_images p) (m_fonts p) (m_paragraphStyles p) (m_texts p).

Definition set_transparencies (v : gmap Z Transparency) (p : t S) : t S :=
  mk (m_input p) (m_inputLength p) (m_collector p) (m_header p) (m_pageSettings p)
     (m_pageNumber p) (m_currentObjectHeader p) (m_pens p) (m_fills p) v
     (m_shadows p) (m_arrows p) (m_images p) (m_fonts p) (m_paragraphStyles p) (m_texts p).

Definition set_shadows (v : gmap Z Shadow) (p : t S) : t S :=
  mk (m_input p) (m_inputLength p) (m_collector p) (m_header p) (m_pageSettings p)
     (m_pageNumber p) (m_currentObjectHeader p) (m_pens p) (m_fills p) (m_transparencies p)
     v (m_arrows p) (m_images p) (m_fonts p) (m_paragraphStyles p) (m_texts p).

Definition set_arrows (v : gmap Z ArrowPtr) (p : t S) : t S :=
  mk (m_input p) (m_inputLength p) (m_collector p) (m_header p) (m_pageSettings p)
     (m_pageNumber p) (m_currentObjectHeader p) (m_pens p) (m_fills p) (m_transparencies p)
     (m_shadows p) v (m_images p) (m_fonts p) (m_paragraphStyles p) (m_texts p).

Definition set_images (v : gmap Z Image) (p : t S) : t S :=
  mk (m_input p) (m_inputLength p) (m_collector p) (m_header p) (m_pageSettings p)
     (m_pageNumber p) (m_currentObjectHeader p) (m_pens p) (m_fills p) (m_transparencies p)
     (m_shadows p) (m_arrows p) v (m_fonts p) (m_paragraphStyles p) (m_texts p).

Definition set_fonts (v : gmap Z Font) (p : t S) : t S :=
  mk (m_input p) (m_inputLength p) (m_collector p) (m_header p) (m_pageSettings p)
     (m_pageNumber p) (m_currentObjectHeader p) (m_pens p) (m_fills p) (m_transparencies p)
     (m_shadows p) (m_arrows p) (m_images p) v (m_paragraphStyles p) (m_texts p).

Definition set_paragraphStyles (v : gmap Z ParagraphStyle) (p : t S) : t S :=
  mk (m_input p) (m_inputLength p) (m_collector p) (m_header p) (m_pageSettings p)
     (m_pageNumber p) (m_currentObjectHeader p) (m_pens p) (m_fills p) (m_transparencies p)
     (m_shadows p) (m_arrows p) (m_images p) (m_fonts p) v (m_texts p).

Definition set_texts (v : gmap Z Text) (p : t S) : t S :=
  mk (m_input p) (m_inputLength p) (m_collector p) (m_header p) (m_pageSettings p)
     (m_pageNumber p) (m_currentObjectHeader p) (m_pens p) (m_fills p) (m_transparencies p)
     (m_shadows p) (m_arrows p) (m_images p) (m_fonts p) (m_paragraphStyles p) v.

(** The constructor: the two pre-seeded table entries. *)
Definition new (input : S) (painter : list PainterCall) : t S :=
  mk input 0 (ZMFCollector.new painter) ZMF4Header.new ZMFPageSettings_default 0
     ObjectHeader_default
     {[ 0x1 := mkPen (mkColor 255 255 255) 0%float CAP_BUTT JOIN_MITER [] 0 None None true ]}
     {[ 0x3 := FillColor (mkColor 0 0 0) ]}
     ∅ ∅ ∅ ∅ ∅ ∅ ∅.

(** A read or seek on [m_input]. *)
Definition onInput {A} (m : M S A) : M (t S) A := zoom m_input set_input m.

(** A call on [m_collector]. *)
Definition onCollector (f : ZMFCollector.t -> ZMFCollector.t) : M (t S) unit :=
  modify (fun p => set_collector (f (m_collector p)) p).

(** [get (m_currentObjectHeader.id)]: dereferencing an empty optional stops
    the run. *)
Definition currentId : M (t S) Z :=
  fun p =>
    match id (m_currentObjectHeader p) with
    | Some i => (Ret i, p)
    | None => (Halt EmptyOptionalAccess, p)
    end.

Definition parseObjectType (type : Z) : ObjectType :=
  if type =? 0xa then FILL else if type =? 0xb then TRANSPARENCY
  else if type =? 0xc then PEN else if type =? 0xd then SHADOW
  else if type =? 0xf then ARROW else if type =? 0x10 then FONT
  else if type =? 0x11 then PARAGRAPH else if type =? 0x12 then TEXT
  else if type =? 0xe then BITMAP else if type =? 0x21 then PAGE_START
  else if type =? 0x22 then GUIDELINES else if type =? 0x23 then PAGE_END
  else if type =? 0x24 then LAYER_START else if type =? 0x25 then LAYER_END
  else if type =? 0x27 then DOCUMENT_SETTINGS else if type =? 0x28 then COLOR_PALETTE
  else if type =? 0x32 then RECTANGLE else if type =? 0x33 then ELLIPSE
  else if type =? 0x34 then POLYGON else if type =? 0x36 then CURVE
  else if type =? 0x37 then IMAGE else if type =? 0x3a then TEXT_FRAME
  else if type =? 0x3b then TABLE else if type =? 0x41 then GROUP_START
  else if type =? 0x42 then GROUP_END else UNKNOWN.

(** [getByRefId (id, idObjMap)] *)
Definition getByRefId {T} (refId : Z) (idObjMap : gmap Z T) : option T :=
  if refId =? NO_ID then None else idObjMap !! refId.

Definition getFillByRefId (refId : Z) : M (t S) (option Fill) :=
  gets (fun p => getByRefId refId (m_fills p)).

Definition getPenByRefId (refId : Z) : M (t S) (option Pen) :=
  gets (fun p => getByRefId refId (m_pens p)).

Definition getShadowByRefId (refId : Z) : M (t S) (option Shadow) :=
  gets (fun p => getByRefId refId (m_shadows p)).

Definition getTransparencyByRefId (refId : Z) : M (t S) (option Transparency) :=
  gets (fun p => getByRefId refId (m_transparencies p)).

Definition getFontByRefId (refId : Z) : M (t S) (option Font) :=
  gets (fun p => getByRefId refId (m_fonts p)).

Definition getParagraphStyleByRefId (refId : Z) : M (t S) (option ParagraphStyle) :=
  gets (fun p => getByRefId refId (m_paragraphStyles p)).

Definition getTextByRefId (refId : Z) : M (t S) (option Text) :=
  gets (fun p => getByRefId refId (m_texts p)).

Definition getImageByRefId (refId : Z) : M (t S) (option Image) :=
  gets (fun p => getByRefId refId (m_images p)).

(** [get_optional_value_or (arrow, ArrowPtr ())] *)
Definition getArrowByRefId (refId : Z) : M (t S) ArrowPtr :=
  gets (fun p => match getByRefId refId (m_arrows p) with Some a => a | None => None end).

End State.

(* ------------------------------------------------------------------------- *)
(** ** ZMF4Parser: object headers, references, geometry *)

Section Readers.
Context {S : Type} {IS : RVNGInputStream S} {E : Externals}.

Definition readObjectHeader : M (t S) ObjectHeader :=
  let* pos := onInput tell in
  let startOffset := u32 pos in
  let* size := onInput readU32 in
  let* type := onInput readU8 in
  onInput (skip 7) ;;;
  let* refObjCount := onInput readU32 in
  let* refListStartOffset := onInput readU32 in
  let* inputLength := gets m_inputLength in
  if (size =? 0) || (u32 (inputLength - startOffset) <? size)
     || (size <=? refListStartOffset)
     || ((size - refListStartOffset) / 8 <? refObjCount)
  then throw GenericException
  else
    onInput (skip 4) ;;;
    let* id := onInput readU32 in
    ret (mkObjectHeader (parseObjectType type) size (u32 (startOffset + size))
           (if id =? NO_ID then None else Some id)
           refObjCount
           (if 0 <? refListStartOffset then u32 (refListStartOffset + startOffset)
            else refListStartOffset)).

(** The number of references [readObjectRefs] reads: the header's count,
    cut down to [nextObjectOffset - tell / 8] (not below 0). *)
Definition clampedRefCount (header : ObjectHeader) (pos : Z) : Z :=
  let maxRefObjCount := Z.max 0 (nextObjectOffset header - Z.quot pos 8) in
  if maxRefObjCount <? refObjCount header then u32 maxRefObjCount else refObjCount header.

Definition readObjectRefs : M (t S) (list ObjectRef) :=
  let* header := gets m_currentObjectHeader in
  let* pos := onInput tell in
  let refObjCount := clampedRefCount header pos in
  if 0 <? refObjCount then
    onInput (seek (u32 (nextObjectOffset header - u32 (8 * refObjCount)))) ;;;
    let* ids := repeatM (Z.to_nat refObjCount) (onInput readU32) in
    let* tags := repeatM (Z.to_nat refObjCount) (onInput readU32) in
    ret (List.filter (fun ref => negb (ref_id ref =? NO_ID))
                (map (fun it => mkObjectRef (fst it) (snd it)) (combine ids tags)))
  else ret [].

(** The loop of [readStyle] over the references. *)
Fixpoint applyStyleRefs (refs : list ObjectRef) (style : Style) : M (t S) Style :=
  match refs with
  | [] => ret style
  | ref :: rest =>
      if ref_tag ref =? 1 then
        let* fill := getFillByRefId (ref_id ref) in
        applyStyleRefs rest (mkStyle (style_pen style) fill (style_transparency style)
                                     (style_shadow style))
      else if ref_tag ref =? 2 then
        let* pen := getPenByRefId (ref_id ref) in
        applyStyleRefs rest (mkStyle pen (style_fill style) (style_transparency style)
                                     (style_shadow style))
      else if ref_tag ref =? 3 then
        let* shadow := getShadowByRefId (ref_id ref) in
        applyStyleRefs rest (mkStyle (style_pen style) (style_fill style)
                                     (style_transparency style) shadow)
      else if ref_tag ref =? 4 then
        let* transparency := getTransparencyByRefId (ref_id ref) in
        applyStyleRefs rest (mkStyle (style_pen style) (style_fill style) transparency
                                     (style_shadow style))
      else applyStyleRefs rest style
  end.

Definition readStyle : M (t S) Style :=
  let* refs := readObjectRefs in
  applyStyleRefs refs Style_default.

Definition readFloat : M (t S) double :=
  let* u := onInput readU32 in ret (float_of_bits u).

Definition readPoint : M (t S) Point :=
  let* x := onInput readS32 in
  let* y := onInput readS32 in
  ret (mkPoint (um2in x) (um2in y)).

Definition readUnscaledPoint : M (t S) Point :=
  let* x := readFloat in
  let* y := readFloat in
  ret (mkPoint x y).

Definition readBoundingBox : M (t S) BoundingBox :=
  onInput (skip 8) ;;;
  let* points := repeatM 4 readPoint in
  lift (BoundingBox_new points).

(** [readCurveSectionTypes (sectionTypes)]: the section types afterwards. *)
Fixpoint readCurveSectionTypes (fuel : nat) (sectionTypes : list CurveType)
  : M (t S) (list CurveType) :=
  match fuel with
  | O => stop OutOfFuel
  | Datatypes.S fuel' =>
      let* type := onInput readU32 in
      if type =? 2 then
        onInput (skip 8) ;;;
        readCurveSectionTypes fuel' (sectionTypes ++ [BEZIER_CURVE])
      else if type =? 0x64 then ret sectionTypes
      else readCurveSectionTypes fuel' (sectionTypes ++ [LINE])
  end.

(** The first loop of [readCurveComponents]: the point count and the closed
    flag of each component; [None] when a point count is refused, which ends
    the function at once. *)
Fixpoint readComponentHeaders (n : nat) (acc : list (Z * bool))
  : M (t S) (option (list (Z * bool))) :=
  match n with
  | O => ret (Some acc)
  | Datatypes.S n' =>
      onInput (skip 8) ;;;
      let* componentPointsCount := onInput readU32 in
      if (componentPointsCount =? 0) || (10000 <? componentPointsCount) then ret None
      else
        let* closed := onInput readU32 in
        readComponentHeaders n' (acc ++ [(componentPointsCount, negb (closed =? 0))])
  end.

Definition readCurveComponents (fuel : nat) (readPointFunc : M (t S) Point)
  : M (t S) (list Curve) :=
  let* componentsCount := onInput readU32 in
  if (componentsCount =? 0) || (10000 <? componentsCount) then ret []
  else
    let* headers := readComponentHeaders (Z.to_nat componentsCount) [] in
    match headers with
    | None => ret []
    | Some hs =>
        let* pointLists := forEach (fun h => repeatM (Z.to_nat (fst h)) readPointFunc) hs in
        let* typeLists := forEach (fun _ => readCurveSectionTypes fuel []) hs in
        ret (map (fun it => mkCurve (snd (fst it)) (snd it) (snd (fst (fst it))))
                 (combine (combine hs pointLists) typeLists))
    end.

Definition readColor : M (t S) Color :=
  let* r := onInput readU8 in
  let* g := onInput readU8 in
  let* b := onInput readU8 in
  ret (mkColor r g b).

Definition gradientType (type : Z) : GradientType :=
  if type =? 2 then GRADIENT_LINEAR else if type =? 3 then GRADIENT_RADIAL
  else if type =? 4 then GRADIENT_CONICAL else if type =? 5 then GRADIENT_CROSS
  else if type =? 6 then GRADIENT_RECTANGULAR else if type =? 7 then GRADIENT_FLEXIBLE
  else GRADIENT_LINEAR.

Definition readGradientStop : M (t S) GradientStop :=
  onInput (skip 4) ;;;
  let* color := readColor in
  onInput (skip 5) ;;;
  let* offset := readFloat in
  ret (mkGradientStop color offset).

Definition readGradient (type : Z) : M (t S) Gradient :=
  onInput (skip 4) ;;;
  let* stopCount := onInput readU32 in
  let* pos := onInput tell in
  let* header := gets m_currentObjectHeader in
  if (nextObjectOffset header <? pos + 20 + u32 (stopCount * 16))
     || (pos + 20 + u32 (stopCount * 16) <? stopCount)
  then ret (mkGradient (gradientType type) [] 0%float (mkPoint 0.5 0.5))
  else
    onInput (skip 4) ;;;
    let* cx := readFloat in
    let* cy := readFloat in
    let* angle := readFloat in
    onInput (skip 4) ;;;
    let* stops := repeatM (Z.to_nat stopCount) readGradientStop in
    ret (mkGradient (gradientType type) stops angle (mkPoint cx cy)).

Definition readPreviewBitmap : M (t S) unit :=
  onInput (skip 2) ;;;
  let* size := onInput readU32 in
  onInput (skip (u32 (size - 2 - 4))).

Definition readDocumentSettings : M (t S) unit :=
  let* header := readObjectHeader in
  match type header with
  | DOCUMENT_SETTINGS =>
      onInput (skip 32) ;;;
      let* color := readColor in
      onInput (skip 5) ;;;
      let* pageWidth := onInput readU32 in
      let* pageHeight := onInput readU32 in
      onInput (skip 68) ;;;
      let* leftOffset := onInput readU32 in
      let* topOffset := onInput readU32 in
      modify (set_pageSettings (mkPageSettings (um2in pageWidth) (um2in pageHeight)
                                               (um2in leftOffset) (um2in topOffset) color)) ;;;
      onInput (seek (nextObjectOffset header))
  | _ => throw GenericException
  end.

(* ------------------------------------------------------------------------- *)
(** ** ZMF4Parser: resource objects *)

(** [appendCharacters (text, characters, size, "UTF-16LE")] *)
Definition appendCharacters (text characters : list Z) (size : Z) : list Z :=
  if size =? 0 then text
  else text ++ concat (map appendUCS4 (icu_utf16le_code_points characters)).

(** The loop over the references for an image: every reference with the given
    tag sets the image (to none, when its id is unknown). *)
Fixpoint applyImageRefs (tag : Z) (refs : list ObjectRef) (image : option Image)
  : M (t S) (option Image) :=
  match refs with
  | [] => ret image
  | ref :: rest =>
      if ref_tag ref =? tag then
        let* found := getImageByRefId (ref_id ref) in applyImageRefs tag rest found
      else applyImageRefs tag rest image
  end.

Definition readFill : M (t S) unit :=
  let* header := gets m_currentObjectHeader in
  match id header with
  | None => ret tt
  | Some _ =>
      onInput (skip 8) ;;;
      let* type := onInput readU32 in
      if type =? 1 then
        onInput (skip 8) ;;;
        let* color := readColor in
        let* fillId := currentId in
        modify (fun p => set_fills (<[fillId := FillColor color]> (m_fills p)) p)
      else if (2 <=? type) && (type <=? 7) then
        let* gradient := readGradient type in
        let* fillId := currentId in
        modify (fun p => set_fills (<[fillId := FillGradient gradient]> (m_fills p)) p)
      else if type =? 8 then
        onInput (skip 4) ;;;
        let* tile := onInput readU32 in
        let* tileWidth := onInput readU32 in
        let* tileHeight := onInput readU32 in
        let* refs := readObjectRefs in
        let* image := applyImageRefs 0 refs None in
        match image with
        | None => ret tt
        | Some img =>
            let* fillId := currentId in
            modify (fun p =>
              set_fills (<[fillId := FillImage (mkImageFill img (negb (tile =? 0))
                                                  (um2in tileWidth) (um2in tileHeight))]>
                           (m_fills p)) p)
        end
      else ret tt
  end.

Definition readTransparency : M (t S) unit :=
  let* header := gets m_currentObjectHeader in
  match id header with
  | None => ret tt
  | Some _ =>
      onInput (skip 8) ;;;
      let* type := onInput readU32 in
      if type =? 1 then
        onInput (skip 8) ;;;
        let* color := readColor in
        let* transparencyId := currentId in
        modify (fun p =>
          set_transparencies (<[transparencyId := mkTransparency color]> (m_transparencies p)) p)
      else ret tt
  end.

(** The loop of [readPen] over bits 1 to 23 of the dash bits; [n] counts the
    bits left, [i] is the current bit. *)
Fixpoint dashRuns (n : nat) (i : Z) (dashBits : Z) (curLength : Z) (prevVal : bool)
    (dashPattern : list Z) : list Z :=
  match n with
  | O => dashPattern
  | Datatypes.S n' =>
      let bit := Z.testbit dashBits i in
      if Bool.eqb bit prevVal
      then dashRuns n' (i + 1) dashBits (curLength + 1) bit dashPattern
      else dashRuns n' (i + 1) dashBits (0 + 1) bit (dashPattern ++ [curLength])
  end.

(** The dash decoding of [readPen]: the pattern and the distance of the pen
    for the 48 dash bits and the dash length. *)
Definition decodeDash (dashBits dashLength : Z) : list Z * Z :=
  if dashBits =? 2 ^ 48 - 1 then ([], 0)
  else
    let dashPattern := dashRuns 23 1 dashBits 1 true [] in
    let sum := fold_left Z.add dashPattern 0 in
    let dashDistance := dashLength / 1024 - sum in
    (dashPattern, if dashDistance <? 1 then 1 else dashDistance).

(** The loop of [readPen] over the references: tag 0 sets the start arrow,
    tag 1 the end arrow. *)
Fixpoint applyArrowRefs (refs : list ObjectRef) (startArrow endArrow : ArrowPtr)
  : M (t S) (ArrowPtr * ArrowPtr) :=
  match refs with
  | [] => ret (startArrow, endArrow)
  | ref :: rest =>
      if ref_tag ref =? 0 then
        let* arrow := getArrowByRefId (ref_id ref) in applyArrowRefs rest arrow endArrow
      else if ref_tag ref =? 1 then
        let* arrow := getArrowByRefId (ref_id ref) in applyArrowRefs rest startArrow arrow
      else applyArrowRefs rest startArrow endArrow
  end.

Definition readPen : M (t S) unit :=
  let* header := gets m_currentObjectHeader in
  match id header with
  | None => ret tt
  | Some _ =>
      onInput (skip 12) ;;;
      let* lineJoin := onInput readU32 in
      let lineJoinType := if lineJoin =? 1 then JOIN_ROUND
                          else if lineJoin =? 2 then JOIN_BEVEL else JOIN_MITER in
      let* lineCap := onInput readU32 in
      let lineCapType := if lineCap =? 1 then CAP_FLAT else if lineCap =? 2 then CAP_ROUND
                         else if lineCap =? 3 then CAP_POINTED else CAP_BUTT in
      onInput (skip 4) ;;;
      let* width := onInput readU32 in
      onInput (skip 4) ;;;
      let* color := readColor in
      onInput (skip 17) ;;;
      let* dashBytes := onInput (readNBytes 6) in
      let* dashLength := onInput readU16 in
      let dash := decodeDash (bytesToBitset dashBytes) dashLength in
      let* refs := readObjectRefs in
      let* arrows := applyArrowRefs refs None None in
      let* penId := currentId in
      modify (fun p =>
        set_pens (<[penId := mkPen color (um2in width) lineCapType lineJoinType
                               (fst dash) (snd dash) (fst arrows) (snd arrows) false]>
                    (m_pens p)) p)
  end.

Definition readShadow : M (t S) unit :=
  let* header := gets m_currentObjectHeader in
  match id header with
  | None => ret tt
  | Some _ =>
      onInput (skip 8) ;;;
      let* type := onInput readU32 in
      let* offset := readPoint in
      let* angle := readFloat in
      let* shadow :=
        (if (type =? 1) || (type =? 3) then
           onInput (skip 4) ;;;
           let* color := readColor in
           if type =? 1 then ret (mkShadow offset angle 1%float color)
           else
             onInput (skip 5) ;;;
             let* f := readFloat in
             ret (mkShadow offset angle (1 - f)%float color)
         else if (type =? 2) || (type =? 4) then
           let* f := readFloat in
           ret (mkShadow offset angle (1 - f)%float Color_default)
         else ret (mkShadow offset angle 1%float Color_default)) in
      let* shadowId := currentId in
      modify (fun p => set_shadows (<[shadowId := shadow]> (m_shadows p)) p)
  end.

Definition readArrow (fuel : nat) : M (t S) unit :=
  let* header := gets m_currentObjectHeader in
  match id header with
  | None => ret tt
  | Some _ =>
      onInput (skip 4) ;;;
      let* lineEndX := readFloat in
      onInput (skip 12) ;;;
      let* curves := readCurveComponents fuel readUnscaledPoint in
      let* arrowId := currentId in
      modify (fun p => set_arrows (<[arrowId := Some (mkArrow curves lineEndX)]> (m_arrows p)) p)
  end.

Definition readBitmap (fuel : nat) : M (t S) unit :=
  let* header := gets m_currentObjectHeader in
  match id header with
  | None => ret tt
  | Some _ =>
      onInput (skip 4) ;;;
      let* something := onInput readU32 in
      onInput (seek (nextObjectOffset header)) ;;;
      if negb (something =? 0) then
        let* parsed := onInput (BMIParser.readImage fuel BMIHeader.new) in
        let image := fst parsed in
        (match image_data image with
         | [] => ret tt
         | _ =>
             let* imageId := currentId in
             modify (fun p => set_images (<[imageId := image]> (m_images p)) p)
         end) ;;;
        onInput (seek (u32 (nextObjectOffset header + BMIHeader.m_size (snd parsed))))
      else ret tt
  end.

(** [std::string name (bytes, 31)] as a C string. *)
Fixpoint cstring (n : nat) (bytes : list Z) : list Z :=
  match n, bytes with
  | Datatypes.S n', b :: rest => if b =? 0 then [] else b :: cstring n' rest
  | _, _ => []
  end.

Definition readFont : M (t S) unit :=
  let* header := gets m_currentObjectHeader in
  match id header with
  | None => ret tt
  | Some _ =>
      onInput (skip 4) ;;;
      let* formatFlags := onInput readU8 in
      onInput (skip 3) ;;;
      let* size := readFloat in
      onInput (skip 4) ;;;
      let* name := onInput (readNBytes 32) in
      let* style := readStyle in
      let* fontId := currentId in
      modify (fun p =>
        set_fonts (<[fontId := mkFont (cstring 31 name) size (Z.testbit formatFlags 0)
                                 (Z.testbit formatFlags 1) (style_fill style) (style_pen style)]>
                     (m_fonts p)) p)
  end.

(** The loop of [readParagraphStyle] over the references: a tag 1 that names a
    known font sets the font. *)
Fixpoint applyFontRefs (refs : list ObjectRef) (font : Font) : M (t S) Font :=
  match refs with
  | [] => ret font
  | ref :: rest =>
      if ref_tag ref =? 1 then
        let* found := getFontByRefId (ref_id ref) in
        applyFontRefs rest (match found with Some f => f | None => font end)
      else applyFontRefs rest font
  end.

Definition readParagraphStyle : M (t S) unit :=
  let* header := gets m_currentObjectHeader in
  match id header with
  | None => ret tt
  | Some _ =>
      onInput (skip 4) ;;;
      let* align := onInput readU8 in
      let alignment := if align =? 1 then ALIGN_RIGHT else if align =? 2 then ALIGN_BLOCK
                       else if align =? 3 then ALIGN_CENTER else if align =? 4 then ALIGN_FULL
                       else ALIGN_LEFT in
      onInput (skip 3) ;;;
      let* lineSpacing := readFloat in
      let* refs := readObjectRefs in
      let* font := applyFontRefs refs Font_default in
      let* styleId := currentId in
      modify (fun p =>
        set_paragraphStyles (<[styleId := mkParagraphStyle lineSpacing alignment font]>
                               (m_paragraphStyles p)) p)
  end.

(** The first loop of [readText]: the span count and the style of each
    paragraph; [None] when a span count is refused (the function returns). *)
Fixpoint readParagraphHeaders (n : nat) (acc : list (Z * ParagraphStyle))
  : M (t S) (option (list (Z * ParagraphStyle))) :=
  match n with
  | O => ret (Some acc)
  | Datatypes.S n' =>
      let* spanCount := onInput readU32 in
      if 1000 <? spanCount then ret None
      else
        let* styleId := onInput readU32 in
        let* style := getParagraphStyleByRefId styleId in
        onInput (skip 4) ;;;
        readParagraphHeaders n'
          (acc ++ [(spanCount, match style with Some st => st | None => ParagraphStyle_default end)])
  end.

(** The second loop, for the spans of one paragraph: length and font of each
    span; [None] when a length is refused. *)
Fixpoint readSpanHeaders (n : nat) (style : ParagraphStyle) (acc : list Span)
  : M (t S) (option (list Span)) :=
  match n with
  | O => ret (Some acc)
  | Datatypes.S n' =>
      let* length := onInput readU32 in
      let* header := gets m_currentObjectHeader in
      if size header <? length then ret None
      else
        onInput (skip 4) ;;;
        let* fontId := onInput readU32 in
        let* font := getFontByRefId fontId in
        readSpanHeaders n' style
          (acc ++ [mkSpan [] length (match font with Some f => f | None => parStyle_font style end)])
  end.

Fixpoint readAllSpanHeaders (paragraphs : list (Z * ParagraphStyle)) (acc : list Paragraph)
  : M (t S) (option (list Paragraph)) :=
  match paragraphs with
  | [] => ret (Some acc)
  | (spanCount, style) :: rest =>
      let* spans := readSpanHeaders (Z.to_nat spanCount) style [] in
      match spans with
      | None => ret None
      | Some sp => readAllSpanHeaders rest (acc ++ [mkParagraph sp style])
      end
  end.

(** The third loop: the characters of one span. *)
Definition readSpanText (span : Span) : M (t S) Span :=
  let size := u32 (span_length span * 2) in
  let* chars := onInput (readNBytes size) in
  ret (mkSpan (appendCharacters (span_text span) chars size) (span_length span) (span_font span)).

Definition readParagraphText (paragraph : Paragraph) : M (t S) Paragraph :=
  let* spans := forEach readSpanText (paragraph_spans paragraph) in
  ret (mkParagraph spans (paragraph_style paragraph)).

(** [readText] does not test [m_currentObjectHeader.id] before it reads. *)
Definition readText : M (t S) unit :=
  onInput (skip 12) ;;;
  let* paragraphCount := onInput readU32 in
  if (paragraphCount =? 0) || (1000 <? paragraphCount) then ret tt
  else
    onInput (skip 4) ;;;
    let* headers := readParagraphHeaders (Z.to_nat paragraphCount) [] in
    match headers with
    | None => ret tt
    | Some hs =>
        let* withSpans := readAllSpanHeaders hs [] in
        match withSpans with
        | None => ret tt
        | Some ps =>
            let* paragraphs := forEach readParagraphText ps in
            let* textId := currentId in
            modify (fun p => set_texts (<[textId := mkText paragraphs]> (m_texts p)) p)
        end
    end.

(* ------------------------------------------------------------------------- *)
(** ** ZMF4Parser: shapes *)

Definition readImage : M (t S) unit :=
  let* bbox := readBoundingBox in
  let* refs := readObjectRefs in
  let* image := applyImageRefs 5 refs None in
  match image with
  | Some img =>
      let* style := readStyle in
      onCollector (ZMFCollector.setStyle style) ;;;
      onCollector (ZMFCollector.collectImage (image_data img) (BoundingBox_topLeft bbox)
                     (m_width bbox) (m_height bbox) (m_rotation bbox)
                     (m_mirrorHorizontal bbox) (m_mirrorVertical bbox))
  | None => ret tt
  end.

(** The loop of [readTextFrame] over the references: every tag 6 sets the text. *)
Fixpoint applyTextRefs (refs : list ObjectRef) (text : option Text) : M (t S) (option Text) :=
  match refs with
  | [] => ret text
  | ref :: rest =>
      if ref_tag ref =? 6 then
        let* found := getTextByRefId (ref_id ref) in applyTextRefs rest found
      else applyTextRefs rest text
  end.

Definition readTextFrame : M (t S) unit :=
  let* bbox := readBoundingBox in
  let* flags := onInput readU8 in
  let alignment := if negb (Z.land flags 0x10 =? 0) then ALIGN_MIDDLE
                   else if negb (Z.land flags 0x20 =? 0) then ALIGN_BOTTOM
                   else ALIGN_TOP in
  let* refs := readObjectRefs in
  let* text := applyTextRefs refs None in
  match text with
  | Some txt =>
      onCollector (ZMFCollector.collectTextObject txt (BoundingBox_topLeft bbox)
                     (m_width bbox) (m_height bbox) alignment (m_rotation bbox))
  | None => ret tt
  end.

Definition readCurve (fuel : nat) : M (t S) unit :=
  onInput (skip 52) ;;;
  let* curves := readCurveComponents fuel readPoint in
  let* style := readStyle in
  onCollector (ZMFCollector.setStyle style) ;;;
  onCollector (ZMFCollector.collectPaths curves).

(** The curve [readRectangle] makes of the corners of the bounding box. *)
Definition rectangleCurve (bbox : BoundingBox) : Curve :=
  mkCurve (m_points bbox) (repeat LINE (length (m_points bbox) - 1)) true.

Definition readRectangle : M (t S) unit :=
  let* bbox := readBoundingBox in
  let* style := readStyle in
  onCollector (ZMFCollector.setStyle style) ;;;
  onCollector (ZMFCollector.collectPath (rectangleCurve bbox)).

Definition readEllipse : M (t S) unit :=
  let* bbox := readBoundingBox in
  let* beginAngle := readFloat in
  let* endAngle := readFloat in
  let* closedByte := onInput readU8 in
  let closed := closedByte =? 0 in
  let rx := (m_width bbox / 2)%float in
  let ry := (m_height bbox / 2)%float in
  let* style := readStyle in
  onCollector (ZMFCollector.setStyle style) ;;;
  if ZMF_ALMOST_ZERO beginAngle && ZMF_ALMOST_ZERO endAngle
  then onCollector (ZMFCollector.collectEllipse (m_center bbox) rx ry (m_rotation bbox))
  else onCollector (ZMFCollector.collectArc (m_center bbox) rx ry beginAngle endAngle closed
                                            (m_rotation bbox)).

Definition readPolygon (fuel : nat) : M (t S) unit :=
  let* bbox := readBoundingBox in
  let rx := (m_width bbox / 2)%float in
  let ry := (m_height bbox / 2)%float in
  let* peaksCount := onInput readU32 in
  if (peaksCount =? 0) || (99 <? peaksCount) then ret tt
  else
    let* pointsCount := onInput readU32 in
    let* header := gets m_currentObjectHeader in
    let endOffset := if refListStartOffset header =? 0 then nextObjectOffset header
                     else refListStartOffset header in
    let* pos := onInput tell in
    if (pointsCount =? 0) || (endOffset <=? pos + 8)
       || (Z.quot (endOffset - pos - 8) 12 <? pointsCount)
    then ret tt
    else
      onInput (skip 8) ;;;
      let* points := repeatM (Z.to_nat pointsCount) readUnscaledPoint in
      let* sectionTypes := readCurveSectionTypes fuel [] in
      let* style := readStyle in
      onCollector (ZMFCollector.setStyle style) ;;;
      onCollector (ZMFCollector.collectPolygon (m_center bbox) rx ry peaksCount
                     (mkCurve points sectionTypes false) (m_rotation bbox)
                     (m_mirrorHorizontal bbox) (m_mirrorVertical bbox)).

Definition readCell : M (t S) Cell :=
  onInput (skip 4) ;;;
  let* fillRefId := onInput readU32 in
  let* fill := getFillByRefId fillRefId in
  let* textId := onInput readU32 in
  let* text := getTextByRefId textId in
  let* rightPenRefId := onInput readU32 in
  let* rightBorder := getPenByRefId rightPenRefId in
  let* bottomPenRefId := onInput readU32 in
  let* bottomBorder := getPenByRefId bottomPenRefId in
  ret (mkCell (match text with Some txt => txt | None => Text_default end)
              fill None rightBorder None bottomBorder).

Definition Cell_withLeft (pen : option Pen) (c : Cell) : Cell :=
  mkCell (cell_text c) (cell_fill c) pen (cell_rightBorder c) (cell_topBorder c)
         (cell_bottomBorder c).

Definition Cell_withRight (pen : option Pen) (c : Cell) : Cell :=
  mkCell (cell_text c) (cell_fill c) (cell_leftBorder c) pen (cell_topBorder c)
         (cell_bottomBorder c).

Definition Cell_withTop (pen : option Pen) (c : Cell) : Cell :=
  mkCell (cell_text c) (cell_fill c) (cell_leftBorder c) (cell_rightBorder c) pen
         (cell_bottomBorder c).

Definition Cell_withBottom (pen : option Pen) (c : Cell) : Cell :=
  mkCell (cell_text c) (cell_fill c) (cell_leftBorder c) (cell_rightBorder c) (cell_topBorder c)
         pen.

Definition Cell_withFill (fill : option Fill) (c : Cell) : Cell :=
  mkCell (cell_text c) fill (cell_leftBorder c) (cell_rightBorder c) (cell_topBorder c)
         (cell_bottomBorder c).

(** [f] on the first, [g] on the last element ([front ()], [back ()]). *)
Definition onFront {A} (f : A -> A) (l : list A) : list A :=
  match l with [] => [] | x :: rest => f x :: rest end.

Definition onBack {A} (f : A -> A) (l : list A) : list A := rev (onFront f (rev l)).

(** The second loop of [readTable], for one row. *)
Definition readRowBorder (tableHeight : double) (rowCount : Z) (cells : list Cell) : M (t S) Row :=
  onInput (skip 4) ;;;
  let* leftPenRefId := onInput readU32 in
  let* leftBorderPen := getPenByRefId leftPenRefId in
  let cells' :=
    match leftBorderPen with
    | Some _ => map (fun c => match cell_leftBorder c with
                              | None => Cell_withLeft leftBorderPen c
                              | Some _ => c
                              end) cells
    | None => cells
    end in
  let* f := readFloat in
  ret (mkRow cells' (tableHeight * f32_div f rowCount)%float).

(** The third loop of [readTable]; [i] is the column. *)
Fixpoint readColumns (n : nat) (i : nat) (tableWidth : double) (colCount : Z) (rows : list Row)
    (columns : list Column) : M (t S) (list Row * list Column) :=
  match n with
  | O => ret (rows, columns)
  | Datatypes.S n' =>
      onInput (skip 4) ;;;
      let* topPenRefId := onInput readU32 in
      let* topBorderPen := getPenByRefId topPenRefId in
      let rows' :=
        match topBorderPen with
        | Some _ =>
            map (fun row =>
                   mkRow (alter (fun c => match cell_topBorder c with
                                          | None => Cell_withTop topBorderPen c
                                          | Some _ => c
                                          end) i (row_cells row))
                         (row_height row)) rows
        | None => rows
        end in
      let* f := readFloat in
      readColumns n' (Datatypes.S i) tableWidth colCount rows'
                  (columns ++ [mkColumn (tableWidth * f32_div f colCount)%float])
  end.

(** The table style applied to the cells at the end of [readTable]. *)
Definition applyTableStyle (tableStyle : Style) (rows : list Row) : list Row :=
  let onCells (f : list Cell -> list Cell) (row : Row) : Row :=
    mkRow (f (row_cells row)) (row_height row) in
  let filled :=
    match style_fill tableStyle with
    | Some _ => map (onCells (map (fun c => match cell_fill c with
                                            | None => Cell_withFill (style_fill tableStyle) c
                                            | Some _ => c
                                            end))) rows
    | None => rows
    end in
  match style_pen tableStyle with
  | Some _ =>
      let pen := style_pen tableStyle in
      map (onCells (fun cells => onBack (Cell_withRight pen) (onFront (Cell_withLeft pen) cells)))
          (onBack (onCells (map (Cell_withBottom pen)))
                  (onFront (onCells (map (Cell_withTop pen))) filled))
  | None => filled
  end.

Definition readTable : M (t S) unit :=
  let* bbox := readBoundingBox in
  onInput (skip 8) ;;;
  let* rowCount := onInput readU32 in
  let* colCount := onInput readU32 in
  if (rowCount <? 1) || (100 <? rowCount) || (colCount <? 1) || (100 <? colCount) then ret tt
  else
    onInput (skip 8) ;;;
    let* cells := repeatM (Z.to_nat rowCount) (repeatM (Z.to_nat colCount) readCell) in
    let* rows := forEach (readRowBorder (m_height bbox) rowCount) cells in
    let* rc := readColumns (Z.to_nat colCount) 0 (m_width bbox) colCount rows [] in
    let* tableStyle := readStyle in
    onCollector (ZMFCollector.collectTable
                   (mkTable (applyTableStyle tableStyle (fst rc)) (snd rc)
                            (m_width bbox) (m_height bbox) (BoundingBox_topLeft bbox))).

(* ------------------------------------------------------------------------- *)
(** ** ZMF4Parser: layers, pages, document *)

(** The [switch] of [readLayer] for every type but the layer end. *)
Definition readObject (fuel : nat) (type : ObjectType) : M (t S) unit :=
  match type with
  | FILL => readFill
  | TRANSPARENCY => readTransparency
  | PEN => readPen
  | SHADOW => readShadow
  | ARROW => readArrow fuel
  | FONT => readFont
  | PARAGRAPH => readParagraphStyle
  | TEXT => readText
  | BITMAP => readBitmap fuel
  | RECTANGLE => readRectangle
  | ELLIPSE => readEllipse
  | POLYGON => readPolygon fuel
  | CURVE => readCurve fuel
  | IMAGE => readImage
  | TEXT_FRAME => readTextFrame
  | TABLE => readTable
  | GROUP_START => onCollector ZMFCollector.startGroup
  | GROUP_END => onCollector ZMFCollector.endGroup
  | _ => ret tt
  end.

(** The [while (true)] loop of [readLayer]; [n] bounds its iterations. *)
Fixpoint readLayerObjects (n : nat) (fuel : nat) : M (t S) unit :=
  match n with
  | O => stop OutOfFuel
  | Datatypes.S n' =>
      let* header := readObjectHeader in
      modify (set_currentObjectHeader header) ;;;
      match type header with
      | LAYER_END =>
          onInput (seek (nextObjectOffset header)) ;;;
          onCollector ZMFCollector.endLayer
      | BITMAP =>
          readObject fuel BITMAP ;;;
          readLayerObjects n' fuel
      | other =>
          readObject fuel other ;;;
          onInput (seek (nextObjectOffset header)) ;;;
          readLayerObjects n' fuel
      end
  end.

Definition readLayer (fuel : nat) (layerStartObjHeader : ObjectHeader) : M (t S) unit :=
  match type layerStartObjHeader with
  | LAYER_START =>
      onCollector ZMFCollector.startLayer ;;;
      onInput (seek (nextObjectOffset layerStartObjHeader)) ;;;
      readLayerObjects fuel fuel
  | _ => throw GenericException
  end.

(** The first loop of [readPage]: colour palettes are skipped. *)
Fixpoint skipColorPalettes (n : nat) : M (t S) ObjectHeader :=
  match n with
  | O => stop OutOfFuel
  | Datatypes.S n' =>
      let* startPageHeader := readObjectHeader in
      match type startPageHeader with
      | COLOR_PALETTE =>
          onInput (seek (nextObjectOffset startPageHeader)) ;;;
          skipColorPalettes n'
      | _ => ret startPageHeader
      end
  end.

(** The [do ... while] loop that skips the first (master) page. *)
Fixpoint skipMasterPage (n : nat) (startPageHeader : ObjectHeader) : M (t S) ObjectHeader :=
  match n with
  | O => stop OutOfFuel
  | Datatypes.S n' =>
      onInput (seek (nextObjectOffset startPageHeader)) ;;;
      let* next := readObjectHeader in
      match type next with
      | PAGE_START => ret next
      | _ => skipMasterPage n' next
      end
  end.

(** The last loop of [readPage]: the objects of the page. *)
Fixpoint readPageObjects (n : nat) (fuel : nat) : M (t S) unit :=
  match n with
  | O => stop OutOfFuel
  | Datatypes.S n' =>
      let* header := readObjectHeader in
      match type header with
      | GUIDELINES =>
          onInput (seek (nextObjectOffset header)) ;;;
          readPageObjects n' fuel
      | PAGE_END =>
          onCollector ZMFCollector.endPage ;;;
          let* atEnd := onInput isEnd in
          if atEnd then ret tt else onInput (seek (nextObjectOffset header))
      | LAYER_START =>
          readLayer fuel header ;;;
          readPageObjects n' fuel
      | _ => throw GenericException
      end
  end.

Definition readPage (fuel : nat) : M (t S) unit :=
  let* first := skipColorPalettes fuel in
  match type first with
  | PAGE_START =>
      let* pageNumber := gets m_pageNumber in
      modify (set_pageNumber (pageNumber + 1)) ;;;
      let* startPageHeader :=
        (if pageNumber + 1 =? 1 then skipMasterPage fuel first else ret first) in
      let* pageSettings := gets m_pageSettings in
      onCollector (ZMFCollector.startPage pageSettings) ;;;
      onInput (seek (nextObjectOffset startPageHeader)) ;;;
      readPageObjects fuel fuel
  | _ => throw GenericException
  end.

(** [while (!m_input->isEnd ()) readPage ();] *)
Fixpoint readPages (n : nat) (fuel : nat) : M (t S) unit :=
  let* atEnd := onInput isEnd in
  if atEnd then ret tt
  else match n with
       | O => stop OutOfFuel
       | Datatypes.S n' => readPage fuel ;;; readPages n' fuel
       end.

Definition parse (fuel : nat) : M (t S) bool :=
  let* length := onInput (getLength fuel) in
  modify (set_inputLength (u32 length)) ;;;
  let* header0 := gets m_header in
  let* loaded := onInput (ZMF4Header.load header0) in
  modify (set_header (snd loaded)) ;;;
  if negb (fst loaded) || negb (ZMF4Header.isSupported (snd loaded)) then ret false
  else
    onCollector ZMFCollector.startDocument ;;;
    (if 0 <? ZMF4Header.m_startBitmapOffset (snd loaded) then
       onInput (seek (ZMF4Header.m_startBitmapOffset (snd loaded))) ;;;
       readPreviewBitmap
     else onInput (seek (ZMF4Header.m_startContentOffset (snd loaded)))) ;;;
    readDocumentSettings ;;;
    readPages fuel fuel ;;;
    onCollector ZMFCollector.endDocument ;;;
    ret true.

(** The parser object's life: construction over the sink, [parse], and the
    destructor of the collector, which runs on return and on unwinding alike.
    A run that stops (an abort, undefined behaviour, or the model out of fuel)
    runs no destructor: the sink is left with what it had received.  The
    result is what [parse] gave and the calls the sink has received. *)
Definition run (fuel : nat) (input : S) (painter : list PainterCall)
  : outcome bool * list PainterCall :=
  let (r, p) := parse fuel (new input painter) in
  match r with
  | Halt _ => (r, ZMFCollector.m_painter (m_collector p))
  | _ => (r, ZMFCollector.m_painter (ZMFCollector.destroy (m_collector p)))
  end.

End Readers.

End ZMF4Parser.

(* ------------------------------------------------------------------------- *)
(** ** The other two parsers *)

Section OtherParsers.
Context {S : Type} {IS : RVNGInputStream S} {E : Externals}.

(** [px2in (px, dpi = 72)] *)
Definition px2in (px : Z) : double := (double_of_Z px / 72)%float.

(** [BMIParser::parse]: the result, the stream, and the calls the sink has
    received. *)
Definition BMIParser_parse (fuel : nat) (input : S) (painter : list PainterCall)
  : outcome bool * S * list PainterCall :=
  match BMIParser.readImage fuel BMIHeader.new input with
  | (Ret (bitmap, header), input') =>
      match image_data bitmap with
      | [] => (Ret false, input', painter)
      | _ =>
          let c0 := ZMFCollector.new painter in
          let c1 := ZMFCollector.startDocument c0 in
          let c2 := ZMFCollector.startPage
                      (mkPageSettings 8.5%float 11%float 0%float 0%float (mkColor 255 255 255))
                      c1 in
          let c3 := ZMFCollector.startLayer c2 in
          let c4 := ZMFCollector.collectImage (image_data bitmap) (mkPoint 0 0)
                      (px2in (BMIHeader.m_width header)) (px2in (BMIHeader.m_height header))
                      0%float false false c3 in
          let c5 := ZMFCollector.endLayer c4 in
          let c6 := ZMFCollector.endPage c5 in
          let c7 := ZMFCollector.endDocument c6 in
          (Ret true, input', ZMFCollector.m_painter (ZMFCollector.destroy c7))
      end
  | (Throw e, input') => (Throw e, input', painter)
  | (Halt h, input') => (Halt h, input', painter)
  end.

(** [ZBRParser::parse] *)
Definition ZBRParser_parse (input : S) (painter : list PainterCall)
  : outcome bool * S * list PainterCall :=
  match ZBRHeader.load ZBRHeader.new input with
  | (Ret (loaded, header), input') =>
      if negb loaded || negb (ZBRHeader.isSupported header) then (Ret false, input', painter)
      else
        let c := ZMFCollector.endDocument (ZMFCollector.startDocument (ZMFCollector.new painter)) in
        (Ret true, input', ZMFCollector.m_painter (ZMFCollector.destroy c))
  | (Throw e, input') => (Throw e, input', painter)
  | (Halt h, input') => (Halt h, input', painter)
  end.

End OtherParsers.

(* ------------------------------------------------------------------------- *)
(** ** ZMFDocument *)

Module ZMFDocument.

Inductive Type_ : Type := TYPE_UNKNOWN | TYPE_DRAW | TYPE_ZEBRA | TYPE_BITMAP.

Inductive Kind : Type := KIND_UNKNOWN | KIND_DRAW | KIND_PAINT.

Record DetectionInfo (S : Type) : Type := mkDetectionInfo {
  m_content : option S;
  m_package : option S;
  m_type : Type_;
  m_kind : Kind
}.

Arguments mkDetectionInfo {S}.
Arguments m_content {S}.
Arguments m_package {S}.
Arguments m_type {S}.
Arguments m_kind {S}.

Section Document.
Context {S : Type} {IS : RVNGInputStream S} {E : Externals}.

(** [detectFormat<THeader> (info, type, kind)] for a header type whose [load]
    and [isSupported] are given: the result and the detection record.  A null
    content stream makes [seek] throw, which is caught like any exception (the
    header loaders have no unbounded loop and never halt). *)
Definition detectFormat {H : Type} (new : H) (load : H -> M S (bool * H))
    (isSupported : H -> bool) (info : DetectionInfo S) (type : Type_) (kind : Kind)
  : bool * DetectionInfo S :=
  match m_content info with
  | None => (false, info)
  | Some content =>
      match (seek 0 ;;; load new) content with
      | (Ret (loaded, header), content') =>
          if loaded && isSupported header
          then (true, mkDetectionInfo (Some content') (m_package info) type kind)
          else (false, mkDetectionInfo (Some content') (m_package info) (m_type info) (m_kind info))
      | (_, content') =>
          (false, mkDetectionInfo (Some content') (m_package info) (m_type info) (m_kind info))
      end
  end.

Definition content_zmf : string := "content.zmf".

(** [detect (input, info)], from an empty detection record. *)
Definition detect (input : S) : bool * DetectionInfo S :=
  if rvng_isStructured input then
    let info1 := mkDetectionInfo None (Some input) TYPE_UNKNOWN KIND_UNKNOWN in
    if rvng_existsSubStream input content_zmf then
      detectFormat ZMF4Header.new ZMF4Header.load ZMF4Header.isSupported
        (mkDetectionInfo (rvng_getSubStreamByName input content_zmf) (Some input)
                         TYPE_UNKNOWN KIND_UNKNOWN)
        TYPE_DRAW KIND_DRAW
    else (false, info1)
  else
    let info1 := mkDetectionInfo (Some input) None TYPE_UNKNOWN KIND_UNKNOWN in
    let (isDraw, info2) :=
      detectFormat ZMF4Header.new ZMF4Header.load ZMF4Header.isSupported info1
                   TYPE_DRAW KIND_DRAW in
    if isDraw then (true, info2)
    else
      let (isBitmap, info3) :=
        detectFormat BMIHeader.new BMIHeader.load BMIHeader.isSupported info2
                     TYPE_BITMAP KIND_PAINT in
      if isBitmap then (true, info3)
      else detectFormat ZBRHeader.new ZBRHeader.load ZBRHeader.isSupported info3
                        TYPE_ZEBRA KIND_DRAW.

(** [ZMFDocument::isSupported (input, type, kind)] *)
Definition isSupported (input : S) : bool * Type_ * Kind :=
  let (ok, info) := detect input in
  if ok then (true, m_type info, m_kind info) else (false, TYPE_UNKNOWN, KIND_UNKNOWN).

(** [catch (...) { return false; }] around a parser's result. *)
Definition caught (r : outcome bool) : outcome bool :=
  match r with
  | Throw _ => Ret false
  | other => other
  end.

(** [ZMFDocument::parse (input, painter)]: the result, and the calls the sink
    has received when it returns. *)
Definition parse (fuel : nat) (input : S) (painter : list PainterCall)
  : outcome bool * list PainterCall :=
  match detect input with
  | (false, _) => (Ret false, painter)
  | (true, info) =>
      match m_content info with
      | None => (Halt EmptyOptionalAccess, painter)
      | Some content =>
          let content0 := snd (rvng_seek content 0 RVNG_SEEK_SET) in
          match m_type info with
          | TYPE_DRAW =>
              let (r, calls) := ZMF4Parser.run fuel content0 painter in (caught r, calls)
          | TYPE_ZEBRA =>
              let '(r, _, calls) := ZBRParser_parse content0 painter in (caught r, calls)
          | TYPE_BITMAP =>
              let '(r, _, calls) := BMIParser_parse fuel content0 painter in (caught r, calls)
          | TYPE_UNKNOWN => (Ret false, painter)
          end
      end
  end.

End Document.

End ZMFDocument.

(* ========================================================================= *)
(** * Properties *)

Section UtilsFacts.
Context {S : Type} {IS : RVNGInputStream S}.

Lemma bind_ret_inv {St A B} (m : M St A) (k : A -> M St B) s b s' :
  bind m k s = (Ret b, s') ->
  exists a s1, m s = (Ret a, s1) /\ k a s1 = (Ret b, s').
Proof.
  unfold bind. destruct (m s) as [[a | e | h] s1]; intros H; try discriminate.
  exists a, s1. split; [reflexivity | exact H].
Qed.

Lemma bind_inv {St A B} (m : M St A) (k : A -> M St B) s r s' :
  bind m k s = (r, s') ->
  (exists a s1, m s = (Ret a, s1) /\ k a s1 = (r, s')) \/
  (exists e, m s = (Throw e, s') /\ r = Throw e) \/
  (exists h, m s = (Halt h, s') /\ r = Halt h).
Proof.
  unfold bind. destruct (m s) as [[a | e | h] s1]; intros H.
  - left. exists a, s1. split; [reflexivity | exact H].
  - right. left. injection H as <- <-. exists e. split; reflexivity.
  - right. right. injection H as <- <-. exists h. split; reflexivity.
Qed.

Lemma bind_eq_ret {St A B} (m : M St A) (k : A -> M St B) s a s1 :
  m s = (Ret a, s1) -> bind m k s = k a s1.
Proof. unfold bind. intros ->. reflexivity. Qed.

Lemma bind_eq_throw {St A B} (m : M St A) (k : A -> M St B) s e s1 :
  m s = (Throw e, s1) -> bind m k s = (Throw e, s1).
Proof. unfold bind. intros ->. reflexivity. Qed.

Lemma bind_eq_halt {St A B} (m : M St A) (k : A -> M St B) s h s1 :
  m s = (Halt h, s1) -> bind m k s = (Halt h, s1).
Proof. unfold bind. intros ->. reflexivity. Qed.

Lemma checkStream_not_end (s : S) : rvng_isEnd s = false -> checkStream s = (Ret tt, s).
Proof. unfold checkStream. intros ->. reflexivity. Qed.

Lemma checkStream_end (s : S) :
  rvng_isEnd s = true -> checkStream s = (Throw EndOfStreamException, s).
Proof. unfold checkStream. intros ->. reflexivity. Qed.

(** What [getLength] does once the cursor has been moved to the end. *)
Lemma getLength_after_seekToEnd fuel (s s_e : S) :
  rvng_isEnd s = false ->
  seekToEnd fuel s = (Ret tt, s_e) ->
  getLength fuel s =
    if rvng_tell s_e <? rvng_tell s then (Throw SeekFailedException, s_e)
    else (seek (rvng_tell s) ;;; ret (rvng_tell s_e - rvng_tell s)) s_e.
Proof.
  intros Hend Hse. unfold getLength.
  rewrite (bind_eq_ret _ _ _ _ _ (checkStream_not_end s Hend)).
  unfold tell at 1, gets at 1. unfold bind at 1.
  rewrite (bind_eq_ret _ _ _ _ _ Hse).
  unfold tell, gets. unfold bind at 1.
  destruct (rvng_tell s_e <? rvng_tell s); reflexivity.
Qed.

End UtilsFacts.

Section GetLength.
Context {S : Type} {IS : RVNGInputStream S}.

(** The one law of the stream interface the frame property rests on: a
    successful absolute seek puts the cursor where it was asked to. *)
Definition seek_set_law : Prop :=
  forall (s s' : S) (p : Z), rvng_seek s p RVNG_SEEK_SET = (0, s') -> rvng_tell s' = p.

(** C10 (amended).  [getLength] on a stream that is at its end on entry throws
    the end-of-stream exception and leaves the stream as it was.  On a stream
    that is not at its end: once the cursor has been moved to the end (by the
    end-relative seek, or by reading to the end when that seek is refused), it
    throws if the end lies before the entry position or the seek back fails;
    otherwise it returns end minus entry position with the cursor back at the
    entry position.  An exception raised while reading to the end propagates. *)
Theorem getLength_frame (Hlaw : seek_set_law) (fuel : nat) (s : S) :
  (rvng_isEnd s = true -> getLength fuel s = (Throw EndOfStreamException, s)) /\
  (rvng_isEnd s = false ->
   (forall e s_e, seekToEnd fuel s = (Throw e, s_e) -> getLength fuel s = (Throw e, s_e)) /\
   (forall s_e, seekToEnd fuel s = (Ret tt, s_e) ->
      (rvng_tell s_e < rvng_tell s -> getLength fuel s = (Throw SeekFailedException, s_e)) /\
      (rvng_tell s <= rvng_tell s_e ->
       forall status s', rvng_seek s_e (rvng_tell s) RVNG_SEEK_SET = (status, s') ->
         (status = 0 ->
          getLength fuel s = (Ret (rvng_tell s_e - rvng_tell s), s') /\ rvng_tell s' = rvng_tell s) /\
         (status <> 0 -> getLength fuel s = (Throw SeekFailedException, s'))))).
Proof.
  split.
  - intros Hend. unfold getLength. apply bind_eq_throw. now apply checkStream_end.
  - intros Hend. split.
    + intros e s_e Hse. unfold getLength.
      rewrite (bind_eq_ret _ _ _ _ _ (checkStream_not_end s Hend)).
      unfold tell at 1, gets at 1. unfold bind at 1.
      now apply bind_eq_throw.
    + intros s_e Hse. rewrite (getLength_after_seekToEnd fuel s s_e Hend Hse). split.
      * intros Hlt. apply Z.ltb_lt in Hlt. now rewrite Hlt.
      * intros Hle. apply Z.ltb_ge in Hle. rewrite Hle.
        intros status s' Hseek. unfold bind, seek, ret. rewrite Hseek. split.
        -- intros ->. simpl. split; [reflexivity | now apply (Hlaw s_e s')].
        -- intros Hne. apply Z.eqb_neq in Hne. now rewrite Hne.
Qed.

End GetLength.

(** The in-memory stream obeys the seek law. *)
Lemma MemStream_seek_set_law : seek_set_law (S := MemStream).
Proof.
  intros s s' p. simpl. unfold ms_seek, ms_moveTo.
  destruct (p <? 0); [discriminate |].
  destruct (ms_size s <? p); [discriminate |].
  intros H. injection H as <-. reflexivity.
Qed.

Lemma getLength_frame_witness :
  let s := mkMemStream [1; 2; 3; 4; 5] 2 false in
  (rvng_isEnd s = true -> getLength 3 s = (Throw EndOfStreamException, s)) /\
  (rvng_isEnd s = false ->
   (forall e s_e, seekToEnd 3 s = (Throw e, s_e) -> getLength 3 s = (Throw e, s_e)) /\
   (forall s_e, seekToEnd 3 s = (Ret tt, s_e) ->
      (rvng_tell s_e < rvng_tell s -> getLength 3 s = (Throw SeekFailedException, s_e)) /\
      (rvng_tell s <= rvng_tell s_e ->
       forall status s', rvng_seek s_e (rvng_tell s) RVNG_SEEK_SET = (status, s') ->
         (status = 0 ->
          getLength 3 s = (Ret (rvng_tell s_e - rvng_tell s), s') /\ rvng_tell s' = rvng_tell s) /\
         (status <> 0 -> getLength 3 s = (Throw SeekFailedException, s'))))).
Proof. exact (getLength_frame MemStream_seek_set_law 3 (mkMemStream [1; 2; 3; 4; 5] 2 false)). Defined.

(** C10 as stated fails on a stream that is already at its end: no length is
    returned, [checkStream] throws. *)
Lemma getLength_at_end_throws :
  getLength 0 (memStream []) = (Throw EndOfStreamException, memStream []).
Proof. reflexivity. Qed.

Example getLength_example :
  getLength 0 (mkMemStream [1; 2; 3; 4; 5] 2 true) = (Ret 3, mkMemStream [1; 2; 3; 4; 5] 2 true).
Proof. reflexivity. Qed.

Example getLength_example_no_seek_end :
  getLength 3 (mkMemStream [1; 2; 3; 4; 5] 2 false) = (Ret 3, mkMemStream [1; 2; 3; 4; 5] 2 false).
Proof. reflexivity. Qed.

(* ------------------------------------------------------------------------- *)
(** ** BoundingBox construction *)

(** The values libm gives at the arguments that occur for a box whose corners
    coincide ([atan2 (0, 0) = 0], [hypot (0, 0) = 0]) and for axis-parallel
    boxes; the inflater, the PNG writer and the converter are not reached by
    the examples that use it and refuse their input. *)
Definition libm_on_axes : Externals := {|
  libm_atan2 y x :=
    (if y =? 0 then (if x <? 0 then pi else 0)
     else if x =? 0 then (if y <? 0 then - (pi / 2) else pi / 2) else nan)%float;
  libm_cos a := (if a =? 0 then 1 else nan)%float;
  libm_sin a := (if a =? 0 then 0 else nan)%float;
  libm_hypot x y := (if x =? 0 then abs y else if y =? 0 then abs x else nan)%float;
  f32_div a n := (a / double_of_Z n)%float;
  zlib_inflate _ := None;
  png_encode _ _ _ := None;
  icu_utf16le_code_points _ := []
|}.

(** C6 (amended).  Constructing a [BoundingBox] fails, with the generic
    exception, exactly when the number of points is not four; any four points,
    identical or not, make a box. *)
Theorem BoundingBox_new_fails_iff (E : Externals) (points_ : list Point) :
  (length points_ <> 4%nat -> BoundingBox_new points_ = Throw GenericException) /\
  (length points_ = 4%nat -> exists b, BoundingBox_new points_ = Ret b /\ m_points b = points_).
Proof.
  split.
  - intros Hlen. destruct points_ as [| p0 [| p1 [| p2 [| p3 [| p4 rest]]]]];
      try reflexivity. now elim Hlen.
  - intros Hlen. destruct points_ as [| p0 [| p1 [| p2 [| p3 [| p4 rest]]]]];
      try discriminate.
    eexists. split; reflexivity.
Qed.

(** C6 as stated fails: four identical points make a (degenerate) box. *)
Lemma BoundingBox_new_identical_points :
  let p := mkPoint 1 1 in
  BoundingBox_new (E := libm_on_axes) [p; p; p; p]
  = Ret (mkBoundingBox [p; p; p; p] 0 0 p 0 3 3 false true).
Proof. vm_compute. reflexivity. Qed.

Example float_of_bits_one : float_of_bits 0x3f800000 = 1%float.
Proof. vm_compute. reflexivity. Qed.

Example float_of_bits_minus_half : float_of_bits 0xbf000000 = (-0.5)%float.
Proof. vm_compute. reflexivity. Qed.

Example um2in_inch : um2in 25400 = 1%float.
Proof. vm_compute. reflexivity. Qed.

(** The first box of the unit test [testBBoxQuadrants]. *)
Example testBBoxQuadrants_first :
  match BoundingBox_new (E := libm_on_axes)
          [mkPoint 10 10; mkPoint 12 10; mkPoint 12 12; mkPoint 10 12] with
  | Ret b => (m_p1Quadrant b, m_p2Quadrant b) = (2, 1)
  | _ => False
  end.
Proof. vm_compute. reflexivity. Qed.

(* ------------------------------------------------------------------------- *)
(** ** Bitmap dimension reconciliation *)

(** Two of three values agree. *)
Definition twoAgree (v1 v2 v3 : Z) : Prop := v1 = v2 \/ v1 = v3 \/ v2 = v3.

(** [m] is a value that at least two of the three have. *)
Definition isMajority (m v1 v2 v3 : Z) : Prop :=
  (m = v1 /\ m = v2) \/ (m = v1 /\ m = v3) \/ (m = v2 /\ m = v3).

Lemma reconcileValue_spec (v1 v2 v3 : Z) :
  (fst (BMIHeader.reconcileValue v1 v2 v3) = true <-> twoAgree v1 v2 v3) /\
  (fst (BMIHeader.reconcileValue v1 v2 v3) = true ->
   exists m, snd (BMIHeader.reconcileValue v1 v2 v3) = (m, m, m) /\ isMajority m v1 v2 v3) /\
  (fst (BMIHeader.reconcileValue v1 v2 v3) = false ->
   snd (BMIHeader.reconcileValue v1 v2 v3) = (v1, v2, v3)).
Proof.
  unfold BMIHeader.reconcileValue, twoAgree, isMajority.
  destruct (Z.eqb_spec v1 v2) as [-> | H12].
  - destruct (Z.eqb_spec v2 v3) as [-> | H23]; simpl.
    + repeat split; auto. intros _. exists v3. auto.
    + repeat split; auto; try discriminate. intros _. exists v2. auto.
  - destruct (Z.eqb_spec v1 v3) as [-> | H13]; simpl.
    + repeat split; auto; try discriminate. intros _. exists v3. auto.
    + destruct (Z.eqb_spec v2 v3) as [-> | H23]; simpl.
      * repeat split; auto; try discriminate. intros _. exists v3. auto.
      * repeat split; auto; try discriminate. intros [? | [? | ?]]; contradiction.
Qed.

Section Reconcile.
Context {S : Type} {IS : RVNGInputStream S} {E : Externals}.

Lemma reconcileDimensions_false_iff header c t :
  fst (BMIParser.reconcileDimensions header c t) = false <->
  ~ twoAgree (BMIHeader.m_width header) (BMIParser.m_width c) (BMIParser.m_width t) \/
  ~ twoAgree (BMIHeader.m_height header) (BMIParser.m_height c) (BMIParser.m_height t).
Proof.
  unfold BMIParser.reconcileDimensions, BMIHeader.reconcileWidth, BMIHeader.reconcileHeight.
  pose proof (reconcileValue_spec (BMIHeader.m_width header) (BMIParser.m_width c)
                (BMIParser.m_width t)) as (Hw & _ & _).
  pose proof (reconcileValue_spec (BMIHeader.m_height header) (BMIParser.m_height c)
                (BMIParser.m_height t)) as (Hh & _ & _).
  destruct (BMIHeader.reconcileValue (BMIHeader.m_width header) (BMIParser.m_width c)
              (BMIParser.m_width t)) as [okW [[w1 w2] w3]].
  simpl in *. destruct okW; simpl.
  - destruct (BMIHeader.reconcileValue (BMIHeader.m_height header) (BMIParser.m_height c)
                (BMIParser.m_height t)) as [okH [[h1 h2] h3]].
    simpl in *. destruct okH; simpl.
    + split; [discriminate |]. intros [Hn | Hn]; exfalso; apply Hn; tauto.
    + split; [| reflexivity]. intros _. right. intros Hh'. apply Hh in Hh'. discriminate.
  - split; [| reflexivity]. intros _. left. intros Hw'. apply Hw in Hw'. discriminate.
Qed.

(** [reconcileDimensions] succeeds exactly when the widths and the heights
    both have two values that agree, and then leaves the majority width and
    height in the file header and in both bitmap headers, whose other fields
    stay as they were. *)
Lemma reconcileDimensions_spec header c t :
  (fst (BMIParser.reconcileDimensions header c t) = true <->
   twoAgree (BMIHeader.m_width header) (BMIParser.m_width c) (BMIParser.m_width t) /\
   twoAgree (BMIHeader.m_height header) (BMIParser.m_height c) (BMIParser.m_height t)) /\
  (fst (BMIParser.reconcileDimensions header c t) = true ->
   exists w h,
     isMajority w (BMIHeader.m_width header) (BMIParser.m_width c) (BMIParser.m_width t) /\
     isMajority h (BMIHeader.m_height header) (BMIParser.m_height c) (BMIParser.m_height t) /\
     snd (BMIParser.reconcileDimensions header c t)
     = (BMIHeader.mk (BMIHeader.m_signature header) (BMIHeader.m_size header)
                     (BMIHeader.m_startOffset header) w h (BMIHeader.m_isPaletteMode header)
                     (BMIHeader.m_colorDepth header) (BMIHeader.m_offsets header),
        BMIParser.mkColorBitmapHeader w h (BMIParser.m_colorDepth c)
                                      (BMIParser.m_startOffset c) (BMIParser.m_endOffset c),
        BMIParser.mkColorBitmapHeader w h (BMIParser.m_colorDepth t)
                                      (BMIParser.m_startOffset t) (BMIParser.m_endOffset t))).
Proof.
  unfold BMIParser.reconcileDimensions, BMIHeader.reconcileWidth, BMIHeader.reconcileHeight.
  pose proof (reconcileValue_spec (BMIHeader.m_width header) (BMIParser.m_width c)
                (BMIParser.m_width t)) as (Hw & Hmw & _).
  destruct (BMIHeader.reconcileValue (BMIHeader.m_width header) (BMIParser.m_width c)
              (BMIParser.m_width t)) as [okW [[w1 w2] w3]].
  cbn [fst snd] in *. destruct okW; cbn [fst snd BMIHeader.m_height BMIParser.m_height
                                          BMIParser.m_width BMIHeader.m_width].
  - destruct (Hmw eq_refl) as (w & Heqw & Hmajw). injection Heqw as -> -> ->.
    pose proof (reconcileValue_spec (BMIHeader.m_height header) (BMIParser.m_height c)
                  (BMIParser.m_height t)) as (Hh & Hmh & _).
    destruct (BMIHeader.reconcileValue (BMIHeader.m_height header) (BMIParser.m_height c)
                (BMIParser.m_height t)) as [okH [[h1 h2] h3]].
    cbn [fst snd] in *. destruct okH; cbn [fst snd].
    + destruct (Hmh eq_refl) as (h & Heqh & Hmajh). injection Heqh as -> -> ->.
      split; [split; [intros _; split; [apply Hw | apply Hh]; reflexivity | reflexivity] |].
      intros _. exists w, h. repeat split; assumption.
    + split; [| discriminate]. split; [discriminate |].
      intros [_ Hagree]. now apply Hh.
  - split; [| discriminate]. split; [discriminate |].
    intros [Hagree _]. now apply Hw.
Qed.

(** C3.  Reconciliation of the three widths (header, colour bitmap,
    transparency bitmap) succeeds if and only if at least two of them are
    equal; when it succeeds all three variables hold the majority value; the
    same for the heights.  [reconcileDimensions] succeeds exactly when both
    do, and then the file header and both bitmap headers hold the majority
    width and height, their other fields unchanged.  In [readImage], for a
    file with a colour and a transparency bitmap: when the widths or the
    heights are pairwise different the empty image is returned; otherwise the
    image is decoded from the reconciled headers. *)
Theorem reconcile_majority :
  (forall h cw tw,
     (fst (BMIHeader.reconcileWidth h cw tw) = true <-> twoAgree (BMIHeader.m_width h) cw tw) /\
     (fst (BMIHeader.reconcileWidth h cw tw) = true ->
      exists m h', snd (BMIHeader.reconcileWidth h cw tw) = (h', m, m) /\
                   BMIHeader.m_width h' = m /\ isMajority m (BMIHeader.m_width h) cw tw)) /\
  (forall h ch th,
     (fst (BMIHeader.reconcileHeight h ch th) = true <-> twoAgree (BMIHeader.m_height h) ch th) /\
     (fst (BMIHeader.reconcileHeight h ch th) = true ->
      exists m h', snd (BMIHeader.reconcileHeight h ch th) = (h', m, m) /\
                   BMIHeader.m_height h' = m /\ isMajority m (BMIHeader.m_height h) ch th)) /\
  (forall header c t,
     (fst (BMIParser.reconcileDimensions header c t) = true <->
      twoAgree (BMIHeader.m_width header) (BMIParser.m_width c) (BMIParser.m_width t) /\
      twoAgree (BMIHeader.m_height header) (BMIParser.m_height c) (BMIParser.m_height t)) /\
     (fst (BMIParser.reconcileDimensions header c t) = true ->
      exists w h,
        isMajority w (BMIHeader.m_width header) (BMIParser.m_width c) (BMIParser.m_width t) /\
        isMajority h (BMIHeader.m_height header) (BMIParser.m_height c)
                   (BMIParser.m_height t) /\
        snd (BMIParser.reconcileDimensions header c t)
        = (BMIHeader.mk (BMIHeader.m_signature header) (BMIHeader.m_size header)
                        (BMIHeader.m_startOffset header) w h
                        (BMIHeader.m_isPaletteMode header) (BMIHeader.m_colorDepth header)
                        (BMIHeader.m_offsets header),
           BMIParser.mkColorBitmapHeader w h (BMIParser.m_colorDepth c)
                                         (BMIParser.m_startOffset c) (BMIParser.m_endOffset c),
           BMIParser.mkColorBitmapHeader w h (BMIParser.m_colorDepth t)
                                         (BMIParser.m_startOffset t)
                                         (BMIParser.m_endOffset t)))) /\
  (forall fuel m_header (s s1 s2 : S) header c t,
     BMIHeader.load m_header s = (Ret (true, header), s1) ->
     BMIHeader.isSupported header = true ->
     BMIParser.parseBitmapHeaders header (BMIHeader.m_offsets header) None None s1
       = (Ret (Some c, Some t), s2) ->
     (~ twoAgree (BMIHeader.m_width header) (BMIParser.m_width c) (BMIParser.m_width t) \/
      ~ twoAgree (BMIHeader.m_height header) (BMIParser.m_height c) (BMIParser.m_height t) ->
      exists header',
        BMIParser.readImage fuel m_header s = (Ret (Image_default, header'), s2)) /\
     (twoAgree (BMIHeader.m_width header) (BMIParser.m_width c) (BMIParser.m_width t) /\
      twoAgree (BMIHeader.m_height header) (BMIParser.m_height c) (BMIParser.m_height t) ->
      exists header' c' t',
        snd (BMIParser.reconcileDimensions header c t) = (header', c', t') /\
        BMIParser.readImage fuel m_header s
        = BMIParser.decodeImage fuel header' c' (Some t') s2)).
Proof.
  split; [| split; [| split]].
  - intros h cw tw. unfold BMIHeader.reconcileWidth.
    pose proof (reconcileValue_spec (BMIHeader.m_width h) cw tw) as (Hiff & Hmaj & _).
    destruct (BMIHeader.reconcileValue (BMIHeader.m_width h) cw tw) as [ok [[v1 v2] v3]].
    simpl in *. split; [exact Hiff |].
    intros Hok. destruct (Hmaj Hok) as (m & Heq & Hm). injection Heq as -> -> ->.
    eexists m, _. split; [reflexivity |]. split; [reflexivity | exact Hm].
  - intros h ch th. unfold BMIHeader.reconcileHeight.
    pose proof (reconcileValue_spec (BMIHeader.m_height h) ch th) as (Hiff & Hmaj & _).
    destruct (BMIHeader.reconcileValue (BMIHeader.m_height h) ch th) as [ok [[v1 v2] v3]].
    simpl in *. split; [exact Hiff |].
    intros Hok. destruct (Hmaj Hok) as (m & Heq & Hm). injection Heq as -> -> ->.
    eexists m, _. split; [reflexivity |]. split; [reflexivity | exact Hm].
  - intros header c t. apply reconcileDimensions_spec.
  - intros fuel m_header s s1 s2 header c t Hload Hsup Hhdrs.
    assert (Hread : BMIParser.readImage fuel m_header s
                    = match BMIParser.reconcileDimensions header c t with
                      | (false, (header', _, _)) => (Ret (Image_default, header'), s2)
                      | (true, (header', c', t')) =>
                          BMIParser.decodeImage fuel header' c' (Some t') s2
                      end).
    { unfold BMIParser.readImage.
      rewrite (bind_eq_ret _ _ _ _ _ Hload). cbn [fst snd].
      rewrite Hsup. cbn [negb orb].
      rewrite (bind_eq_ret _ _ _ _ _ Hhdrs).
      destruct (BMIParser.reconcileDimensions header c t) as [[|] [[h' c'] t']]; reflexivity. }
    split.
    + intros Hdiff. apply reconcileDimensions_false_iff in Hdiff. rewrite Hread.
      destruct (BMIParser.reconcileDimensions header c t) as [ok [[h' c'] t']].
      simpl in Hdiff. subst ok. exists h'. reflexivity.
    + intros Hagree. apply (proj1 (reconcileDimensions_spec header c t)) in Hagree.
      rewrite Hread.
      destruct (BMIParser.reconcileDimensions header c t) as [ok [[h' c'] t']].
      simpl in Hagree. subst ok. exists h', c', t'. split; reflexivity.
Qed.

End Reconcile.

(* ------------------------------------------------------------------------- *)
(** ** Palette indexes *)

Lemma paletteIndex_mod (colorDepth indexes : Z) :
  colorDepth = 1 \/ colorDepth = 4 \/ colorDepth = 8 ->
  BMIParser.paletteIndex colorDepth indexes
  = (Z.shiftr indexes (8 - colorDepth)) mod 2 ^ colorDepth.
Proof.
  intros [-> | [-> | ->]]; unfold BMIParser.paletteIndex; rewrite Z.shiftr_land.
  - change (Z.shiftr (BMIParser.pixelMask 1) (BMIParser.pixelShift 1)) with (Z.ones 1).
    change (BMIParser.pixelShift 1) with 7. rewrite Z.land_ones by lia.
    unfold u8. change (8 - 1) with 7. rewrite Z.mod_small; [reflexivity |].
    pose proof (Z.mod_pos_bound (Z.shiftr indexes 7) (2 ^ 1)). lia.
  - change (Z.shiftr (BMIParser.pixelMask 4) (BMIParser.pixelShift 4)) with (Z.ones 4).
    change (BMIParser.pixelShift 4) with 4. rewrite Z.land_ones by lia.
    unfold u8. change (8 - 4) with 4. rewrite Z.mod_small; [reflexivity |].
    pose proof (Z.mod_pos_bound (Z.shiftr indexes 4) (2 ^ 4)). lia.
  - change (Z.shiftr (BMIParser.pixelMask 8) (BMIParser.pixelShift 8)) with (Z.ones 8).
    change (BMIParser.pixelShift 8) with 0. rewrite Z.land_ones by lia.
    unfold u8. change (8 - 8) with 0. rewrite Z.mod_mod by lia. reflexivity.
Qed.

Lemma paletteIndex_bound (colorDepth indexes : Z) :
  colorDepth = 1 \/ colorDepth = 4 \/ colorDepth = 8 ->
  0 <= BMIParser.paletteIndex colorDepth indexes < 2 ^ colorDepth.
Proof.
  intros Hd. rewrite (paletteIndex_mod _ _ Hd).
  apply Z.mod_pos_bound. destruct Hd as [-> | [-> | ->]]; lia.
Qed.

Lemma repeatM_length {St A} (n : nat) (body : M St A) (s s' : St) (xs : list A) :
  repeatM n body s = (Ret xs, s') -> length xs = n.
Proof.
  revert s s' xs. induction n as [| n IH]; intros s s' xs H; simpl in H.
  - unfold ret in H. injection H as <- _. reflexivity.
  - apply bind_ret_inv in H as (y & s1 & _ & H).
    apply bind_ret_inv in H as (ys & s2 & Hys & H).
    unfold ret in H. injection H as <- _. simpl. f_equal. exact (IH _ _ _ Hys).
Qed.

Lemma at_in_bounds {A} (v : list A) (i : Z) :
  0 <= i < Z.of_nat (length v) -> exists x, at_ v i = Ret x.
Proof.
  intros Hi. unfold at_. destruct (nth_error v (Z.to_nat i)) as [x |] eqn:Hnth.
  - now exists x.
  - apply nth_error_None in Hnth. lia.
Qed.

Section Palette.
Context {S : Type} {IS : RVNGInputStream S}.

(** C9.  For a colour depth of 1, 4 or 8, every palette index taken from a
    data byte is below [2^depth]; the palette [readColorPalette] reads has
    exactly [2^depth] entries; so every lookup the unpacking loop makes in such
    a palette is within bounds, whatever the data byte. *)
Theorem paletteIndex_in_palette (colorDepth : Z) :
  colorDepth = 1 \/ colorDepth = 4 \/ colorDepth = 8 ->
  (forall indexes, 0 <= BMIParser.paletteIndex colorDepth indexes < 2 ^ colorDepth) /\
  (forall (s s' : S) colorPalette,
     BMIParser.readColorPalette colorDepth s = (Ret colorPalette, s') ->
     Z.of_nat (length colorPalette) = 2 ^ colorDepth) /\
  (forall colorPalette : list Color,
     Z.of_nat (length colorPalette) = 2 ^ colorDepth ->
     (forall indexes, exists color,
        at_ colorPalette (BMIParser.paletteIndex colorDepth indexes) = Ret color) /\
     (forall n width indexes col pixels, exists r,
        BMIParser.unpackIndexes n colorDepth width colorPalette indexes col pixels = Ret r)).
Proof.
  intros Hd. split; [| split].
  - intros indexes. now apply paletteIndex_bound.
  - intros s s' colorPalette H. unfold BMIParser.readColorPalette in H.
    apply repeatM_length in H. rewrite H. rewrite Z.shiftl_1_l.
    apply Z2Nat.id. destruct Hd as [-> | [-> | ->]]; lia.
  - intros colorPalette Hlen.
    assert (Hlookup : forall indexes, exists color,
               at_ colorPalette (BMIParser.paletteIndex colorDepth indexes) = Ret color).
    { intros indexes. apply at_in_bounds. rewrite Hlen. now apply paletteIndex_bound. }
    split; [exact Hlookup |].
    induction n as [| n IH]; intros width indexes col pixels; simpl.
    + eexists. reflexivity.
    + destruct (Hlookup indexes) as (color & ->). simpl.
      destruct (col + 1 =? width); [eexists; reflexivity | apply IH].
Qed.

End Palette.

Lemma paletteIndex_in_palette_witness :
  (forall indexes, 0 <= BMIParser.paletteIndex 4 indexes < 2 ^ 4) /\
  (forall (s s' : MemStream) colorPalette,
     BMIParser.readColorPalette 4 s = (Ret colorPalette, s') ->
     Z.of_nat (length colorPalette) = 2 ^ 4) /\
  (forall colorPalette : list Color,
     Z.of_nat (length colorPalette) = 2 ^ 4 ->
     (forall indexes, exists color,
        at_ colorPalette (BMIParser.paletteIndex 4 indexes) = Ret color) /\
     (forall n width indexes col pixels, exists r,
        BMIParser.unpackIndexes n 4 width colorPalette indexes col pixels = Ret r)).
Proof. apply (paletteIndex_in_palette (S := MemStream) 4). right. left. reflexivity. Defined.

Example paletteIndex_examples :
  (BMIParser.paletteIndex 1 0x80, BMIParser.paletteIndex 4 0xa5,
   BMIParser.paletteIndex 4 (u8 (Z.shiftl 0xa5 4)), BMIParser.paletteIndex 8 0xff)
  = (1, 10, 5, 255).
Proof. reflexivity. Qed.

(* ------------------------------------------------------------------------- *)
(** ** Pen dash patterns *)

Definition sumZ (l : list Z) : Z := fold_left Z.add l 0.

Lemma fold_left_add_shift (l : list Z) (a : Z) : fold_left Z.add l a = a + sumZ l.
Proof.
  unfold sumZ. revert a. induction l as [| x l IH]; intros a; cbn [fold_left].
  - lia.
  - rewrite (IH (a + x)), (IH (0 + x)). lia.
Qed.

Lemma sumZ_app (l1 l2 : list Z) : sumZ (l1 ++ l2) = sumZ l1 + sumZ l2.
Proof.
  unfold sumZ at 1. rewrite fold_left_app. rewrite fold_left_add_shift.
  fold (sumZ l1). lia.
Qed.

(** The runs found in [n] further bits add at most [n] to the lengths counted
    so far, the open run included. *)
Lemma dashRuns_sum (n : nat) (i dashBits curLength : Z) (prevVal : bool) (dashPattern : list Z) :
  1 <= curLength ->
  sumZ dashPattern
  <= sumZ (ZMF4Parser.dashRuns n i dashBits curLength prevVal dashPattern)
  <= sumZ dashPattern + curLength + Z.of_nat n - 1.
Proof.
  revert i curLength prevVal dashPattern.
  induction n as [| n IH]; intros i curLength prevVal dashPattern Hcur.
  - simpl. lia.
  - cbn [ZMF4Parser.dashRuns].
    destruct (Bool.eqb (Z.testbit dashBits i) prevVal).
    + pose proof (IH (i + 1) (curLength + 1) (Z.testbit dashBits i) dashPattern
                     ltac:(lia)). lia.
    + pose proof (IH (i + 1) (0 + 1) (Z.testbit dashBits i) (dashPattern ++ [curLength])
                     ltac:(lia)) as H.
      rewrite sumZ_app in H. change (sumZ [curLength]) with (0 + curLength) in H. lia.
Qed.

Lemma decodeDash_not_all_set (dashBits dashLength : Z) :
  dashBits <> 2 ^ 48 - 1 ->
  ZMF4Parser.decodeDash dashBits dashLength
  = (ZMF4Parser.dashRuns 23 1 dashBits 1 true [],
     Z.max 1 (dashLength / 1024 - sumZ (ZMF4Parser.dashRuns 23 1 dashBits 1 true []))).
Proof.
  intros Hbits. apply Z.eqb_neq in Hbits.
  unfold ZMF4Parser.decodeDash, sumZ. rewrite Hbits. cbv zeta. f_equal.
  destruct (Z.ltb_spec (dashLength / 1024
                        - fold_left Z.add (ZMF4Parser.dashRuns 23 1 dashBits 1 true []) 0) 1); lia.
Qed.

(** [ceil (dashLength / 1024)] *)
Definition dashUnits (dashLength : Z) : Z := (dashLength + 1023) / 1024.

(** C8 (amended).  For dash bits that are not all set, the dash distance is
    [dashLength / 1024 - sum (pattern)] floored at 1, the pattern sums to at
    most 23, and the sum plus the distance is the larger of [dashLength / 1024]
    and the sum plus one.  So the bound [ceil (dashLength / 1024) + 1] holds
    whenever the pattern sums to at most [ceil (dashLength / 1024)], and the
    sum plus the distance never exceeds the larger of [dashLength / 1024]
    and 24. *)
Theorem decodeDash_bound (dashBits dashLength : Z) :
  dashBits <> 2 ^ 48 - 1 ->
  let dashPattern := fst (ZMF4Parser.decodeDash dashBits dashLength) in
  let dashDistance := snd (ZMF4Parser.decodeDash dashBits dashLength) in
  dashDistance = Z.max 1 (dashLength / 1024 - sumZ dashPattern) /\
  0 <= sumZ dashPattern <= 23 /\
  sumZ dashPattern + dashDistance = Z.max (dashLength / 1024) (sumZ dashPattern + 1) /\
  sumZ dashPattern + dashDistance <= Z.max (dashLength / 1024) 24 /\
  (sumZ dashPattern <= dashUnits dashLength ->
   sumZ dashPattern + dashDistance <= dashUnits dashLength + 1).
Proof.
  intros Hbits. rewrite (decodeDash_not_all_set dashBits dashLength Hbits). cbn [fst snd].
  pose proof (dashRuns_sum 23 1 dashBits 1 true [] ltac:(lia)) as Hsum.
  change (sumZ []) with 0 in Hsum. change (Z.of_nat 23) with 23 in Hsum.
  generalize dependent (sumZ (ZMF4Parser.dashRuns 23 1 dashBits 1 true [])).
  intros sum Hsum.
  assert (Hunits : dashLength / 1024 <= dashUnits dashLength).
  { unfold dashUnits. apply Z.div_le_mono; lia. }
  repeat split; lia.
Qed.

Lemma decodeDash_bound_witness :
  let dashPattern := fst (ZMF4Parser.decodeDash 0x0f0f0f 8192) in
  let dashDistance := snd (ZMF4Parser.decodeDash 0x0f0f0f 8192) in
  dashDistance = Z.max 1 (8192 / 1024 - sumZ dashPattern) /\
  0 <= sumZ dashPattern <= 23 /\
  sumZ dashPattern + dashDistance = Z.max (8192 / 1024) (sumZ dashPattern + 1) /\
  sumZ dashPattern + dashDistance <= Z.max (8192 / 1024) 24 /\
  (sumZ dashPattern <= dashUnits 8192 ->
   sumZ dashPattern + dashDistance <= dashUnits 8192 + 1).
Proof. apply (decodeDash_bound 0x0f0f0f 8192). vm_compute. discriminate. Defined.

Example decodeDash_example :
  ZMF4Parser.decodeDash 0x0f0f0f 8192 = ([4; 4; 4; 4; 4], 1).
Proof. reflexivity. Qed.

(** C8 as stated fails: with all dash bits clear and a dash length of 0 the
    pattern is [[1]] and the distance is floored to 1, so the sum plus the
    distance is 2, above [ceil (0 / 1024) + 1 = 1]. *)
Lemma decodeDash_exceeds_bound :
  ZMF4Parser.decodeDash 0 0 = ([1], 1) /\
  ~ (sumZ (fst (ZMF4Parser.decodeDash 0 0)) + snd (ZMF4Parser.decodeDash 0 0)
     <= dashUnits 0 + 1).
Proof. split; [reflexivity | vm_compute; intros H; apply H; reflexivity]. Qed.

(* ------------------------------------------------------------------------- *)
(** ** Test data: object streams *)

Definition le16 (n : Z) : list Z := [n mod 256; (n / 2 ^ 8) mod 256].

Definition le32 (n : Z) : list Z :=
  [n mod 256; (n / 2 ^ 8) mod 256; (n / 2 ^ 16) mod 256; (n / 2 ^ 24) mod 256].

Definition zeros (n : nat) : list Z := repeat 0 n.

(** The 28 bytes [readObjectHeader] reads. *)
Definition objectHeader (size type refObjCount refListStartOffset id : Z) : list Z :=
  le32 size ++ [type] ++ zeros 7 ++ le32 refObjCount ++ le32 refListStartOffset
  ++ zeros 4 ++ le32 id.

(** A parser over [data] with the cursor at [pos], an input length of
    [length data] and [header] as the current object header. *)
Definition parserAt (data : list Z) (pos : Z) (header : ZMF4Parser.ObjectHeader)
  : ZMF4Parser.t MemStream :=
  ZMF4Parser.set_currentObjectHeader header
    (ZMF4Parser.set_inputLength (Z.of_nat (length data))
       (ZMF4Parser.new (mkMemStream data pos true) [])).

(* ------------------------------------------------------------------------- *)
(** ** A bitmap file whose widths disagree *)

(** A file header of width 1 and height 1 with two bitmap blocks, whose
    headers give the widths 2 and 3 and the height 1. *)
Definition bitmapsThatDisagree : list Z :=
  BMIHeader.signature ++ le16 1 ++ le16 1 ++ le16 0 ++ le16 24 ++ zeros 2 ++ le16 3
  ++ le16 1 ++ le32 39 ++ le16 1 ++ le32 45 ++ le16 0xff ++ le32 51
  ++ le16 2 ++ le16 1 ++ le16 24 ++ le16 3 ++ le16 1 ++ le16 24.

Lemma reconcile_majority_witness :
  let s := memStream bitmapsThatDisagree in
  let header :=
    BMIHeader.mk BMIHeader.signature 51 0 1 1 false 24
      [mkBMIOffset BMI_BITMAP 39 45; mkBMIOffset BMI_BITMAP 45 51;
       mkBMIOffset BMI_END_OF_FILE 51 0] in
  let c := BMIParser.mkColorBitmapHeader 2 1 24 55 45 in
  let t := BMIParser.mkColorBitmapHeader 3 1 24 61 51 in
  fst (BMIParser.reconcileDimensions header c t) = false /\
  BMIParser.readImage (E := libm_on_axes) 10 BMIHeader.new s
  = (Ret (Image_default, header), mkMemStream bitmapsThatDisagree 51 true) /\
  exists header',
    BMIParser.readImage (E := libm_on_axes) 10 BMIHeader.new s
    = (Ret (Image_default, header'), mkMemStream bitmapsThatDisagree 51 true).
Proof.
  intros s header c t.
  split; [reflexivity |]. split; [vm_compute; reflexivity |].
  pose proof (reconcile_majority (S := MemStream) (E := libm_on_axes)) as (_ & _ & _ & Hread).
  refine (proj1 (Hread 10%nat BMIHeader.new s (mkMemStream bitmapsThatDisagree 39 true)
                   (mkMemStream bitmapsThatDisagree 51 true) header c t _ _ _) _).
  - vm_compute. reflexivity.
  - vm_compute. reflexivity.
  - vm_compute. reflexivity.
  - left. unfold twoAgree. cbn. lia.
Defined.

(* ------------------------------------------------------------------------- *)
(** ** Curves and their sections *)

(** The points a section consumes. *)
Definition sectionPoints (type : CurveType) : nat :=
  match type with LINE => 1 | BEZIER_CURVE => 3 end.

Definition consumedPoints (sectionTypes : list CurveType) : nat :=
  list_sum (map sectionPoints sectionTypes).

(** The section-consumption invariant of the data model. *)
Definition curveInvariant (curve : Curve) : Prop :=
  (consumedPoints (curve_sectionTypes curve) + 1 <= length (curve_points curve))%nat.

(** The points a path action draws to, the first point of the path apart. *)
Definition actionPoints (action : PathAction) : nat :=
  match action with
  | PathL _ => 1
  | PathC _ _ _ => 3
  | _ => 0
  end.

Definition emittedPoints (path : list PathAction) : nat := list_sum (map actionPoints path).

Lemma emittedPoints_app (p1 p2 : list PathAction) :
  emittedPoints (p1 ++ p2) = (emittedPoints p1 + emittedPoints p2)%nat.
Proof. unfold emittedPoints. now rewrite map_app, list_sum_app. Qed.

Lemma createSections_bounded (points : list Point) (leftOffset topOffset : double)
    (sectionTypes : list CurveType) (i : nat) :
  (i <= length points)%nat ->
  (emittedPoints (createSections points leftOffset topOffset i sectionTypes) + i
   <= length points)%nat.
Proof.
  revert i. induction sectionTypes as [| type rest IH]; intros i Hi.
  - simpl. exact Hi.
  - destruct type; cbn [createSections].
    + destruct (Nat.leb_spec (length points) i).
      * exact (IH i Hi).
      * change (emittedPoints (?a :: ?l)) with (actionPoints a + emittedPoints l)%nat.
        cbn [actionPoints]. specialize (IH (i + 1)%nat ltac:(lia)). lia.
    + destruct (Nat.leb_spec (length points) (i + 2)).
      * exact (IH i Hi).
      * change (emittedPoints (?a :: ?l)) with (actionPoints a + emittedPoints l)%nat.
        cbn [actionPoints]. specialize (IH (i + 3)%nat ltac:(lia)). lia.
Qed.

Lemma rectangleCurve_sections (E : Externals) (points_ : list Point) (bbox : BoundingBox) :
  BoundingBox_new points_ = Ret bbox ->
  ZMF4Parser.rectangleCurve bbox = mkCurve points_ [LINE; LINE; LINE] true /\
  length points_ = 4%nat.
Proof.
  intros H. destruct points_ as [| p0 [| p1 [| p2 [| p3 [| p4 rest]]]]]; try discriminate.
  injection H as <-. split; reflexivity.
Qed.

(** C4 (amended).  The curve [readRectangle] makes of a bounding box satisfies
    the section-consumption invariant (four points, three LINE sections).  For
    the other curves the parser does not compare sections and points; the
    invariant is enforced when a path is made of a curve: [createPath] takes a
    section only while enough points are left, so the sections it emits consume
    at most the number of points minus one. *)
Theorem curve_sections_bounded :
  (forall (E : Externals) points_ bbox,
     BoundingBox_new points_ = Ret bbox -> curveInvariant (ZMF4Parser.rectangleCurve bbox)) /\
  (forall (curve : Curve) (leftOffset topOffset : double),
     (emittedPoints (createCurvePath leftOffset topOffset curve)
      <= length (curve_points curve) - 1)%nat).
Proof.
  split.
  - intros E points_ bbox H.
    destruct (rectangleCurve_sections E points_ bbox H) as [-> Hlen].
    unfold curveInvariant. cbn [curve_sectionTypes curve_points]. rewrite Hlen.
    vm_compute. lia.
  - intros curve leftOffset topOffset. unfold createCurvePath.
    destruct (curve_points curve) as [| p0 [| p1 rest]] eqn:Hpoints;
      try (unfold emittedPoints; simpl; lia).
    change (emittedPoints (?a :: ?l)) with (actionPoints a + emittedPoints l)%nat.
    rewrite emittedPoints_app. cbn [actionPoints].
    pose proof (createSections_bounded (p0 :: p1 :: rest) leftOffset topOffset
                  (curve_sectionTypes curve) 1 ltac:(simpl; lia)) as Hb.
    assert (Hz : emittedPoints (if curve_closed curve then [PathZ] else []) = 0%nat)
      by (destruct (curve_closed curve); reflexivity).
    rewrite Hz. lia.
Qed.

(** One curve component with a single point, followed by two LINE section
    records and the end marker. *)
Definition onePointTwoLines : list Z :=
  le32 1 ++ zeros 8 ++ le32 1 ++ le32 0 ++ zeros 8 ++ le32 1 ++ le32 1 ++ le32 0x64.

(** C4 as stated fails: the curve read from [onePointTwoLines] has one point
    and two LINE sections. *)
Lemma readCurveComponents_breaks_invariant :
  let result :=
    fst (ZMF4Parser.readCurveComponents 10 ZMF4Parser.readUnscaledPoint
           (parserAt onePointTwoLines 0 ZMF4Parser.ObjectHeader_default)) in
  result = Ret [mkCurve [mkPoint 0 0] [LINE; LINE] false] /\
  ~ curveInvariant (mkCurve [mkPoint 0 0] [LINE; LINE] false).
Proof.
  split.
  - vm_compute. reflexivity.
  - unfold curveInvariant. vm_compute. lia.
Qed.

(* ------------------------------------------------------------------------- *)
(** ** Reading from an in-memory stream *)

(** The little-endian 32-bit value at offset [o] of [data]. *)
Definition u32At (data : list Z) (o : Z) : Z := le_value (firstn 4 (skipn (Z.to_nat o) data)).

Lemma ms_read_available (data : list Z) (pos n : Z) (flag : bool) :
  0 <= pos -> 0 <= n -> pos + n <= Z.of_nat (length data) ->
  ms_read (mkMemStream data pos flag) n
  = (firstn (Z.to_nat n) (skipn (Z.to_nat pos) data), mkMemStream data (pos + n) flag).
Proof.
  intros Hpos Hn Hfit. unfold ms_read. cbn [ms_data ms_pos ms_seekEnd].
  rewrite length_firstn, length_skipn. f_equal. f_equal. lia.
Qed.

Lemma readU32_mem (data : list Z) (pos : Z) (flag : bool) :
  0 <= pos -> pos + 4 <= Z.of_nat (length data) ->
  readU32 (mkMemStream data pos flag) = (Ret (u32At data pos), mkMemStream data (pos + 4) flag).
Proof.
  intros Hpos Hfit. unfold readU32, bind, checkStream, readExact, ret.
  cbn [rvng_isEnd rvng_read MemStream_input]. unfold ms_size. cbn [ms_data ms_pos].
  destruct (Z.leb_spec (Z.of_nat (length data)) pos); [lia |].
  rewrite ms_read_available by lia.
  rewrite length_firstn, length_skipn.
  destruct (Z.eqb_spec (Z.of_nat (Init.Nat.min (Z.to_nat 4) (length data - Z.to_nat pos))) 4);
    [reflexivity | lia].
Qed.

Lemma seek_mem (data : list Z) (pos target : Z) (flag : bool) :
  0 <= target <= Z.of_nat (length data) ->
  seek target (mkMemStream data pos flag) = (Ret tt, mkMemStream data target flag).
Proof.
  intros Ht. unfold seek. cbn [rvng_seek MemStream_input]. unfold ms_seek, ms_moveTo, ms_size.
  cbn [ms_data ms_pos ms_seekEnd].
  destruct (Z.ltb_spec target 0); [lia |].
  destruct (Z.ltb_spec (Z.of_nat (length data)) target); [lia |]. reflexivity.
Qed.

Lemma onInput_ret {S A} (m : M S A) (p : ZMF4Parser.t S) (a : A) (s' : S) :
  m (ZMF4Parser.m_input p) = (Ret a, s') ->
  ZMF4Parser.onInput m p = (Ret a, ZMF4Parser.set_input s' p).
Proof. unfold ZMF4Parser.onInput, zoom. intros ->. reflexivity. Qed.

Lemma set_input_set_input {S} (s1 s2 : S) (p : ZMF4Parser.t S) :
  ZMF4Parser.set_input s2 (ZMF4Parser.set_input s1 p) = ZMF4Parser.set_input s2 p.
Proof. reflexivity. Qed.

(** [n] consecutive 32-bit reads deliver the values at [pos], [pos + 4], ... *)
Lemma repeat_readU32_mem (n : nat) (data : list Z) (pos : Z) (flag : bool)
    (p : ZMF4Parser.t MemStream) :
  0 <= pos -> pos + 4 * Z.of_nat n <= Z.of_nat (length data) ->
  ZMF4Parser.m_input p = mkMemStream data pos flag ->
  repeatM n (ZMF4Parser.onInput readU32) p
  = (Ret (map (fun k => u32At data (pos + 4 * Z.of_nat k)) (seq 0 n)),
     match n with
     | O => p
     | _ => ZMF4Parser.set_input (mkMemStream data (pos + 4 * Z.of_nat n) flag) p
     end).
Proof.
  revert pos p. induction n as [| n IH]; intros pos p Hpos Hfit Hin.
  - reflexivity.
  - cbn [repeatM].
    rewrite (bind_eq_ret _ _ _ _ _
               (onInput_ret readU32 p _ _
                  ltac:(rewrite Hin; apply readU32_mem; lia))).
    rewrite (bind_eq_ret _ _ _ _ _
               (IH (pos + 4) (ZMF4Parser.set_input (mkMemStream data (pos + 4) flag) p)
                   ltac:(lia) ltac:(lia) eq_refl)).
    unfold ret. f_equal.
    + f_equal. cbn [seq map]. f_equal.
      * f_equal. lia.
      * rewrite <- seq_shift, map_map. apply map_ext. intros k. f_equal. lia.
    + destruct n; [| rewrite set_input_set_input]; do 2 f_equal; lia.
Qed.

(* ------------------------------------------------------------------------- *)
(** ** Reference lists *)

(** The reference list that lies at [start] in [data]: [n] ids, then [n] tags,
    the entries without id dropped. *)
Definition refsAt (data : list Z) (start : Z) (n : nat) : list ZMF4Parser.ObjectRef :=
  List.filter (fun ref => negb (ZMF4Parser.ref_id ref =? NO_ID))
    (map (fun k => ZMF4Parser.mkObjectRef (u32At data (start + 4 * Z.of_nat k))
                                         (u32At data (start + 4 * Z.of_nat n + 4 * Z.of_nat k)))
         (seq 0 n)).

Lemma map_combine_map {A B C D} (f : A -> B) (g : A -> C) (h : B -> C -> D) (l : list A) :
  map (fun it => h (fst it) (snd it)) (combine (map f l) (map g l))
  = map (fun k => h (f k) (g k)) l.
Proof. induction l as [| x l IH]; simpl; [reflexivity | now rewrite IH]. Qed.

Lemma tell_mem (p : ZMF4Parser.t MemStream) :
  ZMF4Parser.onInput tell p = (Ret (ms_pos (ZMF4Parser.m_input p)), p).
Proof. destruct p; reflexivity. Qed.

(** What [readObjectRefs] does when the count of the current object header
    passes the reader's own bound and the list lies inside the stream. *)
Lemma readObjectRefs_within_clamp (p : ZMF4Parser.t MemStream) (data : list Z) (pos : Z)
    (flag : bool) :
  let header := ZMF4Parser.m_currentObjectHeader p in
  let n := ZMF4Parser.refObjCount header in
  let next := ZMF4Parser.nextObjectOffset header in
  ZMF4Parser.m_input p = mkMemStream data pos flag ->
  0 <= pos ->
  0 <= n <= Z.max 0 (next - Z.quot pos 8) ->
  8 * n <= next <= Z.of_nat (length data) ->
  next < 2 ^ 32 ->
  ZMF4Parser.readObjectRefs p
  = (Ret (refsAt data (next - 8 * n) (Z.to_nat n)),
     if 0 <? n then ZMF4Parser.set_input (mkMemStream data next flag) p else p).
Proof.
  intros header n next Hin Hpos Hn Hnext H32.
  unfold ZMF4Parser.readObjectRefs.
  rewrite (bind_eq_ret _ _ _ _ _ (eq_refl : gets ZMF4Parser.m_currentObjectHeader p = _)).
  rewrite (bind_eq_ret _ _ _ _ _ (tell_mem p)). rewrite Hin. cbn [ms_pos].
  fold header. unfold ZMF4Parser.clampedRefCount. fold n next.
  destruct (Z.ltb_spec (Z.max 0 (next - Z.quot pos 8)) n) as [Hlt | _]; [lia |].
  destruct (Z.ltb_spec 0 n) as [Hpos_n | Hzero].
  - assert (Hstart : u32 (next - u32 (8 * n)) = next - 8 * n).
    { unfold u32. rewrite (Z.mod_small (8 * n)) by lia. apply Z.mod_small. lia. }
    rewrite Hstart.
    rewrite (bind_eq_ret _ _ _ _ _
               (onInput_ret (seek (next - 8 * n)) p tt _
                  ltac:(rewrite Hin; apply seek_mem; lia))).
    set (p1 := ZMF4Parser.set_input (mkMemStream data (next - 8 * n) flag) p).
    rewrite (bind_eq_ret _ _ _ _ _
               (repeat_readU32_mem (Z.to_nat n) data (next - 8 * n) flag p1
                  ltac:(lia) ltac:(lia) eq_refl)).
    destruct (Z.to_nat n) as [| m] eqn:Hm; [lia |].
    set (p2 := ZMF4Parser.set_input
                 (mkMemStream data (next - 8 * n + 4 * Z.of_nat (Datatypes.S m)) flag) p1).
    rewrite (bind_eq_ret _ _ _ _ _
               (repeat_readU32_mem (Datatypes.S m) data
                  (next - 8 * n + 4 * Z.of_nat (Datatypes.S m)) flag p2
                  ltac:(lia) ltac:(lia) eq_refl)).
    unfold ret. f_equal.
    + f_equal. unfold refsAt. f_equal. apply map_combine_map.
    + unfold p2, p1. rewrite !set_input_set_input. do 2 f_equal. lia.
  - assert (n = 0) as Hn0 by lia. rewrite Hn0. reflexivity.
Qed.

(** C5 (amended).  When the reference list of the current object fits between
    the cursor and the end of the object, and the object lies inside the
    stream, [readObjectRefs] reads the list at
    [nextObjectOffset - 8 * refObjCount], whatever the header's
    [refListStartOffset] is: first all ids, then all tags; the entries whose
    id is [0xffffffff] are dropped; the cursor ends at [nextObjectOffset]
    (and does not move when the count is 0). *)
Theorem readObjectRefs_layout (p : ZMF4Parser.t MemStream) (data : list Z) (pos : Z)
    (flag : bool) :
  let header := ZMF4Parser.m_currentObjectHeader p in
  let n := ZMF4Parser.refObjCount header in
  let next := ZMF4Parser.nextObjectOffset header in
  ZMF4Parser.m_input p = mkMemStream data pos flag ->
  0 <= pos -> 0 <= n ->
  pos + 8 * n <= next <= Z.of_nat (length data) ->
  next < 2 ^ 32 ->
  ZMF4Parser.readObjectRefs p
  = (Ret (refsAt data (next - 8 * n) (Z.to_nat n)),
     if 0 <? n then ZMF4Parser.set_input (mkMemStream data next flag) p else p).
Proof.
  cbv zeta. intros Hin Hpos Hn Hfit H32.
  apply (readObjectRefs_within_clamp p data pos flag); try assumption; [| lia].
  split; [exact Hn |].
  pose proof (Z.quot_pos pos 8 Hpos ltac:(lia)).
  assert (8 * Z.quot pos 8 <= pos) by (apply Z.mul_quot_le; lia).
  lia.
Qed.

(** An object of 48 bytes with one reference: its header says that the
    reference list starts at offset 28, where the pair (7, 1) lies; the pair
    (9, 2) fills the last eight bytes of the object. *)
Definition objectWithTwoLists : list Z :=
  objectHeader 48 0xc 1 28 5 ++ le32 7 ++ le32 1 ++ zeros 4 ++ le32 9 ++ le32 2.

Lemma readObjectRefs_layout_witness :
  let p := parserAt objectWithTwoLists 28 (ZMF4Parser.mkObjectHeader ZMF4Parser.PEN 48 48 (Some 5) 1 28) in
  ZMF4Parser.readObjectRefs p
  = (Ret (refsAt objectWithTwoLists (48 - 8 * 1) (Z.to_nat 1)),
     if 0 <? 1 then ZMF4Parser.set_input (mkMemStream objectWithTwoLists 48 true) p else p).
Proof.
  apply (readObjectRefs_layout
           (parserAt objectWithTwoLists 28
              (ZMF4Parser.mkObjectHeader ZMF4Parser.PEN 48 48 (Some 5) 1 28))
           objectWithTwoLists 28 true);
    [reflexivity | vm_compute; discriminate | vm_compute; discriminate
    | vm_compute; split; discriminate | reflexivity].
Defined.

(** C5 as stated fails: the header read from [objectWithTwoLists] records the
    absolute list offset 28, yet the references come from offset 40. *)
Lemma readObjectRefs_ignores_refListStartOffset :
  let run :=
    (let* header := ZMF4Parser.readObjectHeader in
     modify (ZMF4Parser.set_currentObjectHeader header) ;;;
     let* refs := ZMF4Parser.readObjectRefs in
     ret (ZMF4Parser.refListStartOffset header, refs))%zmf in
  fst (run (parserAt objectWithTwoLists 0 ZMF4Parser.ObjectHeader_default))
  = Ret (28, [ZMF4Parser.mkObjectRef 9 2]) /\
  refsAt objectWithTwoLists 28 1 = [ZMF4Parser.mkObjectRef 7 1].
Proof. split; vm_compute; reflexivity. Qed.

(* ------------------------------------------------------------------------- *)
(** ** Resource objects without id *)

Section WithoutId.
Context {S : Type} {IS : RVNGInputStream S} {E : Externals}.

Lemma bind_gets {St A B} (f : St -> A) (k : A -> M St B) (s : St) :
  bind (gets f) k s = k (f s) s.
Proof. reflexivity. Qed.

(** The resource readers that test the id first leave the parser as it is
    when the current object header has none: nothing is read, no table
    changes. *)
Lemma guarded_readers_drop (fuel : nat) (p : ZMF4Parser.t S) :
  ZMF4Parser.id (ZMF4Parser.m_currentObjectHeader p) = None ->
  ZMF4Parser.readFill p = (Ret tt, p) /\
  ZMF4Parser.readTransparency p = (Ret tt, p) /\
  ZMF4Parser.readPen p = (Ret tt, p) /\
  ZMF4Parser.readShadow p = (Ret tt, p) /\
  ZMF4Parser.readArrow fuel p = (Ret tt, p) /\
  ZMF4Parser.readFont p = (Ret tt, p) /\
  ZMF4Parser.readParagraphStyle p = (Ret tt, p) /\
  ZMF4Parser.readBitmap fuel p = (Ret tt, p).
Proof.
  intros Hid.
  unfold ZMF4Parser.readFill, ZMF4Parser.readTransparency, ZMF4Parser.readPen,
    ZMF4Parser.readShadow, ZMF4Parser.readArrow, ZMF4Parser.readFont,
    ZMF4Parser.readParagraphStyle, ZMF4Parser.readBitmap.
  repeat split; rewrite bind_gets, Hid; reflexivity.
Qed.

End WithoutId.

(** A text object without id: one paragraph, no span. *)
Definition textWithoutId : list Z :=
  objectHeader 60 0x12 0 0 NO_ID
  ++ zeros 12 ++ le32 1 ++ zeros 4 ++ le32 0 ++ le32 NO_ID ++ zeros 4.

(** The same object with id 9. *)
Definition textWithId : list Z :=
  objectHeader 60 0x12 0 0 9
  ++ zeros 12 ++ le32 1 ++ zeros 4 ++ le32 0 ++ le32 NO_ID ++ zeros 4.

(** The layer loop's steps for one object: header, dispatch. *)
Definition readOneObject (fuel : nat) : M (ZMF4Parser.t MemStream) unit :=
  (let* header := ZMF4Parser.readObjectHeader in
   modify (ZMF4Parser.set_currentObjectHeader header) ;;;
   ZMF4Parser.readObject (E := libm_on_axes) fuel (ZMF4Parser.type header))%zmf.

(** A layer of two objects: an object of [type] without id that has eight
    bytes after its header, and the end of the layer. *)
Definition layerWithoutId (type : Z) : list Z :=
  objectHeader 36 type 0 0 NO_ID ++ zeros 8 ++ objectHeader 28 0x25 0 0 NO_ID.

(** The objects of that layer, read by the loop of [readLayer]: the result
    and where the cursor is left. *)
Definition readLayerWithoutId (type : Z) : outcome unit * Z :=
  let (r, p) := ZMF4Parser.readLayerObjects (E := libm_on_axes) 5 5
                  (parserAt (layerWithoutId type) 0 ZMF4Parser.ObjectHeader_default) in
  (r, ms_pos (ZMF4Parser.m_input p)).

(** C7 at its failing inputs.  The eight readers that test the id first
    return at once when the header has none: nothing is read and no table
    changes.  [readText] has no such test: for the text object without id it
    reads the whole object and then dereferences the empty id; with an id the
    same object is stored.  A bitmap without id is dropped, but the layer loop
    does not move to the next object after a bitmap, so the next header is
    taken from the bytes of the bitmap object and decoding fails, where a fill
    without id in the same place is skipped and the layer is read to its
    end. *)
Theorem readText_without_id :
  (forall (E : Externals) (fuel : nat) (p : ZMF4Parser.t MemStream),
     ZMF4Parser.id (ZMF4Parser.m_currentObjectHeader p) = None ->
     ZMF4Parser.readFill p = (Ret tt, p) /\
     ZMF4Parser.readTransparency p = (Ret tt, p) /\
     ZMF4Parser.readPen p = (Ret tt, p) /\
     ZMF4Parser.readShadow p = (Ret tt, p) /\
     ZMF4Parser.readArrow fuel p = (Ret tt, p) /\
     ZMF4Parser.readFont p = (Ret tt, p) /\
     ZMF4Parser.readParagraphStyle p = (Ret tt, p) /\
     ZMF4Parser.readBitmap fuel p = (Ret tt, p)) /\
  fst (readOneObject 10 (parserAt textWithoutId 0 ZMF4Parser.ObjectHeader_default))
  = Halt EmptyOptionalAccess /\
  (let (r, p) := readOneObject 10 (parserAt textWithId 0 ZMF4Parser.ObjectHeader_default) in
   r = Ret tt /\
   ZMF4Parser.m_texts p !! 9 = Some (mkText [mkParagraph [] ParagraphStyle_default])) /\
  readLayerWithoutId 0xa = (Ret tt, 64) /\
  readLayerWithoutId 0xe = (Throw GenericException, 48).
Proof.
  split; [intros E fuel p; apply guarded_readers_drop |].
  split; [vm_compute; reflexivity |].
  split; [vm_compute; split; reflexivity |].
  split; vm_compute; reflexivity.
Qed.

(* ------------------------------------------------------------------------- *)
(** ** The start/end discipline of the sink calls *)

(** Where a sequence of sink calls stands. *)
Inductive phase : Type := Outside | InDocument | InPage | InLayer | Finished.

(** The call that each phase admits and where it leads: pages lie in the
    document, layers in pages, everything else in layers. *)
Definition step (ph : phase) (call : PainterCall) : option phase :=
  match ph, call with
  | Outside, CallStartDocument => Some InDocument
  | InDocument, CallStartPage _ => Some InPage
  | InDocument, CallEndDocument => Some Finished
  | InPage, CallStartLayer => Some InLayer
  | InPage, CallEndPage => Some InDocument
  | InLayer, CallEndLayer => Some InPage
  | InLayer, (CallStartDocument | CallEndDocument | CallStartPage _ | CallEndPage
              | CallStartLayer) => None
  | InLayer, _ => Some InLayer
  | _, _ => None
  end.

Fixpoint trace (ph : phase) (calls : list PainterCall) : option phase :=
  match calls with
  | [] => Some ph
  | call :: rest =>
      match step ph call with
      | Some ph' => trace ph' rest
      | None => None
      end
  end.

(** A complete, well-bracketed document. *)
Definition wellBracketed (calls : list PainterCall) : Prop :=
  trace Outside calls = Some Finished.

(** The calls that are neither a start nor an end of document, page or layer. *)
Definition isContent (call : PainterCall) : bool :=
  match call with
  | CallStartDocument | CallEndDocument | CallStartPage _ | CallEndPage
  | CallStartLayer | CallEndLayer => false
  | _ => true
  end.

Definition isStartDocument (c : PainterCall) : bool :=
  match c with CallStartDocument => true | _ => false end.
Definition isEndDocument (c : PainterCall) : bool :=
  match c with CallEndDocument => true | _ => false end.
Definition isStartPage (c : PainterCall) : bool :=
  match c with CallStartPage _ => true | _ => false end.
Definition isEndPage (c : PainterCall) : bool :=
  match c with CallEndPage => true | _ => false end.
Definition isStartLayer (c : PainterCall) : bool :=
  match c with CallStartLayer => true | _ => false end.
Definition isEndLayer (c : PainterCall) : bool :=
  match c with CallEndLayer => true | _ => false end.

Definition countCalls (f : PainterCall -> bool) (calls : list PainterCall) : nat :=
  length (List.filter f calls).

Lemma trace_app (ph : phase) (l1 l2 : list PainterCall) :
  trace ph (l1 ++ l2) = match trace ph l1 with Some ph' => trace ph' l2 | None => None end.
Proof.
  revert ph. induction l1 as [| c l1 IH]; intros ph; simpl; [reflexivity |].
  destruct (step ph c); [apply IH | reflexivity].
Qed.

Lemma trace_content (calls : list PainterCall) :
  forallb isContent calls = true -> trace InLayer calls = Some InLayer.
Proof.
  induction calls as [| c calls IH]; simpl; [reflexivity |].
  intros H. apply andb_prop in H as [Hc Hrest].
  destruct c; try discriminate; simpl; auto.
Qed.

(** How many documents, pages and layers are open in a phase. *)
Definition openDocuments (ph : phase) : nat :=
  match ph with InDocument | InPage | InLayer => 1 | _ => 0 end.
Definition openPages (ph : phase) : nat :=
  match ph with InPage | InLayer => 1 | _ => 0 end.
Definition openLayers (ph : phase) : nat :=
  match ph with InLayer => 1 | _ => 0 end.
Definition startedDocuments (ph : phase) : nat :=
  match ph with Outside => 0 | _ => 1 end.

(** Along a trace every start is matched by an end, up to what is open at its
    two ends, and a document is started at most once. *)
Lemma trace_counts (calls : list PainterCall) (ph ph' : phase) :
  trace ph calls = Some ph' ->
  (countCalls isStartDocument calls + startedDocuments ph = startedDocuments ph' /\
   countCalls isStartDocument calls + openDocuments ph
   = countCalls isEndDocument calls + openDocuments ph' /\
   countCalls isStartPage calls + openPages ph = countCalls isEndPage calls + openPages ph' /\
   countCalls isStartLayer calls + openLayers ph
   = countCalls isEndLayer calls + openLayers ph')%nat.
Proof.
  revert ph. induction calls as [| c calls IH]; intros ph H; simpl in H.
  - injection H as <-. unfold countCalls. simpl. lia.
  - destruct (step ph c) as [ph1 |] eqn:Hstep; [| discriminate].
    specialize (IH ph1 H). unfold countCalls in *.
    destruct ph, c; simpl in Hstep; try discriminate; injection Hstep as <-;
      simpl in *; lia.
Qed.

Lemma wellBracketed_counts (calls : list PainterCall) :
  wellBracketed calls ->
  countCalls isStartDocument calls = 1%nat /\
  countCalls isEndDocument calls = 1%nat /\
  countCalls isStartPage calls = countCalls isEndPage calls /\
  countCalls isStartLayer calls = countCalls isEndLayer calls.
Proof.
  intros H. apply trace_counts in H. simpl in H. lia.
Qed.

(** The collector's flags in each phase. *)
Definition flagsOf (ph : phase) : bool * bool * bool :=
  match ph with
  | Outside | Finished => (false, false, false)
  | InDocument => (true, false, false)
  | InPage => (true, true, false)
  | InLayer => (true, true, true)
  end.

Definition flags (c : ZMFCollector.t) : bool * bool * bool :=
  (ZMFCollector.m_isDocumentStarted c, ZMFCollector.m_isPageStarted c,
   ZMFCollector.m_isLayerStarted c).

(** The collector stands in phase [ph]: the sink calls so far lead there and
    the three flags agree. *)
Definition collectorAt (ph : phase) (c : ZMFCollector.t) : Prop :=
  trace Outside (ZMFCollector.m_painter c) = Some ph /\ flags c = flagsOf ph.

(** [c'] comes from [c] by content calls only: the flags are the same. *)
Definition drawnFrom (c c' : ZMFCollector.t) : Prop :=
  flags c' = flags c /\
  exists calls, ZMFCollector.m_painter c' = ZMFCollector.m_painter c ++ calls /\
                forallb isContent calls = true.

Lemma drawnFrom_refl (c : ZMFCollector.t) : drawnFrom c c.
Proof. split; [reflexivity |]. exists []. split; [now rewrite app_nil_r | reflexivity]. Qed.

Lemma drawnFrom_trans (c1 c2 c3 : ZMFCollector.t) :
  drawnFrom c1 c2 -> drawnFrom c2 c3 -> drawnFrom c1 c3.
Proof.
  intros (Hf1 & l1 & Hl1 & Hc1) (Hf2 & l2 & Hl2 & Hc2). split; [congruence |].
  exists (l1 ++ l2). split.
  - now rewrite Hl2, Hl1, app_assoc.
  - now rewrite forallb_app, Hc1, Hc2.
Qed.

Lemma collectorAt_drawnFrom (c c' : ZMFCollector.t) :
  drawnFrom c c' -> collectorAt InLayer c -> collectorAt InLayer c'.
Proof.
  intros (Hfl & calls & Hcalls & Hcontent) [Htrace Hflags]. split.
  - rewrite Hcalls, trace_app, Htrace. now apply trace_content.
  - now rewrite Hfl.
Qed.

(** A collector call that only adds content calls and keeps the flags. *)
Definition drawsOnly (f : ZMFCollector.t -> ZMFCollector.t) : Prop :=
  forall c, drawnFrom c (f c).

Lemma paint_drawsOnly (calls : list PainterCall) :
  forallb isContent calls = true -> drawsOnly (ZMFCollector.paint calls).
Proof. intros H c. split; [reflexivity |]. exists calls. split; [reflexivity | exact H]. Qed.

Lemma forallb_concat_map {A B} (P : B -> bool) (f : A -> list B) (l : list A) :
  (forall x, forallb P (f x) = true) -> forallb P (concat (map f l)) = true.
Proof.
  intros H. induction l as [| x l IH]; [reflexivity |].
  cbn [map concat]. now rewrite forallb_app, H, IH.
Qed.

Lemma forallb_isContent_spanCalls (chars : list Z) (wasSpace : bool) (curText : list Z) :
  forallb isContent (ZMFCollector.spanCalls chars wasSpace curText) = true.
Proof.
  revert wasSpace curText.
  induction chars as [| ch chars IH]; intros wasSpace curText; cbn [ZMFCollector.spanCalls].
  - destruct curText; reflexivity.
  - destruct ((ch =? 13) || (ch =? 10)); [apply IH |].
    destruct (ch =? 32); [| apply IH].
    destruct wasSpace; [| apply IH].
    rewrite forallb_app. cbn [forallb isContent]. rewrite IH.
    destruct curText; reflexivity.
Qed.

Lemma forallb_isContent_textCalls (text : Text) :
  forallb isContent (ZMFCollector.textCalls text) = true.
Proof.
  unfold ZMFCollector.textCalls. apply forallb_concat_map. intros paragraph.
  rewrite !forallb_app. cbn [forallb isContent andb].
  rewrite forallb_concat_map; [reflexivity |].
  intros span. rewrite !forallb_app, forallb_isContent_spanCalls. reflexivity.
Qed.

Lemma setStyle_drawsOnly (style : Style) : drawsOnly (ZMFCollector.setStyle style).
Proof.
  intros c. split; [reflexivity |]. exists []. split; [| reflexivity].
  cbn. now rewrite app_nil_r.
Qed.

Lemma collectPaths_drawsOnly (curves : list Curve) : drawsOnly (ZMFCollector.collectPaths curves).
Proof. intros c. unfold ZMFCollector.collectPaths. now apply paint_drawsOnly. Qed.

Lemma collectPath_drawsOnly (curve : Curve) : drawsOnly (ZMFCollector.collectPath curve).
Proof. apply collectPaths_drawsOnly. Qed.

Lemma collectEllipse_drawsOnly center rx ry rotation :
  drawsOnly (ZMFCollector.collectEllipse center rx ry rotation).
Proof. intros c. unfold ZMFCollector.collectEllipse. now apply paint_drawsOnly. Qed.

Lemma collectImage_drawsOnly image topLeft width height rotation mh mv :
  drawsOnly (ZMFCollector.collectImage image topLeft width height rotation mh mv).
Proof. intros c. unfold ZMFCollector.collectImage. now apply paint_drawsOnly. Qed.

Lemma collectTextObject_drawsOnly text topLeft width height align rotation :
  drawsOnly (ZMFCollector.collectTextObject text topLeft width height align rotation).
Proof.
  intros c. apply paint_drawsOnly.
  rewrite !forallb_app, forallb_isContent_textCalls. reflexivity.
Qed.

Lemma collectTable_drawsOnly table : drawsOnly (ZMFCollector.collectTable table).
Proof.
  intros c. apply paint_drawsOnly.
  rewrite !forallb_app. cbn [forallb isContent andb].
  rewrite forallb_concat_map; [reflexivity |].
  intros row. rewrite !forallb_app. cbn [forallb isContent andb].
  rewrite forallb_concat_map; [reflexivity |].
  intros cell. rewrite !forallb_app, forallb_isContent_textCalls. reflexivity.
Qed.

Lemma collectArc_drawsOnly (E : Externals) center rx ry b e closed rotation :
  drawsOnly (ZMFCollector.collectArc center rx ry b e closed rotation).
Proof.
  intros c. unfold ZMFCollector.collectArc. apply paint_drawsOnly.
  destruct closed; reflexivity.
Qed.

Lemma collectPolygon_drawsOnly (E : Externals) center rx ry peaksCount peak rotation mh mv :
  drawsOnly (ZMFCollector.collectPolygon center rx ry peaksCount peak rotation mh mv).
Proof.
  intros c. unfold ZMFCollector.collectPolygon.
  destruct (length (curve_points peak) <? 2)%nat.
  - apply drawnFrom_refl.
  - apply collectPath_drawsOnly.
Qed.

Lemma startGroup_drawsOnly : drawsOnly ZMFCollector.startGroup.
Proof. intros c. unfold ZMFCollector.startGroup. now apply paint_drawsOnly. Qed.

Lemma endGroup_drawsOnly : drawsOnly ZMFCollector.endGroup.
Proof. intros c. unfold ZMFCollector.endGroup. now apply paint_drawsOnly. Qed.

(* ------------------------------------------------------------------------- *)
(** ** What the readers do to the collector *)

Section Respects.
Context {S : Type} {IS : RVNGInputStream S} {E : Externals}.

(** However [m] ends (return, exception or halt), it leaves the collector
    related by [R] to the one it started from. *)
Definition respects (R : ZMFCollector.t -> ZMFCollector.t -> Prop) {A}
    (m : M (ZMF4Parser.t S) A) : Prop :=
  forall p r p', m p = (r, p') ->
                 R (ZMF4Parser.m_collector p) (ZMF4Parser.m_collector p').

Context (R : ZMFCollector.t -> ZMFCollector.t -> Prop) {HR : PreOrder R}.

Let R_refl : forall c, R c c := PreOrder_Reflexive.

Let R_trans : forall c1 c2 c3, R c1 c2 -> R c2 c3 -> R c1 c3 := PreOrder_Transitive.

Lemma respects_ret {A} (a : A) : respects R (ret a).
Proof. intros p r p' H. injection H as _ <-. apply R_refl. Qed.

Lemma respects_throw {A} (e : exception) : respects R (throw (A := A) e).
Proof. intros p r p' H. injection H as _ <-. apply R_refl. Qed.

Lemma respects_stop {A} (h : halt) : respects R (stop (A := A) h).
Proof. intros p r p' H. injection H as _ <-. apply R_refl. Qed.

Lemma respects_bind {A B} (m : M (ZMF4Parser.t S) A) (k : A -> M (ZMF4Parser.t S) B) :
  respects R m -> (forall a, respects R (k a)) -> respects R (bind m k).
Proof.
  intros Hm Hk p r p' H.
  apply bind_inv in H as [(a & p1 & H1 & H2) | [(e & H1 & _) | (h & H1 & _)]].
  - exact (R_trans _ _ _ (Hm _ _ _ H1) (Hk a _ _ _ H2)).
  - exact (Hm _ _ _ H1).
  - exact (Hm _ _ _ H1).
Qed.

Lemma respects_gets {A} (f : ZMF4Parser.t S -> A) : respects R (gets f).
Proof. intros p r p' H. injection H as _ <-. apply R_refl. Qed.

Lemma respects_lift {A} (o : outcome A) : respects R (lift o).
Proof. intros p r p' H. injection H as _ <-. apply R_refl. Qed.

Lemma respects_modify (f : ZMF4Parser.t S -> ZMF4Parser.t S) :
  (forall p, ZMF4Parser.m_collector (f p) = ZMF4Parser.m_collector p) ->
  respects R (modify f).
Proof.
  intros Hf p r p' H. unfold modify in H. injection H as _ <-. rewrite Hf. apply R_refl.
Qed.

Lemma respects_onInput {A} (m : M S A) : respects R (ZMF4Parser.onInput m).
Proof.
  intros p r p' H. unfold ZMF4Parser.onInput, zoom in H.
  destruct (m (ZMF4Parser.m_input p)) as [r1 s']. injection H as _ <-. apply R_refl.
Qed.

Lemma respects_onCollector (f : ZMFCollector.t -> ZMFCollector.t) :
  (forall c, R c (f c)) -> respects R (ZMF4Parser.onCollector f).
Proof.
  intros Hf p r p' H. unfold ZMF4Parser.onCollector, modify in H. injection H as _ <-.
  apply Hf.
Qed.

Lemma respects_currentId : respects R ZMF4Parser.currentId.
Proof.
  intros p r p' H. unfold ZMF4Parser.currentId in H.
  destruct (ZMF4Parser.id (ZMF4Parser.m_currentObjectHeader p));
    injection H as _ <-; apply R_refl.
Qed.

Lemma respects_repeatM {A} (n : nat) (body : M (ZMF4Parser.t S) A) :
  respects R body -> respects R (repeatM n body).
Proof.
  intros Hbody. induction n as [| n IH]; cbn [repeatM].
  - apply respects_ret.
  - apply respects_bind; [exact Hbody | intros y].
    apply respects_bind; [exact IH | intros ys]. apply respects_ret.
Qed.

Lemma respects_forEach {A B} (body : A -> M (ZMF4Parser.t S) B) (xs : list A) :
  (forall x, respects R (body x)) -> respects R (forEach body xs).
Proof.
  intros Hbody. induction xs as [| x xs IH]; cbn [forEach].
  - apply respects_ret.
  - apply respects_bind; [apply Hbody | intros y].
    apply respects_bind; [exact IH | intros ys]. apply respects_ret.
Qed.

End Respects.

#[export] Instance drawnFrom_PreOrder : PreOrder drawnFrom.
Proof. split; [exact drawnFrom_refl | exact drawnFrom_trans]. Qed.

Create HintDb respects.

(** The instance a lemma of the section above asks for. *)
Ltac respects_instance :=
  try match goal with |- PreOrder _ => typeclasses eauto end.

(** One step of a proof that a reader respects a relation: by the shape of the
    reader's code. *)
Ltac respects_step :=
  lazymatch goal with
  | |- respects _ (bind _ _) => apply respects_bind; respects_instance; [| intros ?]
  | |- respects _ (ret _) => apply respects_ret; respects_instance
  | |- respects _ (throw _) => apply respects_throw
  | |- respects _ (stop _) => apply respects_stop
  | |- respects _ (lift _) => apply respects_lift; respects_instance
  | |- respects _ (gets _) => apply respects_gets; respects_instance
  | |- respects _ (modify _) =>
      apply respects_modify; respects_instance; intros ?; reflexivity
  | |- respects _ (ZMF4Parser.onInput _) => apply respects_onInput; respects_instance
  | |- respects _ ZMF4Parser.currentId => apply respects_currentId; respects_instance
  | |- respects _ (repeatM _ _) => apply respects_repeatM; respects_instance
  | |- respects _ (forEach _ _) => apply respects_forEach; respects_instance; intros ?
  | |- respects _ (if ?b then _ else _) => destruct b
  | |- respects _ (match ?x with _ => _ end) => destruct x
  | |- respects _ (ZMF4Parser.getFillByRefId _) => apply respects_gets; respects_instance
  | |- respects _ (ZMF4Parser.getPenByRefId _) => apply respects_gets; respects_instance
  | |- respects _ (ZMF4Parser.getShadowByRefId _) => apply respects_gets; respects_instance
  | |- respects _ (ZMF4Parser.getTransparencyByRefId _) =>
      apply respects_gets; respects_instance
  | |- respects _ (ZMF4Parser.getFontByRefId _) => apply respects_gets; respects_instance
  | |- respects _ (ZMF4Parser.getParagraphStyleByRefId _) =>
      apply respects_gets; respects_instance
  | |- respects _ (ZMF4Parser.getTextByRefId _) => apply respects_gets; respects_instance
  | |- respects _ (ZMF4Parser.getImageByRefId _) => apply respects_gets; respects_instance
  | |- respects _ (ZMF4Parser.getArrowByRefId _) => apply respects_gets; respects_instance
  end.

Ltac respects_tac :=
  cbv zeta; repeat (first [solve [auto with respects] | respects_step]).

#[export] Hint Extern 0 (PreOrder _) => typeclasses eauto : respects.

(** The readers that do not call the collector respect every preorder on
    collectors. *)
Section ReadersRespect.
Context {S : Type} {IS : RVNGInputStream S} {E : Externals}.
Context (R : ZMFCollector.t -> ZMFCollector.t -> Prop) {HR : PreOrder R}.

Lemma readObjectHeader_respects : respects R (ZMF4Parser.readObjectHeader (S := S)).
Proof. unfold ZMF4Parser.readObjectHeader. respects_tac. Qed.

Lemma readObjectRefs_respects : respects R (ZMF4Parser.readObjectRefs (S := S)).
Proof. unfold ZMF4Parser.readObjectRefs. respects_tac. Qed.

Local Hint Resolve readObjectHeader_respects readObjectRefs_respects : respects.

Lemma applyStyleRefs_respects refs style :
  respects R (ZMF4Parser.applyStyleRefs (S := S) refs style).
Proof.
  revert style. induction refs as [| ref rest IH]; intros style;
    cbn [ZMF4Parser.applyStyleRefs]; respects_tac.
Qed.

Local Hint Resolve applyStyleRefs_respects : respects.

Lemma readStyle_respects : respects R (ZMF4Parser.readStyle (S := S)).
Proof. unfold ZMF4Parser.readStyle. respects_tac. Qed.

Lemma readFloat_respects : respects R (ZMF4Parser.readFloat (S := S)).
Proof. unfold ZMF4Parser.readFloat. respects_tac. Qed.

Local Hint Resolve readStyle_respects readFloat_respects : respects.

Lemma readPoint_respects : respects R (ZMF4Parser.readPoint (S := S)).
Proof. unfold ZMF4Parser.readPoint. respects_tac. Qed.

Lemma readUnscaledPoint_respects : respects R (ZMF4Parser.readUnscaledPoint (S := S)).
Proof. unfold ZMF4Parser.readUnscaledPoint. respects_tac. Qed.

Local Hint Resolve readPoint_respects readUnscaledPoint_respects : respects.

Lemma readBoundingBox_respects : respects R (ZMF4Parser.readBoundingBox (S := S)).
Proof. unfold ZMF4Parser.readBoundingBox. respects_tac. Qed.

Lemma readCurveSectionTypes_respects fuel sectionTypes :
  respects R (ZMF4Parser.readCurveSectionTypes (S := S) fuel sectionTypes).
Proof.
  revert sectionTypes. induction fuel as [| fuel IH]; intros sectionTypes;
    cbn [ZMF4Parser.readCurveSectionTypes]; respects_tac.
Qed.

Lemma readComponentHeaders_respects n acc :
  respects R (ZMF4Parser.readComponentHeaders (S := S) n acc).
Proof.
  revert acc. induction n as [| n IH]; intros acc;
    cbn [ZMF4Parser.readComponentHeaders]; respects_tac.
Qed.

Local Hint Resolve readBoundingBox_respects readCurveSectionTypes_respects
  readComponentHeaders_respects : respects.

Lemma readCurveComponents_respects fuel readPointFunc :
  respects R readPointFunc ->
  respects R (ZMF4Parser.readCurveComponents (S := S) fuel readPointFunc).
Proof. intros Hpoint. unfold ZMF4Parser.readCurveComponents. respects_tac. Qed.

Lemma readColor_respects : respects R (ZMF4Parser.readColor (S := S)).
Proof. unfold ZMF4Parser.readColor. respects_tac. Qed.

Local Hint Resolve readCurveComponents_respects readColor_respects : respects.

Lemma readGradientStop_respects : respects R (ZMF4Parser.readGradientStop (S := S)).
Proof. unfold ZMF4Parser.readGradientStop. respects_tac. Qed.

Local Hint Resolve readGradientStop_respects : respects.

Lemma readGradient_respects type : respects R (ZMF4Parser.readGradient (S := S) type).
Proof. unfold ZMF4Parser.readGradient. respects_tac. Qed.

Lemma readPreviewBitmap_respects : respects R (ZMF4Parser.readPreviewBitmap (S := S)).
Proof. unfold ZMF4Parser.readPreviewBitmap. respects_tac. Qed.

Lemma readDocumentSettings_respects : respects R (ZMF4Parser.readDocumentSettings (S := S)).
Proof. unfold ZMF4Parser.readDocumentSettings. respects_tac. Qed.

Lemma applyImageRefs_respects tag refs image :
  respects R (ZMF4Parser.applyImageRefs (S := S) tag refs image).
Proof.
  revert image. induction refs as [| ref rest IH]; intros image;
    cbn [ZMF4Parser.applyImageRefs]; respects_tac.
Qed.

Local Hint Resolve readGradient_respects applyImageRefs_respects : respects.

Lemma readFill_respects : respects R (ZMF4Parser.readFill (S := S)).
Proof. unfold ZMF4Parser.readFill. respects_tac. Qed.

Lemma readTransparency_respects : respects R (ZMF4Parser.readTransparency (S := S)).
Proof. unfold ZMF4Parser.readTransparency. respects_tac. Qed.

Lemma applyArrowRefs_respects refs startArrow endArrow :
  respects R (ZMF4Parser.applyArrowRefs (S := S) refs startArrow endArrow).
Proof.
  revert startArrow endArrow. induction refs as [| ref rest IH]; intros startArrow endArrow;
    cbn [ZMF4Parser.applyArrowRefs]; respects_tac.
Qed.

Local Hint Resolve applyArrowRefs_respects : respects.

Lemma readPen_respects : respects R (ZMF4Parser.readPen (S := S)).
Proof. unfold ZMF4Parser.readPen. respects_tac. Qed.

Lemma readShadow_respects : respects R (ZMF4Parser.readShadow (S := S)).
Proof. unfold ZMF4Parser.readShadow. respects_tac. Qed.

Lemma readArrow_respects fuel : respects R (ZMF4Parser.readArrow (S := S) fuel).
Proof. unfold ZMF4Parser.readArrow. respects_tac. Qed.

Lemma readBitmap_respects fuel : respects R (ZMF4Parser.readBitmap (S := S) fuel).
Proof. unfold ZMF4Parser.readBitmap. respects_tac. Qed.

Lemma readFont_respects : respects R (ZMF4Parser.readFont (S := S)).
Proof. unfold ZMF4Parser.readFont. respects_tac. Qed.

Lemma applyFontRefs_respects refs font :
  respects R (ZMF4Parser.applyFontRefs (S := S) refs font).
Proof.
  revert font. induction refs as [| ref rest IH]; intros font;
    cbn [ZMF4Parser.applyFontRefs]; respects_tac.
Qed.

Local Hint Resolve applyFontRefs_respects : respects.

Lemma readParagraphStyle_respects : respects R (ZMF4Parser.readParagraphStyle (S := S)).
Proof. unfold ZMF4Parser.readParagraphStyle. respects_tac. Qed.

Lemma readParagraphHeaders_respects n acc :
  respects R (ZMF4Parser.readParagraphHeaders (S := S) n acc).
Proof.
  revert acc. induction n as [| n IH]; intros acc;
    cbn [ZMF4Parser.readParagraphHeaders]; respects_tac.
Qed.

Lemma readSpanHeaders_respects n style acc :
  respects R (ZMF4Parser.readSpanHeaders (S := S) n style acc).
Proof.
  revert acc. induction n as [| n IH]; intros acc;
    cbn [ZMF4Parser.readSpanHeaders]; respects_tac.
Qed.

Local Hint Resolve readParagraphHeaders_respects readSpanHeaders_respects : respects.

Lemma readAllSpanHeaders_respects paragraphs acc :
  respects R (ZMF4Parser.readAllSpanHeaders (S := S) paragraphs acc).
Proof.
  revert acc. induction paragraphs as [| [spanCount style] rest IH]; intros acc;
    cbn [ZMF4Parser.readAllSpanHeaders]; respects_tac.
Qed.

Lemma readSpanText_respects span : respects R (ZMF4Parser.readSpanText (S := S) span).
Proof. unfold ZMF4Parser.readSpanText. respects_tac. Qed.

Local Hint Resolve readAllSpanHeaders_respects readSpanText_respects : respects.

Lemma readParagraphText_respects paragraph :
  respects R (ZMF4Parser.readParagraphText (S := S) paragraph).
Proof. unfold ZMF4Parser.readParagraphText. respects_tac. Qed.

Local Hint Resolve readParagraphText_respects : respects.

Lemma readText_respects : respects R (ZMF4Parser.readText (S := S)).
Proof. unfold ZMF4Parser.readText. respects_tac. Qed.

Lemma applyTextRefs_respects refs text :
  respects R (ZMF4Parser.applyTextRefs (S := S) refs text).
Proof.
  revert text. induction refs as [| ref rest IH]; intros text;
    cbn [ZMF4Parser.applyTextRefs]; respects_tac.
Qed.

Lemma readCell_respects : respects R (ZMF4Parser.readCell (S := S)).
Proof. unfold ZMF4Parser.readCell. respects_tac. Qed.

Lemma readRowBorder_respects tableHeight rowCount cells :
  respects R (ZMF4Parser.readRowBorder (S := S) tableHeight rowCount cells).
Proof. unfold ZMF4Parser.readRowBorder. respects_tac. Qed.

Lemma readColumns_respects n i tableWidth colCount rows columns :
  respects R (ZMF4Parser.readColumns (S := S) n i tableWidth colCount rows columns).
Proof.
  revert i rows columns. induction n as [| n IH]; intros i rows columns;
    cbn [ZMF4Parser.readColumns]; respects_tac.
Qed.

End ReadersRespect.

#[export] Hint Resolve readObjectHeader_respects readObjectRefs_respects
  applyStyleRefs_respects readStyle_respects readFloat_respects readPoint_respects
  readUnscaledPoint_respects readBoundingBox_respects readCurveSectionTypes_respects
  readComponentHeaders_respects readCurveComponents_respects readColor_respects
  readGradientStop_respects readGradient_respects readPreviewBitmap_respects
  readDocumentSettings_respects applyImageRefs_respects readFill_respects
  readTransparency_respects applyArrowRefs_respects readPen_respects readShadow_respects
  readArrow_respects readBitmap_respects readFont_respects applyFontRefs_respects
  readParagraphStyle_respects readParagraphHeaders_respects readSpanHeaders_respects
  readAllSpanHeaders_respects readSpanText_respects readParagraphText_respects
  readText_respects applyTextRefs_respects readCell_respects readRowBorder_respects
  readColumns_respects : respects.

(* ------------------------------------------------------------------------- *)
(** ** The shapes only draw *)

(** A collector call of a shape reader adds content calls only. *)
Ltac draws_tac :=
  intros ?;
  first [ apply setStyle_drawsOnly | apply collectPaths_drawsOnly | apply collectPath_drawsOnly
        | apply collectEllipse_drawsOnly | apply collectArc_drawsOnly
        | apply collectPolygon_drawsOnly | apply collectImage_drawsOnly
        | apply collectTextObject_drawsOnly | apply collectTable_drawsOnly
        | apply startGroup_drawsOnly | apply endGroup_drawsOnly ].

Ltac shape_tac :=
  cbv zeta;
  repeat (first [ solve [auto with respects]
                | lazymatch goal with
                  | |- respects drawnFrom (ZMF4Parser.onCollector _) =>
                      apply respects_onCollector; draws_tac
                  end
                | respects_step ]).

Section ShapesDraw.
Context {S : Type} {IS : RVNGInputStream S} {E : Externals}.

Lemma readImage_draws : respects drawnFrom (ZMF4Parser.readImage (S := S)).
Proof. unfold ZMF4Parser.readImage. shape_tac. Qed.

Lemma readTextFrame_draws : respects drawnFrom (ZMF4Parser.readTextFrame (S := S)).
Proof. unfold ZMF4Parser.readTextFrame. shape_tac. Qed.

Lemma readCurve_draws fuel : respects drawnFrom (ZMF4Parser.readCurve (S := S) fuel).
Proof. unfold ZMF4Parser.readCurve. shape_tac. Qed.

Lemma readRectangle_draws : respects drawnFrom (ZMF4Parser.readRectangle (S := S)).
Proof. unfold ZMF4Parser.readRectangle. shape_tac. Qed.

Lemma readEllipse_draws : respects drawnFrom (ZMF4Parser.readEllipse (S := S)).
Proof. unfold ZMF4Parser.readEllipse. shape_tac. Qed.

Lemma readPolygon_draws fuel : respects drawnFrom (ZMF4Parser.readPolygon (S := S) fuel).
Proof. unfold ZMF4Parser.readPolygon. shape_tac. Qed.

Lemma readTable_draws : respects drawnFrom (ZMF4Parser.readTable (S := S)).
Proof. unfold ZMF4Parser.readTable. shape_tac. Qed.

(** Whatever object a layer holds, reading it sends content calls only and
    leaves the three flags alone. *)
Lemma readObject_draws fuel type :
  respects drawnFrom (ZMF4Parser.readObject (S := S) fuel type).
Proof.
  pose proof readImage_draws. pose proof readTextFrame_draws.
  pose proof (readCurve_draws fuel). pose proof readRectangle_draws.
  pose proof readEllipse_draws. pose proof (readPolygon_draws fuel).
  pose proof readTable_draws.
  destruct type; cbn [ZMF4Parser.readObject]; shape_tac.
Qed.

End ShapesDraw.

(* ------------------------------------------------------------------------- *)
(** ** From phase to phase *)

Lemma collectorAt_new : collectorAt Outside (ZMFCollector.new []).
Proof. split; reflexivity. Qed.

(** The six flagged calls, each from the phase the parser makes it in. *)
Lemma startDocument_at c :
  collectorAt Outside c -> collectorAt InDocument (ZMFCollector.startDocument c).
Proof.
  intros [Htrace Hflags]. unfold flags in Hflags. injection Hflags as Hd Hp Hl.
  unfold ZMFCollector.startDocument. rewrite Hd. split.
  - cbn. rewrite trace_app, Htrace. reflexivity.
  - unfold flags. cbn. now rewrite Hp, Hl.
Qed.

Lemma startPage_at settings c :
  collectorAt InDocument c -> collectorAt InPage (ZMFCollector.startPage settings c).
Proof.
  intros [Htrace Hflags]. unfold flags in Hflags. injection Hflags as Hd Hp Hl.
  unfold ZMFCollector.startPage. rewrite Hp, Hl. split.
  - cbn. rewrite trace_app, Htrace. reflexivity.
  - unfold flags. cbn. now rewrite Hd, Hl.
Qed.

Lemma startLayer_at c :
  collectorAt InPage c -> collectorAt InLayer (ZMFCollector.startLayer c).
Proof.
  intros [Htrace Hflags]. unfold flags in Hflags. injection Hflags as Hd Hp Hl.
  unfold ZMFCollector.startLayer. rewrite Hl. split.
  - cbn. rewrite trace_app, Htrace. reflexivity.
  - unfold flags. cbn. now rewrite Hd, Hp.
Qed.

Lemma endLayer_at c :
  collectorAt InLayer c -> collectorAt InPage (ZMFCollector.endLayer c).
Proof.
  intros [Htrace Hflags]. unfold flags in Hflags. injection Hflags as Hd Hp Hl.
  unfold ZMFCollector.endLayer. rewrite Hl. split.
  - cbn. rewrite trace_app, Htrace. reflexivity.
  - unfold flags. cbn. now rewrite Hd, Hp.
Qed.

Lemma endPage_at c :
  collectorAt InPage c -> collectorAt InDocument (ZMFCollector.endPage c).
Proof.
  intros [Htrace Hflags]. unfold flags in Hflags. injection Hflags as Hd Hp Hl.
  unfold ZMFCollector.endPage. rewrite Hp. split.
  - cbn. rewrite trace_app, Htrace. reflexivity.
  - unfold flags. cbn. now rewrite Hd, Hl.
Qed.

Lemma endDocument_at c :
  collectorAt InDocument c -> collectorAt Finished (ZMFCollector.endDocument c).
Proof.
  intros [Htrace Hflags]. unfold flags in Hflags. injection Hflags as Hd Hp Hl.
  unfold ZMFCollector.endDocument. rewrite Hd, Hp. split.
  - cbn. rewrite trace_app, Htrace. reflexivity.
  - unfold flags. cbn. now rewrite Hp, Hl.
Qed.

(** The destructor has nothing to do on a finished collector. *)
Lemma destroy_finished c : collectorAt Finished c -> ZMFCollector.destroy c = c.
Proof.
  intros [_ Hflags]. unfold flags in Hflags. injection Hflags as Hd _ _.
  unfold ZMFCollector.destroy. now rewrite Hd.
Qed.

Lemma destroy_outside c : collectorAt Outside c -> ZMFCollector.destroy c = c.
Proof.
  intros [_ Hflags]. unfold flags in Hflags. injection Hflags as Hd _ _.
  unfold ZMFCollector.destroy. now rewrite Hd.
Qed.

(** The collector stands in some phase. *)
Definition collectorSound (c : ZMFCollector.t) : Prop := exists ph, collectorAt ph c.

Section Leads.
Context {S : Type} {IS : RVNGInputStream S} {E : Externals}.

(** Started with the collector in phase [ph], a normal return of [m] with
    value [a] leaves it in phase [after a]; an exception or a halt leaves it in
    some phase. *)
Definition leadsTo (ph : phase) {A} (after : A -> phase) (m : M (ZMF4Parser.t S) A) : Prop :=
  forall p r p', collectorAt ph (ZMF4Parser.m_collector p) -> m p = (r, p') ->
                 match r with
                 | Ret a => collectorAt (after a) (ZMF4Parser.m_collector p')
                 | _ => collectorSound (ZMF4Parser.m_collector p')
                 end.

Lemma leadsTo_bind {A B} ph1 ph2 (after : B -> phase)
    (m : M (ZMF4Parser.t S) A) (k : A -> M (ZMF4Parser.t S) B) :
  leadsTo ph1 (fun _ => ph2) m -> (forall a, leadsTo ph2 after (k a)) ->
  leadsTo ph1 after (bind m k).
Proof.
  intros Hm Hk p r p' Hat H.
  apply bind_inv in H as [(a & p1 & H1 & H2) | [(e & H1 & ->) | (h & H1 & ->)]].
  - exact (Hk a _ _ _ (Hm _ _ _ Hat H1) H2).
  - exact (Hm _ _ _ Hat H1).
  - exact (Hm _ _ _ Hat H1).
Qed.

(** A reader that leaves the collector as it is stays in its phase. *)
Lemma leadsTo_same {A} ph (m : M (ZMF4Parser.t S) A) :
  respects eq m -> leadsTo ph (fun _ => ph) m.
Proof.
  intros Hm p r p' Hat H. rewrite <- (Hm _ _ _ H).
  destruct r; [exact Hat | exists ph; exact Hat ..].
Qed.

Lemma leadsTo_draws {A} (m : M (ZMF4Parser.t S) A) :
  respects drawnFrom m -> leadsTo InLayer (fun _ => InLayer) m.
Proof.
  intros Hm p r p' Hat H. pose proof (collectorAt_drawnFrom _ _ (Hm _ _ _ H) Hat) as Hat'.
  destruct r; [exact Hat' | exists InLayer; exact Hat' ..].
Qed.

Lemma leadsTo_onCollector ph ph' (f : ZMFCollector.t -> ZMFCollector.t) :
  (forall c, collectorAt ph c -> collectorAt ph' (f c)) ->
  leadsTo ph (fun _ => ph') (ZMF4Parser.onCollector f).
Proof.
  intros Hf p r p' Hat H. unfold ZMF4Parser.onCollector, modify in H. injection H as <- <-.
  now apply Hf.
Qed.

Lemma leadsTo_ret {A} ph (after : A -> phase) (a : A) :
  after a = ph -> leadsTo ph after (ret a).
Proof. intros Ha p r p' Hat H. injection H as <- <-. now rewrite Ha. Qed.

Lemma leadsTo_throw {A} ph (after : A -> phase) e : leadsTo ph after (throw e).
Proof. intros p r p' Hat H. injection H as <- <-. exists ph. exact Hat. Qed.

Lemma leadsTo_stop {A} ph (after : A -> phase) h : leadsTo ph after (stop h).
Proof. intros p r p' Hat H. injection H as <- <-. exists ph. exact Hat. Qed.

End Leads.

(** A step that does not touch the collector, in front of one that may. *)
Ltac leads_skip :=
  eapply leadsTo_bind; [apply leadsTo_same; respects_tac | intros ?].

Section Document.
Context {S : Type} {IS : RVNGInputStream S} {E : Externals}.

Lemma readLayerObjects_leads n fuel :
  leadsTo InLayer (fun _ => InPage) (ZMF4Parser.readLayerObjects (S := S) n fuel).
Proof.
  induction n as [| n IH]; cbn [ZMF4Parser.readLayerObjects]; [apply leadsTo_stop |].
  eapply leadsTo_bind; [apply leadsTo_draws; respects_tac | intros header].
  eapply leadsTo_bind; [apply leadsTo_draws; respects_tac | intros []].
  destruct (ZMF4Parser.type header);
    try (eapply leadsTo_bind; [apply leadsTo_draws, readObject_draws | intros []];
         first [exact IH
               | eapply leadsTo_bind; [apply leadsTo_draws; respects_tac | intros ?]; exact IH]).
  eapply leadsTo_bind; [apply leadsTo_draws; respects_tac | intros ?].
  apply leadsTo_onCollector, endLayer_at.
Qed.

Lemma readLayer_leads fuel header :
  leadsTo InPage (fun _ => InPage) (ZMF4Parser.readLayer (S := S) fuel header).
Proof.
  unfold ZMF4Parser.readLayer. destruct (ZMF4Parser.type header); try apply leadsTo_throw.
  eapply leadsTo_bind; [apply leadsTo_onCollector, startLayer_at | intros ?].
  eapply leadsTo_bind; [apply leadsTo_draws; respects_tac | intros ?].
  apply readLayerObjects_leads.
Qed.

Lemma skipColorPalettes_respects R {HR : PreOrder R} n :
  respects R (ZMF4Parser.skipColorPalettes (S := S) n).
Proof. induction n as [| n IH]; cbn [ZMF4Parser.skipColorPalettes]; respects_tac. Qed.

Lemma skipMasterPage_respects R {HR : PreOrder R} n header :
  respects R (ZMF4Parser.skipMasterPage (S := S) n header).
Proof.
  revert header. induction n as [| n IH]; intros header;
    cbn [ZMF4Parser.skipMasterPage]; respects_tac.
Qed.

Lemma readPageObjects_leads n fuel :
  leadsTo InPage (fun _ => InDocument) (ZMF4Parser.readPageObjects (S := S) n fuel).
Proof.
  induction n as [| n IH]; cbn [ZMF4Parser.readPageObjects]; [apply leadsTo_stop |].
  leads_skip. destruct (ZMF4Parser.type a); try apply leadsTo_throw;
    first [ eapply leadsTo_bind; [apply readLayer_leads | intros ?]; exact IH
          | eapply leadsTo_bind; [apply leadsTo_onCollector, endPage_at | intros ?];
            apply leadsTo_same; solve [respects_tac]
          | leads_skip; exact IH ].
Qed.

Lemma readPage_leads fuel : leadsTo InDocument (fun _ => InDocument) (ZMF4Parser.readPage (S := S) fuel).
Proof.
  unfold ZMF4Parser.readPage.
  eapply leadsTo_bind; [apply leadsTo_same, skipColorPalettes_respects; typeclasses eauto |].
  intros first. destruct (ZMF4Parser.type first); try apply leadsTo_throw.
  leads_skip. leads_skip.
  eapply leadsTo_bind.
  { apply leadsTo_same. destruct (_ =? _); [apply skipMasterPage_respects | apply respects_ret];
      typeclasses eauto. }
  intros startPageHeader. leads_skip.
  eapply leadsTo_bind; [apply leadsTo_onCollector, startPage_at | intros ?].
  leads_skip. apply readPageObjects_leads.
Qed.

Lemma readPages_leads n fuel : leadsTo InDocument (fun _ => InDocument) (ZMF4Parser.readPages (S := S) n fuel).
Proof.
  induction n as [| n IH]; cbn [ZMF4Parser.readPages]; leads_skip; destruct a;
    try solve [apply leadsTo_same; respects_tac].
  eapply leadsTo_bind; [apply readPage_leads | intros ?]. exact IH.
Qed.

End Document.

(* ------------------------------------------------------------------------- *)
(** ** The three parsers, from construction to destruction *)

(** The phase [ZMF4Parser::parse] ends in, by its result. *)
Definition phaseAfter (accepted : bool) : phase := if accepted then Finished else Outside.

Section Parsers.
Context {S : Type} {IS : RVNGInputStream S} {E : Externals}.

Lemma ZMF4Parser_parse_leads fuel :
  leadsTo Outside phaseAfter (ZMF4Parser.parse (S := S) fuel).
Proof.
  unfold ZMF4Parser.parse.
  do 5 leads_skip.
  lazymatch goal with
  | |- leadsTo _ _ (if ?b then _ else _) => destruct b; [now apply leadsTo_ret |]
  end.
  eapply leadsTo_bind; [apply leadsTo_onCollector, startDocument_at | intros ?].
  do 2 leads_skip.
  eapply leadsTo_bind; [apply readPages_leads | intros ?].
  eapply leadsTo_bind; [apply leadsTo_onCollector, endDocument_at | intros ?].
  now apply leadsTo_ret.
Qed.

(** What the sink has received when the parser is gone, whether [parse]
    returned or threw: nothing, or a complete document, or a document of
    which only the end of the last layer is missing. *)
Definition layerLeftOpen (calls : list PainterCall) : Prop :=
  exists sent, calls = sent ++ [CallEndPage; CallEndDocument] /\
               trace Outside sent = Some InLayer.

Lemma trace_Outside_nil (calls : list PainterCall) :
  trace Outside calls = Some Outside -> calls = [].
Proof.
  destruct calls as [| c rest]; [reflexivity |]. intros H. exfalso.
  destruct c; try discriminate. simpl in H.
  apply trace_counts in H. simpl in H. lia.
Qed.

Lemma destroy_calls (c : ZMFCollector.t) :
  collectorSound c ->
  let calls := ZMFCollector.m_painter (ZMFCollector.destroy c) in
  calls = [] \/ wellBracketed calls \/ layerLeftOpen calls.
Proof.
  intros [ph Hat]. cbv zeta. destruct ph.
  - left. rewrite (destroy_outside _ Hat). apply trace_Outside_nil, Hat.
  - right. left. destruct Hat as [Htrace Hflags]. unfold flags in Hflags.
    injection Hflags as Hd Hp Hl.
    unfold ZMFCollector.destroy, ZMFCollector.endDocument.
    rewrite Hd, Hp. cbn. unfold wellBracketed.
    rewrite trace_app, Htrace. reflexivity.
  - right. left. destruct Hat as [Htrace Hflags]. unfold flags in Hflags.
    injection Hflags as Hd Hp Hl.
    unfold ZMFCollector.destroy, ZMFCollector.endDocument, ZMFCollector.endPage.
    rewrite Hd, Hp. cbn. unfold wellBracketed.
    rewrite <- app_assoc, trace_app, Htrace. reflexivity.
  - right. right. destruct Hat as [Htrace Hflags]. unfold flags in Hflags.
    injection Hflags as Hd Hp Hl.
    unfold ZMFCollector.destroy, ZMFCollector.endDocument, ZMFCollector.endPage.
    rewrite Hd, Hp. cbn. exists (ZMFCollector.m_painter c).
    split; [now rewrite <- app_assoc | exact Htrace].
  - right. left. rewrite (destroy_finished _ Hat). exact (proj1 Hat).
Qed.

Lemma ZMF4Parser_run_calls fuel (input : S) r calls :
  ZMF4Parser.run fuel input [] = (r, calls) ->
  (forall h, r <> Halt h) ->
  calls = [] \/ wellBracketed calls \/ layerLeftOpen calls.
Proof.
  unfold ZMF4Parser.run. intros H Hreturns.
  destruct (ZMF4Parser.parse fuel (ZMF4Parser.new input [])) as [r' p] eqn:Hparse.
  apply ZMF4Parser_parse_leads in Hparse; [| exact collectorAt_new].
  destruct r' as [accepted | e | h]; injection H as <- <-.
  - apply destroy_calls. exists (phaseAfter accepted). exact Hparse.
  - apply destroy_calls. exact Hparse.
  - now elim (Hreturns h).
Qed.

(** An accepted drawing: the sink has seen a complete document when the
    parser is gone. *)
Lemma ZMF4Parser_run_wellBracketed fuel (input : S) calls :
  ZMF4Parser.run fuel input [] = (Ret true, calls) -> wellBracketed calls.
Proof.
  unfold ZMF4Parser.run. intros H.
  destruct (ZMF4Parser.parse fuel (ZMF4Parser.new input [])) as [r p] eqn:Hparse.
  destruct r as [accepted | e | h]; try discriminate. injection H as -> <-.
  apply ZMF4Parser_parse_leads in Hparse; [| exact collectorAt_new]. cbn in Hparse.
  rewrite (destroy_finished _ Hparse). exact (proj1 Hparse).
Qed.

Lemma BMIParser_parse_wellBracketed fuel (input input' : S) calls :
  BMIParser_parse fuel input [] = (Ret true, input', calls) -> wellBracketed calls.
Proof.
  unfold BMIParser_parse. intros H.
  destruct (BMIParser.readImage fuel BMIHeader.new input) as [[[bitmap header] | e | h] s'];
    try discriminate.
  destruct (image_data bitmap) as [| b data] eqn:Hdata; [discriminate |].
  cbv zeta in H. injection H as _ <-. reflexivity.
Qed.

Lemma ZBRParser_parse_wellBracketed (input input' : S) calls :
  ZBRParser_parse input [] = (Ret true, input', calls) -> wellBracketed calls.
Proof.
  unfold ZBRParser_parse. intros H.
  destruct (ZBRHeader.load ZBRHeader.new input) as [[[loaded header] | e | h] s'];
    try discriminate.
  destruct (negb loaded || negb (ZBRHeader.isSupported header)); [discriminate |].
  injection H as _ <-. reflexivity.
Qed.

Lemma caught_true r : ZMFDocument.caught r = Ret true -> r = Ret true.
Proof. destruct r; simpl; congruence. Qed.

Lemma caught_not_throw r e : ZMFDocument.caught r <> Throw e.
Proof. destruct r; discriminate. Qed.

Lemma BMIParser_parse_calls fuel (input input' : S) r calls :
  BMIParser_parse fuel input [] = (r, input', calls) -> calls = [] \/ wellBracketed calls.
Proof.
  unfold BMIParser_parse. intros H.
  destruct (BMIParser.readImage fuel BMIHeader.new input) as [[[bitmap header] | e | h] s'].
  - destruct (image_data bitmap) as [| b data] eqn:Hdata.
    + injection H as _ _ <-. now left.
    + cbv zeta in H. injection H as _ _ <-. right. reflexivity.
  - injection H as _ _ <-. now left.
  - injection H as _ _ <-. now left.
Qed.

Lemma ZBRParser_parse_calls (input input' : S) r calls :
  ZBRParser_parse input [] = (r, input', calls) -> calls = [] \/ wellBracketed calls.
Proof.
  unfold ZBRParser_parse. intros H.
  destruct (ZBRHeader.load ZBRHeader.new input) as [[[loaded header] | e | h] s'].
  - destruct (negb loaded || negb (ZBRHeader.isSupported header)).
    + injection H as _ _ <-. now left.
    + injection H as _ _ <-. right. reflexivity.
  - injection H as _ _ <-. now left.
  - injection H as _ _ <-. now left.
Qed.

Lemma ZMFDocument_parse_wellBracketed fuel (input : S) calls :
  ZMFDocument.parse fuel input [] = (Ret true, calls) -> wellBracketed calls.
Proof.
  unfold ZMFDocument.parse. intros H.
  destruct (ZMFDocument.detect input) as [[|] info]; [| discriminate].
  destruct (ZMFDocument.m_content info) as [content |]; [| discriminate].
  destruct (ZMFDocument.m_type info); try discriminate.
  - destruct (ZMF4Parser.run _ _ _) as [r calls'] eqn:Hrun.
    injection H as Hr <-. apply caught_true in Hr. subst r.
    exact (ZMF4Parser_run_wellBracketed _ _ _ Hrun).
  - destruct (ZBRParser_parse _ _) as [[r s'] calls'] eqn:Hrun.
    injection H as Hr <-. apply caught_true in Hr. subst r.
    exact (ZBRParser_parse_wellBracketed _ _ _ Hrun).
  - destruct (BMIParser_parse _ _ _) as [[r s'] calls'] eqn:Hrun.
    injection H as Hr <-. apply caught_true in Hr. subst r.
    exact (BMIParser_parse_wellBracketed _ _ _ _ Hrun).
Qed.

(** No exception leaves [ZMFDocument::parse], and when it returns the sink
    has received nothing, or a complete document, or a document of which only
    the end of the last layer is missing. *)
Lemma caught_halt r h : ZMFDocument.caught r <> Halt h -> r <> Halt h.
Proof. destruct r; simpl; congruence. Qed.

Lemma ZMFDocument_parse_calls fuel (input : S) r calls :
  ZMFDocument.parse fuel input [] = (r, calls) ->
  (forall e, r <> Throw e) /\
  ((forall h, r <> Halt h) -> calls = [] \/ wellBracketed calls \/ layerLeftOpen calls).
Proof.
  unfold ZMFDocument.parse. intros H.
  destruct (ZMFDocument.detect input) as [[|] info];
    [| injection H as <- <-; split; [discriminate | now left]].
  destruct (ZMFDocument.m_content info) as [content |];
    [| injection H as <- <-; split; [discriminate | now left]].
  destruct (ZMFDocument.m_type info).
  - injection H as <- <-. split; [discriminate | now left].
  - destruct (ZMF4Parser.run _ _ _) as [r' calls'] eqn:Hrun.
    injection H as <- <-. split; [intros e; apply caught_not_throw |].
    intros Hreturns. apply (ZMF4Parser_run_calls _ _ _ _ Hrun).
    intros h. apply caught_halt, Hreturns.
  - destruct (ZBRParser_parse _ _) as [[r' s'] calls'] eqn:Hrun.
    injection H as <- <-. split; [intros e; apply caught_not_throw |].
    intros _. destruct (ZBRParser_parse_calls _ _ _ _ Hrun); auto.
  - destruct (BMIParser_parse _ _ _) as [[r' s'] calls'] eqn:Hrun.
    injection H as <- <-. split; [intros e; apply caught_not_throw |].
    intros _. destruct (BMIParser_parse_calls _ _ _ _ _ Hrun); auto.
Qed.

End Parsers.

(** When only the end of the last layer is missing, the document and every
    page are closed all the same. *)
Lemma layerLeftOpen_counts (calls : list PainterCall) :
  layerLeftOpen calls ->
  countCalls isStartDocument calls = 1%nat /\
  countCalls isEndDocument calls = 1%nat /\
  countCalls isStartPage calls = countCalls isEndPage calls /\
  countCalls isStartLayer calls = Datatypes.S (countCalls isEndLayer calls) /\
  ~ wellBracketed calls.
Proof.
  intros (sent & -> & Htrace).
  pose proof (trace_counts _ _ _ Htrace) as Hcounts. simpl in Hcounts.
  unfold countCalls in *. rewrite !List.filter_app, !length_app. cbn.
  repeat split; try lia.
  unfold wellBracketed. rewrite trace_app, Htrace. discriminate.
Qed.

(* ------------------------------------------------------------------------- *)
(** ** Object headers that are refused *)

Lemma readU8_mem (data : list Z) (pos : Z) (flag : bool) :
  0 <= pos -> pos + 1 <= Z.of_nat (length data) ->
  readU8 (mkMemStream data pos flag)
  = (Ret (le_value (firstn 1 (skipn (Z.to_nat pos) data))), mkMemStream data (pos + 1) flag).
Proof.
  intros Hpos Hfit. unfold readU8, bind, checkStream, readExact, ret.
  cbn [rvng_isEnd rvng_read MemStream_input]. unfold ms_size. cbn [ms_data ms_pos].
  destruct (Z.leb_spec (Z.of_nat (length data)) pos); [lia |].
  rewrite ms_read_available by lia.
  rewrite length_firstn, length_skipn.
  destruct (Z.eqb_spec (Z.of_nat (Init.Nat.min (Z.to_nat 1) (length data - Z.to_nat pos))) 1);
    [reflexivity | lia].
Qed.

Lemma skip_mem (data : list Z) (pos n : Z) (flag : bool) :
  0 <= pos -> 0 <= n -> pos < Z.of_nat (length data) -> pos + n <= Z.of_nat (length data) ->
  skip n (mkMemStream data pos flag) = (Ret tt, mkMemStream data (pos + n) flag).
Proof.
  intros Hpos Hn Hin Hfit. unfold skip, bind, checkStream, seekRelative.
  cbn [rvng_isEnd rvng_seek MemStream_input]. unfold ms_size.
  cbn [ms_data ms_pos ms_seekEnd].
  destruct (Z.leb_spec (Z.of_nat (length data)) pos); [lia |].
  unfold ms_seek, ms_moveTo, ms_size. cbn [ms_data ms_pos ms_seekEnd].
  destruct (Z.ltb_spec (pos + n) 0); [lia |].
  destruct (Z.ltb_spec (Z.of_nat (length data)) (pos + n)); [lia |]. reflexivity.
Qed.

(** Reading to the end of an in-memory stream takes as many steps as bytes
    are left. *)
Lemma readToEnd_mem (fuel : nat) (data : list Z) (pos : Z) (flag : bool) :
  0 <= pos <= Z.of_nat (length data) ->
  Z.of_nat (length data) - pos <= Z.of_nat fuel ->
  readToEnd fuel (mkMemStream data pos flag)
  = (Ret tt, mkMemStream data (Z.of_nat (length data)) flag).
Proof.
  revert pos. induction fuel as [| fuel IH]; intros pos Hpos Hfuel;
    cbn [readToEnd]; cbn [rvng_isEnd MemStream_input]; unfold ms_size; cbn [ms_data ms_pos];
    destruct (Z.leb_spec (Z.of_nat (length data)) pos) as [Hend | Hmore];
    try (replace pos with (Z.of_nat (length data)) by lia; reflexivity); try lia.
  rewrite (bind_eq_ret _ _ _ _ _ (readU8_mem data pos flag ltac:(lia) ltac:(lia))).
  apply IH; lia.
Qed.

(** On an in-memory stream that is not at its end, [getLength] returns the
    number of bytes left and puts the cursor back, with or without the
    end-relative seek, once the fuel covers the bytes to read. *)
Lemma getLength_mem (fuel : nat) (data : list Z) (pos : Z) (flag : bool) :
  0 <= pos < Z.of_nat (length data) ->
  (flag = false -> Z.of_nat (length data) - pos <= Z.of_nat fuel) ->
  getLength fuel (mkMemStream data pos flag)
  = (Ret (Z.of_nat (length data) - pos), mkMemStream data pos flag).
Proof.
  intros Hpos Hfuel.
  assert (Hend : rvng_isEnd (mkMemStream data pos flag) = false).
  { cbn [rvng_isEnd MemStream_input]. unfold ms_size. cbn [ms_data ms_pos].
    apply Z.leb_gt. lia. }
  assert (Hse : seekToEnd fuel (mkMemStream data pos flag)
                = (Ret tt, mkMemStream data (Z.of_nat (length data)) flag)).
  { unfold seekToEnd. cbn [rvng_seek MemStream_input]. unfold ms_seek. cbn [ms_seekEnd].
    destruct flag.
    - unfold ms_moveTo, ms_size. cbn [ms_data ms_pos ms_seekEnd].
      rewrite Z.add_0_r.
      destruct (Z.ltb_spec (Z.of_nat (length data)) 0); [lia |].
      rewrite Z.ltb_irrefl. reflexivity.
    - cbn [Z.eqb]. apply readToEnd_mem; [lia | auto]. }
  rewrite (getLength_after_seekToEnd fuel _ _ Hend Hse). cbn [rvng_tell MemStream_input ms_pos].
  destruct (Z.ltb_spec (Z.of_nat (length data)) pos); [lia |].
  rewrite (bind_eq_ret _ _ _ _ _ (seek_mem data _ pos flag ltac:(lia))). reflexivity.
Qed.

(** One read or skip of a parser over a [MemStream], by the lemma that gives
    its result. *)
Ltac mem_step lemma :=
  lazymatch goal with
  | |- bind (ZMF4Parser.onInput ?m) _ ?q = _ =>
      rewrite (bind_eq_ret _ _ _ _ _
                 (onInput_ret m q _ _
                    ltac:(cbn [ZMF4Parser.m_input ZMF4Parser.set_input]; apply lemma; lia)));
      rewrite ?set_input_set_input
  end.

(** The four tests of [readObjectHeader], on the raw fields of a header. *)
Definition headerRefused (inputLength startOffset size refObjCount refListStartOffset : Z) : Prop :=
  size = 0 \/ u32 (inputLength - u32 startOffset) < size \/ size <= refListStartOffset
  \/ size - refListStartOffset < 8 * refObjCount.

(** A header of which one test fails, and whose first 20 bytes lie in the
    stream, makes [readObjectHeader] throw [GenericException]. *)
Lemma readObjectHeader_refuses (p : ZMF4Parser.t MemStream)
    (data : list Z) (pos : Z) (flag : bool) :
  ZMF4Parser.m_input p = mkMemStream data pos flag ->
  0 <= pos -> pos + 20 <= Z.of_nat (length data) ->
  headerRefused (ZMF4Parser.m_inputLength p) pos
                (u32At data pos) (u32At data (pos + 12)) (u32At data (pos + 16)) ->
  ZMF4Parser.readObjectHeader p
  = (Throw GenericException, ZMF4Parser.set_input (mkMemStream data (pos + 20) flag) p).
Proof.
  intros Hin Hpos Hfit Hbad. unfold ZMF4Parser.readObjectHeader.
  rewrite (bind_eq_ret _ _ _ _ _ (tell_mem p)). rewrite Hin. cbn [ms_pos].
  rewrite (bind_eq_ret _ _ _ _ _
             (onInput_ret readU32 p _ _ ltac:(rewrite Hin; apply readU32_mem; lia))).
  mem_step readU8_mem. mem_step skip_mem. mem_step readU32_mem. mem_step readU32_mem.
  rewrite bind_gets. cbn [ZMF4Parser.m_inputLength ZMF4Parser.set_input].
  replace (pos + 4 + 1 + 7) with (pos + 12) by lia.
  replace (pos + 12 + 4 + 4) with (pos + 20) by lia.
  replace (pos + 12 + 4) with (pos + 16) by lia.
  set (size := u32At data pos) in *.
  set (refObjCount := u32At data (pos + 12)) in *.
  set (refListStartOffset := u32At data (pos + 16)) in *.
  destruct (Z.eqb_spec size 0) as [| Hsize]; [reflexivity |].
  destruct (Z.ltb_spec (u32 (ZMF4Parser.m_inputLength p - u32 pos)) size) as [| Hlen];
    [reflexivity |].
  destruct (Z.leb_spec size refListStartOffset) as [| Hstart]; [reflexivity |].
  destruct (Z.ltb_spec ((size - refListStartOffset) / 8) refObjCount) as [| Hcount];
    [reflexivity |].
  exfalso. pose proof (Z.mul_div_le (size - refListStartOffset) 8 ltac:(lia)).
  destruct Hbad as [? | [? | [? | ?]]]; lia.
Qed.

(* ------------------------------------------------------------------------- *)
(** ** Two small drawings *)

(** The file header: signature at 8, six objects, content at 40, no preview. *)
Definition fileHeader : list Z :=
  zeros 8 ++ le32 0x12345678 ++ zeros 16 ++ le32 6 ++ le32 40 ++ le32 0.

(** Document settings of a white letter page (215.9 mm by 279.4 mm). *)
Definition documentSettings : list Z :=
  objectHeader 152 0x27 0 0 NO_ID ++ zeros 32 ++ [255; 255; 255] ++ zeros 5
  ++ le32 215900 ++ le32 279400 ++ zeros 68 ++ le32 0 ++ le32 0.

(** An object that is its header only. *)
Definition emptyObject (type : Z) : list Z := objectHeader 28 type 0 0 NO_ID.

(** A master page, then a page with one layer that holds an empty group. *)
Definition drawingWithGroup : list Z :=
  fileHeader ++ documentSettings ++ emptyObject 0x21 ++ emptyObject 0x21
  ++ emptyObject 0x24 ++ emptyObject 0x41 ++ emptyObject 0x42 ++ emptyObject 0x25
  ++ emptyObject 0x23.

(** The same up to the layer start; the next header has size 0. *)
Definition drawingWithBadHeader : list Z :=
  fileHeader ++ documentSettings ++ emptyObject 0x21 ++ emptyObject 0x21
  ++ emptyObject 0x24 ++ objectHeader 0 0x41 0 0 NO_ID.

Definition letterPage : ZMFPageSettings :=
  mkPageSettings 8.5%float 11%float 0%float 0%float (mkColor 255 255 255).

(* ------------------------------------------------------------------------- *)
(** ** Redundant calls on the collector *)

Lemma startDocument_idempotent c :
  ZMFCollector.startDocument (ZMFCollector.startDocument c) = ZMFCollector.startDocument c.
Proof.
  unfold ZMFCollector.startDocument.
  destruct (ZMFCollector.m_isDocumentStarted c) eqn:Hd; [now rewrite Hd | reflexivity].
Qed.

Lemma endDocument_idempotent c :
  ZMFCollector.endDocument (ZMFCollector.endDocument c) = ZMFCollector.endDocument c.
Proof.
  unfold ZMFCollector.endDocument.
  destruct (ZMFCollector.m_isDocumentStarted c) eqn:Hd; cbn [negb]; [| now rewrite Hd].
  reflexivity.
Qed.

Lemma startPage_idempotent settings settings' c :
  ZMFCollector.startPage settings' (ZMFCollector.startPage settings c)
  = ZMFCollector.startPage settings c.
Proof.
  unfold ZMFCollector.startPage.
  destruct (ZMFCollector.m_isPageStarted c) eqn:Hp; [now rewrite Hp | reflexivity].
Qed.

Lemma endPage_idempotent c :
  ZMFCollector.endPage (ZMFCollector.endPage c) = ZMFCollector.endPage c.
Proof.
  unfold ZMFCollector.endPage.
  destruct (ZMFCollector.m_isPageStarted c) eqn:Hp; cbn [negb]; [| now rewrite Hp].
  reflexivity.
Qed.

Lemma startLayer_idempotent c :
  ZMFCollector.startLayer (ZMFCollector.startLayer c) = ZMFCollector.startLayer c.
Proof.
  unfold ZMFCollector.startLayer.
  destruct (ZMFCollector.m_isLayerStarted c) eqn:Hl; [now rewrite Hl | reflexivity].
Qed.

Lemma endLayer_idempotent c :
  ZMFCollector.endLayer (ZMFCollector.endLayer c) = ZMFCollector.endLayer c.
Proof.
  unfold ZMFCollector.endLayer.
  destruct (ZMFCollector.m_isLayerStarted c) eqn:Hl; cbn [negb]; [| now rewrite Hl].
  reflexivity.
Qed.

(** A start on a set flag and an end on a clear flag return the collector as
    it is: nothing reaches the sink and no flag changes. *)
Definition redundantCallsAreNoOps : Prop :=
  forall c settings,
    (ZMFCollector.m_isDocumentStarted c = true -> ZMFCollector.startDocument c = c) /\
    (ZMFCollector.m_isDocumentStarted c = false -> ZMFCollector.endDocument c = c) /\
    (ZMFCollector.m_isPageStarted c = true -> ZMFCollector.startPage settings c = c) /\
    (ZMFCollector.m_isPageStarted c = false -> ZMFCollector.endPage c = c) /\
    (ZMFCollector.m_isLayerStarted c = true -> ZMFCollector.startLayer c = c) /\
    (ZMFCollector.m_isLayerStarted c = false -> ZMFCollector.endLayer c = c).

Lemma redundant_calls : redundantCallsAreNoOps.
Proof.
  intros c settings.
  unfold ZMFCollector.startDocument, ZMFCollector.endDocument, ZMFCollector.startPage,
    ZMFCollector.endPage, ZMFCollector.startLayer, ZMFCollector.endLayer.
  repeat split; intros ->; reflexivity.
Qed.

(** Calling a start or an end twice is calling it once. *)
Definition flaggedCallsAreIdempotent : Prop :=
  forall c settings,
    ZMFCollector.startDocument (ZMFCollector.startDocument c) = ZMFCollector.startDocument c /\
    ZMFCollector.endDocument (ZMFCollector.endDocument c) = ZMFCollector.endDocument c /\
    ZMFCollector.startPage settings (ZMFCollector.startPage settings c)
    = ZMFCollector.startPage settings c /\
    ZMFCollector.endPage (ZMFCollector.endPage c) = ZMFCollector.endPage c /\
    ZMFCollector.startLayer (ZMFCollector.startLayer c) = ZMFCollector.startLayer c /\
    ZMFCollector.endLayer (ZMFCollector.endLayer c) = ZMFCollector.endLayer c.

Lemma flagged_calls_idempotent : flaggedCallsAreIdempotent.
Proof.
  intros c settings.
  repeat split; auto using startDocument_idempotent, endDocument_idempotent,
    startPage_idempotent, endPage_idempotent, startLayer_idempotent, endLayer_idempotent.
Qed.

(** [startPage] ends a running layer first, [endDocument] a running page. *)
Definition implicitEnds : Prop :=
  forall c settings,
    (ZMFCollector.m_isPageStarted c = false -> ZMFCollector.m_isLayerStarted c = true ->
     ZMFCollector.m_painter (ZMFCollector.startPage settings c)
     = ZMFCollector.m_painter c ++ [CallEndLayer; CallStartPage settings]) /\
    (ZMFCollector.m_isDocumentStarted c = true -> ZMFCollector.m_isPageStarted c = true ->
     ZMFCollector.m_painter (ZMFCollector.endDocument c)
     = ZMFCollector.m_painter c ++ [CallEndPage; CallEndDocument]).

Lemma implicit_ends : implicitEnds.
Proof.
  intros c settings. split; intros H1 H2.
  - unfold ZMFCollector.startPage, ZMFCollector.endLayer. rewrite H1, H2. cbn.
    now rewrite <- app_assoc.
  - unfold ZMFCollector.endDocument, ZMFCollector.endPage. rewrite H1, H2. cbn.
    now rewrite <- app_assoc.
Qed.

(** C2.  When [ZMFDocument::parse] accepts a file (a drawing, a bitmap or a
    Zebra file) the calls the sink has received form one complete document:
    they run through the phases outside, in document, in page, in layer and
    back, so exactly one [startDocument] and one [endDocument] are sent, every
    [startPage] has its [endPage], every [startLayer] its [endLayer], and
    pages and layers never interleave.  On the collector a start on a set flag
    and an end on a clear flag do nothing, each flagged call is idempotent,
    [startPage] ends a running layer and [endDocument] a running page. *)
Theorem accepted_document_is_bracketed {S : Type} {IS : RVNGInputStream S} {E : Externals}
    (fuel : nat) (input : S) (calls : list PainterCall) :
  ZMFDocument.parse fuel input [] = (Ret true, calls) ->
  wellBracketed calls /\
  countCalls isStartDocument calls = 1%nat /\
  countCalls isEndDocument calls = 1%nat /\
  countCalls isStartPage calls = countCalls isEndPage calls /\
  countCalls isStartLayer calls = countCalls isEndLayer calls /\
  redundantCallsAreNoOps /\ flaggedCallsAreIdempotent /\ implicitEnds.
Proof.
  intros Haccepted. apply ZMFDocument_parse_wellBracketed in Haccepted.
  pose proof (wellBracketed_counts calls Haccepted) as (Hsd & Hed & Hpages & Hlayers).
  exact (conj Haccepted (conj Hsd (conj Hed (conj Hpages (conj Hlayers
           (conj redundant_calls (conj flagged_calls_idempotent implicit_ends))))))).
Qed.

Lemma accepted_document_is_bracketed_witness :
  let calls := [CallStartDocument; CallStartPage letterPage; CallStartLayer; CallOpenGroup;
                CallCloseGroup; CallEndLayer; CallEndPage; CallEndDocument] in
  ZMFDocument.parse (E := libm_on_axes) 100 (memStream drawingWithGroup) [] = (Ret true, calls) /\
  wellBracketed calls /\
  countCalls isStartDocument calls = 1%nat /\
  countCalls isEndDocument calls = 1%nat /\
  countCalls isStartPage calls = countCalls isEndPage calls /\
  countCalls isStartLayer calls = countCalls isEndLayer calls /\
  redundantCallsAreNoOps /\ flaggedCallsAreIdempotent /\ implicitEnds.
Proof.
  intros calls.
  assert (Hparse : ZMFDocument.parse (E := libm_on_axes) 100 (memStream drawingWithGroup) []
                   = (Ret true, calls)) by (vm_compute; reflexivity).
  split; [exact Hparse |].
  exact (accepted_document_is_bracketed (E := libm_on_axes) 100 (memStream drawingWithGroup)
           calls Hparse).
Defined.

(** C1.  A header that fails one of the four tests makes [readObjectHeader]
    throw [GenericException].  No exception leaves [ZMFDocument::parse], and
    whenever it returns (a run that stops runs no destructor and is left out)
    the sink is left with as many [endDocument] as [startDocument] calls and
    as many [endPage] as [startPage] calls: it has seen nothing, or a complete
    document, or a document of which only the end of the last layer is
    missing.  That last case happens: the collector's destructor ends the
    running page and the document, never the running layer.  On
    [drawingWithBadHeader], whose header at 276 has size 0, [parse] returns
    false and the sink has seen [startLayer] and no [endLayer] before
    [endPage]. *)
Theorem bad_header_leaves_layer_open :
  (forall (p : ZMF4Parser.t MemStream) data pos flag,
      ZMF4Parser.m_input p = mkMemStream data pos flag ->
      0 <= pos -> pos + 20 <= Z.of_nat (length data) ->
      headerRefused (ZMF4Parser.m_inputLength p) pos
                    (u32At data pos) (u32At data (pos + 12)) (u32At data (pos + 16)) ->
      ZMF4Parser.readObjectHeader p
      = (Throw GenericException, ZMF4Parser.set_input (mkMemStream data (pos + 20) flag) p)) /\
  (forall (S : Type) (IS : RVNGInputStream S) (E : Externals) fuel (input : S) r calls,
      ZMFDocument.parse fuel input [] = (r, calls) ->
      (forall e, r <> Throw e) /\
      ((forall h, r <> Halt h) ->
       countCalls isStartDocument calls = countCalls isEndDocument calls /\
       countCalls isStartPage calls = countCalls isEndPage calls /\
       (calls = [] \/ wellBracketed calls \/ layerLeftOpen calls))) /\
  headerRefused 304 276 (u32At drawingWithBadHeader 276) (u32At drawingWithBadHeader 288)
                (u32At drawingWithBadHeader 292) /\
  let calls := [CallStartDocument; CallStartPage letterPage; CallStartLayer; CallEndPage;
                CallEndDocument] in
  ZMFDocument.parse (E := libm_on_axes) 100 (memStream drawingWithBadHeader) []
  = (Ret false, calls) /\
  layerLeftOpen calls /\ ~ wellBracketed calls /\
  countCalls isStartLayer calls = 1%nat /\ countCalls isEndLayer calls = 0%nat.
Proof.
  split; [intros p data pos flag; apply readObjectHeader_refuses |].
  split.
  { intros S IS E fuel input r calls H.
    apply ZMFDocument_parse_calls in H as [Hcaught Hcalls].
    split; [exact Hcaught |]. intros Hreturns.
    destruct (Hcalls Hreturns) as [-> | [Hwell | Hopen]].
    - repeat split; auto.
    - pose proof (wellBracketed_counts calls Hwell) as (Hsd & Hed & Hpages & _).
      repeat split; auto; congruence.
    - pose proof (layerLeftOpen_counts calls Hopen) as (Hsd & Hed & Hpages & _).
      repeat split; auto; congruence. }
  split; [left; reflexivity |].
  intros calls. split; [vm_compute; reflexivity |].
  split; [exists [CallStartDocument; CallStartPage letterPage; CallStartLayer];
          split; reflexivity |].
  split; [intros H; discriminate H |]. split; reflexivity.
Qed.

(* ------------------------------------------------------------------------- *)
(** ** Object headers that are accepted *)

Section AcceptedHeaders.
Context {S : Type} {IS : RVNGInputStream S} {E : Externals}.

Lemma onInput_inv {A} (m : M S A) (p p' : ZMF4Parser.t S) (r : outcome A) :
  ZMF4Parser.onInput m p = (r, p') ->
  exists s', m (ZMF4Parser.m_input p) = (r, s') /\ p' = ZMF4Parser.set_input s' p.
Proof.
  unfold ZMF4Parser.onInput, zoom. destruct (m (ZMF4Parser.m_input p)) as [r1 s'].
  intros H. injection H as <- <-. exists s'. split; reflexivity.
Qed.

(** A header that [readObjectHeader] returns has passed the four tests: its
    size is not 0 and at most what is left of the input from the header's
    start, the raw offset of the reference list is below the size, and the
    references fit between that offset and the end of the object; the next
    object starts [size] bytes after this one. *)
Theorem readObjectHeader_accepts (p p' : ZMF4Parser.t S) (header : ZMF4Parser.ObjectHeader) :
  ZMF4Parser.readObjectHeader p = (Ret header, p') ->
  let startOffset := u32 (rvng_tell (ZMF4Parser.m_input p)) in
  ZMF4Parser.size header <> 0 /\
  ZMF4Parser.size header <= u32 (ZMF4Parser.m_inputLength p - startOffset) /\
  ZMF4Parser.nextObjectOffset header = u32 (startOffset + ZMF4Parser.size header) /\
  exists raw,
    raw < ZMF4Parser.size header /\
    ZMF4Parser.refObjCount header <= (ZMF4Parser.size header - raw) / 8 /\
    ZMF4Parser.refListStartOffset header = (if 0 <? raw then u32 (raw + startOffset) else raw).
Proof.
  intros H. unfold ZMF4Parser.readObjectHeader in H.
  apply bind_ret_inv in H as (pos & p1 & H1 & H).
  apply onInput_inv in H1 as (s1 & Htell & ->). unfold tell, gets in Htell.
  injection Htell as <- <-.
  apply bind_ret_inv in H as (size & p2 & H2 & H). apply onInput_inv in H2 as (s2 & _ & ->).
  apply bind_ret_inv in H as (type & p3 & H3 & H). apply onInput_inv in H3 as (s3 & _ & ->).
  apply bind_ret_inv in H as ([] & p4 & H4 & H). apply onInput_inv in H4 as (s4 & _ & ->).
  apply bind_ret_inv in H as (count & p5 & H5 & H). apply onInput_inv in H5 as (s5 & _ & ->).
  apply bind_ret_inv in H as (raw & p6 & H6 & H). apply onInput_inv in H6 as (s6 & _ & ->).
  rewrite bind_gets in H. cbn [ZMF4Parser.m_inputLength ZMF4Parser.set_input] in H.
  destruct (Z.eqb_spec size 0) as [| Hsize]; [discriminate |].
  destruct (Z.ltb_spec (u32 (ZMF4Parser.m_inputLength p
                             - u32 (rvng_tell (ZMF4Parser.m_input p)))) size) as [| Hlen];
    [discriminate |].
  destruct (Z.leb_spec size raw) as [| Hraw]; [discriminate |].
  destruct (Z.ltb_spec ((size - raw) / 8) count) as [| Hcount]; [discriminate |].
  cbn [orb] in H.
  apply bind_ret_inv in H as ([] & p7 & H7 & H).
  apply bind_ret_inv in H as (id & p8 & H8 & H).
  injection H as <- _. cbn [ZMF4Parser.size ZMF4Parser.nextObjectOffset
                             ZMF4Parser.refObjCount ZMF4Parser.refListStartOffset].
  repeat split; try assumption. exists raw. repeat split; assumption.
Qed.

End AcceptedHeaders.

Lemma readObjectHeader_accepts_witness :
  let p := parserAt objectWithTwoLists 0 ZMF4Parser.ObjectHeader_default in
  let header := ZMF4Parser.mkObjectHeader ZMF4Parser.PEN 48 48 (Some 5) 1 28 in
  let startOffset := u32 (rvng_tell (ZMF4Parser.m_input p)) in
  ZMF4Parser.size header <> 0 /\
  ZMF4Parser.size header <= u32 (ZMF4Parser.m_inputLength p - startOffset) /\
  ZMF4Parser.nextObjectOffset header = u32 (startOffset + ZMF4Parser.size header) /\
  exists raw,
    raw < ZMF4Parser.size header /\
    ZMF4Parser.refObjCount header <= (ZMF4Parser.size header - raw) / 8 /\
    ZMF4Parser.refListStartOffset header = (if 0 <? raw then u32 (raw + startOffset) else raw).
Proof.
  intros p header.
  apply (readObjectHeader_accepts p
           (ZMF4Parser.set_input (mkMemStream objectWithTwoLists 28 true) p) header).
  vm_compute. reflexivity.
Defined.

(** With fuel for the bytes that are left, [getLength] returns on an in-memory
    stream that is not at its end, whether the stream supports the seek to the
    end or not: the bytes left, and the cursor where it was. *)
Theorem getLength_returns (fuel : nat) (data : list Z) (pos : Z) (flag : bool) :
  0 <= pos < Z.of_nat (length data) ->
  Z.of_nat (length data) - pos <= Z.of_nat fuel ->
  getLength fuel (mkMemStream data pos flag)
  = (Ret (Z.of_nat (length data) - pos), mkMemStream data pos flag).
Proof. intros Hpos Hfuel. apply getLength_mem; auto. Qed.

Lemma getLength_returns_witness :
  getLength 3 (mkMemStream [1; 2; 3; 4; 5] 2 false)
  = (Ret (Z.of_nat (length [1; 2; 3; 4; 5]) - 2), mkMemStream [1; 2; 3; 4; 5] 2 false).
Proof. apply (getLength_returns 3 [1; 2; 3; 4; 5] 2 false); simpl; lia. Defined.
(* ========================================================================= *)
(** * Further properties *)

(* ------------------------------------------------------------------------- *)
(** ** Writing and reading integers *)

(** [writeU16 (buffer, value)]: [value] is an [int]; the buffer afterwards. *)
Definition writeU16 (buffer : list Z) (value : Z) : list Z :=
  buffer ++ [Z.land value 0xFF; Z.land (Z.shiftr value 8) 0xFF].

(** [writeU32 (buffer, value)] *)
Definition writeU32 (buffer : list Z) (value : Z) : list Z :=
  buffer ++ [Z.land value 0xFF; Z.land (Z.shiftr value 8) 0xFF;
             Z.land (Z.shiftr value 16) 0xFF; Z.land (Z.shiftr value 24) 0xFF].

Lemma land_0xFF (x : Z) : Z.land x 0xFF = x mod 2 ^ 8.
Proof. change 0xFF with (Z.ones 8). now apply Z.land_ones. Qed.

Lemma lor_shiftl_add (a b n : Z) :
  0 <= n -> 0 <= a < 2 ^ n -> Z.lor a (Z.shiftl b n) = a + b * 2 ^ n.
Proof.
  intros Hn Ha. rewrite <- Z.shiftl_mul_pow2 by exact Hn.
  assert (Hland : Z.land a (Z.shiftl b n) = 0).
  { apply Z.bits_inj'. intros m Hm. rewrite Z.land_spec, Z.bits_0.
    destruct (Z.lt_ge_cases m n) as [Hlow | Hhigh].
    - rewrite (Z.shiftl_spec_low b n m Hlow). apply andb_false_r.
    - rewrite <- (Z.mod_small a (2 ^ n)) by exact Ha.
      rewrite Z.mod_pow2_bits_high by lia. reflexivity. }
  pose proof (Z.add_lor_land a (Z.shiftl b n)) as Hadd. rewrite Hland in Hadd. lia.
Qed.

(** The little-endian value of bytes is their sum with weights [256^i]. *)
Lemma le_value_cons (b : Z) (rest : list Z) :
  0 <= b < 2 ^ 8 -> le_value (b :: rest) = b + le_value rest * 2 ^ 8.
Proof. intros Hb. cbn [le_value]. now apply lor_shiftl_add. Qed.

Lemma mod_pow2_split (x n : Z) :
  0 <= n -> x mod 2 ^ (8 + n) = x mod 2 ^ 8 + (x / 2 ^ 8) mod 2 ^ n * 2 ^ 8.
Proof.
  intros Hn. rewrite Z.pow_add_r by lia.
  rewrite Z.rem_mul_r by (try apply Z.pow_pos_nonneg; lia). ring.
Qed.

Lemma le_value_writeU16 (value : Z) : le_value (writeU16 [] value) = u16 value.
Proof.
  unfold writeU16, u16. cbn [app].
  rewrite !land_0xFF, !Z.shiftr_div_pow2 by lia.
  rewrite !le_value_cons by (apply Z.mod_pos_bound; lia). cbn [le_value].
  change (2 ^ 16) with (2 ^ (8 + 8)). rewrite (mod_pow2_split value 8) by lia. lia.
Qed.

Lemma le_value_writeU32 (value : Z) : le_value (writeU32 [] value) = u32 value.
Proof.
  unfold writeU32, u32. cbn [app].
  rewrite !land_0xFF, !Z.shiftr_div_pow2 by lia.
  rewrite !le_value_cons by (apply Z.mod_pos_bound; lia). cbn [le_value].
  assert (H : value mod 2 ^ 32
              = value mod 2 ^ 8
                + ((value / 2 ^ 8) mod 2 ^ 8
                   + ((value / 2 ^ 16) mod 2 ^ 8 + (value / 2 ^ 24) mod 2 ^ 8 * 2 ^ 8) * 2 ^ 8)
                  * 2 ^ 8).
  { change (2 ^ 32) with (2 ^ (8 + 24)). rewrite (mod_pow2_split value 24) by lia.
    change (2 ^ 24) with (2 ^ (8 + 16)) at 1.
    rewrite (mod_pow2_split (value / 2 ^ 8) 16) by lia.
    change (2 ^ 16) with (2 ^ (8 + 8)) at 1.
    rewrite (mod_pow2_split (value / 2 ^ 8 / 2 ^ 8) 8) by lia.
    rewrite !Z.div_div by lia. reflexivity. }
  rewrite H. lia.
Qed.

Lemma s32_of_int (value : Z) : - 2 ^ 31 <= value < 2 ^ 31 -> s32 (u32 value) = value.
Proof.
  intros Hv. unfold s32, u32. rewrite Z.mod_mod by lia.
  destruct (Z.ltb_spec (value mod 2 ^ 32) (2 ^ 31)) as [Hlow | Hhigh].
  - destruct (Z.lt_ge_cases value 0) as [Hneg | Hpos].
    + rewrite <- (Z.mod_add value 1 (2 ^ 32)) in Hlow by lia.
      rewrite Z.mod_small in Hlow; lia.
    + apply Z.mod_small. lia.
  - destruct (Z.lt_ge_cases value 0) as [Hneg | Hpos].
    + rewrite <- (Z.mod_add value 1 (2 ^ 32)) by lia. rewrite Z.mod_small; lia.
    + rewrite Z.mod_small in Hhigh; lia.
Qed.

Lemma readU16_mem (data : list Z) (pos : Z) (flag : bool) :
  0 <= pos -> pos + 2 <= Z.of_nat (length data) ->
  readU16 (mkMemStream data pos flag)
  = (Ret (le_value (firstn 2 (skipn (Z.to_nat pos) data))), mkMemStream data (pos + 2) flag).
Proof.
  intros Hpos Hfit. unfold readU16, bind, checkStream, readExact, ret.
  cbn [rvng_isEnd rvng_read MemStream_input]. unfold ms_size. cbn [ms_data ms_pos].
  destruct (Z.leb_spec (Z.of_nat (length data)) pos); [lia |].
  rewrite ms_read_available by lia.
  rewrite length_firstn, length_skipn.
  destruct (Z.eqb_spec (Z.of_nat (Init.Nat.min (Z.to_nat 2) (length data - Z.to_nat pos))) 2);
    [reflexivity | lia].
Qed.

Lemma skipn_length_app {A} (l1 l2 : list A) : skipn (Z.to_nat (Z.of_nat (length l1))) (l1 ++ l2) = l2.
Proof. rewrite Nat2Z.id, skipn_app, skipn_all, Nat.sub_diag. reflexivity. Qed.

(** What [writeU32] and [writeU16] append to a buffer is what [readU32],
    [readS32] and [readU16] read back at the place where the buffer ended:
    the value as an unsigned 32-bit (16-bit) number, and for [readS32] the
    [int] itself. *)
Theorem write_then_read (buffer rest : list Z) (value : Z) (flag : bool) :
  let at32 := mkMemStream (writeU32 buffer value ++ rest) (Z.of_nat (length buffer)) flag in
  let at16 := mkMemStream (writeU16 buffer value ++ rest) (Z.of_nat (length buffer)) flag in
  fst (readU32 at32) = Ret (u32 value) /\
  rvng_tell (snd (readU32 at32)) = Z.of_nat (length buffer) + 4 /\
  fst (readU16 at16) = Ret (u16 value) /\
  rvng_tell (snd (readU16 at16)) = Z.of_nat (length buffer) + 2 /\
  (- 2 ^ 31 <= value < 2 ^ 31 -> fst (readS32 at32) = Ret value).
Proof.
  cbv zeta.
  assert (H32 : readU32 (mkMemStream (writeU32 buffer value ++ rest)
                                     (Z.of_nat (length buffer)) flag)
                = (Ret (u32 value),
                   mkMemStream (writeU32 buffer value ++ rest)
                               (Z.of_nat (length buffer) + 4) flag)).
  { rewrite readU32_mem.
    - unfold u32At, writeU32. rewrite <- !app_assoc, skipn_length_app.
      cbn [app firstn Z.to_nat Pos.to_nat Pos.iter_op Nat.add].
      f_equal. f_equal. exact (le_value_writeU32 value).
    - lia.
    - unfold writeU32. rewrite !length_app. cbn [length]. lia. }
  assert (H16 : readU16 (mkMemStream (writeU16 buffer value ++ rest)
                                     (Z.of_nat (length buffer)) flag)
                = (Ret (u16 value),
                   mkMemStream (writeU16 buffer value ++ rest)
                               (Z.of_nat (length buffer) + 2) flag)).
  { rewrite readU16_mem.
    - unfold writeU16. rewrite <- !app_assoc, skipn_length_app.
      cbn [app firstn Z.to_nat Pos.to_nat Pos.iter_op Nat.add].
      f_equal. f_equal. exact (le_value_writeU16 value).
    - lia.
    - unfold writeU16. rewrite !length_app. cbn [length]. lia. }
  rewrite H32, H16. cbn [fst snd rvng_tell MemStream_input ms_pos].
  repeat split; try reflexivity.
  intros Hint. unfold readS32. rewrite (bind_eq_ret _ _ _ _ _ H32).
  cbn [ret fst]. unfold ret. cbn [fst]. now rewrite s32_of_int.
Qed.

(* ------------------------------------------------------------------------- *)
(** ** The dash bits of a pen *)

Lemma bytesToBitset_value (data : list Z) :
  bytesToBitset data
  = match data with
    | [] => 0
    | cur :: rest => cur mod 2 ^ 8 + bytesToBitset rest * 2 ^ 8
    end.
Proof.
  destruct data as [| cur rest]; [reflexivity |]. cbn [bytesToBitset].
  rewrite land_0xFF. apply lor_shiftl_add; [lia |]. apply Z.mod_pos_bound. lia.
Qed.

Lemma bytesToBitset_range (data : list Z) :
  0 <= bytesToBitset data < 2 ^ (8 * Z.of_nat (length data)).
Proof.
  induction data as [| cur rest IH]; [cbn; lia |].
  rewrite bytesToBitset_value.
  replace (8 * Z.of_nat (length (cur :: rest))) with (8 * Z.of_nat (length rest) + 8)
    by (cbn [length]; lia).
  rewrite Z.pow_add_r by lia.
  pose proof (Z.mod_pos_bound cur (2 ^ 8) ltac:(lia)). nia.
Qed.

(** [bytesToBitset] puts bit [j] of byte [i] at position [8 i + j]; the set is
    a number below [2^(8 n)] for [n] bytes; and the six dash bytes of a pen
    have all 48 bits set, the test [dashBits.all ()] of [readPen], exactly when
    each of them is [0xff]. *)
Theorem bytesToBitset_bits (data : list Z) :
  (forall (i : nat) (j : Z),
     (i < length data)%nat -> 0 <= j < 8 ->
     Z.testbit (bytesToBitset data) (8 * Z.of_nat i + j) = Z.testbit (nth i data 0) j) /\
  0 <= bytesToBitset data < 2 ^ (8 * Z.of_nat (length data)) /\
  (length data = 6%nat ->
   (bytesToBitset data = 2 ^ 48 - 1 <-> Forall (fun b => b mod 2 ^ 8 = 0xff) data)).
Proof.
  split; [| split; [apply bytesToBitset_range |]].
  - induction data as [| cur rest IH]; intros i j Hi Hj; [cbn in Hi; lia |].
    cbn [bytesToBitset]. rewrite Z.lor_spec.
    destruct i as [| i].
    + cbn [nth]. replace (8 * Z.of_nat 0 + j) with j by lia.
      rewrite Z.shiftl_spec_low by lia. rewrite orb_false_r.
      rewrite land_0xFF. apply Z.mod_pow2_bits_low. lia.
    + cbn [nth]. rewrite land_0xFF, Z.mod_pow2_bits_high by lia. cbn [orb].
      rewrite Z.shiftl_spec by lia.
      replace (8 * Z.of_nat (Datatypes.S i) + j - 8) with (8 * Z.of_nat i + j) by lia.
      apply IH; [cbn [length] in Hi; lia | exact Hj].
  - intros Hlen.
    destruct data as [| b0 [| b1 [| b2 [| b3 [| b4 [| b5 [| b6 rest]]]]]]]; try discriminate.
    do 6 (rewrite bytesToBitset_value). cbn [bytesToBitset].
    pose proof (Z.mod_pos_bound b0 (2 ^ 8) ltac:(lia)).
    pose proof (Z.mod_pos_bound b1 (2 ^ 8) ltac:(lia)).
    pose proof (Z.mod_pos_bound b2 (2 ^ 8) ltac:(lia)).
    pose proof (Z.mod_pos_bound b3 (2 ^ 8) ltac:(lia)).
    pose proof (Z.mod_pos_bound b4 (2 ^ 8) ltac:(lia)).
    pose proof (Z.mod_pos_bound b5 (2 ^ 8) ltac:(lia)).
    split.
    + intros Hall. repeat constructor; lia.
    + intros Hall.
      repeat match goal with H : Forall _ (_ :: _) |- _ => inversion H; subst; clear H end.
      lia.
Qed.

(* ------------------------------------------------------------------------- *)
(** ** The three file headers *)

Section Headers.
Context {S : Type} {IS : RVNGInputStream S}.

(** [ZMF4Header::load] answers with the signature test: its result is what
    [isSupported] says of the header it leaves, and a refused header keeps the
    counts and offsets it had. *)
Theorem ZMF4Header_load_is_signature_test (h h' : ZMF4Header.t) (s s' : S) (ok : bool) :
  ZMF4Header.load h s = (Ret (ok, h'), s') ->
  ok = ZMF4Header.isSupported h' /\
  (ok = false ->
   ZMF4Header.m_objectCount h' = ZMF4Header.m_objectCount h /\
   ZMF4Header.m_startContentOffset h' = ZMF4Header.m_startContentOffset h /\
   ZMF4Header.m_startBitmapOffset h' = ZMF4Header.m_startBitmapOffset h).
Proof.
  unfold ZMF4Header.load. intros H.
  apply bind_ret_inv in H as ([] & s1 & _ & H).
  apply bind_ret_inv in H as (signature & s2 & _ & H).
  unfold ZMF4Header.isSupported.
  destruct (ZMF4Header.checkSignature _) eqn:Hsig; cbn [negb] in H.
  - apply bind_ret_inv in H as ([] & s3 & _ & H).
    apply bind_ret_inv in H as (objectCount & s4 & _ & H).
    apply bind_ret_inv in H as (startContentOffset & s5 & _ & H).
    apply bind_ret_inv in H as (startBitmapOffset & s6 & _ & H).
    injection H as <- <- _. split; [| discriminate].
    symmetry. exact Hsig.
  - injection H as <- <- _. split; [now rewrite Hsig |]. intros _. repeat split.
Qed.

Lemma checkStream_outcome (s : S) :
  checkStream s = (Ret tt, s) \/ checkStream s = (Throw EndOfStreamException, s).
Proof. unfold checkStream. destruct (rvng_isEnd s); auto. Qed.

Lemma readExact_never_halts (n : Z) (s : S) (h : halt) (s' : S) :
  readExact n s <> (Halt h, s').
Proof.
  unfold readExact. destruct (rvng_read s n) as [bytes s1].
  destruct (_ =? _); discriminate.
Qed.

Lemma readU16_never_halts (s : S) (h : halt) (s' : S) : readU16 s <> (Halt h, s').
Proof.
  unfold readU16, bind. destruct (checkStream_outcome s) as [-> | ->]; [| discriminate].
  destruct (readExact 2 s) as [[bytes | e | h'] s1] eqn:Hread; try discriminate.
  exfalso. exact (readExact_never_halts _ _ _ _ Hread).
Qed.

Lemma skip_never_halts (n : Z) (s : S) (h : halt) (s' : S) : skip n s <> (Halt h, s').
Proof.
  unfold skip, bind. destruct (checkStream_outcome s) as [-> | ->]; [| discriminate].
  unfold seekRelative. destruct (rvng_seek s n RVNG_SEEK_CUR) as [status s1].
  destruct (status =? 0); discriminate.
Qed.

(** [ZBRHeader::load] always returns: every failure of a read or of the skip
    of the 100 bytes that follow is caught and reported as [false].  On a
    stream that is at its end it returns [false] and leaves header and stream
    as they were.  When it returns [true] the signature and the version were
    read and the cursor was moved 100 bytes on. *)
Theorem ZBRHeader_load_always_returns (h : ZBRHeader.t) (s : S) :
  (exists ok h' s', ZBRHeader.load h s = (Ret (ok, h'), s')) /\
  (rvng_isEnd s = true -> ZBRHeader.load h s = (Ret (false, h), s)) /\
  (forall h' s', ZBRHeader.load h s = (Ret (true, h'), s') ->
     exists sig s1 version s2,
       readU16 s = (Ret sig, s1) /\ readU16 s1 = (Ret version, s2) /\
       skip 100 s2 = (Ret tt, s') /\ h' = ZBRHeader.mk sig version).
Proof.
  unfold ZBRHeader.load, catchAll, bind. split; [| split].
  - destruct (readU16 s) as [[sig | e | h1] s1] eqn:H1.
    + destruct (readU16 s1) as [[version | e | h2] s2] eqn:H2.
      * destruct (skip 100 s2) as [[[] | e | h3] s3] eqn:H3.
        -- do 3 eexists. reflexivity.
        -- do 3 eexists. reflexivity.
        -- exfalso. exact (skip_never_halts _ _ _ _ H3).
      * do 3 eexists. reflexivity.
      * exfalso. exact (readU16_never_halts _ _ _ H2).
    + do 3 eexists. reflexivity.
    + exfalso. exact (readU16_never_halts _ _ _ H1).
  - intros Hend. unfold readU16 at 1, bind. rewrite (checkStream_end s Hend). reflexivity.
  - intros h' s' H.
    destruct (readU16 s) as [[sig | e | h1] s1] eqn:H1; try discriminate.
    destruct (readU16 s1) as [[version | e | h2] s2] eqn:H2; try discriminate.
    destruct (skip 100 s2) as [[[] | e | h3] s3] eqn:H3; try discriminate.
    injection H as <- <-. exists sig, s1, version, s2. repeat split; assumption.
Qed.

End Headers.

Lemma ZMF4Header_load_is_signature_test_witness :
  true = ZMF4Header.isSupported (ZMF4Header.mk 0x12345678 6 40 0) /\
  (true = false ->
   ZMF4Header.m_objectCount (ZMF4Header.mk 0x12345678 6 40 0)
   = ZMF4Header.m_objectCount ZMF4Header.new /\
   ZMF4Header.m_startContentOffset (ZMF4Header.mk 0x12345678 6 40 0)
   = ZMF4Header.m_startContentOffset ZMF4Header.new /\
   ZMF4Header.m_startBitmapOffset (ZMF4Header.mk 0x12345678 6 40 0)
   = ZMF4Header.m_startBitmapOffset ZMF4Header.new).
Proof.
  apply (ZMF4Header_load_is_signature_test ZMF4Header.new (ZMF4Header.mk 0x12345678 6 40 0)
           (memStream fileHeader) (mkMemStream fileHeader 40 true) true).
  vm_compute. reflexivity.
Defined.

(* ------------------------------------------------------------------------- *)
(** ** Detection and parsing *)

Section Detection.
Context {S : Type} {IS : RVNGInputStream S} {E : Externals}.

(** [ZMFDocument::parse] accepts only what [ZMFDocument::isSupported]
    accepts: on an input that is not supported it returns false and calls the
    sink not once, and when it returns true the input is supported, with a
    known type. *)
Theorem parse_only_what_is_supported (fuel : nat) (input : S) (painter : list PainterCall) :
  (fst (fst (ZMFDocument.isSupported input)) = false ->
   ZMFDocument.parse fuel input painter = (Ret false, painter)) /\
  (forall calls, ZMFDocument.parse fuel input painter = (Ret true, calls) ->
     fst (fst (ZMFDocument.isSupported input)) = true /\
     snd (fst (ZMFDocument.isSupported input)) <> ZMFDocument.TYPE_UNKNOWN).
Proof.
  unfold ZMFDocument.isSupported, ZMFDocument.parse.
  destruct (ZMFDocument.detect input) as [[|] info]; cbn [fst snd].
  - split; [discriminate |]. intros calls H. split; [reflexivity |].
    destruct (ZMFDocument.m_content info); [| discriminate].
    destruct (ZMFDocument.m_type info); discriminate.
  - split; [reflexivity | discriminate].
Qed.

End Detection.

(* ------------------------------------------------------------------------- *)
(** ** The text sent to the sink *)

(** The characters a sequence of text calls shows: an inserted text as it is,
    an inserted space as one space. *)
Definition shownText (calls : list PainterCall) : list Z :=
  concat (map (fun call => match call with
                           | CallInsertText text => text
                           | CallInsertSpace => [32]
                           | _ => []
                           end) calls).

Definition isLineEnd (ch : Z) : bool := (ch =? 13) || (ch =? 10).

(** No two spaces side by side. *)
Fixpoint singleSpaced (text : list Z) : bool :=
  match text with
  | a :: ((b :: _) as rest) => negb ((a =? 32) && (b =? 32)) && singleSpaced rest
  | _ => true
  end.

(** The texts that are inserted are not empty, have no line end and no two
    spaces side by side. *)
Definition tidyCall (call : PainterCall) : bool :=
  match call with
  | CallInsertText text =>
      negb (Nat.eqb (length text) 0) && forallb (fun ch => negb (isLineEnd ch)) text
      && singleSpaced text
  | CallInsertSpace => true
  | _ => false
  end.

Lemma shownText_app (l1 l2 : list PainterCall) :
  shownText (l1 ++ l2) = shownText l1 ++ shownText l2.
Proof. unfold shownText. now rewrite map_app, concat_app. Qed.

Lemma singleSpaced_snoc (text : list Z) (ch : Z) :
  singleSpaced text = true ->
  (ch = 32 -> List.last text 0 <> 32) ->
  singleSpaced (text ++ [ch]) = true.
Proof.
  induction text as [| a [| b rest] IH]; intros Hs Hlast; [reflexivity | |].
  - cbn [app singleSpaced]. cbn [List.last] in Hlast.
    destruct (Z.eqb_spec a 32) as [Ha | Ha], (Z.eqb_spec ch 32) as [Hc | Hc];
      try reflexivity.
    exfalso. exact (Hlast Hc Ha).
  - cbn [singleSpaced] in Hs. apply andb_prop in Hs as [Hab Hrest].
    change ((a :: b :: rest) ++ [ch]) with (a :: (b :: rest) ++ [ch]).
    cbn [singleSpaced app]. cbn [app] in IH. rewrite Hab. cbn [andb].
    apply IH; [exact Hrest |]. exact Hlast.
Qed.

(** The state of the loop of [collectText] over the characters of a span: the
    text not yet flushed is tidy, and it ends in a space exactly when the last
    character kept was a space that was not sent on its own. *)
Definition tidyPending (wasSpace : bool) (curText : list Z) : Prop :=
  forallb (fun ch => negb (isLineEnd ch)) curText = true /\
  singleSpaced curText = true /\
  (List.last curText 0 = 32 -> curText <> [] -> wasSpace = true).

Lemma spanCalls_shown (chars : list Z) (wasSpace : bool) (curText : list Z) :
  shownText (ZMFCollector.spanCalls chars wasSpace curText)
  = curText ++ List.filter (fun ch => negb (isLineEnd ch)) chars.
Proof.
  revert wasSpace curText.
  induction chars as [| ch chars IH]; intros wasSpace curText; cbn [ZMFCollector.spanCalls].
  - cbn [List.filter]. rewrite app_nil_r. destruct curText; [reflexivity |].
    unfold shownText. cbn. now rewrite app_nil_r.
  - cbn [List.filter]. unfold isLineEnd at 1.
    destruct ((ch =? 13) || (ch =? 10)) eqn:Hend; cbn [negb]; [apply IH |].
    destruct (Z.eqb_spec ch 32) as [-> | Hch].
    + destruct wasSpace.
      * rewrite shownText_app.
        change (shownText (CallInsertSpace :: ?l)) with ([32] ++ shownText l).
        rewrite IH. cbn [app].
        destruct curText; [reflexivity |]. unfold shownText at 1. cbn.
        now rewrite app_nil_r.
      * rewrite IH. now rewrite <- app_assoc.
    + rewrite IH. now rewrite <- app_assoc.
Qed.

Lemma last_snoc (text : list Z) (ch : Z) : List.last (text ++ [ch]) 0 = ch.
Proof. apply last_last. Qed.

Lemma tidy_flush (a : Z) (rest : list Z) :
  forallb (fun ch => negb (isLineEnd ch)) (a :: rest) = true ->
  singleSpaced (a :: rest) = true ->
  forallb tidyCall [CallInsertText (a :: rest)] = true.
Proof.
  intros Hends Hsingle. change (tidyCall (CallInsertText (a :: rest)) && true = true).
  unfold tidyCall. rewrite Hends, Hsingle. reflexivity.
Qed.

Lemma spanCalls_tidy (chars : list Z) (wasSpace : bool) (curText : list Z) :
  tidyPending wasSpace curText ->
  forallb tidyCall (ZMFCollector.spanCalls chars wasSpace curText) = true.
Proof.
  revert wasSpace curText.
  induction chars as [| ch chars IH]; intros wasSpace curText (Hends & Hsingle & Hlast);
    cbn [ZMFCollector.spanCalls].
  - destruct curText as [| a rest]; [reflexivity |]. now apply tidy_flush.
  - destruct ((ch =? 13) || (ch =? 10)) eqn:Hend; [apply IH; repeat split; assumption |].
    destruct (Z.eqb_spec ch 32) as [-> | Hch].
    + destruct wasSpace.
      * rewrite forallb_app. cbn [forallb tidyCall andb].
        rewrite IH by (repeat split; try reflexivity; intros _ Hne; now elim Hne).
        rewrite andb_true_r. destruct curText as [| a rest]; [reflexivity |].
        now apply tidy_flush.
      * apply IH. repeat split.
        -- rewrite forallb_app, Hends. reflexivity.
        -- apply singleSpaced_snoc; [exact Hsingle |]. intros _ Hl.
           destruct curText as [| a rest]; [cbn in Hl; discriminate |].
           specialize (Hlast Hl ltac:(discriminate)). discriminate.
    + apply IH. repeat split.
      * rewrite forallb_app, Hends. cbn [forallb]. unfold isLineEnd. now rewrite Hend.
      * apply singleSpaced_snoc; [exact Hsingle |]. intros ->. now elim Hch.
      * rewrite last_snoc. intros ->. now elim Hch.
Qed.

(** What [collectText] makes of the characters of a span: line ends are
    dropped and every other character is shown, in order, a space that follows
    a space as an [insertSpace] call of its own; no inserted text is empty,
    holds a line end, or holds two spaces side by side. *)
Theorem span_text_is_kept (chars : list Z) :
  shownText (ZMFCollector.spanCalls chars false [])
  = List.filter (fun ch => negb (isLineEnd ch)) chars /\
  forallb tidyCall (ZMFCollector.spanCalls chars false []) = true.
Proof.
  split.
  - apply spanCalls_shown.
  - apply spanCalls_tidy. repeat split. intros _ Hne. now elim Hne.
Qed.

(* ------------------------------------------------------------------------- *)
(** ** The nesting of text and table calls *)

(** What is open in the sink while a text object or a table is sent. *)
Inductive frame : Type := InTextObject | InTable | InRow | InCell | InParagraph | InSpan.

(** The calls each frame admits: paragraphs lie in a text object or in a table
    cell, spans in paragraphs, text and spaces in spans; rows lie in a table
    and cells in rows; an end closes the frame on top. *)
Definition nestStep (stack : list frame) (call : PainterCall) : option (list frame) :=
  match call, stack with
  | CallStartTextObject _ _ _ _ _, [] => Some [InTextObject]
  | CallEndTextObject, [InTextObject] => Some []
  | CallStartTableObject _ _ _ _, [] => Some [InTable]
  | CallEndTableObject, [InTable] => Some []
  | CallOpenTableRow _, InTable :: _ => Some (InRow :: stack)
  | CallCloseTableRow, InRow :: rest => Some rest
  | CallOpenTableCell _ _ _ _ _, InRow :: _ => Some (InCell :: stack)
  | CallCloseTableCell, InCell :: rest => Some rest
  | CallOpenParagraph _, (InTextObject | InCell) :: _ => Some (InParagraph :: stack)
  | CallCloseParagraph, InParagraph :: rest => Some rest
  | CallOpenSpan _, InParagraph :: _ => Some (InSpan :: stack)
  | CallCloseSpan, InSpan :: rest => Some rest
  | (CallInsertText _ | CallInsertSpace), InSpan :: _ => Some stack
  | _, _ => None
  end.

Fixpoint nest (stack : list frame) (calls : list PainterCall) : option (list frame) :=
  match calls with
  | [] => Some stack
  | call :: rest =>
      match nestStep stack call with
      | Some stack' => nest stack' rest
      | None => None
      end
  end.

Lemma nest_app (stack : list frame) (l1 l2 : list PainterCall) :
  nest stack (l1 ++ l2)
  = match nest stack l1 with Some stack' => nest stack' l2 | None => None end.
Proof.
  revert stack. induction l1 as [| call l1 IH]; intros stack; cbn [app nest]; [reflexivity |].
  destruct (nestStep stack call); [apply IH | reflexivity].
Qed.

(** A sequence that leaves the stack as it found it, repeated. *)
Lemma nest_concat_map {A} (f : A -> list PainterCall) (stack : list frame) (xs : list A) :
  (forall x, nest stack (f x) = Some stack) -> nest stack (concat (map f xs)) = Some stack.
Proof.
  intros Hf. induction xs as [| x xs IH]; [reflexivity |].
  cbn [map concat]. now rewrite nest_app, Hf.
Qed.

Lemma nest_spanCalls (chars : list Z) (wasSpace : bool) (curText : list Z) (rest : list frame) :
  nest (InSpan :: rest) (ZMFCollector.spanCalls chars wasSpace curText) = Some (InSpan :: rest).
Proof.
  revert wasSpace curText.
  induction chars as [| ch chars IH]; intros wasSpace curText; cbn [ZMFCollector.spanCalls].
  - destruct curText; reflexivity.
  - destruct ((ch =? 13) || (ch =? 10)); [apply IH |].
    destruct (ch =? 32); [| apply IH]. destruct wasSpace; [| apply IH].
    rewrite nest_app.
    destruct curText; cbn [nest nestStep]; apply IH.
Qed.

Lemma nest_textCalls (text : Text) (top : frame) (rest : list frame) :
  top = InTextObject \/ top = InCell ->
  nest (top :: rest) (ZMFCollector.textCalls text) = Some (top :: rest).
Proof.
  intros Htop. unfold ZMFCollector.textCalls. apply nest_concat_map. intros paragraph.
  rewrite !nest_app.
  assert (Hopen : nest (top :: rest) [CallOpenParagraph (paragraph_style paragraph)]
                  = Some (InParagraph :: top :: rest))
    by (destruct Htop as [-> | ->]; reflexivity).
  rewrite Hopen. cbv beta iota.
  rewrite nest_app, (nest_concat_map _ (InParagraph :: top :: rest)); [reflexivity |].
  intros span. rewrite nest_app. cbn [nest nestStep]. now rewrite nest_app, nest_spanCalls.
Qed.

(** What a sequence of calls holds of one kind, in order. *)
Definition gather {A} (f : PainterCall -> list A) (calls : list PainterCall) : list A :=
  concat (map f calls).

Definition paragraphOpened (call : PainterCall) : list ParagraphStyle :=
  match call with CallOpenParagraph style => [style] | _ => [] end.

Definition spanOpened (call : PainterCall) : list Font :=
  match call with CallOpenSpan font => [font] | _ => [] end.

Definition rowOpened (call : PainterCall) : list double :=
  match call with CallOpenTableRow height => [height] | _ => [] end.

(** The fill and the left, right, top and bottom border of a cell. *)
Definition cellOpened (call : PainterCall)
  : list (option Fill * option Pen * option Pen * option Pen * option Pen) :=
  match call with
  | CallOpenTableCell fill leftBorder rightBorder topBorder bottomBorder =>
      [(fill, leftBorder, rightBorder, topBorder, bottomBorder)]
  | _ => []
  end.

Definition spansOf (text : Text) : list Span :=
  concat (map paragraph_spans (text_paragraphs text)).

Definition cellsOf (table : Table) : list Cell := concat (map row_cells (table_rows table)).

Lemma gather_app {A} (f : PainterCall -> list A) (l1 l2 : list PainterCall) :
  gather f (l1 ++ l2) = gather f l1 ++ gather f l2.
Proof. unfold gather. now rewrite map_app, concat_app. Qed.

Lemma gather_concat_map {A B} (f : PainterCall -> list A) (g : B -> list PainterCall)
    (xs : list B) :
  gather f (concat (map g xs)) = concat (map (fun x => gather f (g x)) xs).
Proof.
  induction xs as [| x xs IH]; [reflexivity |].
  cbn [map concat]. now rewrite gather_app, IH.
Qed.

Lemma concat_map_one {A B} (f : A -> B) (xs : list A) :
  concat (map (fun x => [f x]) xs) = map f xs.
Proof. induction xs as [| x xs IH]; [reflexivity |]. cbn. now rewrite IH. Qed.

Lemma concat_map_map {A B C} (f : B -> C) (g : A -> list B) (xs : list A) :
  concat (map (fun x => map f (g x)) xs) = map f (concat (map g xs)).
Proof.
  induction xs as [| x xs IH]; [reflexivity |]. cbn [map concat]. now rewrite map_app, IH.
Qed.

Lemma concat_map_concat {A B C} (f : B -> list C) (g : A -> list B) (xs : list A) :
  concat (map (fun x => concat (map f (g x))) xs) = concat (map f (concat (map g xs))).
Proof.
  induction xs as [| x xs IH]; [reflexivity |].
  cbn [map concat]. now rewrite map_app, concat_app, IH.
Qed.

(** The calls of the characters of a span open nothing. *)
Lemma gather_spanCalls {A} (f : PainterCall -> list A) (chars : list Z) (wasSpace : bool)
    (curText : list Z) :
  (forall text, f (CallInsertText text) = []) -> f CallInsertSpace = [] ->
  gather f (ZMFCollector.spanCalls chars wasSpace curText) = [].
Proof.
  intros Htext Hspace. revert wasSpace curText.
  assert (Hflush : forall text : list Z,
             gather f match text with [] => [] | _ => [CallInsertText text] end = []).
  { intros [| a rest]; [reflexivity |]. unfold gather. cbn. now rewrite Htext. }
  induction chars as [| ch chars IH]; intros wasSpace curText; cbn [ZMFCollector.spanCalls].
  - apply Hflush.
  - destruct ((ch =? 13) || (ch =? 10)); [apply IH |].
    destruct (ch =? 32); [| apply IH]. destruct wasSpace; [| apply IH].
    rewrite gather_app, Hflush.
    change (gather f (CallInsertSpace :: ?l)) with (f CallInsertSpace ++ gather f l).
    now rewrite Hspace, IH.
Qed.

(** The calls of one span, and what they hold. *)
Definition spanBlock (span : Span) : list PainterCall :=
  [CallOpenSpan (span_font span)] ++ ZMFCollector.spanCalls (span_text span) false []
  ++ [CallCloseSpan].

Lemma gather_spanBlock {A} (f : PainterCall -> list A) (span : Span) :
  (forall text, f (CallInsertText text) = []) -> f CallInsertSpace = [] ->
  f CallCloseSpan = [] ->
  gather f (spanBlock span) = f (CallOpenSpan (span_font span)).
Proof.
  intros Htext Hspace Hclose. unfold spanBlock.
  rewrite !gather_app, gather_spanCalls by assumption.
  unfold gather. cbn. now rewrite Hclose, !app_nil_r.
Qed.

Lemma textCalls_blocks (text : Text) :
  ZMFCollector.textCalls text
  = concat (map (fun paragraph =>
      [CallOpenParagraph (paragraph_style paragraph)]
      ++ concat (map spanBlock (paragraph_spans paragraph))
      ++ [CallCloseParagraph]) (text_paragraphs text)).
Proof. reflexivity. Qed.

Lemma paragraphs_of_textCalls (text : Text) :
  gather paragraphOpened (ZMFCollector.textCalls text)
  = map paragraph_style (text_paragraphs text).
Proof.
  rewrite textCalls_blocks, gather_concat_map, <- (concat_map_one paragraph_style). f_equal.
  apply map_ext. intros paragraph.
  rewrite !gather_app, gather_concat_map.
  replace (map (fun span => gather paragraphOpened (spanBlock span))
               (paragraph_spans paragraph))
    with (map (fun _ : Span => @nil ParagraphStyle) (paragraph_spans paragraph))
    by (apply map_ext; intros span; now rewrite gather_spanBlock).
  assert (Hnil : forall spans : list Span,
             concat (map (fun _ => @nil ParagraphStyle) spans) = [])
    by (induction spans; [reflexivity | assumption]).
  now rewrite Hnil.
Qed.

Lemma spans_of_textCalls (text : Text) :
  gather spanOpened (ZMFCollector.textCalls text) = map span_font (spansOf text).
Proof.
  unfold spansOf.
  rewrite textCalls_blocks, gather_concat_map, <- (concat_map_map span_font paragraph_spans).
  f_equal.
  apply map_ext. intros paragraph.
  rewrite !gather_app, gather_concat_map.
  replace (map (fun span => gather spanOpened (spanBlock span)) (paragraph_spans paragraph))
    with (map (fun span => [span_font span]) (paragraph_spans paragraph))
    by (apply map_ext; intros span; now rewrite gather_spanBlock).
  rewrite concat_map_one. unfold gather. cbn. now rewrite app_nil_r.
Qed.

Lemma shown_of_textCalls (text : Text) :
  shownText (ZMFCollector.textCalls text)
  = concat (map (fun span => List.filter (fun ch => negb (isLineEnd ch)) (span_text span))
                (spansOf text)).
Proof.
  unfold spansOf.
  rewrite <- (concat_map_concat (fun span => List.filter (fun ch => negb (isLineEnd ch))
                                                       (span_text span)) paragraph_spans).
  rewrite textCalls_blocks.
  change shownText with (gather (fun call => match call with
                                            | CallInsertText text => text
                                            | CallInsertSpace => [32]
                                            | _ => []
                                            end)).
  rewrite gather_concat_map. f_equal. apply map_ext. intros paragraph.
  rewrite !gather_app, gather_concat_map.
  unfold gather at 1 3. cbn [map concat app]. rewrite app_nil_r. f_equal.
  apply map_ext. intros span. unfold spanBlock. rewrite !gather_app.
  unfold gather at 1 3. cbn [map concat app]. rewrite app_nil_r.
  apply (spanCalls_shown (span_text span) false []).
Qed.

(** The calls of one cell and of one row of a table. *)
Definition cellBlock (cell : Cell) : list PainterCall :=
  [CallOpenTableCell (cell_fill cell) (cell_leftBorder cell) (cell_rightBorder cell)
                     (cell_topBorder cell) (cell_bottomBorder cell)]
  ++ ZMFCollector.textCalls (cell_text cell) ++ [CallCloseTableCell].

Definition rowBlock (row : Row) : list PainterCall :=
  [CallOpenTableRow (row_height row)] ++ concat (map cellBlock (row_cells row))
  ++ [CallCloseTableRow].

(** The calls of a text open no row and no cell. *)
Lemma gather_textCalls_nil {A} (f : PainterCall -> list A) (text : Text) :
  (forall style, f (CallOpenParagraph style) = []) -> f CallCloseParagraph = [] ->
  (forall font, f (CallOpenSpan font) = []) -> f CallCloseSpan = [] ->
  (forall chars, f (CallInsertText chars) = []) -> f CallInsertSpace = [] ->
  gather f (ZMFCollector.textCalls text) = [].
Proof.
  intros Hopen Hclose HopenSpan HcloseSpan Htext Hspace.
  rewrite textCalls_blocks, gather_concat_map.
  assert (Hnil : forall (B : Type) (g : B -> list A) (xs : list B),
             (forall x, g x = []) -> concat (map g xs) = []).
  { intros B g xs Hg. induction xs as [| x xs IH]; [reflexivity |].
    cbn [map concat]. now rewrite Hg, IH. }
  apply Hnil. intros paragraph. rewrite !gather_app, gather_concat_map.
  rewrite (Hnil _ _ (paragraph_spans paragraph)).
  - unfold gather. cbn. now rewrite Hopen, Hclose.
  - intros span. rewrite gather_spanBlock by assumption. apply HopenSpan.
Qed.

Lemma concat_map_nil {A B} (xs : list B) : concat (map (fun _ => @nil A) xs) = [].
Proof. induction xs; [reflexivity | assumption]. Qed.

(** [collectTextObject] and [collectTable] send the whole object, well nested.
    What they add to the sink's calls is the start of the object with its
    place and size, the calls of the content, and the end of the object.  The
    content is well nested: every paragraph, span, row and cell that is opened
    is closed in turn and text is inserted inside spans only.  A text object
    opens the paragraphs of the text with their styles and the spans with
    their fonts, in order, and shows the characters of the spans without
    their line ends; a table opens its rows with their heights, the cells of
    the rows with their fill and borders, and the paragraphs of the texts of
    the cells. *)
Theorem text_and_table_calls_are_nested (c : ZMFCollector.t) :
  (forall text topLeft width height align rotation,
     exists inner,
       ZMFCollector.m_painter
         (ZMFCollector.collectTextObject text topLeft width height align rotation c)
       = ZMFCollector.m_painter c
         ++ CallStartTextObject (ZMFCollector.pagePoint c topLeft) width height align rotation
            :: inner ++ [CallEndTextObject] /\
       nest [InTextObject] inner = Some [InTextObject] /\
       gather paragraphOpened inner = map paragraph_style (text_paragraphs text) /\
       gather spanOpened inner = map span_font (spansOf text) /\
       shownText inner
       = concat (map (fun span => List.filter (fun ch => negb (isLineEnd ch)) (span_text span))
                     (spansOf text))) /\
  (forall table,
     exists inner,
       ZMFCollector.m_painter (ZMFCollector.collectTable table c)
       = ZMFCollector.m_painter c
         ++ CallStartTableObject (ZMFCollector.pagePoint c (table_topLeftPoint table))
                                 (table_width table) (table_height table)
                                 (table_columns table)
            :: inner ++ [CallEndTableObject] /\
       nest [InTable] inner = Some [InTable] /\
       gather rowOpened inner = map row_height (table_rows table) /\
       gather cellOpened inner
       = map (fun cell => (cell_fill cell, cell_leftBorder cell, cell_rightBorder cell,
                           cell_topBorder cell, cell_bottomBorder cell)) (cellsOf table) /\
       gather paragraphOpened inner
       = map paragraph_style
             (concat (map (fun cell => text_paragraphs (cell_text cell)) (cellsOf table)))).
Proof.
  split.
  - intros text topLeft width height align rotation.
    exists (ZMFCollector.textCalls text). split; [reflexivity |].
    split; [apply nest_textCalls; now left |].
    split; [apply paragraphs_of_textCalls |].
    split; [apply spans_of_textCalls | apply shown_of_textCalls].
  - intros table. exists (concat (map rowBlock (table_rows table))).
    split; [reflexivity |].
    assert (Hcell : forall cell, nest [InRow; InTable] (cellBlock cell) = Some [InRow; InTable]).
    { intros cell. unfold cellBlock. rewrite nest_app. cbn [nest nestStep].
      rewrite nest_app, nest_textCalls by now right. reflexivity. }
    split.
    { apply nest_concat_map. intros row. unfold rowBlock. rewrite nest_app.
      cbn [nest nestStep]. rewrite nest_app, (nest_concat_map _ [InRow; InTable]) by exact Hcell.
      reflexivity. }
    split.
    { rewrite gather_concat_map, <- (concat_map_one row_height). f_equal.
      apply map_ext. intros row.
      unfold rowBlock. rewrite !gather_app, gather_concat_map.
      replace (map (fun cell => gather rowOpened (cellBlock cell)) (row_cells row))
        with (map (fun _ : Cell => @nil double) (row_cells row)).
      - now rewrite concat_map_nil.
      - apply map_ext. intros cell. unfold cellBlock. rewrite !gather_app.
        now rewrite gather_textCalls_nil. }
    split.
    { unfold cellsOf.
      rewrite gather_concat_map,
        <- (concat_map_map (fun cell => (cell_fill cell, cell_leftBorder cell,
                                         cell_rightBorder cell, cell_topBorder cell,
                                         cell_bottomBorder cell)) row_cells).
      f_equal.
      apply map_ext. intros row.
      unfold rowBlock. rewrite !gather_app, gather_concat_map.
      replace (map (fun cell => gather cellOpened (cellBlock cell)) (row_cells row))
        with (map (fun cell => [(cell_fill cell, cell_leftBorder cell, cell_rightBorder cell,
                                 cell_topBorder cell, cell_bottomBorder cell)])
                  (row_cells row)).
      - rewrite concat_map_one. unfold gather. cbn. now rewrite app_nil_r.
      - apply map_ext. intros cell. unfold cellBlock. rewrite !gather_app.
        now rewrite gather_textCalls_nil. }
    unfold cellsOf.
    rewrite <- (concat_map_concat (fun cell => text_paragraphs (cell_text cell)) row_cells).
    rewrite <- (concat_map_map paragraph_style), gather_concat_map.
    f_equal. apply map_ext. intros row.
    rewrite <- (concat_map_map paragraph_style (fun cell => text_paragraphs (cell_text cell))).
    unfold rowBlock. rewrite !gather_app, gather_concat_map.
    unfold gather at 1 3. cbn [map concat app paragraphOpened]. rewrite app_nil_r.
    f_equal. apply map_ext. intros cell. unfold cellBlock. rewrite !gather_app.
    rewrite paragraphs_of_textCalls. unfold gather. cbn. now rewrite app_nil_r.
Qed.


(** A text of one paragraph with one span, whose characters end in a line
    feed. *)
Definition oneSpanText : Text :=
  mkText [mkParagraph [mkSpan [72; 105; 10] 3 Font_default] ParagraphStyle_default].

Lemma text_and_table_calls_are_nested_witness :
  let c := ZMFCollector.new [] in
  let start := CallStartTextObject (ZMFCollector.pagePoint c (mkPoint 0 0)) 1%float 1%float ALIGN_TOP
                                   0%float in
  ZMFCollector.m_painter
    (ZMFCollector.collectTextObject oneSpanText (mkPoint 0 0) 1%float 1%float ALIGN_TOP
                                    0%float c)
  = [start; CallOpenParagraph ParagraphStyle_default; CallOpenSpan Font_default;
     CallInsertText [72; 105]; CallCloseSpan; CallCloseParagraph; CallEndTextObject] /\
  exists inner,
    ZMFCollector.m_painter
      (ZMFCollector.collectTextObject oneSpanText (mkPoint 0 0) 1%float 1%float ALIGN_TOP
                                    0%float c)
    = ZMFCollector.m_painter c ++ start :: inner ++ [CallEndTextObject] /\
    nest [InTextObject] inner = Some [InTextObject] /\
    gather paragraphOpened inner = map paragraph_style (text_paragraphs oneSpanText) /\
    gather spanOpened inner = map span_font (spansOf oneSpanText) /\
    shownText inner
    = concat (map (fun span => List.filter (fun ch => negb (isLineEnd ch)) (span_text span))
                  (spansOf oneSpanText)).
Proof.
  intros c start. split; [vm_compute; reflexivity |].
  exact (proj1 (text_and_table_calls_are_nested c) oneSpanText (mkPoint 0 0) 1%float 1%float
           ALIGN_TOP 0%float).
Defined.

(* ------------------------------------------------------------------------- *)
(** ** Paths of curves whose sections fit their points *)

Lemma createSections_exact (points : list Point) (leftOffset topOffset : double)
    (sectionTypes : list CurveType) (i : nat) :
  (i + consumedPoints sectionTypes <= length points)%nat ->
  let path := createSections points leftOffset topOffset i sectionTypes in
  ~ In PathNone path /\
  emittedPoints path = consumedPoints sectionTypes /\
  length path = length sectionTypes.
Proof.
  cbv zeta. revert i. induction sectionTypes as [| type rest IH]; intros i Hfit.
  - cbn. tauto.
  - change (consumedPoints (type :: rest)) with (sectionPoints type + consumedPoints rest)%nat
      in *.
    destruct type; cbn [createSections sectionPoints] in *.
    + destruct (Nat.leb_spec (length points) i); [lia |].
      destruct (IH (i + 1)%nat ltac:(lia)) as (Hnone & Hpoints & Hlen).
      change (emittedPoints (?a :: ?l)) with (actionPoints a + emittedPoints l)%nat.
      cbn [actionPoints length In]. repeat split; try lia.
      intros [Habs | Hin]; [discriminate | exact (Hnone Hin)].
    + destruct (Nat.leb_spec (length points) (i + 2)); [lia |].
      destruct (IH (i + 3)%nat ltac:(lia)) as (Hnone & Hpoints & Hlen).
      change (emittedPoints (?a :: ?l)) with (actionPoints a + emittedPoints l)%nat.
      cbn [actionPoints length In]. repeat split; try lia.
      intros [Habs | Hin]; [discriminate | exact (Hnone Hin)].
Qed.

(** The points of the actions of a path, in order. *)
Definition pathPoints (path : list PathAction) : list Point :=
  concat (map (fun action => match action with
                             | PathM p | PathL p | PathA _ _ _ p => [p]
                             | PathC p1 p2 p => [p1; p2; p]
                             | _ => []
                             end) path).

(** The action that draws a section of a type: a line to a point, or a curve
    over two control points to a point. *)
Definition drawsSection (type : CurveType) (action : PathAction) : Prop :=
  match type, action with
  | LINE, PathL _ => True
  | BEZIER_CURVE, PathC _ _ _ => True
  | _, _ => False
  end.

(** A point of the canvas, on the page. *)
Definition onPage (leftOffset topOffset : double) (p : Point) : Point :=
  mkPoint (px p - leftOffset) (py p - topOffset).

Lemma pathPoints_app (p1 p2 : list PathAction) :
  pathPoints (p1 ++ p2) = pathPoints p1 ++ pathPoints p2.
Proof. unfold pathPoints. now rewrite map_app, concat_app. Qed.

Lemma skipn_nth_cons {A} (l : list A) (i : nat) (d : A) :
  (i < length l)%nat -> skipn i l = nth i l d :: skipn (Datatypes.S i) l.
Proof.
  revert i. induction l as [| x l IH]; intros i Hi; [cbn in Hi; lia |].
  destruct i as [| i]; [reflexivity |]. cbn [skipn nth]. apply IH. cbn in Hi. lia.
Qed.

(** The sections of a curve whose points suffice draw through the points from
    the index on, each with an action of its own type. *)
Lemma createSections_points (points : list Point) (leftOffset topOffset : double)
    (sectionTypes : list CurveType) (i : nat) :
  (i + consumedPoints sectionTypes <= length points)%nat ->
  let path := createSections points leftOffset topOffset i sectionTypes in
  Forall2 drawsSection sectionTypes path /\
  pathPoints path
  = map (onPage leftOffset topOffset) (firstn (consumedPoints sectionTypes) (skipn i points)).
Proof.
  cbv zeta. revert i. induction sectionTypes as [| type rest IH]; intros i Hfit.
  - split; [constructor | reflexivity].
  - change (consumedPoints (type :: rest)) with (sectionPoints type + consumedPoints rest)%nat
      in *.
    destruct type; cbn [createSections sectionPoints] in *.
    + destruct (Nat.leb_spec (length points) i); [lia |].
      destruct (IH (i + 1)%nat ltac:(lia)) as (Hdraws & Hpoints).
      split; [constructor; [exact I | exact Hdraws] |].
      change (pathPoints (PathL ?q :: ?l)) with (q :: pathPoints l).
      rewrite Hpoints, (skipn_nth_cons points i Point_default) by lia.
      cbn [Nat.add firstn map]. rewrite Nat.add_1_r. reflexivity.
    + destruct (Nat.leb_spec (length points) (i + 2)); [lia |].
      destruct (IH (i + 3)%nat ltac:(lia)) as (Hdraws & Hpoints).
      split; [constructor; [exact I | exact Hdraws] |].
      change (pathPoints (PathC ?q1 ?q2 ?q :: ?l)) with (q1 :: q2 :: q :: pathPoints l).
      rewrite Hpoints, (skipn_nth_cons points i Point_default) by lia.
      rewrite (skipn_nth_cons points (Datatypes.S i) Point_default) by lia.
      rewrite (skipn_nth_cons points (Datatypes.S (Datatypes.S i)) Point_default) by lia.
      cbn [Nat.add firstn map].
      replace (i + 1)%nat with (Datatypes.S i) by lia.
      replace (i + 2)%nat with (Datatypes.S (Datatypes.S i)) by lia.
      replace (i + 3)%nat with (Datatypes.S (Datatypes.S (Datatypes.S i))) by lia.
      reflexivity.
Qed.

(** For a curve that keeps the section-consumption invariant and has a second
    point, [createPath] draws the curve as it is: the path is the move to the
    first point, then one action for every section, a line for a [LINE] and a
    curve for a [BEZIER_CURVE], then the closing action when the curve is
    closed; the points of the actions, in order, are the first point of the
    curve and the points its sections consume, each moved onto the page.  No
    section is left without action. *)
Theorem createPath_of_fitting_curve (curve : Curve) (leftOffset topOffset : double) :
  curveInvariant curve ->
  (2 <= length (curve_points curve))%nat ->
  let path := createCurvePath leftOffset topOffset curve in
  (exists sections,
     path = PathM (onPage leftOffset topOffset (hd Point_default (curve_points curve)))
              :: sections ++ (if curve_closed curve then [PathZ] else []) /\
     Forall2 drawsSection (curve_sectionTypes curve) sections) /\
  pathPoints path
  = map (onPage leftOffset topOffset)
        (firstn (1 + consumedPoints (curve_sectionTypes curve)) (curve_points curve)) /\
  ~ In PathNone path /\
  emittedPoints path = consumedPoints (curve_sectionTypes curve) /\
  length path
  = (1 + length (curve_sectionTypes curve) + (if curve_closed curve then 1 else 0))%nat.
Proof.
  unfold curveInvariant, createCurvePath. intros Hinv Htwo.
  destruct (curve_points curve) as [| p0 [| p1 rest]] eqn:Hpoints;
    try (cbn [length] in Htwo; lia).
  cbv zeta.
  destruct (createSections_points (p0 :: p1 :: rest) leftOffset topOffset
              (curve_sectionTypes curve) 1 ltac:(lia)) as (Hdraws & Hdrawn).
  destruct (createSections_exact (p0 :: p1 :: rest) leftOffset topOffset
              (curve_sectionTypes curve) 1 ltac:(lia)) as (Hnone & Hemitted & Hlen).
  split; [eexists; split; [reflexivity | exact Hdraws] |].
  split.
  { change (pathPoints (PathM ?q :: ?l)) with (q :: pathPoints l).
    rewrite pathPoints_app, Hdrawn.
    replace (pathPoints (if curve_closed curve then [PathZ] else [])) with (@nil Point)
      by (destruct (curve_closed curve); reflexivity).
    rewrite app_nil_r. reflexivity. }
  change (emittedPoints (?a :: ?l)) with (actionPoints a + emittedPoints l)%nat.
  rewrite emittedPoints_app. cbn [actionPoints length]. rewrite length_app, Hlen, Hemitted.
  repeat split.
  - intros [Habs | Hin]; [discriminate |]. apply in_app_or in Hin as [Hin | Hin];
      [exact (Hnone Hin) |].
    destruct (curve_closed curve); [destruct Hin as [Habs | []]; discriminate | destruct Hin].
  - destruct (curve_closed curve); unfold emittedPoints; simpl; lia.
  - destruct (curve_closed curve); cbn [length]; lia.
Qed.

Lemma createPath_of_fitting_curve_witness :
  let curve := mkCurve [mkPoint 0 0; mkPoint 1 0; mkPoint 1 1; mkPoint 0 1] [LINE; LINE; LINE]
                       true in
  let path := createCurvePath 0%float 0%float curve in
  path = [PathM (mkPoint 0 0); PathL (mkPoint 1 0); PathL (mkPoint 1 1); PathL (mkPoint 0 1);
          PathZ] /\
  (exists sections,
     path = PathM (onPage 0%float 0%float (hd Point_default (curve_points curve)))
              :: sections ++ (if curve_closed curve then [PathZ] else []) /\
     Forall2 drawsSection (curve_sectionTypes curve) sections) /\
  pathPoints path
  = map (onPage 0%float 0%float) (firstn (1 + consumedPoints (curve_sectionTypes curve))
                             (curve_points curve)) /\
  ~ In PathNone path /\
  emittedPoints path = consumedPoints (curve_sectionTypes curve) /\
  length path
  = (1 + length (curve_sectionTypes curve) + (if curve_closed curve then 1 else 0))%nat.
Proof.
  intros curve. split; [vm_compute; reflexivity |].
  apply (createPath_of_fitting_curve curve 0%float 0%float); [unfold curveInvariant |]; cbn; lia.
Defined.

(* ------------------------------------------------------------------------- *)
(** ** What the objects of a layer send to the sink *)

Section ObjectsAndSink.
Context {S : Type} {IS : RVNGInputStream S} {E : Externals}.

(** Whatever the type of an object of a layer and however its reader ends,
    the sink has only received content calls from it (no start or end of a
    document, page or layer), and the three flags of the collector are as
    before. *)
Theorem objects_send_content_only (fuel : nat) (type : ZMF4Parser.ObjectType)
    (p : ZMF4Parser.t S) :
  let c := ZMF4Parser.m_collector p in
  let c' := ZMF4Parser.m_collector (snd (ZMF4Parser.readObject fuel type p)) in
  flags c' = flags c /\
  exists calls, ZMFCollector.m_painter c' = ZMFCollector.m_painter c ++ calls /\
                forallb isContent calls = true.
Proof.
  cbv zeta. destruct (ZMF4Parser.readObject fuel type p) as [r p'] eqn:H.
  exact (readObject_draws fuel type _ _ _ H).
Qed.

(* ------------------------------------------------------------------------- *)
(** ** References of a style *)

(** The last reference of a list that carries the tag. *)
Definition lastWithTag (tag : Z) (refs : list ZMF4Parser.ObjectRef)
  : option ZMF4Parser.ObjectRef :=
  List.find (fun ref => ZMF4Parser.ref_tag ref =? tag) (rev refs).

(** What the references leave in a field of the style: the entry of the table
    under the id of the last reference with the field's tag, none when the
    table has no such entry; what the field held when no reference has the
    tag. *)
Definition resolve {T} (tag : Z) (refs : list ZMF4Parser.ObjectRef) (table : gmap Z T)
    (initial : option T) : option T :=
  match lastWithTag tag refs with
  | Some ref => ZMF4Parser.getByRefId (ZMF4Parser.ref_id ref) table
  | None => initial
  end.

Lemma bind_bind {St A B C} (m : M St A) (k1 : A -> M St B) (k2 : B -> M St C) (s : St) :
  bind (bind m k1) k2 s = bind m (fun a => bind (k1 a) k2) s.
Proof. unfold bind. destruct (m s) as [[a | e | h] s1]; reflexivity. Qed.

Lemma applyStyleRefs_app (l1 l2 : list ZMF4Parser.ObjectRef) (style : Style)
    (p : ZMF4Parser.t S) :
  ZMF4Parser.applyStyleRefs (l1 ++ l2) style p
  = bind (ZMF4Parser.applyStyleRefs l1 style) (fun s1 => ZMF4Parser.applyStyleRefs l2 s1) p.
Proof.
  revert style. induction l1 as [| ref l1 IH]; intros style; [reflexivity |].
  cbn [app ZMF4Parser.applyStyleRefs].
  unfold ZMF4Parser.getFillByRefId, ZMF4Parser.getPenByRefId, ZMF4Parser.getShadowByRefId,
    ZMF4Parser.getTransparencyByRefId.
  destruct (ZMF4Parser.ref_tag ref =? 1); [now rewrite bind_bind, !bind_gets, IH |].
  destruct (ZMF4Parser.ref_tag ref =? 2); [now rewrite bind_bind, !bind_gets, IH |].
  destruct (ZMF4Parser.ref_tag ref =? 3); [now rewrite bind_bind, !bind_gets, IH |].
  destruct (ZMF4Parser.ref_tag ref =? 4); [now rewrite bind_bind, !bind_gets, IH |].
  apply IH.
Qed.

Lemma resolve_snoc {T} (tag : Z) (refs : list ZMF4Parser.ObjectRef)
    (ref : ZMF4Parser.ObjectRef) (table : gmap Z T) (initial : option T) :
  resolve tag (refs ++ [ref]) table initial
  = if ZMF4Parser.ref_tag ref =? tag
    then ZMF4Parser.getByRefId (ZMF4Parser.ref_id ref) table
    else resolve tag refs table initial.
Proof.
  unfold resolve, lastWithTag. rewrite rev_app_distr. cbn [rev app List.find].
  destruct (ZMF4Parser.ref_tag ref =? tag); reflexivity.
Qed.

(** The loop of [readStyle] over the references of an object: for each of
    fill (tag 1), pen (tag 2), shadow (tag 3) and transparency (tag 4) the
    last reference with the tag decides, a reference to an id the table does
    not hold leaves the field empty (also when an earlier reference had set
    it), references with other tags are passed over, and the parser is left as
    it was. *)
Theorem applyStyleRefs_last_reference_wins (refs : list ZMF4Parser.ObjectRef) (style : Style)
    (p : ZMF4Parser.t S) :
  ZMF4Parser.applyStyleRefs refs style p
  = (Ret (mkStyle (resolve 2 refs (ZMF4Parser.m_pens p) (style_pen style))
                  (resolve 1 refs (ZMF4Parser.m_fills p) (style_fill style))
                  (resolve 4 refs (ZMF4Parser.m_transparencies p) (style_transparency style))
                  (resolve 3 refs (ZMF4Parser.m_shadows p) (style_shadow style))),
     p).
Proof.
  induction refs as [| ref refs IH] using rev_ind.
  - destruct style. reflexivity.
  - rewrite applyStyleRefs_app. unfold bind at 1. rewrite IH.
    rewrite !resolve_snoc. cbn [ZMF4Parser.applyStyleRefs].
    destruct (Z.eqb_spec (ZMF4Parser.ref_tag ref) 1) as [-> | H1]; [reflexivity |].
    destruct (Z.eqb_spec (ZMF4Parser.ref_tag ref) 2) as [-> | H2]; [reflexivity |].
    destruct (Z.eqb_spec (ZMF4Parser.ref_tag ref) 3) as [-> | H3]; [reflexivity |].
    destruct (Z.eqb_spec (ZMF4Parser.ref_tag ref) 4) as [H4 | H4]; reflexivity.
Qed.

End ObjectsAndSink.

(* ------------------------------------------------------------------------- *)
(** ** The size of what a curve object holds *)

Lemma forEach_ret_Forall2 {St A B} (body : A -> M St B) (xs : list A) (s s' : St)
    (ys : list B) :
  forEach body xs s = (Ret ys, s') ->
  Forall2 (fun x y => exists q q', body x q = (Ret y, q')) xs ys.
Proof.
  revert s s' ys. induction xs as [| x xs IH]; intros s s' ys H; cbn [forEach] in H.
  - injection H as <- _. constructor.
  - apply bind_ret_inv in H as (y & s1 & Hy & H).
    apply bind_ret_inv in H as (ys' & s2 & Hys & H).
    injection H as <- _. constructor; [now exists s, s1 | exact (IH _ _ _ Hys)].
Qed.

Section CurveComponents.
Context {S : Type} {IS : RVNGInputStream S}.

(** A component header the reader accepts: at most 10000 points. *)
Definition componentAccepted (header : Z * bool) : Prop := fst header <= 10000.

Lemma readComponentHeaders_accepted (n : nat) (acc hs : list (Z * bool))
    (p p' : ZMF4Parser.t S) :
  ZMF4Parser.readComponentHeaders n acc p = (Ret (Some hs), p') ->
  Forall componentAccepted acc ->
  Forall componentAccepted hs /\ length hs = (n + length acc)%nat.
Proof.
  revert acc p. induction n as [| n IH]; intros acc p H Hacc;
    cbn [ZMF4Parser.readComponentHeaders] in H.
  - injection H as <- _. split; [exact Hacc | reflexivity].
  - apply bind_ret_inv in H as ([] & p1 & _ & H).
    apply bind_ret_inv in H as (count & p2 & _ & H).
    destruct (Z.eqb_spec count 0) as [| Hzero]; [discriminate |].
    destruct (Z.ltb_spec 10000 count) as [| Hmax]; [discriminate |]. cbn [orb] in H.
    apply bind_ret_inv in H as (closed & p3 & Hclosed & H).
    apply IH in H as [Hall Hlen].
    + split; [exact Hall |]. rewrite Hlen, length_app. cbn [length]. lia.
    + apply Forall_app. split; [exact Hacc |]. constructor; [exact Hmax | constructor].
Qed.

Lemma curves_of_components (hs : list (Z * bool)) (pointLists : list (list Point))
    (typeLists : list (list CurveType)) :
  Forall componentAccepted hs ->
  Forall2 (fun h points => length points = Z.to_nat (fst h)) hs pointLists ->
  length typeLists = length hs ->
  let curves := map (fun it => mkCurve (snd (fst it)) (snd it) (snd (fst (fst it))))
                    (combine (combine hs pointLists) typeLists) in
  length curves = length hs /\
  Forall (fun curve => Z.of_nat (length (curve_points curve)) <= 10000) curves.
Proof.
  cbv zeta. intros Hacc Hpoints. revert typeLists.
  induction Hpoints as [| h points hs pointLists Hlen Hrest IH]; intros typeLists Htypes.
  - cbn. split; [reflexivity | constructor].
  - destruct typeLists as [| types typeLists]; [discriminate |].
    inversion Hacc as [| ? ? Hh Hhs]; subst.
    destruct (IH Hhs typeLists ltac:(cbn [length] in Htypes; lia)) as [IHlen IHall].
    cbn [combine map length fst snd]. split; [now rewrite IHlen |].
    constructor; [| exact IHall]. cbn [curve_points]. rewrite Hlen.
    unfold componentAccepted in Hh. lia.
Qed.

(** The curves [readCurveComponents] returns are at most 10000, and each has
    at most 10000 points: a component count or a point count of 0 or above
    10000 ends the reading with no curve at all. *)
Theorem readCurveComponents_is_bounded (fuel : nat)
    (readPointFunc : M (ZMF4Parser.t S) Point) (p p' : ZMF4Parser.t S)
    (curves : list Curve) :
  ZMF4Parser.readCurveComponents fuel readPointFunc p = (Ret curves, p') ->
  Z.of_nat (length curves) <= 10000 /\
  Forall (fun curve => Z.of_nat (length (curve_points curve)) <= 10000) curves.
Proof.
  unfold ZMF4Parser.readCurveComponents. intros H.
  apply bind_ret_inv in H as (count & p1 & _ & H).
  destruct (Z.eqb_spec count 0) as [| Hzero];
    [injection H as <- _; split; [cbn; lia | constructor] |].
  destruct (Z.ltb_spec 10000 count) as [| Hmax];
    [injection H as <- _; split; [cbn; lia | constructor] |].
  cbn [orb] in H.
  apply bind_ret_inv in H as ([hs |] & p2 & Hheaders & H);
    [| injection H as <- _; split; [cbn; lia | constructor]].
  apply readComponentHeaders_accepted in Hheaders as [Hacc Hlen]; [| constructor].
  apply bind_ret_inv in H as (pointLists & p3 & Hpoints & H).
  apply bind_ret_inv in H as (typeLists & p4 & Htypes & H).
  injection H as <- _.
  apply forEach_ret_Forall2 in Hpoints, Htypes.
  destruct (curves_of_components hs pointLists typeLists Hacc) as [Hcurves Hall].
  - eapply Forall2_impl; [exact Hpoints |].
    intros h points (q & q' & Hq). exact (repeatM_length _ _ _ _ _ Hq).
  - symmetry. exact (Forall2_length _ _ _ Htypes).
  - split; [| exact Hall]. rewrite Hcurves, Hlen. cbn [length]. lia.
Qed.

End CurveComponents.

Lemma readCurveComponents_is_bounded_witness :
  let p := parserAt onePointTwoLines 0 ZMF4Parser.ObjectHeader_default in
  let curves := [mkCurve [mkPoint 0 0] [LINE; LINE] false] in
  Z.of_nat (length curves) <= 10000 /\
  Forall (fun curve => Z.of_nat (length (curve_points curve)) <= 10000) curves.
Proof.
  intros p curves.
  apply (readCurveComponents_is_bounded 10 ZMF4Parser.readUnscaledPoint p
           (snd (ZMF4Parser.readCurveComponents 10 ZMF4Parser.readUnscaledPoint p)) curves).
  vm_compute. reflexivity.
Defined.

(* ------------------------------------------------------------------------- *)
(** ** What the readers leave alone *)

Section Keeps.
Context {S : Type} {IS : RVNGInputStream S} {E : Externals}.
Context {X : Type} (f : ZMF4Parser.t S -> X).

(** However [m] ends, the part [f] of the parser is as before. *)
Definition keeps {A} (m : M (ZMF4Parser.t S) A) : Prop :=
  forall p r p', m p = (r, p') -> f p' = f p.

Lemma keeps_ret {A} (a : A) : keeps (ret a).
Proof. intros p r p' H. now injection H as _ <-. Qed.

Lemma keeps_throw {A} (e : exception) : keeps (throw (A := A) e).
Proof. intros p r p' H. now injection H as _ <-. Qed.

Lemma keeps_stop {A} (h : halt) : keeps (stop (A := A) h).
Proof. intros p r p' H. now injection H as _ <-. Qed.

Lemma keeps_bind {A B} (m : M (ZMF4Parser.t S) A) (k : A -> M (ZMF4Parser.t S) B) :
  keeps m -> (forall a, keeps (k a)) -> keeps (bind m k).
Proof.
  intros Hm Hk p r p' H.
  apply bind_inv in H as [(a & p1 & H1 & H2) | [(e & H1 & _) | (h & H1 & _)]].
  - rewrite (Hk a _ _ _ H2). exact (Hm _ _ _ H1).
  - exact (Hm _ _ _ H1).
  - exact (Hm _ _ _ H1).
Qed.

Lemma keeps_gets {A} (g : ZMF4Parser.t S -> A) : keeps (gets g).
Proof. intros p r p' H. now injection H as _ <-. Qed.

Lemma keeps_lift {A} (o : outcome A) : keeps (lift o).
Proof. intros p r p' H. now injection H as _ <-. Qed.

Lemma keeps_modify (g : ZMF4Parser.t S -> ZMF4Parser.t S) :
  (forall p, f (g p) = f p) -> keeps (modify g).
Proof. intros Hg p r p' H. unfold modify in H. injection H as _ <-. apply Hg. Qed.

Lemma keeps_onInput {A} (m : M S A) :
  (forall s p, f (ZMF4Parser.set_input s p) = f p) -> keeps (ZMF4Parser.onInput m).
Proof.
  intros Hinput p r p' H. unfold ZMF4Parser.onInput, zoom in H.
  destruct (m (ZMF4Parser.m_input p)) as [r1 s']. injection H as _ <-. apply Hinput.
Qed.

Lemma keeps_onCollector (g : ZMFCollector.t -> ZMFCollector.t) :
  (forall c p, f (ZMF4Parser.set_collector c p) = f p) -> keeps (ZMF4Parser.onCollector g).
Proof. intros Hcollector. apply keeps_modify. intros p. apply Hcollector. Qed.

Lemma keeps_currentId : keeps ZMF4Parser.currentId.
Proof.
  intros p r p' H. unfold ZMF4Parser.currentId in H.
  destruct (ZMF4Parser.id (ZMF4Parser.m_currentObjectHeader p)); now injection H as _ <-.
Qed.

(** [table[get (m_currentObjectHeader.id)] = value] *)
Lemma keeps_currentId_modify (g : Z -> ZMF4Parser.t S -> ZMF4Parser.t S) :
  (forall i p, ZMF4Parser.id (ZMF4Parser.m_currentObjectHeader p) = Some i -> f (g i p) = f p) ->
  keeps (bind ZMF4Parser.currentId (fun i => modify (g i))).
Proof.
  intros Hg p r p' H. unfold bind, ZMF4Parser.currentId, modify in H.
  destruct (ZMF4Parser.id (ZMF4Parser.m_currentObjectHeader p)) as [i |] eqn:Hid.
  - injection H as _ <-. now apply Hg.
  - now injection H as _ <-.
Qed.

Lemma keeps_repeatM {A} (n : nat) (body : M (ZMF4Parser.t S) A) :
  keeps body -> keeps (repeatM n body).
Proof.
  intros Hbody. induction n as [| n IH]; cbn [repeatM].
  - apply keeps_ret.
  - apply keeps_bind; [exact Hbody | intros y].
    apply keeps_bind; [exact IH | intros ys]. apply keeps_ret.
Qed.

Lemma keeps_forEach {A B} (body : A -> M (ZMF4Parser.t S) B) (xs : list A) :
  (forall x, keeps (body x)) -> keeps (forEach body xs).
Proof.
  intros Hbody. induction xs as [| x xs IH]; cbn [forEach].
  - apply keeps_ret.
  - apply keeps_bind; [apply Hbody | intros y].
    apply keeps_bind; [exact IH | intros ys]. apply keeps_ret.
Qed.

End Keeps.

Create HintDb keeps.

(** One step of a proof that a reader keeps a part of the parser: by the shape
    of the reader's code; the laws of the part are among the hypotheses. *)
Ltac keeps_step :=
  lazymatch goal with
  | |- keeps _ (bind ZMF4Parser.currentId (fun _ => modify _)) =>
      apply keeps_currentId_modify; intros ? ? ?; cbv beta; solve [auto]
  | |- keeps _ (bind _ _) => apply keeps_bind; [| intros ?]
  | |- keeps _ (ret _) => apply keeps_ret
  | |- keeps _ (throw _) => apply keeps_throw
  | |- keeps _ (stop _) => apply keeps_stop
  | |- keeps _ (lift _) => apply keeps_lift
  | |- keeps _ (gets _) => apply keeps_gets
  | |- keeps _ (modify _) =>
      apply keeps_modify; intros ?; first [reflexivity | solve [auto]]
  | |- keeps _ (ZMF4Parser.onInput _) => apply keeps_onInput; assumption
  | |- keeps _ (ZMF4Parser.onCollector _) => apply keeps_onCollector; assumption
  | |- keeps _ ZMF4Parser.currentId => apply keeps_currentId
  | |- keeps _ (repeatM _ _) => apply keeps_repeatM
  | |- keeps _ (forEach _ _) => apply keeps_forEach; intros ?
  | |- keeps _ (if ?b then _ else _) => destruct b
  | |- keeps _ (match ?x with _ => _ end) => destruct x
  | |- keeps _ (ZMF4Parser.getFillByRefId _) => apply keeps_gets
  | |- keeps _ (ZMF4Parser.getPenByRefId _) => apply keeps_gets
  | |- keeps _ (ZMF4Parser.getShadowByRefId _) => apply keeps_gets
  | |- keeps _ (ZMF4Parser.getTransparencyByRefId _) => apply keeps_gets
  | |- keeps _ (ZMF4Parser.getFontByRefId _) => apply keeps_gets
  | |- keeps _ (ZMF4Parser.getParagraphStyleByRefId _) => apply keeps_gets
  | |- keeps _ (ZMF4Parser.getTextByRefId _) => apply keeps_gets
  | |- keeps _ (ZMF4Parser.getImageByRefId _) => apply keeps_gets
  | |- keeps _ (ZMF4Parser.getArrowByRefId _) => apply keeps_gets
  end.

Ltac keeps_tac :=
  cbv zeta; repeat (first [solve [auto with keeps] | keeps_step]).

(** The readers keep every part of the parser that a move of the cursor
    keeps, but for the table a resource reader stores its object in and for
    the collector the shape readers call. *)
Section ReadersKeep.
Context {S : Type} {IS : RVNGInputStream S} {E : Externals}.
Context {X : Type} (f : ZMF4Parser.t S -> X).
Context (Hinput : forall s p, f (ZMF4Parser.set_input s p) = f p).

Lemma readObjectHeader_keeps : keeps f (ZMF4Parser.readObjectHeader (S := S)).
Proof. unfold ZMF4Parser.readObjectHeader. keeps_tac. Qed.

Lemma readObjectRefs_keeps : keeps f (ZMF4Parser.readObjectRefs (S := S)).
Proof. unfold ZMF4Parser.readObjectRefs. keeps_tac. Qed.

Local Hint Resolve readObjectHeader_keeps readObjectRefs_keeps : keeps.

Lemma applyStyleRefs_keeps refs style :
  keeps f (ZMF4Parser.applyStyleRefs (S := S) refs style).
Proof.
  revert style. induction refs as [| ref rest IH]; intros style;
    cbn [ZMF4Parser.applyStyleRefs]; keeps_tac.
Qed.

Local Hint Resolve applyStyleRefs_keeps : keeps.

Lemma readStyle_keeps : keeps f (ZMF4Parser.readStyle (S := S)).
Proof. unfold ZMF4Parser.readStyle. keeps_tac. Qed.

Lemma readFloat_keeps : keeps f (ZMF4Parser.readFloat (S := S)).
Proof. unfold ZMF4Parser.readFloat. keeps_tac. Qed.

Local Hint Resolve readStyle_keeps readFloat_keeps : keeps.

Lemma readPoint_keeps : keeps f (ZMF4Parser.readPoint (S := S)).
Proof. unfold ZMF4Parser.readPoint. keeps_tac. Qed.

Lemma readUnscaledPoint_keeps : keeps f (ZMF4Parser.readUnscaledPoint (S := S)).
Proof. unfold ZMF4Parser.readUnscaledPoint. keeps_tac. Qed.

Local Hint Resolve readPoint_keeps readUnscaledPoint_keeps : keeps.

Lemma readBoundingBox_keeps : keeps f (ZMF4Parser.readBoundingBox (S := S)).
Proof. unfold ZMF4Parser.readBoundingBox. keeps_tac. Qed.

Lemma readCurveSectionTypes_keeps fuel sectionTypes :
  keeps f (ZMF4Parser.readCurveSectionTypes (S := S) fuel sectionTypes).
Proof.
  revert sectionTypes. induction fuel as [| fuel IH]; intros sectionTypes;
    cbn [ZMF4Parser.readCurveSectionTypes]; keeps_tac.
Qed.

Lemma readComponentHeaders_keeps n acc :
  keeps f (ZMF4Parser.readComponentHeaders (S := S) n acc).
Proof.
  revert acc. induction n as [| n IH]; intros acc;
    cbn [ZMF4Parser.readComponentHeaders]; keeps_tac.
Qed.

Local Hint Resolve readBoundingBox_keeps readCurveSectionTypes_keeps
  readComponentHeaders_keeps : keeps.

Lemma readCurveComponents_keeps fuel readPointFunc :
  keeps f readPointFunc ->
  keeps f (ZMF4Parser.readCurveComponents (S := S) fuel readPointFunc).
Proof. intros Hpoint. unfold ZMF4Parser.readCurveComponents. keeps_tac. Qed.

Lemma readColor_keeps : keeps f (ZMF4Parser.readColor (S := S)).
Proof. unfold ZMF4Parser.readColor. keeps_tac. Qed.

Local Hint Resolve readCurveComponents_keeps readColor_keeps : keeps.

Lemma readGradientStop_keeps : keeps f (ZMF4Parser.readGradientStop (S := S)).
Proof. unfold ZMF4Parser.readGradientStop. keeps_tac. Qed.

Local Hint Resolve readGradientStop_keeps : keeps.

Lemma readGradient_keeps type : keeps f (ZMF4Parser.readGradient (S := S) type).
Proof. unfold ZMF4Parser.readGradient. keeps_tac. Qed.



Lemma applyImageRefs_keeps tag refs image :
  keeps f (ZMF4Parser.applyImageRefs (S := S) tag refs image).
Proof.
  revert image. induction refs as [| ref rest IH]; intros image;
    cbn [ZMF4Parser.applyImageRefs]; keeps_tac.
Qed.

Local Hint Resolve readGradient_keeps applyImageRefs_keeps : keeps.

Lemma readFill_keeps :
  (forall i v p, ZMF4Parser.id (ZMF4Parser.m_currentObjectHeader p) = Some i ->
     f (ZMF4Parser.set_fills (<[i := v]> (ZMF4Parser.m_fills p)) p) = f p) -> keeps f (ZMF4Parser.readFill (S := S)).
Proof. intros Hown. unfold ZMF4Parser.readFill. keeps_tac. Qed.

Lemma readTransparency_keeps :
  (forall i v p, ZMF4Parser.id (ZMF4Parser.m_currentObjectHeader p) = Some i ->
     f (ZMF4Parser.set_transparencies (<[i := v]> (ZMF4Parser.m_transparencies p)) p) = f p) -> keeps f (ZMF4Parser.readTransparency (S := S)).
Proof. intros Hown. unfold ZMF4Parser.readTransparency. keeps_tac. Qed.

Lemma applyArrowRefs_keeps refs startArrow endArrow :
  keeps f (ZMF4Parser.applyArrowRefs (S := S) refs startArrow endArrow).
Proof.
  revert startArrow endArrow. induction refs as [| ref rest IH]; intros startArrow endArrow;
    cbn [ZMF4Parser.applyArrowRefs]; keeps_tac.
Qed.

Local Hint Resolve applyArrowRefs_keeps : keeps.

Lemma readPen_keeps :
  (forall i v p, ZMF4Parser.id (ZMF4Parser.m_currentObjectHeader p) = Some i ->
     f (ZMF4Parser.set_pens (<[i := v]> (ZMF4Parser.m_pens p)) p) = f p) -> keeps f (ZMF4Parser.readPen (S := S)).
Proof. intros Hown. unfold ZMF4Parser.readPen. keeps_tac. Qed.

Lemma readShadow_keeps :
  (forall i v p, ZMF4Parser.id (ZMF4Parser.m_currentObjectHeader p) = Some i ->
     f (ZMF4Parser.set_shadows (<[i := v]> (ZMF4Parser.m_shadows p)) p) = f p) -> keeps f (ZMF4Parser.readShadow (S := S)).
Proof. intros Hown. unfold ZMF4Parser.readShadow. keeps_tac. Qed.

Lemma readArrow_keeps fuel :
  (forall i v p, ZMF4Parser.id (ZMF4Parser.m_currentObjectHeader p) = Some i ->
     f (ZMF4Parser.set_arrows (<[i := v]> (ZMF4Parser.m_arrows p)) p) = f p) -> keeps f (ZMF4Parser.readArrow (S := S) fuel).
Proof. intros Hown. unfold ZMF4Parser.readArrow. keeps_tac. Qed.

Lemma readBitmap_keeps fuel :
  (forall i v p, ZMF4Parser.id (ZMF4Parser.m_currentObjectHeader p) = Some i ->
     f (ZMF4Parser.set_images (<[i := v]> (ZMF4Parser.m_images p)) p) = f p) -> keeps f (ZMF4Parser.readBitmap (S := S) fuel).
Proof. intros Hown. unfold ZMF4Parser.readBitmap. keeps_tac. Qed.

Lemma readFont_keeps :
  (forall i v p, ZMF4Parser.id (ZMF4Parser.m_currentObjectHeader p) = Some i ->
     f (ZMF4Parser.set_fonts (<[i := v]> (ZMF4Parser.m_fonts p)) p) = f p) -> keeps f (ZMF4Parser.readFont (S := S)).
Proof. intros Hown. unfold ZMF4Parser.readFont. keeps_tac. Qed.

Lemma applyFontRefs_keeps refs font :
  keeps f (ZMF4Parser.applyFontRefs (S := S) refs font).
Proof.
  revert font. induction refs as [| ref rest IH]; intros font;
    cbn [ZMF4Parser.applyFontRefs]; keeps_tac.
Qed.

Local Hint Resolve applyFontRefs_keeps : keeps.

Lemma readParagraphStyle_keeps :
  (forall i v p, ZMF4Parser.id (ZMF4Parser.m_currentObjectHeader p) = Some i ->
     f (ZMF4Parser.set_paragraphStyles (<[i := v]> (ZMF4Parser.m_paragraphStyles p)) p) = f p) -> keeps f (ZMF4Parser.readParagraphStyle (S := S)).
Proof. intros Hown. unfold ZMF4Parser.readParagraphStyle. keeps_tac. Qed.

Lemma readParagraphHeaders_keeps n acc :
  keeps f (ZMF4Parser.readParagraphHeaders (S := S) n acc).
Proof.
  revert acc. induction n as [| n IH]; intros acc;
    cbn [ZMF4Parser.readParagraphHeaders]; keeps_tac.
Qed.

Lemma readSpanHeaders_keeps n style acc :
  keeps f (ZMF4Parser.readSpanHeaders (S := S) n style acc).
Proof.
  revert acc. induction n as [| n IH]; intros acc;
    cbn [ZMF4Parser.readSpanHeaders]; keeps_tac.
Qed.

Local Hint Resolve readParagraphHeaders_keeps readSpanHeaders_keeps : keeps.

Lemma readAllSpanHeaders_keeps paragraphs acc :
  keeps f (ZMF4Parser.readAllSpanHeaders (S := S) paragraphs acc).
Proof.
  revert acc. induction paragraphs as [| [spanCount style] rest IH]; intros acc;
    cbn [ZMF4Parser.readAllSpanHeaders]; keeps_tac.
Qed.

Lemma readSpanText_keeps span : keeps f (ZMF4Parser.readSpanText (S := S) span).
Proof. unfold ZMF4Parser.readSpanText. keeps_tac. Qed.

Local Hint Resolve readAllSpanHeaders_keeps readSpanText_keeps : keeps.

Lemma readParagraphText_keeps paragraph :
  keeps f (ZMF4Parser.readParagraphText (S := S) paragraph).
Proof. unfold ZMF4Parser.readParagraphText. keeps_tac. Qed.

Local Hint Resolve readParagraphText_keeps : keeps.

Lemma readText_keeps :
  (forall i v p, ZMF4Parser.id (ZMF4Parser.m_currentObjectHeader p) = Some i ->
     f (ZMF4Parser.set_texts (<[i := v]> (ZMF4Parser.m_texts p)) p) = f p) -> keeps f (ZMF4Parser.readText (S := S)).
Proof. intros Hown. unfold ZMF4Parser.readText. keeps_tac. Qed.

Lemma applyTextRefs_keeps refs text :
  keeps f (ZMF4Parser.applyTextRefs (S := S) refs text).
Proof.
  revert text. induction refs as [| ref rest IH]; intros text;
    cbn [ZMF4Parser.applyTextRefs]; keeps_tac.
Qed.

Lemma readCell_keeps : keeps f (ZMF4Parser.readCell (S := S)).
Proof. unfold ZMF4Parser.readCell. keeps_tac. Qed.

Lemma readRowBorder_keeps tableHeight rowCount cells :
  keeps f (ZMF4Parser.readRowBorder (S := S) tableHeight rowCount cells).
Proof. unfold ZMF4Parser.readRowBorder. keeps_tac. Qed.

Lemma readColumns_keeps n i tableWidth colCount rows columns :
  keeps f (ZMF4Parser.readColumns (S := S) n i tableWidth colCount rows columns).
Proof.
  revert i rows columns. induction n as [| n IH]; intros i rows columns;
    cbn [ZMF4Parser.readColumns]; keeps_tac.
Qed.

Context (Hcollector : forall c p, f (ZMF4Parser.set_collector c p) = f p).

Local Hint Resolve readStyle_keeps readBoundingBox_keeps readObjectRefs_keeps
  applyImageRefs_keeps applyTextRefs_keeps readCurveComponents_keeps readPoint_keeps
  readUnscaledPoint_keeps readFloat_keeps readCurveSectionTypes_keeps readCell_keeps
  readRowBorder_keeps readColumns_keeps : keeps.

Lemma readImage_keeps : keeps f (ZMF4Parser.readImage (S := S)).
Proof. unfold ZMF4Parser.readImage. keeps_tac. Qed.

Lemma readTextFrame_keeps : keeps f (ZMF4Parser.readTextFrame (S := S)).
Proof. unfold ZMF4Parser.readTextFrame. keeps_tac. Qed.

Lemma readCurve_keeps fuel : keeps f (ZMF4Parser.readCurve (S := S) fuel).
Proof. unfold ZMF4Parser.readCurve. keeps_tac. Qed.

Lemma readRectangle_keeps : keeps f (ZMF4Parser.readRectangle (S := S)).
Proof. unfold ZMF4Parser.readRectangle. keeps_tac. Qed.

Lemma readEllipse_keeps : keeps f (ZMF4Parser.readEllipse (S := S)).
Proof. unfold ZMF4Parser.readEllipse. keeps_tac. Qed.

Lemma readPolygon_keeps fuel : keeps f (ZMF4Parser.readPolygon (S := S) fuel).
Proof. unfold ZMF4Parser.readPolygon. keeps_tac. Qed.

Lemma readTable_keeps : keeps f (ZMF4Parser.readTable (S := S)).
Proof. unfold ZMF4Parser.readTable. keeps_tac. Qed.

End ReadersKeep.

(** The nine tables of resource objects of the parser. *)
Inductive resourceTable : Type :=
  | Pens | Fills | Transparencies | Shadows | Arrows | Images | Fonts | ParagraphStyles | Texts.

(** The entry of table [k] under the id [i]. *)
Definition entryOf {S : Type} (k : resourceTable) (i : Z) (p : ZMF4Parser.t S)
  : {T : Type & option T} :=
  match k with
  | Pens => @existT Type option Pen (ZMF4Parser.m_pens p !! i)
  | Fills => @existT Type option Fill (ZMF4Parser.m_fills p !! i)
  | Transparencies => @existT Type option Transparency (ZMF4Parser.m_transparencies p !! i)
  | Shadows => @existT Type option Shadow (ZMF4Parser.m_shadows p !! i)
  | Arrows => @existT Type option ArrowPtr (ZMF4Parser.m_arrows p !! i)
  | Images => @existT Type option Image (ZMF4Parser.m_images p !! i)
  | Fonts => @existT Type option Font (ZMF4Parser.m_fonts p !! i)
  | ParagraphStyles => @existT Type option ParagraphStyle (ZMF4Parser.m_paragraphStyles p !! i)
  | Texts => @existT Type option Text (ZMF4Parser.m_texts p !! i)
  end.

(** What a parser holds besides its input stream, its collector and its
    tables. *)
Definition besidesInputAndCollector {S : Type} (p : ZMF4Parser.t S) :=
  (ZMF4Parser.m_inputLength p, ZMF4Parser.m_header p, ZMF4Parser.m_pageSettings p,
   ZMF4Parser.m_pageNumber p, ZMF4Parser.m_currentObjectHeader p).

(** What a parser holds besides its input stream and its tables. *)
Definition besidesInput {S : Type} (p : ZMF4Parser.t S) :=
  (ZMF4Parser.m_collector p, besidesInputAndCollector p).

(** A run in which the code has left defined behaviour: it took the value of
    an empty optional or indexed a vector past its end.  Nothing is said of
    the parser after such a run. *)
Definition undefinedRun {A} (r : outcome A) : Prop :=
  r = Halt EmptyOptionalAccess \/ r = Halt OutOfBounds.

(** However a run of [m] that stays defined ends, the parser differs from the
    one it started on at most in the input stream and in the entry of the
    table [own] under the id of the current object header. *)
Definition definesOnly {S : Type} {A} (own : resourceTable) (m : M (ZMF4Parser.t S) A) : Prop :=
  forall p r p', m p = (r, p') -> ~ undefinedRun r ->
    besidesInput p' = besidesInput p /\
    forall k i,
      (k = own -> ZMF4Parser.id (ZMF4Parser.m_currentObjectHeader p) <> Some i) ->
      entryOf k i p' = entryOf k i p.

(** However [m] ends, the parser differs from the one it started on at most
    in the input stream and in the collector. *)
Definition definesNothing {S : Type} {A} (m : M (ZMF4Parser.t S) A) : Prop :=
  forall p r p', m p = (r, p') ->
    besidesInputAndCollector p' = besidesInputAndCollector p /\
    forall k i, entryOf k i p' = entryOf k i p.

Section Frame.
Context {S : Type} {IS : RVNGInputStream S} {E : Externals}.

(** The entry of [own] under [i], hidden while [i] is the current id. *)
Definition guarded (own : resourceTable) (i : Z) (p : ZMF4Parser.t S) :=
  (ZMF4Parser.id (ZMF4Parser.m_currentObjectHeader p),
   if bool_decide (ZMF4Parser.id (ZMF4Parser.m_currentObjectHeader p) = Some i) then None
   else Some (entryOf own i p)).

Lemma guarded_entry own i p p' :
  ZMF4Parser.id (ZMF4Parser.m_currentObjectHeader p) <> Some i ->
  guarded own i p' = guarded own i p -> entryOf own i p' = entryOf own i p.
Proof.
  unfold guarded. intros Hne H. injection H as Hid H. rewrite Hid in H.
  rewrite bool_decide_eq_false_2 in H by exact Hne. now injection H.
Qed.

(** A proof of [definesOnly] from the three instances of a [keeps] lemma. *)
Tactic Notation "frame_tac" uconstr(keepsLemma) :=
  intros p r p' H _; split;
  [ refine (keepsLemma besidesInput _ _ p r p' H); reflexivity
  | intros k i Hk; destruct k;
    first
      [ apply guarded_entry; [now apply Hk |];
        refine (keepsLemma (guarded _ i) _ _ p r p' H);
        [ reflexivity
        | intros j v q Hj; unfold guarded; cbn; rewrite Hj;
          destruct (decide (Some j = Some i)) as [Heq | Hne];
          [ now rewrite !bool_decide_eq_true_2
          | rewrite !bool_decide_eq_false_2 by exact Hne;
            rewrite lookup_insert_ne by congruence; reflexivity ] ]
      | refine (keepsLemma (entryOf _ i) _ _ p r p' H); reflexivity ] ].

(** Reading a resource object defines at most the resource of that object's
    id: for each of the nine resource readers, whenever the reader returns or
    throws (or the model runs out of fuel), the collector, the file header,
    the page settings, the page number and the current object header are as
    before, the eight other tables are as before, and so is every entry of the
    reader's own table under an id other than the current object's.  The runs
    left out are those in which the reader takes the id of an object that has
    none, as [readText] does, or indexes a vector past its end. *)
Theorem resource_reader_defines_one_entry (fuel : nat) :
  definesOnly Fills (ZMF4Parser.readFill (S := S)) /\
  definesOnly Transparencies (ZMF4Parser.readTransparency (S := S)) /\
  definesOnly Pens (ZMF4Parser.readPen (S := S)) /\
  definesOnly Shadows (ZMF4Parser.readShadow (S := S)) /\
  definesOnly Arrows (ZMF4Parser.readArrow (S := S) fuel) /\
  definesOnly Images (ZMF4Parser.readBitmap (S := S) fuel) /\
  definesOnly Fonts (ZMF4Parser.readFont (S := S)) /\
  definesOnly ParagraphStyles (ZMF4Parser.readParagraphStyle (S := S)) /\
  definesOnly Texts (ZMF4Parser.readText (S := S)).
Proof.
  repeat apply conj.
  - frame_tac (readFill_keeps (S := S)).
  - frame_tac (readTransparency_keeps (S := S)).
  - frame_tac (readPen_keeps (S := S)).
  - frame_tac (readShadow_keeps (S := S)).
  - frame_tac (fun f Hin => readArrow_keeps (S := S) f Hin fuel).
  - frame_tac (fun f Hin => readBitmap_keeps (S := S) f Hin fuel).
  - frame_tac (readFont_keeps (S := S)).
  - frame_tac (readParagraphStyle_keeps (S := S)).
  - frame_tac (readText_keeps (S := S)).
Qed.

Tactic Notation "shape_frame_tac" uconstr(keepsLemma) :=
  intros p r p' H; split;
  [ refine (keepsLemma besidesInputAndCollector _ _ p r p' H); reflexivity
  | intros k i; destruct k; refine (keepsLemma (entryOf _ i) _ _ p r p' H); reflexivity ].

(** Reading a shape defines no resource: however one of the seven shape
    readers ends, the nine tables, the file header, the page settings, the
    page number and the current object header are as before; a shape reader
    changes the input stream and the collector only. *)
Theorem shape_reader_defines_nothing (fuel : nat) :
  definesNothing (ZMF4Parser.readCurve (S := S) fuel) /\
  definesNothing (ZMF4Parser.readRectangle (S := S)) /\
  definesNothing (ZMF4Parser.readEllipse (S := S)) /\
  definesNothing (ZMF4Parser.readPolygon (S := S) fuel) /\
  definesNothing (ZMF4Parser.readImage (S := S)) /\
  definesNothing (ZMF4Parser.readTable (S := S)) /\
  definesNothing (ZMF4Parser.readTextFrame (S := S)).
Proof.
  repeat apply conj.
  - shape_frame_tac (fun f Hin Hc => readCurve_keeps (S := S) f Hin Hc fuel).
  - shape_frame_tac (readRectangle_keeps (S := S)).
  - shape_frame_tac (readEllipse_keeps (S := S)).
  - shape_frame_tac (fun f Hin Hc => readPolygon_keeps (S := S) f Hin Hc fuel).
  - shape_frame_tac (readImage_keeps (S := S)).
  - shape_frame_tac (readTable_keeps (S := S)).
  - shape_frame_tac (readTextFrame_keeps (S := S)).
Qed.

End Frame.

(* ------------------------------------------------------------------------- *)
(** ** Tables *)

(** The number of cells of each row. *)
Definition cellCounts (rows : list Row) : list nat :=
  map (fun row => length (row_cells row)) rows.

(** [rowCount] rows of [colCount] cells each, and [colCount] columns. *)
Definition isGrid (rowCount colCount : nat) (table : Table) : Prop :=
  cellCounts (table_rows table) = repeat colCount rowCount /\
  length (table_columns table) = colCount.

Lemma onFront_length {A} (f : A -> A) (l : list A) : length (ZMF4Parser.onFront f l) = length l.
Proof. destruct l; reflexivity. Qed.

Lemma onBack_length {A} (f : A -> A) (l : list A) : length (ZMF4Parser.onBack f l) = length l.
Proof. unfold ZMF4Parser.onBack. now rewrite length_rev, onFront_length, length_rev. Qed.

Lemma cellCounts_map (f : Row -> Row) (rows : list Row) :
  (forall row, length (row_cells (f row)) = length (row_cells row)) ->
  cellCounts (map f rows) = cellCounts rows.
Proof.
  intros Hf. unfold cellCounts. rewrite map_map. apply map_ext. exact Hf.
Qed.

Lemma cellCounts_onFront (f : Row -> Row) (rows : list Row) :
  (forall row, length (row_cells (f row)) = length (row_cells row)) ->
  cellCounts (ZMF4Parser.onFront f rows) = cellCounts rows.
Proof. intros Hf. destruct rows as [| row rest]; cbn; [reflexivity | now rewrite Hf]. Qed.

Lemma cellCounts_rev (rows : list Row) : cellCounts (rev rows) = rev (cellCounts rows).
Proof. unfold cellCounts. apply map_rev. Qed.

Lemma cellCounts_onBack (f : Row -> Row) (rows : list Row) :
  (forall row, length (row_cells (f row)) = length (row_cells row)) ->
  cellCounts (ZMF4Parser.onBack f rows) = cellCounts rows.
Proof.
  intros Hf. unfold ZMF4Parser.onBack.
  now rewrite cellCounts_rev, cellCounts_onFront, cellCounts_rev, rev_involutive.
Qed.

Lemma applyTableStyle_cellCounts (tableStyle : Style) (rows : list Row) :
  cellCounts (ZMF4Parser.applyTableStyle tableStyle rows) = cellCounts rows.
Proof.
  unfold ZMF4Parser.applyTableStyle. cbv zeta.
  assert (Hfilled : forall filled : list Row,
             cellCounts filled = cellCounts rows ->
             cellCounts
               match style_pen tableStyle with
               | Some _ =>
                   map (fun row => mkRow (ZMF4Parser.onBack (ZMF4Parser.Cell_withRight (style_pen tableStyle))
                                            (ZMF4Parser.onFront (ZMF4Parser.Cell_withLeft (style_pen tableStyle))
                                               (row_cells row))) (row_height row))
                     (ZMF4Parser.onBack (fun row => mkRow (map (ZMF4Parser.Cell_withBottom (style_pen tableStyle))
                                                  (row_cells row)) (row_height row))
                        (ZMF4Parser.onFront (fun row => mkRow (map (ZMF4Parser.Cell_withTop (style_pen tableStyle))
                                                      (row_cells row)) (row_height row))
                           filled))
               | None => filled
               end = cellCounts rows).
  { intros filled Hf. destruct (style_pen tableStyle); [| exact Hf].
    rewrite cellCounts_map
      by (intros row; cbn [row_cells]; now rewrite onBack_length, onFront_length).
    rewrite cellCounts_onBack by (intros row; cbn [row_cells]; apply length_map).
    rewrite cellCounts_onFront by (intros row; cbn [row_cells]; apply length_map).
    exact Hf. }
  apply Hfilled. destruct (style_fill tableStyle); [| reflexivity].
  apply cellCounts_map. intros row. cbn [row_cells]. apply length_map.
Qed.

Lemma cellCounts_of_rows (n : nat) (cells : list (list Cell)) (rows : list Row) :
  Forall (fun cs => length cs = n) cells ->
  Forall2 (fun cs row => length (row_cells row) = length cs) cells rows ->
  cellCounts rows = repeat n (length cells).
Proof.
  intros Hcells Hrows. induction Hrows as [| cs row cells rows Hrow Hrows IH].
  - reflexivity.
  - inversion Hcells as [| ? ? Hcs Hrest]; subst. cbn. rewrite Hrow. f_equal. now apply IH.
Qed.

Section Tables.
Context {S : Type} {IS : RVNGInputStream S} {E : Externals}.

Lemma repeatM_ret_Forall {St A} (n : nat) (body : M St A) (s s' : St) (ys : list A) :
  repeatM n body s = (Ret ys, s') ->
  length ys = n /\ Forall (fun y => exists q q', body q = (Ret y, q')) ys.
Proof.
  revert s s' ys. induction n as [| n IH]; intros s s' ys H; cbn [repeatM] in H.
  - injection H as <- _. split; [reflexivity | constructor].
  - apply bind_ret_inv in H as (y & s1 & Hy & H).
    apply bind_ret_inv in H as (ys' & s2 & Hys & H).
    injection H as <- _. destruct (IH _ _ _ Hys) as [Hlen Hall].
    split; [cbn; now rewrite Hlen | constructor; [now exists s, s1 | exact Hall]].
Qed.

Lemma readRowBorder_cells tableHeight rowCount cells (p p' : ZMF4Parser.t S) row :
  ZMF4Parser.readRowBorder tableHeight rowCount cells p = (Ret row, p') ->
  length (row_cells row) = length cells.
Proof.
  unfold ZMF4Parser.readRowBorder. intros H.
  apply bind_ret_inv in H as (_ & p1 & _ & H).
  apply bind_ret_inv in H as (leftPenRefId & p2 & _ & H).
  apply bind_ret_inv in H as (leftBorderPen & p3 & _ & H).
  cbv zeta in H. apply bind_ret_inv in H as (f & p4 & _ & H).
  injection H as <- _. cbn [row_cells].
  destruct leftBorderPen; [apply length_map | reflexivity].
Qed.

Lemma readColumns_grid n i tableWidth colCount rows columns (p p' : ZMF4Parser.t S)
    rows' columns' :
  ZMF4Parser.readColumns n i tableWidth colCount rows columns p = (Ret (rows', columns'), p') ->
  cellCounts rows' = cellCounts rows /\ length columns' = (length columns + n)%nat.
Proof.
  revert i rows columns p. induction n as [| n IH]; intros i rows columns p H;
    cbn [ZMF4Parser.readColumns] in H.
  - injection H as <- <- _. split; [reflexivity | lia].
  - apply bind_ret_inv in H as (_ & p1 & _ & H).
    apply bind_ret_inv in H as (topPenRefId & p2 & _ & H).
    apply bind_ret_inv in H as (topBorderPen & p3 & _ & H).
    cbv zeta in H. apply bind_ret_inv in H as (f & p4 & _ & H).
    apply IH in H as [Hrows Hcols]. rewrite Hrows, Hcols, length_app. cbn [length].
    split; [| lia].
    destruct topBorderPen; [| reflexivity].
    apply cellCounts_map. intros row. cbn [row_cells]. apply length_alter.
Qed.

(** A table that [readTable] hands to the collector is a grid: the row and
    column counts read are between 1 and 100, the table has that many rows and
    columns, and every row has as many cells as there are columns.  When
    [readTable] returns, either it has handed one such table to the collector,
    or (a count outside 1..100) the collector is as before. *)
Theorem readTable_sends_a_grid (p p' : ZMF4Parser.t S) :
  ZMF4Parser.readTable p = (Ret tt, p') ->
  ZMF4Parser.m_collector p' = ZMF4Parser.m_collector p \/
  exists (table : Table) (rowCount colCount : Z),
    1 <= rowCount <= 100 /\ 1 <= colCount <= 100 /\
    isGrid (Z.to_nat rowCount) (Z.to_nat colCount) table /\
    ZMF4Parser.m_collector p' = ZMFCollector.collectTable table (ZMF4Parser.m_collector p).
Proof.
  unfold ZMF4Parser.readTable. intros H.
  assert (Hin : forall s q, ZMF4Parser.m_collector (ZMF4Parser.set_input s q)
                            = ZMF4Parser.m_collector (S := S) q) by reflexivity.
  apply bind_ret_inv in H as (bbox & p1 & H1 & H).
  apply (readBoundingBox_keeps _ Hin) in H1.
  apply bind_ret_inv in H as ([] & p2 & H2 & H).
  apply (keeps_onInput _ _ Hin) in H2.
  apply bind_ret_inv in H as (rowCount & p3 & H3 & H).
  apply (keeps_onInput _ _ Hin) in H3.
  apply bind_ret_inv in H as (colCount & p4 & H4 & H).
  apply (keeps_onInput _ _ Hin) in H4.
  destruct (Z.ltb_spec rowCount 1) as [| Hr1];
    [injection H as <-; left; congruence |].
  destruct (Z.ltb_spec 100 rowCount) as [| Hr2];
    [injection H as <-; left; congruence |].
  destruct (Z.ltb_spec colCount 1) as [| Hc1];
    [injection H as <-; left; congruence |].
  destruct (Z.ltb_spec 100 colCount) as [| Hc2];
    [injection H as <-; left; congruence |].
  cbn [orb] in H.
  apply bind_ret_inv in H as ([] & p5 & H5 & H).
  apply (keeps_onInput _ _ Hin) in H5.
  apply bind_ret_inv in H as (cells & p6 & Hcells & H).
  pose proof (keeps_repeatM _ _ _ (keeps_repeatM _ _ _ (readCell_keeps _ Hin)) _ _ _ Hcells) as H6.
  apply repeatM_ret_Forall in Hcells as [Hlen Hcells].
  apply bind_ret_inv in H as (rows & p7 & Hrows & H).
  pose proof (keeps_forEach _ _ _ (fun x => readRowBorder_keeps _ Hin _ _ x) _ _ _ Hrows) as H7.
  apply forEach_ret_Forall2 in Hrows.
  apply bind_ret_inv in H as ([rows' columns] & p8 & Hcolumns & H).
  pose proof (readColumns_keeps _ Hin _ _ _ _ _ _ _ _ _ Hcolumns) as H8.
  apply readColumns_grid in Hcolumns as [Hcounts Hcols].
  apply bind_ret_inv in H as (tableStyle & p9 & H9 & H).
  apply (readStyle_keeps _ Hin) in H9.
  unfold ZMF4Parser.onCollector, modify in H. injection H as <-.
  right. eexists _, rowCount, colCount.
  split; [lia |]. split; [lia |].
  split; cycle 1.
  - cbn [ZMF4Parser.m_collector ZMF4Parser.set_collector].
    rewrite H9, H8, H7, H6, H5, H4, H3, H2, H1. reflexivity.
  - split; cbn [table_rows table_columns fst snd]; [| exact Hcols].
    rewrite applyTableStyle_cellCounts, Hcounts. rewrite <- Hlen.
    apply cellCounts_of_rows.
    + eapply Forall_impl; [exact Hcells |].
      intros cs (q & q' & Hq). now apply repeatM_ret_Forall in Hq as [Hq _].
    + eapply Forall2_impl; [exact Hrows |].
      intros cs row (q & q' & Hq). exact (readRowBorder_cells _ _ _ _ _ _ Hq).
Qed.

End Tables.

(** A table object of one row and two columns: bounding box, counts, two
    cells, one row record, two column records. *)
Definition tableOfOneRow : list Z :=
  zeros 40 ++ zeros 8 ++ le32 1 ++ le32 2 ++ zeros 8 ++ zeros 40 ++ zeros 12 ++ zeros 24.

Lemma readTable_sends_a_grid_witness :
  let p := parserAt tableOfOneRow 0 ZMF4Parser.ObjectHeader_default in
  let p' := snd (ZMF4Parser.readTable (E := libm_on_axes) p) in
  ZMF4Parser.m_collector p' = ZMF4Parser.m_collector p \/
  exists (table : Table) (rowCount colCount : Z),
    1 <= rowCount <= 100 /\ 1 <= colCount <= 100 /\
    isGrid (Z.to_nat rowCount) (Z.to_nat colCount) table /\
    ZMF4Parser.m_collector p' = ZMFCollector.collectTable table (ZMF4Parser.m_collector p).
Proof.
  intros p p'. apply (readTable_sends_a_grid (E := libm_on_axes) p p').
  vm_compute. reflexivity.
Defined.

(* ------------------------------------------------------------------------- *)
(** ** The offset table of a bitmap header *)

(** Each block of the table begins no earlier than the one before it and the
    one before it ends where it begins. *)
Fixpoint chained (offs : list BMIOffset) : Prop :=
  match offs with
  | o :: ((o' :: _) as rest) =>
      offset_start o <= offset_start o' /\ offset_end o = offset_start o' /\ chained rest
  | _ => True
  end.

(** Ordered by start. *)
Fixpoint ascending (offs : list BMIOffset) : Prop :=
  match offs with
  | o :: ((o' :: _) as rest) => offset_start o <= offset_start o' /\ ascending rest
  | _ => True
  end.

(** The first start of [offs] is at least [bound]. *)
Definition startsFrom (bound : Z) (offs : list BMIOffset) : Prop :=
  match offs with
  | [] => True
  | o :: _ => bound <= offset_start o
  end.

Lemma ascending_cons (o : BMIOffset) (offs : list BMIOffset) :
  ascending (o :: offs) <-> startsFrom (offset_start o) offs /\ ascending offs.
Proof. destruct offs as [| o' rest]; cbn; tauto. Qed.

Lemma insertByStart_startsFrom (bound : Z) (off : BMIOffset) (sorted : list BMIOffset) :
  bound <= offset_start off -> startsFrom bound sorted ->
  startsFrom bound (BMIHeader.insertByStart off sorted).
Proof.
  intros Hoff Hsorted. destruct sorted as [| o rest]; cbn; [exact Hoff |].
  destruct (offset_start off <? offset_start o); cbn; [exact Hoff | exact Hsorted].
Qed.

Lemma insertByStart_ascending (off : BMIOffset) (sorted : list BMIOffset) :
  ascending sorted -> ascending (BMIHeader.insertByStart off sorted).
Proof.
  induction sorted as [| o rest IH]; intros Hsorted; [exact I |].
  cbn [BMIHeader.insertByStart].
  destruct (Z.ltb_spec (offset_start off) (offset_start o)) as [Hlt | Hge].
  - apply ascending_cons. split; [cbn; lia | exact Hsorted].
  - apply ascending_cons in Hsorted as [Hfrom Hrest]. apply ascending_cons. split.
    + apply insertByStart_startsFrom; [exact Hge | exact Hfrom].
    + apply IH. exact Hrest.
Qed.

Lemma sortByStart_ascending (offs : list BMIOffset) : ascending (BMIHeader.sortByStart offs).
Proof.
  unfold BMIHeader.sortByStart.
  assert (H : forall sorted, ascending sorted ->
                ascending (fold_left (fun sorted off => BMIHeader.insertByStart off sorted)
                             offs sorted)).
  { induction offs as [| o rest IH]; intros sorted Hsorted; [exact Hsorted |].
    cbn [fold_left]. apply IH, insertByStart_ascending, Hsorted. }
  apply H. exact I.
Qed.

Lemma insertByStart_length (off : BMIOffset) (sorted : list BMIOffset) :
  length (BMIHeader.insertByStart off sorted) = Datatypes.S (length sorted).
Proof.
  induction sorted as [| o rest IH]; [reflexivity |]. cbn [BMIHeader.insertByStart].
  destruct (offset_start off <? offset_start o); cbn [length]; [reflexivity | now rewrite IH].
Qed.

Lemma sortByStart_length (offs : list BMIOffset) :
  length (BMIHeader.sortByStart offs) = length offs.
Proof.
  unfold BMIHeader.sortByStart.
  assert (H : forall sorted,
                length (fold_left (fun sorted off => BMIHeader.insertByStart off sorted)
                          offs sorted)
                = (length sorted + length offs)%nat).
  { induction offs as [| o rest IH]; intros sorted; cbn [fold_left length]; [lia |].
    rewrite IH, insertByStart_length. lia. }
  now rewrite H.
Qed.

Lemma uniqueFrom_spec (kept : BMIOffset) (offs : list BMIOffset) :
  ascending (kept :: offs) ->
  ascending (BMIHeader.uniqueFrom kept offs) /\
  startsFrom (offset_start kept) (BMIHeader.uniqueFrom kept offs) /\
  (1 <= length (BMIHeader.uniqueFrom kept offs) <= Datatypes.S (length offs))%nat.
Proof.
  revert kept. induction offs as [| o rest IH]; intros kept Hasc; cbn [BMIHeader.uniqueFrom].
  - cbn. repeat split; lia.
  - apply ascending_cons in Hasc as [Hfrom Hrest]. cbn in Hfrom.
    destruct (BMIOffset_eqb kept o) eqn:Heq.
    + unfold BMIOffset_eqb in Heq. apply andb_true_iff in Heq as [_ Heq].
      apply Z.eqb_eq in Heq.
      destruct (IH kept) as (Ha & Hs & Hl).
      { apply ascending_cons. apply ascending_cons in Hrest as [Hfrom' Hrest'].
        split; [| exact Hrest']. destruct rest; cbn in *; lia. }
      repeat split; [exact Ha | exact Hs | lia | cbn [length]; lia].
    + destruct (IH o Hrest) as (Ha & Hs & Hl). repeat split.
      * apply ascending_cons. split; [| exact Ha].
        destruct (BMIHeader.uniqueFrom o rest); cbn in *; lia.
      * cbn. lia.
      * cbn [length]. lia.
      * cbn [length]. lia.
Qed.

Lemma unique_spec (offs : list BMIOffset) :
  ascending offs ->
  ascending (BMIHeader.unique offs) /\
  (length (BMIHeader.unique offs) <= length offs)%nat.
Proof.
  intros Hasc. destruct offs as [| o rest]; [split; [exact I | reflexivity] |].
  cbn [BMIHeader.unique].
  destruct (uniqueFrom_spec o rest Hasc) as (Ha & _ & Hl). split; [exact Ha | cbn; lia].
Qed.

Lemma linkEnds_spec (offs : list BMIOffset) :
  ascending offs ->
  chained (BMIHeader.linkEnds offs) /\
  length (BMIHeader.linkEnds offs) = length offs /\
  (forall o rest, offs = o :: rest ->
     exists o' rest', BMIHeader.linkEnds offs = o' :: rest' /\ offset_start o' = offset_start o).
Proof.
  induction offs as [| o rest IH]; intros Hasc.
  - repeat split. intros o rest H. discriminate.
  - destruct rest as [| o' rest'].
    + repeat split. intros o1 rest1 H. injection H as <- <-. now exists o, [].
    + destruct Hasc as [Hle Hrest]. destruct (IH Hrest) as (Hc & Hl & Hhead).
      change (BMIHeader.linkEnds (o :: o' :: rest'))
        with (mkBMIOffset (offset_type o) (offset_start o) (offset_start o')
                :: BMIHeader.linkEnds (o' :: rest')).
      destruct (Hhead o' rest' eq_refl) as (o1 & rest1 & Heq & Hstart).
      rewrite Heq in *. repeat split.
      * cbn [offset_start]. lia.
      * cbn [offset_end]. now rewrite Hstart.
      * exact Hc.
      * cbn [length] in *. now rewrite Hl.
      * intros o2 rest2 H. injection H as <- <-. eexists _, _. split; reflexivity.
Qed.

Section OffsetTable.
Context {S : Type} {IS : RVNGInputStream S}.

Lemma readExact_length (n : Z) (s s' : S) (bytes : list Z) :
  readExact n s = (Ret bytes, s') -> Z.of_nat (length bytes) = n.
Proof.
  unfold readExact. destruct (rvng_read s n) as [bs s1].
  destruct (Z.eqb_spec (Z.of_nat (length bs)) n) as [Heq |]; [| discriminate].
  intros H. now injection H as <- _.
Qed.

(** A bitmap header that has loaded has an ordered, gap-free offset table.
    When [load] returns [true]: the header was a fresh one (no signature) and
    holds a signature of 9 bytes now, so that a second [load] on it throws
    [GenericException] whatever the stream; the colour depth is 1, 4, 8 or 24;
    the offset table has at most 6 more entries than before, its blocks are
    ordered by their start, and each block but the last ends where the next
    one starts. *)
Theorem BMIHeader_load_chains_offsets (h h' : BMIHeader.t) (s s' : S) :
  BMIHeader.load h s = (Ret (true, h'), s') ->
  BMIHeader.m_signature h = [] /\
  length (BMIHeader.m_signature h') = 9%nat /\
  (forall s2 : S, fst (BMIHeader.load h' s2) = Throw GenericException) /\
  In (BMIHeader.m_colorDepth h') [1; 4; 8; 24] /\
  (length (BMIHeader.m_offsets h') <= length (BMIHeader.m_offsets h) + 6)%nat /\
  chained (BMIHeader.m_offsets h').
Proof.
  unfold BMIHeader.load at 1. intros H.
  destruct (BMIHeader.m_signature h) as [| b sig0] eqn:Hsig0; [| discriminate].
  cbn [length Z.of_nat Z.ltb Z.compare] in H.
  apply bind_ret_inv in H as (startOffset & s1 & _ & H).
  apply bind_ret_inv in H as (sig & s2 & Hsig & H).
  apply bind_ret_inv in H as (width & s3 & _ & H).
  apply bind_ret_inv in H as (height & s4 & _ & H).
  apply bind_ret_inv in H as (paletteMode & s5 & _ & H).
  apply bind_ret_inv in H as (colorDepth & s6 & _ & H).
  cbv zeta in H.
  assert (Hlen : length sig = 9%nat).
  { unfold readNBytes in Hsig. apply bind_ret_inv in Hsig as (_ & s1' & _ & Hsig).
    apply readExact_length in Hsig. lia. }
  assert (Hdepth : In colorDepth [1; 4; 8; 24]).
  { destruct (Z.eqb_spec colorDepth 1) as [Hd |]; [rewrite Hd; cbn; tauto |].
    destruct (Z.eqb_spec colorDepth 4) as [Hd |]; [rewrite Hd; cbn; tauto |].
    destruct (Z.eqb_spec colorDepth 8) as [Hd |]; [rewrite Hd; cbn; tauto |].
    destruct (Z.eqb_spec colorDepth 24) as [Hd |]; [rewrite Hd; cbn; tauto |].
    cbn in H. discriminate. }
  destruct (negb _); [discriminate |].
  apply bind_ret_inv in H as (_ & s7 & _ & H).
  apply bind_ret_inv in H as (offsetCount & s8 & _ & H).
  destruct (Z.eqb_spec offsetCount 0) as [| Hzero]; [discriminate |].
  destruct (Z.ltb_spec 6 offsetCount) as [| Hmax]; [discriminate |].
  cbn [orb] in H.
  apply bind_ret_inv in H as (_ & s9 & _ & H).
  apply bind_ret_inv in H as (h2 & s10 & Hoffsets & H).
  injection H as <- _.
  unfold BMIHeader.readOffsets in Hoffsets.
  apply bind_ret_inv in Hoffsets as (records & s11 & Hrecords & Hoffsets).
  apply repeatM_length in Hrecords.
  cbv zeta in Hoffsets. injection Hoffsets as <- _.
  cbn [BMIHeader.m_signature BMIHeader.m_colorDepth BMIHeader.m_offsets].
  split; [reflexivity |]. split; [exact Hlen |]. split.
  { intros q. unfold BMIHeader.load. cbn [BMIHeader.m_signature].
    destruct sig; [discriminate | reflexivity]. }
  split; [exact Hdepth |].
  set (all := BMIHeader.m_offsets h ++ map fst records).
  assert (Hall : length all = (length (BMIHeader.m_offsets h) + Z.to_nat offsetCount)%nat).
  { unfold all. now rewrite length_app, length_map, Hrecords. }
  destruct (unique_spec (BMIHeader.sortByStart all) (sortByStart_ascending all)) as [Hasc Hl].
  destruct (linkEnds_spec _ Hasc) as (Hchained & Hlength & _).
  rewrite sortByStart_length, Hall in Hl.
  split; [rewrite Hlength; lia | exact Hchained].
Qed.

End OffsetTable.

(** A bitmap header of depth 24 with three offset records, out of order and
    one of them twice. *)
Definition bitmapHeader : list Z :=
  BMIHeader.signature ++ le16 2 ++ le16 1 ++ le16 0 ++ le16 24 ++ zeros 2 ++ le16 3
  ++ le16 0xff ++ le32 60 ++ le16 1 ++ le32 38 ++ le16 1 ++ le32 38.

Lemma BMIHeader_load_chains_offsets_witness :
  let s := memStream bitmapHeader in
  let h' := snd (match fst (BMIHeader.load BMIHeader.new s) with
                 | Ret loaded => loaded
                 | _ => (false, BMIHeader.new)
                 end) in
  BMIHeader.m_offsets h' = [mkBMIOffset BMI_BITMAP 38 60; mkBMIOffset BMI_END_OF_FILE 60 0] /\
  chained (BMIHeader.m_offsets h').
Proof.
  intros s h'.
  assert (H : BMIHeader.load BMIHeader.new s
              = (Ret (true, h'), snd (BMIHeader.load BMIHeader.new s)))
    by (vm_compute; reflexivity).
  split; [vm_compute; reflexivity |].
  exact (proj2 (proj2 (proj2 (proj2 (proj2
           (BMIHeader_load_chains_offsets BMIHeader.new h' s _ H)))))).
Defined.

(* ------------------------------------------------------------------------- *)
(** ** The pixels of a colour bitmap *)

(** The data bytes the pixels [col .. width - 1] of a row take. *)
Definition rowBytes (colorDepth pixels : Z) : Z :=
  if colorDepth =? 24 then 3 * pixels
  else (pixels + 8 / colorDepth - 1) / (8 / colorDepth).

Lemma u32_small (z : Z) : 0 <= z < 2 ^ 32 -> u32 z = z.
Proof. intros Hz. unfold u32. now apply Z.mod_small. Qed.

Section Pixels.
Variables (colorDepth width : Z) (colorPalette : list Color) (data : list Z).
Hypothesis Hdepth : In colorDepth [1; 4; 8; 24].
Hypothesis Hpalette : colorDepth < 24 -> Z.of_nat (length colorPalette) = 2 ^ colorDepth.

Lemma packedDepth : colorDepth <> 24 -> colorDepth = 1 \/ colorDepth = 4 \/ colorDepth = 8.
Proof. cbn in Hdepth. lia. Qed.

Lemma unpackIndexes_spec (n : nat) (indexes col : Z) (pixels : list Color) :
  colorDepth <> 24 -> col < width ->
  exists extra,
    BMIParser.unpackIndexes n colorDepth width colorPalette indexes col pixels
    = Ret (Z.min (col + Z.of_nat n) width, pixels ++ extra) /\
    Z.of_nat (length extra) = Z.min (col + Z.of_nat n) width - col.
Proof.
  intros Hpacked. pose proof (packedDepth Hpacked) as Hd.
  revert indexes col pixels. induction n as [| n IH]; intros indexes col pixels Hcol;
    cbn [BMIParser.unpackIndexes].
  - exists []. rewrite app_nil_r. replace (Z.min (col + Z.of_nat 0) width) with col by lia.
    split; [reflexivity | cbn; lia].
  - destruct (at_in_bounds colorPalette (BMIParser.paletteIndex colorDepth indexes)) as [color ->].
    { rewrite Hpalette by lia. now apply paletteIndex_bound. }
    cbn [andThen]. cbv zeta. destruct (Z.eqb_spec (col + 1) width) as [Heq | Hne].
    + exists [color]. replace (Z.min (col + Z.of_nat (Datatypes.S n)) width) with (col + 1) by lia.
      split; [reflexivity | cbn; lia].
    + destruct (IH (u8 (Z.shiftl indexes colorDepth)) (col + 1) (pixels ++ [color]))
        as (extra & -> & Hlen); [lia |].
      exists (color :: extra). rewrite <- app_assoc. cbn [app].
      replace (Z.min (col + 1 + Z.of_nat n) width)
        with (Z.min (col + Z.of_nat (Datatypes.S n)) width) in * by lia.
      split; [reflexivity | cbn [length]; lia].
Qed.

(** One row: with enough data left, the loop reads [rowBytes] bytes, all
    within the data, and adds one pixel for each column left. *)
Lemma readRow_spec (bound : Z) (fuel : nat) (i col : Z) (pixels : list Color) :
  bound <= Z.of_nat (length data) -> bound < 2 ^ 32 ->
  0 <= col <= width -> width - col <= Z.of_nat fuel ->
  0 <= i -> i + rowBytes colorDepth (width - col) <= bound ->
  exists extra,
    BMIParser.readRow fuel colorDepth width colorPalette data i col pixels
    = Ret (i + rowBytes colorDepth (width - col), pixels ++ extra) /\
    Z.of_nat (length extra) = width - col.
Proof.
  intros Hdata Hbound. revert i col pixels.
  induction fuel as [| fuel IH]; intros i col pixels Hcol Hfuel Hi Hfit.
  - assert (col = width) as -> by lia. exists []. cbn [BMIParser.readRow].
    rewrite Z.ltb_irrefl, app_nil_r, Z.sub_diag.
    replace (rowBytes colorDepth 0) with 0; [rewrite Z.add_0_r; split; [reflexivity | cbn; lia] |].
    unfold rowBytes. destruct (colorDepth =? 24); [reflexivity |].
    cbn in Hdepth. destruct Hdepth as [<- | [<- | [<- | [<- | []]]]]; reflexivity.
  - cbn [BMIParser.readRow]. destruct (Z.ltb_spec col width) as [Hlt | Hge].
    + destruct (Z.eqb_spec colorDepth 24) as [H24 | Hpacked].
      * unfold rowBytes in *. rewrite H24 in *. cbn [Z.eqb Pos.eqb] in *.
        destruct (at_in_bounds data i) as [b ->]; [lia |].
        destruct (at_in_bounds data (u32 (i + 1))) as [g ->]; [rewrite u32_small; lia |].
        destruct (at_in_bounds data (u32 (i + 2))) as [r ->]; [rewrite u32_small; lia |].
        cbn [andThen]. rewrite (u32_small (i + 3)) by lia.
        destruct (IH (i + 3) (col + 1) (pixels ++ [mkColor r g b])) as (extra & -> & Hlen);
          [lia | lia | lia | lia |].
        exists (mkColor r g b :: extra). rewrite <- app_assoc. cbn [app length].
        split; [f_equal; f_equal; lia | lia].
      * destruct (at_in_bounds data i) as [indexes ->].
        { assert (1 <= rowBytes colorDepth (width - col)); [| lia].
          unfold rowBytes. destruct (colorDepth =? 24); [lia |].
          destruct (packedDepth Hpacked) as [-> | [-> | ->]];
            change (8 / 1) with 8; change (8 / 4) with 2; change (8 / 8) with 1;
            Z.div_mod_to_equations; lia. }
        cbn [andThen].
        destruct (unpackIndexes_spec (Z.to_nat (8 / colorDepth)) indexes col pixels Hpacked Hlt)
          as (seen & -> & Hseen).
        cbn [andThen fst snd].
        assert (Hk : Z.of_nat (Z.to_nat (8 / colorDepth)) = 8 / colorDepth /\
                     1 <= 8 / colorDepth).
        { destruct (packedDepth Hpacked) as [-> | [-> | ->]];
            change (8 / 1) with 8; change (8 / 4) with 2; change (8 / 8) with 1;
            (split; [apply Z2Nat.id |]; lia). }
        destruct Hk as [Hk Hk1]. rewrite Hk in *.
        set (col' := Z.min (col + 8 / colorDepth) width) in *.
        assert (Hbytes : rowBytes colorDepth (width - col)
                         = 1 + rowBytes colorDepth (width - col')).
        { unfold rowBytes, col'. destruct (Z.eqb_spec colorDepth 24) as [| _]; [contradiction |].
          destruct (packedDepth Hpacked) as [-> | [-> | ->]];
            change (8 / 1) with 8; change (8 / 4) with 2; change (8 / 8) with 1;
            Z.div_mod_to_equations; lia. }
        assert (Hrest : 0 <= rowBytes colorDepth (width - col')).
        { unfold rowBytes, col'. destruct (Z.eqb_spec colorDepth 24) as [| _]; [contradiction |].
          destruct (packedDepth Hpacked) as [-> | [-> | ->]];
            change (8 / 1) with 8; change (8 / 4) with 2; change (8 / 8) with 1;
            Z.div_mod_to_equations; lia. }
        rewrite (u32_small (i + 1)) by lia.
        destruct (IH (i + 1) col' (pixels ++ seen)) as (extra & -> & Hlen);
          [unfold col'; lia | unfold col'; lia | lia | lia |].
        exists (seen ++ extra). rewrite <- app_assoc, length_app.
        split; [f_equal; f_equal; lia | lia].
    + assert (col = width) as -> by lia. exists []. rewrite app_nil_r, Z.sub_diag.
      replace (rowBytes colorDepth 0) with 0;
        [rewrite Z.add_0_r; split; [reflexivity | cbn; lia] |].
      unfold rowBytes. destruct (colorDepth =? 24); [reflexivity |].
      cbn in Hdepth. destruct Hdepth as [<- | [<- | [<- | [<- | []]]]]; reflexivity.
Qed.

(** The rows: each takes [rowBytes] bytes and the padding. *)
Lemma readRows_spec (bound padding : Z) (rows : nat) (i : Z) (pixels : list Color) :
  bound <= Z.of_nat (length data) -> bound < 2 ^ 32 -> 0 <= width -> 0 <= padding ->
  0 <= i -> i + Z.of_nat rows * (rowBytes colorDepth width + padding) <= bound ->
  exists extra,
    BMIParser.readRows rows colorDepth width padding colorPalette data i pixels
    = Ret (pixels ++ extra) /\
    Z.of_nat (length extra) = Z.of_nat rows * width.
Proof.
  intros Hdata Hbound Hwidth Hpadding. revert i pixels.
  assert (Hrow : 0 <= rowBytes colorDepth width).
  { unfold rowBytes. destruct (Z.eqb_spec colorDepth 24) as [| Hpacked]; [lia |].
    destruct (packedDepth Hpacked) as [-> | [-> | ->]];
      change (8 / 1) with 8; change (8 / 4) with 2; change (8 / 8) with 1;
      Z.div_mod_to_equations; lia. }
  induction rows as [| rows IH]; intros i pixels Hi Hfit; cbn [BMIParser.readRows].
  - exists []. rewrite app_nil_r. split; [reflexivity | cbn; lia].
  - destruct (readRow_spec bound (Z.to_nat width) i 0 pixels) as (seen & Heq & Hseen);
      try lia.
    { rewrite Z.sub_0_r. nia. }
    rewrite Heq. cbn [andThen fst snd]. rewrite Z.sub_0_r in *.
    rewrite u32_small by nia.
    destruct (IH (i + rowBytes colorDepth width + padding) (pixels ++ seen))
      as (extra & -> & Hlen); [lia | nia |].
    exists (seen ++ extra). rewrite <- app_assoc, length_app. split; [reflexivity | nia].
Qed.

End Pixels.

(** The pixel loop of [readColorBitmap], given its palette and data. *)
Lemma assemblePixels_spec (hdr : BMIParser.ColorBitmapHeader)
    (colorPalette : list Color) (data : list Z) :
  let width := BMIParser.m_width hdr in
  let height := BMIParser.m_height hdr in
  let colorDepth := BMIParser.m_colorDepth hdr in
  In colorDepth [1; 4; 8; 24] ->
  (colorDepth < 24 -> Z.of_nat (length colorPalette) = 2 ^ colorDepth) ->
  0 <= width < 2 ^ 16 -> 0 <= height < 2 ^ 16 ->
  height * (width * colorDepth / 8 + 4) < 2 ^ 32 ->
  BMIParser.assemblePixels hdr colorPalette data = Ret ColorBitmap_default \/
  exists pixels,
    BMIParser.assemblePixels hdr colorPalette data = Ret (mkColorBitmap width height pixels) /\
    Z.of_nat (length pixels) = width * height.
Proof.
  destruct hdr as [width height colorDepth startOffset endOffset].
  unfold BMIParser.assemblePixels.
  cbn [BMIParser.m_width BMIParser.m_height BMIParser.m_colorDepth].
  intros Hdepth Hpalette Hwidth Hheight Hfits.
  set (bits := u32 (width * colorDepth)).
  set (lineWidth0 := if bits mod 8 =? 0 then bits / 8 else bits / 8 + 1).
  assert (Hbits : bits = width * colorDepth).
  { unfold bits. apply u32_small. cbn in Hdepth. nia. }
  assert (H0 : lineWidth0 = rowBytes colorDepth width).
  { unfold lineWidth0, rowBytes. rewrite Hbits. cbn in Hdepth.
    destruct Hdepth as [<- | [<- | [<- | [<- | []]]]];
      cbn [Z.eqb Pos.eqb]; change (8 / 1) with 8; change (8 / 4) with 2; change (8 / 8) with 1;
      match goal with |- context [?a =? 0] => destruct (Z.eqb_spec a 0) end;
      Z.div_mod_to_equations; lia. }
  assert (Hpad : 0 <= BMIParser.linePadding lineWidth0 <= 3).
  { unfold BMIParser.linePadding. pose proof (Z.mod_pos_bound (4 - lineWidth0 mod 4) 4). lia. }
  assert (Hline : 0 <= lineWidth0 <= width * colorDepth / 8 + 1 /\ lineWidth0 <= 196608).
  { unfold lineWidth0. rewrite Hbits.
    assert (0 <= width * colorDepth <= 24 * 65535) by (cbn in Hdepth; nia).
    destruct (Z.eqb_spec ((width * colorDepth) mod 8) 0); Z.div_mod_to_equations; lia. }
  clearbody lineWidth0. subst lineWidth0.
  set (lineWidth := rowBytes colorDepth width) in *.
  set (padding := BMIParser.linePadding lineWidth) in *.
  rewrite (u32_small (lineWidth + padding)) by lia.
  rewrite (u32_small (height * _)) by nia.
  destruct (Z.ltb_spec (Z.of_nat (length data)) (height * (lineWidth + padding)))
    as [| Henough]; [left; reflexivity | right].
  destruct (readRows_spec colorDepth width colorPalette data Hdepth Hpalette
              (height * (lineWidth + padding)) padding (Z.to_nat height) 0 [])
    as (pixels & -> & Hlen).
  - exact Henough.
  - nia.
  - lia.
  - lia.
  - lia.
  - rewrite Z2Nat.id by lia. fold lineWidth. lia.
  - exists pixels. cbn [andThen app]. split; [reflexivity |].
    rewrite Hlen, Z2Nat.id by lia. lia.
Qed.

(** The pixel loop of [readColorBitmap] stays within its data.  For a colour
    depth of 1, 4, 8 or 24, a palette of [2^depth] colours when the depth is
    below 24, a width and a height of 16 bits, and a height times line width
    that fits 32 bits: either the data are shorter than height times line
    width and the default (empty) bitmap is returned, or every access to the
    data and to the palette is within bounds and the bitmap returned has
    exactly width times height pixels. *)
Theorem assemblePixels_in_bounds (hdr : BMIParser.ColorBitmapHeader)
    (colorPalette : list Color) (data : list Z) :
  let width := BMIParser.m_width hdr in
  let height := BMIParser.m_height hdr in
  let colorDepth := BMIParser.m_colorDepth hdr in
  In colorDepth [1; 4; 8; 24] ->
  (colorDepth < 24 -> Z.of_nat (length colorPalette) = 2 ^ colorDepth) ->
  0 <= width < 2 ^ 16 -> 0 <= height < 2 ^ 16 ->
  height * (width * colorDepth / 8 + 4) < 2 ^ 32 ->
  BMIParser.assemblePixels hdr colorPalette data = Ret ColorBitmap_default \/
  exists pixels,
    BMIParser.assemblePixels hdr colorPalette data = Ret (mkColorBitmap width height pixels) /\
    Z.of_nat (length pixels) = width * height.
Proof. exact (assemblePixels_spec hdr colorPalette data). Qed.

(** A header of a bitmap of 3 x 2 pixels at 4 bits a pixel. *)
Definition threeByTwo : BMIParser.ColorBitmapHeader :=
  BMIParser.mkColorBitmapHeader 3 2 4 0 0.

Lemma assemblePixels_in_bounds_witness :
  let colorPalette := map (fun i => mkColor i i i) (map Z.of_nat (seq 0 16)) in
  let data := [0x01; 0x20; 0; 0; 0x34; 0x50; 0; 0] in
  BMIParser.assemblePixels threeByTwo colorPalette data
  = Ret (mkColorBitmap 3 2 (map (fun i => mkColor i i i) [0; 1; 2; 3; 4; 5])) /\
  (BMIParser.assemblePixels threeByTwo colorPalette data = Ret ColorBitmap_default \/
   exists pixels,
     BMIParser.assemblePixels threeByTwo colorPalette data = Ret (mkColorBitmap 3 2 pixels) /\
     Z.of_nat (length pixels) = 3 * 2).
Proof.
  intros colorPalette data. split; [vm_compute; reflexivity |].
  apply (assemblePixels_in_bounds threeByTwo colorPalette data).
  - cbn. tauto.
  - intros _. reflexivity.
  - cbn. lia.
  - cbn. lia.
  - vm_compute. reflexivity.
Defined.

(* ------------------------------------------------------------------------- *)
(** ** The bytes of a character *)

(** UTF-8 in its original form of up to six bytes: what a lead byte carries
    and how many bytes follow it. *)
Definition utf8_lead (b : Z) : option (Z * nat) :=
  if b <? 0x80 then Some (b, 0%nat)
  else if b <? 0xc0 then None
  else if b <? 0xe0 then Some (b - 0xc0, 1%nat)
  else if b <? 0xf0 then Some (b - 0xe0, 2%nat)
  else if b <? 0xf8 then Some (b - 0xf0, 3%nat)
  else if b <? 0xfc then Some (b - 0xf8, 4%nat)
  else if b <? 0xfe then Some (b - 0xfc, 5%nat)
  else None.

(** The bytes that follow carry six bits each. *)
Fixpoint utf8_continue (acc : Z) (bytes : list Z) : option Z :=
  match bytes with
  | [] => Some acc
  | b :: rest =>
      if (0x80 <=? b) && (b <? 0xc0) then utf8_continue (acc * 64 + (b - 0x80)) rest else None
  end.

(** The character a byte sequence stands for, when it is the encoding of
    one. *)
Definition utf8_decode (bytes : list Z) : option Z :=
  match bytes with
  | [] => None
  | b :: rest =>
      match utf8_lead b with
      | Some (v, n) => if Nat.eqb (length rest) n then utf8_continue v rest else None
      | None => None
      end
  end.

Lemma continuation_byte (c n : Z) :
  0 <= n -> Z.lor (Z.land (Z.shiftr c n) 0x3f) 0x80 = (c / 2 ^ n) mod 64 + 128.
Proof.
  intros Hn. change 0x3f with (Z.ones 6). rewrite Z.land_ones, Z.shiftr_div_pow2 by lia.
  change 0x80 with (Z.shiftl 1 7). rewrite lor_shiftl_add; [reflexivity | lia |].
  pose proof (Z.mod_pos_bound (c / 2 ^ n) (2 ^ 6)). lia.
Qed.

Lemma lead_byte (c n mark bits : Z) :
  0 <= n -> 0 <= bits <= 8 -> 0 <= c / 2 ^ n < 2 ^ bits ->
  Z.lor (Z.land (Z.shiftr c n) 0xff) (Z.shiftl mark bits) = c / 2 ^ n + mark * 2 ^ bits.
Proof.
  intros Hn Hbits Hc. rewrite land_0xFF, Z.shiftr_div_pow2 by lia.
  assert (2 ^ bits <= 2 ^ 8) by (apply Z.pow_le_mono_r; lia).
  rewrite Z.mod_small by lia. apply lor_shiftl_add; lia.
Qed.

Lemma if_not_zero {A} (b : Z) (x y : A) : b <> 0 -> (if b =? 0 then x else y) = y.
Proof. intros Hb. now destruct (Z.eqb_spec b 0). Qed.

Ltac decode_step :=
  first
    [ progress cbn [utf8_continue length Nat.eqb andb]
    | match goal with
      | |- context [?a <? ?b] =>
          destruct (Z.ltb_spec a b); try (exfalso; Z.div_mod_to_equations; lia)
      | |- context [?a <=? ?b] =>
          destruct (Z.leb_spec a b); try (exfalso; Z.div_mod_to_equations; lia)
      end ].

(** The case of a lead byte [first], which is [mark] above its [bits]
    payload bits. *)
Ltac utf8_case mark bits first :=
  change first with (Z.shiftl mark bits);
  rewrite !lead_byte by (try lia; Z.div_mod_to_equations; lia);
  rewrite !if_not_zero by (Z.div_mod_to_equations; lia);
  unfold utf8_decode, utf8_lead;
  repeat decode_step;
  f_equal; Z.div_mod_to_equations; lia.

(** Evaluate the closed parts of the loop of [_appendUCS4]. *)
Ltac evaluate t := let v := eval vm_compute in t in change t with v.

Ltac unroll_bytes :=
  repeat match goal with
         | |- context [6 * (?len - 1)] => evaluate (6 * (len - 1))
         | |- context [rev (seq 0 (Z.to_nat ?n))] => evaluate (rev (seq 0 (Z.to_nat n)))
         end;
  cbn [map];
  repeat match goal with
         | |- context [6 * Z.of_nat ?k] => evaluate (6 * Z.of_nat k)
         end.

(** [_appendUCS4] writes the UTF-8 encoding of the character: for every
    character from 1 up to 31 bits the bytes appended decode to the character
    again.  The character 0 appends nothing (its one byte ends the C string
    it is appended as). *)
Theorem appendUCS4_is_utf8 (ucs4Character : Z) :
  (0 < ucs4Character < 2 ^ 31 -> utf8_decode (appendUCS4 ucs4Character) = Some ucs4Character) /\
  appendUCS4 0 = [].
Proof.
  split; [| reflexivity]. intros Hc. unfold appendUCS4.
  destruct (Z.ltb_spec ucs4Character 0x80) as [H1 | H1];
    [| destruct (Z.ltb_spec ucs4Character 0x800) as [H2 | H2];
       [| destruct (Z.ltb_spec ucs4Character 0x10000) as [H3 | H3];
          [| destruct (Z.ltb_spec ucs4Character 0x200000) as [H4 | H4];
             [| destruct (Z.ltb_spec ucs4Character 0x4000000) as [H5 | H5]]]]];
    cbv beta iota zeta; unroll_bytes; rewrite ?continuation_byte by lia.
  - rewrite !Z.lor_0_r, !land_0xFF, !Z.shiftr_0_r, !Z.mod_small by lia.
    rewrite if_not_zero by lia. unfold utf8_decode, utf8_lead.
    repeat decode_step. reflexivity.
  - utf8_case 6 5 0xc0.
  - utf8_case 14 4 0xe0.
  - utf8_case 30 3 0xf0.
  - utf8_case 62 2 0xf8.
  - utf8_case 126 1 0xfc.
Qed.

(* ------------------------------------------------------------------------- *)
(** ** From the bitmap headers to the PNG rows *)

(** However [m] ends, it has not indexed a vector past its end, and the value
    it returns satisfies [P]. *)
Definition yields {St A} (P : A -> Prop) (m : M St A) : Prop :=
  forall s r s', m s = (r, s') -> r <> Halt OutOfBounds /\ forall a, r = Ret a -> P a.

Definition inBounds {St A} (m : M St A) : Prop := yields (fun _ => True) m.

Lemma yields_ret {St A} (P : A -> Prop) (a : A) : P a -> yields (St := St) P (ret a).
Proof.
  intros Ha s r s' H. injection H as <- _. split; [discriminate |].
  intros b Hb. now injection Hb as <-.
Qed.

Lemma yields_throw {St A} (P : A -> Prop) (e : exception) : yields (St := St) P (throw e).
Proof. intros s r s' H. injection H as <- _. split; [discriminate | discriminate]. Qed.

Lemma yields_lift {St A} (P : A -> Prop) (o : outcome A) :
  o <> Halt OutOfBounds -> (forall a, o = Ret a -> P a) -> yields (St := St) P (lift o).
Proof. intros Ho HP s r s' H. injection H as <- _. split; assumption. Qed.

Lemma yields_gets {St A} (P : A -> Prop) (f : St -> A) :
  (forall s, P (f s)) -> yields P (gets f).
Proof.
  intros Hf s r s' H. injection H as <- _. split; [discriminate |].
  intros b Hb. injection Hb as <-. apply Hf.
Qed.

Lemma yields_bind {St A B} (Q : A -> Prop) (P : B -> Prop) (m : M St A) (k : A -> M St B) :
  yields Q m -> (forall a, Q a -> yields P (k a)) -> yields P (bind m k).
Proof.
  intros Hm Hk s r s' H.
  apply bind_inv in H as [(a & s1 & H1 & H2) | [(e & H1 & ->) | (h & H1 & ->)]].
  - destruct (Hm _ _ _ H1) as [_ Ha]. exact (Hk a (Ha a eq_refl) _ _ _ H2).
  - split; discriminate.
  - destruct (Hm _ _ _ H1) as [Hh _]. split; [| discriminate].
    intros Heq. apply Hh. now injection Heq as ->.
Qed.

Lemma yields_weaken {St A} (Q P : A -> Prop) (m : M St A) :
  yields Q m -> (forall a, Q a -> P a) -> yields P m.
Proof.
  intros Hm HQ s r s' H. destruct (Hm _ _ _ H) as [Hh Ha].
  split; [exact Hh | intros a Hr; apply HQ, Ha, Hr].
Qed.

Lemma inBounds_bind {St A B} (m : M St A) (k : A -> M St B) :
  inBounds m -> (forall a, inBounds (k a)) -> inBounds (bind m k).
Proof. intros Hm Hk. apply (yields_bind (fun _ => True)); [exact Hm | intros a _; apply Hk]. Qed.

Lemma yields_repeatM {St A} (Q : A -> Prop) (n : nat) (body : M St A) :
  yields Q body -> yields (fun l => length l = n /\ Forall Q l) (repeatM n body).
Proof.
  intros Hbody. induction n as [| n IH]; cbn [repeatM].
  - apply yields_ret. split; [reflexivity | constructor].
  - apply (yields_bind Q); [exact Hbody | intros y Hy].
    apply (yields_bind (fun l => length l = n /\ Forall Q l)); [exact IH | intros ys [Hl Hys]].
    apply yields_ret. split; [cbn; now rewrite Hl | now constructor].
Qed.

Section StreamInBounds.
Context {S : Type} {IS : RVNGInputStream S}.

Lemma inBounds_checkStream : inBounds (checkStream (S := S)).
Proof.
  intros s r s' H. unfold checkStream in H.
  destruct (rvng_isEnd s); injection H as <- _; split; try discriminate; trivial.
Qed.

Lemma yields_readExact (n : Z) :
  yields (fun bytes => Z.of_nat (length bytes) = n) (readExact (S := S) n).
Proof.
  intros s r s' H. unfold readExact in H. destruct (rvng_read s n) as [bytes s1].
  destruct (Z.eqb_spec (Z.of_nat (length bytes)) n) as [Hn |]; injection H as <- _;
    split; try discriminate.
  intros a Ha. now injection Ha as <-.
Qed.

Lemma inBounds_seek (pos : Z) : inBounds (seek (S := S) pos).
Proof.
  intros s r s' H. unfold seek in H. destruct (rvng_seek s pos RVNG_SEEK_SET) as [status s1].
  destruct (status =? 0); injection H as <- _; split; try discriminate; trivial.
Qed.

Lemma inBounds_seekRelative (pos : Z) : inBounds (seekRelative (S := S) pos).
Proof.
  intros s r s' H. unfold seekRelative in H.
  destruct (rvng_seek s pos RVNG_SEEK_CUR) as [status s1].
  destruct (status =? 0); injection H as <- _; split; try discriminate; trivial.
Qed.

Lemma inBounds_read (n : Z) : inBounds (bind checkStream (fun _ => readExact (S := S) n)).
Proof.
  apply inBounds_bind; [apply inBounds_checkStream | intros _].
  eapply yields_weaken; [apply yields_readExact | trivial].
Qed.

Lemma inBounds_readU8 : inBounds (readU8 (S := S)).
Proof.
  unfold readU8. apply inBounds_bind; [apply inBounds_checkStream | intros _].
  apply inBounds_bind; [| intros p; now apply yields_ret].
  eapply yields_weaken; [apply yields_readExact | trivial].
Qed.

Lemma inBounds_readU16 : inBounds (readU16 (S := S)).
Proof.
  unfold readU16. apply inBounds_bind; [apply inBounds_checkStream | intros _].
  apply inBounds_bind; [| intros p; now apply yields_ret].
  eapply yields_weaken; [apply yields_readExact | trivial].
Qed.

Lemma inBounds_skip (n : Z) : inBounds (skip (S := S) n).
Proof.
  unfold skip. apply inBounds_bind; [apply inBounds_checkStream | intros _].
  apply inBounds_seekRelative.
Qed.

Lemma inBounds_readColorEntry : inBounds (BMIParser.readColorEntry (S := S)).
Proof.
  unfold BMIParser.readColorEntry.
  repeat (apply inBounds_bind; [first [apply inBounds_readU8 | apply inBounds_skip] | intros ?]).
  now apply yields_ret.
Qed.

Context {E : Externals}.

Lemma inBounds_readData (fuel : nat) (endOffset : Z) (data : list Z) :
  inBounds (BMIParser.readData (S := S) fuel endOffset data).
Proof.
  revert data. induction fuel as [| fuel IH]; intros data; cbn [BMIParser.readData];
    (apply inBounds_bind; [now apply yields_gets | intros pos]);
    destruct (pos <? endOffset); try (now apply yields_ret).
  - intros s r s' H. injection H as <- _. split; [discriminate | discriminate].
  - apply inBounds_bind; [apply inBounds_readU16 | intros blockSize].
    apply inBounds_bind; [apply inBounds_skip | intros _].
    apply inBounds_bind; [apply inBounds_read | intros compressedBlock].
    destruct (zlib_inflate compressedBlock); [apply IH | now apply yields_ret].
Qed.

(** The bitmap headers the pixel loops are safe on: a colour depth of 1, 4, 8
    or 24, 16-bit dimensions, and a height times line width that fits 32
    bits. *)
Definition wellSized (hdr : BMIParser.ColorBitmapHeader) : Prop :=
  In (BMIParser.m_colorDepth hdr) [1; 4; 8; 24] /\
  0 <= BMIParser.m_width hdr < 2 ^ 16 /\ 0 <= BMIParser.m_height hdr < 2 ^ 16 /\
  BMIParser.m_height hdr * (BMIParser.m_width hdr * BMIParser.m_colorDepth hdr / 8 + 4) < 2 ^ 32.

(** The default bitmap, or one of the header's size with a pixel for each
    position. *)
Definition filled (hdr : BMIParser.ColorBitmapHeader) (bitmap : ColorBitmap) : Prop :=
  bitmap = ColorBitmap_default \/
  (bitmap_width bitmap = BMIParser.m_width hdr /\
   bitmap_height bitmap = BMIParser.m_height hdr /\
   Z.of_nat (length (bitmap_data bitmap)) = BMIParser.m_width hdr * BMIParser.m_height hdr).

Lemma readColorBitmap_yields (fuel : nat) (hdr : BMIParser.ColorBitmapHeader) :
  wellSized hdr -> yields (filled hdr) (BMIParser.readColorBitmap (S := S) fuel hdr).
Proof.
  intros (Hdepth & Hwidth & Hheight & Hfits). unfold BMIParser.readColorBitmap.
  apply (yields_bind (fun _ => True)); [apply inBounds_seek | intros _ _].
  apply (yields_bind (fun colorPalette =>
           BMIParser.m_colorDepth hdr < 24 ->
           Z.of_nat (length colorPalette) = 2 ^ BMIParser.m_colorDepth hdr)).
  { destruct (Z.ltb_spec (BMIParser.m_colorDepth hdr) 24) as [Hlt | Hge].
    - unfold BMIParser.readColorPalette. cbv zeta.
      eapply yields_weaken; [apply yields_repeatM, inBounds_readColorEntry |].
      intros colorPalette [Hlen _] _. rewrite Hlen, Z.shiftl_1_l.
      apply Z2Nat.id. cbn in Hdepth. destruct Hdepth as [<- | [<- | [<- | [<- | []]]]]; lia.
    - apply yields_ret. lia. }
  intros colorPalette Hpalette.
  apply (yields_bind (fun _ => True)); [apply inBounds_readData | intros data _].
  destruct (assemblePixels_spec hdr colorPalette data Hdepth Hpalette Hwidth Hheight Hfits)
    as [Heq | (pixels & Heq & Hlen)]; rewrite Heq; apply yields_lift; try discriminate.
  - intros a Ha. injection Ha as <-. now left.
  - intros a Ha. injection Ha as <-. right. cbn. auto.
Qed.

Lemma mapOutcome_Ret {A B} (P : B -> Prop) (f : A -> outcome B) (xs : list A) :
  Forall (fun x => exists y, f x = Ret y /\ P y) xs ->
  exists ys, BMIParser.mapOutcome f xs = Ret ys /\ length ys = length xs /\ Forall P ys.
Proof.
  induction 1 as [| x xs (y & Hy & HP) _ (ys & Hys & Hlen & Hall)]; cbn [BMIParser.mapOutcome].
  - exists []. repeat split. constructor.
  - exists (y :: ys). rewrite Hy, Hys. cbn. repeat split; [now rewrite Hlen | now constructor].
Qed.

Lemma Forall_indices (P : Z -> Prop) (n : Z) :
  (forall i, 0 <= i < n -> P i) -> Forall P (map Z.of_nat (seq 0 (Z.to_nat n))).
Proof.
  intros HP. apply List.Forall_forall. intros i Hi. apply in_map_iff in Hi as (k & <- & Hk).
  apply in_seq in Hk. apply HP. lia.
Qed.

(** The rows of [PNGWriter::writeData]: every pixel is there to be read. *)
Lemma pngRows_spec (bitmap transparencyBitmap : ColorBitmap) :
  0 <= bitmap_width bitmap < 2 ^ 16 -> 0 <= bitmap_height bitmap < 2 ^ 16 ->
  Z.of_nat (length (bitmap_data bitmap)) = bitmap_width bitmap * bitmap_height bitmap ->
  bitmap_data transparencyBitmap = [] \/
    Z.of_nat (length (bitmap_data transparencyBitmap))
    = bitmap_width bitmap * bitmap_height bitmap ->
  exists rows,
    BMIParser.mapOutcome (BMIParser.pngRow bitmap transparencyBitmap)
      (map Z.of_nat (seq 0 (Z.to_nat (bitmap_height bitmap)))) = Ret rows /\
    length rows = Z.to_nat (bitmap_height bitmap) /\
    Forall (fun row => Z.of_nat (length row) = 4 * bitmap_width bitmap) rows.
Proof.
  intros Hwidth Hheight Hdata Htransparency.
  destruct (mapOutcome_Ret (fun row => Z.of_nat (length row) = 4 * bitmap_width bitmap)
              (BMIParser.pngRow bitmap transparencyBitmap)
              (map Z.of_nat (seq 0 (Z.to_nat (bitmap_height bitmap)))))
    as (rows & Hrows & Hlen & Hall).
  - apply Forall_indices. intros r Hr. unfold BMIParser.pngRow.
    destruct (mapOutcome_Ret (fun pixel => length pixel = 4%nat)
                (fun c => BMIParser.pngPixel bitmap transparencyBitmap
                            (u32 (u32 (r * bitmap_width bitmap) + c)))
                (map Z.of_nat (seq 0 (Z.to_nat (bitmap_width bitmap)))))
      as (pixels & Hpixels & Hcount & Hfour).
    + apply Forall_indices. intros c Hc.
      assert (Hind : 0 <= r * bitmap_width bitmap + c
                     < bitmap_width bitmap * bitmap_height bitmap) by nia.
      rewrite (u32_small (r * bitmap_width bitmap)) by nia.
      rewrite u32_small by nia. unfold BMIParser.pngPixel.
      destruct (at_in_bounds (bitmap_data bitmap) (r * bitmap_width bitmap + c)) as [color ->];
        [lia |].
      cbn [andThen]. destruct (bitmap_data transparencyBitmap) as [| t0 ts] eqn:Ht.
      * eexists. split; reflexivity.
      * destruct Htransparency as [| Htransparency]; [discriminate |].
        destruct (at_in_bounds (t0 :: ts) (r * bitmap_width bitmap + c)) as [t ->]; [lia |].
        eexists. split; reflexivity.
    + rewrite Hpixels. cbn [andThen]. eexists. split; [reflexivity |].
      rewrite length_map, length_seq in Hcount.
      assert (Hsum : forall l : list (list Z),
                 Forall (fun pixel => length pixel = 4%nat) l ->
                 length (concat l) = (4 * length l)%nat).
      { induction 1 as [| pixel l Hp _ IH]; [reflexivity |].
        cbn [concat]. rewrite length_app, Hp, IH. cbn [length]. lia. }
      rewrite (Hsum _ Hfour), Hcount. lia.
  - exists rows. rewrite length_map, length_seq in Hlen. auto.
Qed.

(** The bitmaps of an image are decoded within their buffers.  For a colour
    bitmap header and, when there is one, a transparency bitmap header of the
    same width and height, both with a colour depth of 1, 4, 8 or 24, 16-bit
    dimensions and a height times line width that fits 32 bits: however
    [readImage] ends after the headers, it has not indexed the palette, the
    data or the pixels past their end; and the image it returns is the default
    (empty) one, or it has the header's width and height and is what libpng
    makes of height rows of 4 times width bytes. *)
Theorem decodeImage_stays_in_bounds (fuel : nat) (header : BMIHeader.t)
    (bitmapHeader : BMIParser.ColorBitmapHeader)
    (transparencyBitmapHeader : option BMIParser.ColorBitmapHeader)
    (s s' : S) (r : outcome (Image * BMIHeader.t)) :
  wellSized bitmapHeader ->
  (forall th, transparencyBitmapHeader = Some th ->
     wellSized th /\
     BMIParser.m_width th = BMIParser.m_width bitmapHeader /\
     BMIParser.m_height th = BMIParser.m_height bitmapHeader) ->
  BMIParser.decodeImage fuel header bitmapHeader transparencyBitmapHeader s = (r, s') ->
  r <> Halt OutOfBounds /\
  forall image header', r = Ret (image, header') ->
    image = Image_default \/
    (image_width image = BMIParser.m_width bitmapHeader /\
     image_height image = BMIParser.m_height bitmapHeader /\
     exists rows,
       length rows = Z.to_nat (BMIParser.m_height bitmapHeader) /\
       Forall (fun row => Z.of_nat (length row) = 4 * BMIParser.m_width bitmapHeader) rows /\
       png_encode (BMIParser.m_width bitmapHeader) (BMIParser.m_height bitmapHeader) rows
       = Some (image_data image)).
Proof.
  intros Hsized Htransparency H.
  set (P := fun result : Image * BMIHeader.t =>
              fst result = Image_default \/
              (image_width (fst result) = BMIParser.m_width bitmapHeader /\
               image_height (fst result) = BMIParser.m_height bitmapHeader /\
               exists rows,
                 length rows = Z.to_nat (BMIParser.m_height bitmapHeader) /\
                 Forall (fun row => Z.of_nat (length row) = 4 * BMIParser.m_width bitmapHeader)
                        rows /\
                 png_encode (BMIParser.m_width bitmapHeader)
                            (BMIParser.m_height bitmapHeader) rows
                 = Some (image_data (fst result)))).
  enough (Hyields : yields P (BMIParser.decodeImage fuel header bitmapHeader
                                transparencyBitmapHeader)).
  { destruct (Hyields _ _ _ H) as [Hh Hr]. split; [exact Hh |].
    intros image header' ->. exact (Hr _ eq_refl). }
  clear H. unfold BMIParser.decodeImage.
  apply (yields_bind (filled bitmapHeader)); [now apply readColorBitmap_yields |].
  intros bitmap Hbitmap.
  apply (yields_bind (fun t => bitmap_data t = [] \/
                               Z.of_nat (length (bitmap_data t))
                               = BMIParser.m_width bitmapHeader
                                 * BMIParser.m_height bitmapHeader)).
  { destruct transparencyBitmapHeader as [th |]; [| apply yields_ret; now left].
    destruct (Htransparency th eq_refl) as (Hth & Hw & Hh).
    eapply yields_weaken; [now apply readColorBitmap_yields |].
    intros t [-> | (_ & _ & Hlen)]; [now left | right]. now rewrite Hlen, Hw, Hh. }
  intros transparencyBitmap Ht.
  destruct Hbitmap as [-> | (Hw & Hh & Hlen)]; [apply yields_ret; now left |].
  destruct ((bitmap_width bitmap =? 0) || (bitmap_height bitmap =? 0));
    [apply yields_ret; now left |].
  destruct Hsized as (_ & Hwidth & Hheight & _).
  destruct (pngRows_spec bitmap transparencyBitmap) as (rows & Hrows & Hcount & Hall);
    try (rewrite ?Hw, ?Hh; assumption).
  unfold BMIParser.makePng. rewrite Hrows. cbn [andThen].
  apply (yields_bind (fun png => png = png_encode (bitmap_width bitmap)
                                         (bitmap_height bitmap) rows)).
  { apply yields_lift; [discriminate |]. intros a Ha. now injection Ha as <-. }
  intros png ->.
  destruct (png_encode (bitmap_width bitmap) (bitmap_height bitmap) rows) as [data |] eqn:Hpng;
    apply yields_ret; [right | now left].
  unfold P. cbn [fst image_width image_height image_data].
  rewrite <- Hw, <- Hh. repeat split. exists rows. auto.
Qed.

End StreamInBounds.

(** An inflater that takes a block as it is stored and a PNG writer that lays
    the rows end to end, to run the decoder on an example. *)
Definition storedBlocks : Externals := {|
  libm_atan2 := libm_atan2 (Externals := libm_on_axes);
  libm_cos := libm_cos (Externals := libm_on_axes);
  libm_sin := libm_sin (Externals := libm_on_axes);
  libm_hypot := libm_hypot (Externals := libm_on_axes);
  f32_div := f32_div (Externals := libm_on_axes);
  zlib_inflate block := Some block;
  png_encode _ _ rows := Some (concat rows);
  icu_utf16le_code_points _ := []
|}.

(** One data block of four bytes: a row of one pixel at 24 bits and its
    padding. *)
Definition onePixel : list Z := le16 4 ++ [0] ++ [10; 20; 30; 0].

Lemma decodeImage_stays_in_bounds_witness :
  let hdr := BMIParser.mkColorBitmapHeader 1 1 24 0 7 in
  let run := BMIParser.decodeImage (E := storedBlocks) 5 BMIHeader.new hdr None
               (memStream onePixel) in
  fst run = Ret (mkImage 1 1 [30; 20; 10; 255], BMIHeader.new) /\
  fst run <> Halt OutOfBounds.
Proof.
  intros hdr run. split; [vm_compute; reflexivity |].
  refine (proj1 (decodeImage_stays_in_bounds (E := storedBlocks) 5 BMIHeader.new hdr None
                   (memStream onePixel) (snd run) (fst run) _ _ _)).
  - unfold wellSized. cbn. repeat split; try lia; tauto.
  - intros th Hth. discriminate.
  - apply surjective_pairing.
Defined.
